(** * crm-backend: tenant-scoped CRUD routes over a relational store

    A shallow embedding of the Express routes of the repository
    (middleware/auth, routes/auth, routes/contacts, routes/leads,
    routes/tasks) together with the part of migrations/init.sql they
    rely on: the five tables, their NOT NULL, CHECK, UNIQUE, PRIMARY KEY
    and FOREIGN KEY constraints, the ON DELETE SET NULL action and the
    updated_at triggers.

    Conventions.
    - A JSON body field is a [js] value: [undefined] when the key is
      missing, [null], or a value.  The modules [Contacts], [Leads],
      [Tasks] and [AuthRoutes] are the routes on values that are of the
      type of their column (a UUID, an INTEGER, a DATE, a string within
      the VARCHAR bound).  The modules [ContactsApi], [LeadsApi],
      [TasksApi] and [AuthApi] are the same routes on the values a request
      carries: there the store reads a path id and a contact_id as UUID,
      a number as INTEGER, a text as VARCHAR(n) and a limit as BIGINT, and
      the query throws when it cannot.
    - SQL predicates are three valued ([sql_bool]); WHERE keeps the rows
      whose predicate is true, CHECK rejects the rows whose predicate is
      false.
    - A route is a computation in the monad [io]: it threads the store and
      may throw; statements are committed one by one (the routes open no
      transaction), and the try/catch of each route turns a throw into its
      500 response.
    - The clock, the UUID generator and the salt generator are inputs of
      the routes that use them.
    - ORDER BY is a stable insertion sort: rows that compare equal keep the
      order of the table, where the store promises no order at all. Text
      is compared byte by byte. *)

From Stdlib Require Import ZArith List String Ascii Bool Lia QArith Setoid.
From Stdlib Require Import Sorting.Sorted Sorting.Permutation.
Import ListNotations.

Local Open Scope string_scope.
Local Open Scope list_scope.
Local Open Scope Z_scope.

(* ================================================================= *)
(** ** Values *)

Definition uuid := string.
Definition timestamp := Z.
Definition date := Z.

(** Seconds since the epoch to days since the epoch (CURRENT_DATE). *)
Definition current_date (now : timestamp) : date := now / 86400.

(** A field of a JSON body or of a query string, as JavaScript sees it. *)
Inductive js (A : Type) : Type :=
| undefined
| null
| val (a : A).

Arguments undefined {A}.
Arguments null {A}.
Arguments val {A} a.

(** Destructuring default [{ x = d } = req.body]: only [undefined] takes it. *)
Definition default {A} (d : A) (x : js A) : js A :=
  match x with
  | undefined => val d
  | _ => x
  end.

(** The driver sends [undefined] and [null] as SQL NULL. *)
Definition param {A} (x : js A) : option A :=
  match x with
  | val a => Some a
  | _ => None
  end.

(** The text of a truthy string field: neither missing, nor null, nor
    empty. *)
Definition text (x : js string) : option string :=
  match x with
  | val s => if (s =? "")%string then None else Some s
  | _ => None
  end.

(** Truthiness of a string field: [if (x)], [!x]. *)
Definition truthy (x : js string) : bool :=
  match text x with
  | Some _ => true
  | None => false
  end.

(** [value || 0] on a numeric field. *)
Definition or_zero (x : js Z) : Z :=
  match x with
  | val n => if n =? 0 then 0 else n
  | _ => 0
  end.

(** [a || b] on string fields. *)
Definition or_else (a b : js string) : js string :=
  if truthy a then a else b.

(* ================================================================= *)
(** ** SQL three-valued logic *)

Definition sql_bool := option bool.

Definition sql_eq {A} (eqb : A -> A -> bool) (x y : option A) : sql_bool :=
  match x, y with
  | Some a, Some b => Some (eqb a b)
  | _, _ => None
  end.

Definition sql_and (p q : sql_bool) : sql_bool :=
  match p, q with
  | Some false, _ => Some false
  | _, Some false => Some false
  | Some true, Some true => Some true
  | _, _ => None
  end.

Definition sql_or (p q : sql_bool) : sql_bool :=
  match p, q with
  | Some true, _ => Some true
  | _, Some true => Some true
  | Some false, Some false => Some false
  | _, _ => None
  end.

(** WHERE keeps a row only when the predicate is true. *)
Definition holds (p : sql_bool) : bool :=
  match p with
  | Some true => true
  | _ => false
  end.

(** CHECK rejects a row only when the predicate is false. *)
Definition check (p : sql_bool) : bool :=
  match p with
  | Some false => false
  | _ => true
  end.

Definition str_eq (x y : option string) : sql_bool := sql_eq String.eqb x y.

(** [x IN (v1, ..., vn)] for non-null constants. *)
Definition sql_in (x : option string) (vs : list string) : sql_bool :=
  match x with
  | Some a => Some (existsb (String.eqb a) vs)
  | None => None
  end.

(* ================================================================= *)
(** ** Sorting and limiting (ORDER BY, LIMIT) *)

Fixpoint insert_by {A} (leb : A -> A -> bool) (x : A) (l : list A) : list A :=
  match l with
  | [] => [x]
  | y :: l' => if leb x y then x :: l else y :: insert_by leb x l'
  end.

Definition order_by {A} (leb : A -> A -> bool) (l : list A) : list A :=
  fold_right (insert_by leb) [] l.

(** Three-way comparison of nullable keys, ascending with NULLs last (the
    default of ASC). *)
Definition cmp_nulls_last {A} (cmp : A -> A -> comparison) (x y : option A)
  : comparison :=
  match x, y with
  | Some a, Some b => cmp a b
  | Some _, None => Lt
  | None, Some _ => Gt
  | None, None => Eq
  end.

(** Lexicographic chaining of comparisons. *)
Definition then_by (c1 c2 : comparison) : comparison :=
  match c1 with
  | Eq => c2
  | _ => c1
  end.

Definition not_after (c : comparison) : bool :=
  match c with
  | Gt => false
  | _ => true
  end.

(* ================================================================= *)
(** ** The schema (migrations/init.sql) *)

Module Company.
Record row := {
  id : uuid;
  name : string;
  plan : option string;
  settings : string;
  created_at : timestamp;
  updated_at : timestamp
}.
End Company.

Module User.
Record row := {
  id : uuid;
  email : string;
  password_hash : string;
  name : string;
  company_id : option uuid;
  role : option string;
  is_active : option bool;
  last_login : option timestamp;
  created_at : timestamp;
  updated_at : timestamp
}.
End User.

Module Contact.
Record row := {
  id : uuid;
  company_id : option uuid;
  name : string;
  email : option string;
  phone : option string;
  position : option string;
  company_name : option string;
  status : option string;
  value : option Z;
  notes : option string;
  last_contact : option date;
  tags : list string;
  created_at : timestamp;
  updated_at : timestamp
}.
End Contact.

Module Lead.
Record row := {
  id : uuid;
  company_id : option uuid;
  title : string;
  company_name : option string;
  contact_name : option string;
  value : option Z;
  stage : option string;
  probability : option Z;
  expected_close : option date;
  source : option string;
  notes : option string;
  tags : list string;
  created_at : timestamp;
  updated_at : timestamp
}.
End Lead.

Module Task.
Record row := {
  id : uuid;
  company_id : option uuid;
  contact_id : option uuid;
  title : string;
  description : option string;
  due_date : option date;
  priority : option string;
  status : option string;
  created_at : timestamp;
  updated_at : timestamp
}.
End Task.

(** The persisted store: one list of rows per table. *)
Record store := {
  companies : list Company.row;
  users : list User.row;
  contacts : list Contact.row;
  leads : list Lead.row;
  tasks : list Task.row
}.

Definition with_companies (s : store) (l : list Company.row) : store :=
  {| companies := l; users := users s; contacts := contacts s;
     leads := leads s; tasks := tasks s |}.

Definition with_users (s : store) (l : list User.row) : store :=
  {| companies := companies s; users := l; contacts := contacts s;
     leads := leads s; tasks := tasks s |}.

Definition with_contacts (s : store) (l : list Contact.row) : store :=
  {| companies := companies s; users := users s; contacts := l;
     leads := leads s; tasks := tasks s |}.

Definition with_leads (s : store) (l : list Lead.row) : store :=
  {| companies := companies s; users := users s; contacts := contacts s;
     leads := l; tasks := tasks s |}.

Definition with_tasks (s : store) (l : list Task.row) : store :=
  {| companies := companies s; users := users s; contacts := contacts s;
     leads := leads s; tasks := l |}.

(** Constraints shared by the tables. *)

(** PRIMARY KEY: the new id is not in the column yet. *)
Definition pk_free (id : uuid) (ids : list uuid) : bool :=
  negb (existsb (String.eqb id) ids).

(** REFERENCES: NULL, or a key present in the referenced column. *)
Definition fk_ok (ref : option uuid) (ids : list uuid) : bool :=
  match ref with
  | None => true
  | Some k => existsb (String.eqb k) ids
  end.

(** CHECK (probability >= 0 AND probability <= 100) *)
Definition probability_check (p : option Z) : bool :=
  check (sql_and (option_map (fun x => 0 <=? x) p)
                 (option_map (fun x => x <=? 100) p)).

(** CHECK (priority IN ('low', 'medium', 'high')) *)
Definition priority_check (p : option string) : bool :=
  check (sql_in p ["low"; "medium"; "high"]).

(** CHECK (status IN ('pending', 'in-progress', 'completed', 'cancelled')) *)
Definition status_check (p : option string) : bool :=
  check (sql_in p ["pending"; "in-progress"; "completed"; "cancelled"]).

(** [WHERE id = $1 AND company_id = $2], the scoping of every single-row
    statement. *)
Definition id_and_company (id : uuid) (company_id : option uuid)
  (row_id : uuid) (row_company : option uuid) : bool :=
  holds (sql_and (str_eq (Some row_id) (Some id))
                 (str_eq row_company company_id)).

(** [WHERE company_id = $1], the scoping of every listing. *)
Definition in_company (company_id : option uuid)
  (row_company : option uuid) : bool :=
  holds (str_eq row_company company_id).

(* ================================================================= *)
(** ** Routes as computations over the store *)

Inductive outcome (A : Type) : Type :=
| Done (a : A)
| Thrown.

Arguments Done {A} a.
Arguments Thrown {A}.

Definition io (A : Type) : Type := store -> outcome A * store.

Definition ret {A} (a : A) : io A := fun s => (Done a, s).

Definition throw {A} : io A := fun s => (Thrown, s).

Definition bind {A B} (m : io A) (k : A -> io B) : io B :=
  fun s =>
    match m s with
    | (Done a, s') => k a s'
    | (Thrown, s') => (Thrown, s')
    end.

Notation "x <- m ;; k" := (bind m (fun x => k))
  (at level 61, m at next level, right associativity).

(** [try { body } catch (error) { res.status(500).json(...) }] *)
Definition try_catch {A} (body : io A) (on_error : A) (s : store) : A * store :=
  match body s with
  | (Done a, s') => (a, s')
  | (Thrown, s') => (on_error, s')
  end.

(** Reading the store. *)
Definition query {A} (f : store -> A) : io A := fun s => (Done (f s), s).

(** A statement that may be rejected by a constraint: [None] throws and
    leaves the store as it was. *)
Definition statement {A} (f : store -> option (A * store)) : io A :=
  fun s =>
    match f s with
    | Some (a, s') => (Done a, s')
    | None => (Thrown, s)
    end.

(** An HTTP response: a status with a JSON body, or a status with
    [{ error: msg }]. *)
Inductive response (A : Type) : Type :=
| json (status : nat) (body : A)
| error (status : nat) (msg : string).

Arguments json {A} status body.
Arguments error {A} status msg.

Definition status_of {A} (r : response A) : nat :=
  match r with
  | json st _ => st
  | error st _ => st
  end.

(** The identity the auth middleware attaches to the request. *)
Module ReqUser.
Record t := {
  id : uuid;
  email : string;
  name : string;
  company_id : option uuid;
  role : option string
}.
End ReqUser.

(** The libraries the routes call: PostgreSQL's ILIKE, JavaScript's
    parseInt, bcryptjs and jsonwebtoken. *)
Class Env := {
  ilike : string -> string -> bool;
  parseInt : string -> option Z;
  bcrypt_hash : string -> string -> string;
  bcrypt_compare : string -> string -> bool;
  jwt_sign : uuid -> string -> timestamp -> string;
  jwt_verify : string -> string -> timestamp -> option (js uuid)
}.

(** [UPDATE ... SET ... WHERE p RETURNING *]: every row satisfying [p] is
    replaced by [set row]; a row rejected by a constraint ([set] gives
    [None]) aborts the statement. Returns the new table and the updated
    rows. *)
Fixpoint update_where {R} (p : R -> bool) (set : R -> option R)
  (rows : list R) : option (list R * list R) :=
  match rows with
  | [] => Some ([], [])
  | r :: rest =>
      match update_where p set rest with
      | None => None
      | Some (rest', returning) =>
          if p r then
            match set r with
            | Some r' => Some (r' :: rest', r' :: returning)
            | None => None
            end
          else Some (r :: rest', returning)
      end
  end.

(** [GROUP BY key]: the rows are dealt one by one to the group of their key;
    [same] compares keys the way GROUP BY does (two NULLs are the same
    key). *)
Fixpoint add_to_group {R K} (same : K -> K -> bool) (key : R -> K) (r : R)
  (groups : list (K * list R)) : list (K * list R) :=
  match groups with
  | [] => [(key r, [r])]
  | (k, rows) :: rest =>
      if same k (key r) then (k, rows ++ [r]) :: rest
      else (k, rows) :: add_to_group same key r rest
  end.

Definition group_by {R K} (same : K -> K -> bool) (key : R -> K)
  (rows : list R) : list (K * list R) :=
  fold_left (fun groups r => add_to_group same key r groups) rows [].

Definition same_text (a b : option string) : bool :=
  match a, b with
  | Some x, Some y => (x =? y)%string
  | None, None => true
  | _, _ => false
  end.

(** The aggregates skip NULLs and are NULL when nothing is left. AVG is
    the exact quotient, in lowest terms; the rounding of the store's
    numeric type is not modelled. *)
Definition non_null {A} (l : list (option A)) : list A :=
  flat_map (fun x => match x with Some a => [a] | None => [] end) l.

Definition total (l : list Z) : Z := fold_right Z.add 0 l.

Definition sql_sum (l : list (option Z)) : option Z :=
  match non_null l with
  | [] => None
  | vs => Some (total vs)
  end.

Definition sql_avg (l : list (option Z)) : option Q :=
  match non_null l with
  | [] => None
  | vs => Some (Qred (total vs # Pos.of_nat (List.length vs)))
  end.

(** [LIMIT n]: a negative count or a NaN is rejected by the store. *)
Definition limit_rows {A} (n : option Z) (rows : list A) : option (list A) :=
  match n with
  | Some k => if k <? 0 then None else Some (firstn (Z.to_nat k) rows)
  | None => None
  end.

(* ================================================================= *)
(** ** middleware/auth.js *)

Fixpoint skip (n : nat) (s : string) : string :=
  match n, s with
  | O, _ => s
  | S n', String _ s' => skip n' s'
  | S _, EmptyString => EmptyString
  end.

Fixpoint starts_with (pat s : string) : bool :=
  match pat, s with
  | EmptyString, _ => true
  | String a pat', String b s' => Ascii.eqb a b && starts_with pat' s'
  | String _ _, EmptyString => false
  end.

(** [s.replace(pat, rep)] with a string pattern: the first occurrence only. *)
Fixpoint replace (pat rep s : string) : string :=
  if starts_with pat s then (rep ++ skip (String.length pat) s)%string
  else
    match s with
    | EmptyString => EmptyString
    | String c s' => String c (replace pat rep s')
    end.

(** The two headers the middleware reads. *)
Record headers := {
  x_auth_token : js string;
  authorization : js string
}.

(** [req.header('Authorization')?.replace('Bearer ', '')] *)
Definition bearer (h : js string) : js string :=
  match h with
  | val s => val (replace "Bearer " "" s)
  | _ => undefined
  end.

Definition token_of (h : headers) : js string :=
  or_else (x_auth_token h) (bearer (authorization h)).

(** [process.env.JWT_SECRET || 'fallback-secret-key'] *)
Definition secret (JWT_SECRET : js string) : string :=
  match or_else JWT_SECRET (val "fallback-secret-key") with
  | val k => k
  | _ => "fallback-secret-key"
  end.

(** What the middleware does with the request: hand it to the route with
    [req.user] set, or answer it. *)
Inductive passage : Type :=
| next (user : ReqUser.t)
| denied (status : nat) (msg : string).

Definition req_user (u : User.row) : ReqUser.t :=
  {| ReqUser.id := User.id u; ReqUser.email := User.email u;
     ReqUser.name := User.name u; ReqUser.company_id := User.company_id u;
     ReqUser.role := User.role u |}.

(** [SELECT id, email, name, company_id, role FROM users WHERE id = $1] *)
Definition select_user_by_id (id : option uuid) : io (list ReqUser.t) :=
  query (fun s =>
    map req_user
      (filter (fun u => holds (str_eq (Some (User.id u)) id)) (users s))).

Definition auth_body `{Env} (JWT_SECRET : js string) (now : timestamp)
  (h : headers) : io passage :=
  let token := token_of h in
  if negb (truthy token) then
    ret (denied 401 "No token, authorization denied")
  else
    decoded <-
      match token with
      | val t =>
          match jwt_verify t (secret JWT_SECRET) now with
          | Some userId => ret userId
          | None => throw
          end
      | _ => throw
      end ;;
    userResult <- select_user_by_id (param decoded) ;;
    match userResult with
    | [] => ret (denied 401 "User not found")
    | user :: _ => ret (next user)
    end.

Definition auth `{Env} (JWT_SECRET : js string) (now : timestamp)
  (h : headers) : store -> passage * store :=
  try_catch (auth_body JWT_SECRET now h) (denied 401 "Token is not valid").

(** [router.verb(path, auth, handler)]: the handler runs only when the
    middleware calls [next]. *)
Definition protected `{Env} {A} (JWT_SECRET : js string) (now : timestamp)
  (h : headers) (handler : ReqUser.t -> store -> response A * store)
  (s : store) : response A * store :=
  match auth JWT_SECRET now h s with
  | (next user, s') => handler user s'
  | (denied status msg, s') => (error status msg, s')
  end.

(* ================================================================= *)
(** ** routes/auth.js *)

Module AuthRoutes.

Record registered := {
  r_token : string;
  r_id : uuid;
  r_email : string;
  r_name : string
}.

Record logged_in := {
  token : string;
  id : uuid;
  email : string;
  name : string;
  company_id : option uuid
}.

Record register_body := {
  rb_name : js string;
  rb_email : js string;
  rb_password : js string;
  rb_companyName : js string
}.

Record login_body := {
  lb_email : js string;
  lb_password : js string
}.

(** [SELECT ... FROM users WHERE email = $1] *)
Definition select_users_by_email (email : option string)
  : io (list User.row) :=
  query (fun s =>
    filter (fun u => holds (str_eq (Some (User.email u)) email)) (users s)).

(** [INSERT INTO companies (id, name) VALUES ($1, $2) RETURNING id] *)
Definition insert_company (now : timestamp) (id : uuid)
  (name : option string) : io uuid :=
  statement (fun s =>
    match name with
    | Some n =>
        if pk_free id (map Company.id (companies s)) then
          Some (id,
                with_companies s
                  (companies s ++
                   [{| Company.id := id; Company.name := n;
                       Company.plan := Some "basic";
                       Company.settings := "{}";
                       Company.created_at := now;
                       Company.updated_at := now |}]))
        else None
    | None => None
    end).

(** [INSERT INTO users (id, email, password_hash, name, company_id)
     VALUES ($1, $2, $3, $4, $5) RETURNING id, email, name] *)
Definition insert_user (now : timestamp) (id : uuid) (email : option string)
  (password_hash : option string) (name : option string)
  (company_id : option uuid) : io User.row :=
  statement (fun s =>
    match email, password_hash, name with
    | Some e, Some h, Some n =>
        if pk_free id (map User.id (users s))
           && negb (existsb (String.eqb e) (map User.email (users s)))
           && fk_ok company_id (map Company.id (companies s))
        then
          let u := {| User.id := id; User.email := e;
                      User.password_hash := h; User.name := n;
                      User.company_id := company_id;
                      User.role := Some "user";
                      User.is_active := Some true;
                      User.last_login := None;
                      User.created_at := now;
                      User.updated_at := now |} in
          Some (u, with_users s (users s ++ [u]))
        else None
    | _, _, _ => None
    end).

(** [bcrypt.hash(password, salt)] rejects a password that is not a string. *)
Definition hash_password `{Env} (password : js string) (salt : string)
  : io string :=
  match password with
  | val p => ret (bcrypt_hash p salt)
  | _ => throw
  end.

(** [bcrypt.compare(password, hash)] rejects a password that is not a
    string. *)
Definition compare_password `{Env} (password : js string) (hash : string)
  : io bool :=
  match password with
  | val p => ret (bcrypt_compare p hash)
  | _ => throw
  end.

(** POST /auth/register; [company_uuid] and [user_uuid] are the two results
    of [uuidv4()], [salt] the result of [bcrypt.genSalt(10)]. *)
Definition register_body_io `{Env} (JWT_SECRET : js string) (now : timestamp)
  (company_uuid user_uuid : uuid) (salt : string) (body : register_body)
  : io (response registered) :=
  existingUser <- select_users_by_email (param (rb_email body)) ;;
  if (0 <? List.length existingUser)%nat then
    ret (error 400 "User already exists")
  else
    companyId <- insert_company now company_uuid
                   (param (or_else (rb_companyName body) (val "My Company"))) ;;
    hashedPassword <- hash_password (rb_password body) salt ;;
    user <- insert_user now user_uuid (param (rb_email body))
              (Some hashedPassword) (param (rb_name body)) (Some companyId) ;;
    let token := jwt_sign (User.id user) (secret JWT_SECRET) now in
    ret (json 201 {| r_token := token; r_id := User.id user;
                     r_email := User.email user; r_name := User.name user |}).

Definition register `{Env} (JWT_SECRET : js string) (now : timestamp)
  (company_uuid user_uuid : uuid) (salt : string) (body : register_body)
  : store -> response registered * store :=
  try_catch (register_body_io JWT_SECRET now company_uuid user_uuid salt body)
            (error 500 "Server error during registration").

(** POST /auth/login *)
Definition login_body_io `{Env} (JWT_SECRET : js string) (now : timestamp)
  (body : login_body) : io (response logged_in) :=
  userResult <- select_users_by_email (param (lb_email body)) ;;
  match userResult with
  | [] => ret (error 400 "Invalid credentials")
  | user :: _ =>
      isValidPassword <-
        compare_password (lb_password body) (User.password_hash user) ;;
      if negb isValidPassword then
        ret (error 400 "Invalid credentials")
      else
        let token := jwt_sign (User.id user) (secret JWT_SECRET) now in
        ret (json 200 {| token := token; id := User.id user;
                         email := User.email user; name := User.name user;
                         company_id := User.company_id user |})
  end.

Definition login `{Env} (JWT_SECRET : js string) (now : timestamp)
  (body : login_body) : store -> response logged_in * store :=
  try_catch (login_body_io JWT_SECRET now body)
            (error 500 "Server error during login").

(** GET /auth/me *)
Definition me (user : ReqUser.t) (s : store) : response ReqUser.t * store :=
  (json 200 user, s).

End AuthRoutes.

(* ================================================================= *)
(** ** Clauses shared by the listings *)

Definition sql_ilike `{Env} (x : option string) (pattern : string) : sql_bool :=
  option_map (fun t => ilike t pattern) x.

(** [`%${search}%`] *)
Definition contains (search : string) : string := ("%" ++ search ++ "%")%string.

(** [parseInt(limit)] with [limit = 100] by default. *)
Definition parse_limit `{Env} (limit : js string) : option Z :=
  match limit with
  | undefined => Some 100
  | val l => parseInt l
  | null => None
  end.

(** [ORDER BY created_at DESC] *)
Definition newest_first (a b : timestamp) : bool := b <=? a.

(* ================================================================= *)
(** ** routes/contacts.js *)

Module Contacts.

Module Listed.
Record t := {
  id : uuid;
  name : string;
  email : option string;
  phone : option string;
  position : option string;
  company_name : option string;
  status : option string;
  value : option Z;
  notes : option string;
  last_contact : option date;
  created_at : timestamp;
  updated_at : timestamp
}.
End Listed.

Module Query.
Record t := {
  search : js string;
  status : js string;
  limit : js string
}.
End Query.

Module Body.
Record t := {
  name : js string;
  email : js string;
  phone : js string;
  position : js string;
  company_name : js string;
  value : js Z;
  notes : js string;
  status : js string
}.
End Body.

Definition listed (r : Contact.row) : Listed.t :=
  {| Listed.id := Contact.id r; Listed.name := Contact.name r;
     Listed.email := Contact.email r; Listed.phone := Contact.phone r;
     Listed.position := Contact.position r;
     Listed.company_name := Contact.company_name r;
     Listed.status := Contact.status r; Listed.value := Contact.value r;
     Listed.notes := Contact.notes r;
     Listed.last_contact := Contact.last_contact r;
     Listed.created_at := Contact.created_at r;
     Listed.updated_at := Contact.updated_at r |}.

(** The WHERE clause GET /contacts builds. *)
Definition list_where `{Env} (company_id : option uuid) (q : Query.t)
  (r : Contact.row) : sql_bool :=
  let w := str_eq (Contact.company_id r) company_id in
  let w :=
    match text (Query.search q) with
    | Some search =>
        sql_and w
          (sql_or (sql_or (sql_ilike (Some (Contact.name r)) (contains search))
                          (sql_ilike (Contact.email r) (contains search)))
                  (sql_ilike (Contact.company_name r) (contains search)))
    | None => w
    end in
  match text (Query.status q) with
  | Some status => sql_and w (str_eq (Contact.status r) (Some status))
  | None => w
  end.

Definition select_list `{Env} (company_id : option uuid) (q : Query.t)
  : io (list Listed.t) :=
  statement (fun s =>
    let rows := filter (fun r => holds (list_where company_id q r))
                       (contacts s) in
    let rows := order_by (fun a b => newest_first (Contact.created_at a)
                                                  (Contact.created_at b))
                         rows in
    match limit_rows (parse_limit (Query.limit q)) rows with
    | Some rows => Some (map listed rows, s)
    | None => None
    end).

(** GET /contacts *)
Definition get_all `{Env} (user : ReqUser.t) (q : Query.t)
  : store -> response (list Listed.t) * store :=
  try_catch
    (result <- select_list (ReqUser.company_id user) q ;;
     ret (json 200 result))
    (error 500 "Failed to fetch contacts").

Definition scoped (id : uuid) (company_id : option uuid) (r : Contact.row)
  : bool :=
  id_and_company id company_id (Contact.id r) (Contact.company_id r).

(** [SELECT * FROM contacts WHERE id = $1 AND company_id = $2] *)
Definition select_one (id : uuid) (company_id : option uuid)
  : io (list Contact.row) :=
  query (fun s => filter (scoped id company_id) (contacts s)).

(** GET /contacts/:id *)
Definition get_one (user : ReqUser.t) (id : uuid)
  : store -> response Contact.row * store :=
  try_catch
    (result <- select_one id (ReqUser.company_id user) ;;
     match result with
     | [] => ret (error 404 "Contact not found")
     | row :: _ => ret (json 200 row)
     end)
    (error 500 "Failed to fetch contact").

(** [INSERT INTO contacts (id, company_id, name, email, phone, position,
     company_name, value, notes, status, last_contact)
     VALUES ($1, ..., $10, CURRENT_DATE) RETURNING *] *)
Definition insert (now : timestamp) (id : uuid) (company_id : option uuid)
  (name email phone position company_name : option string) (value : option Z)
  (notes status : option string) : io Contact.row :=
  statement (fun s =>
    match name with
    | Some n =>
        if pk_free id (map Contact.id (contacts s))
           && fk_ok company_id (map Company.id (companies s))
        then
          let r := {| Contact.id := id; Contact.company_id := company_id;
                      Contact.name := n; Contact.email := email;
                      Contact.phone := phone; Contact.position := position;
                      Contact.company_name := company_name;
                      Contact.status := status; Contact.value := value;
                      Contact.notes := notes;
                      Contact.last_contact := Some (current_date now);
                      Contact.tags := [];
                      Contact.created_at := now;
                      Contact.updated_at := now |} in
          Some (r, with_contacts s (contacts s ++ [r]))
        else None
    | None => None
    end).

(** POST /contacts; [new_id] is the result of [uuidv4()]. *)
Definition post (now : timestamp) (new_id : uuid) (user : ReqUser.t)
  (body : Body.t) : store -> response Contact.row * store :=
  try_catch
    (if negb (truthy (Body.name body)) then
       ret (error 400 "Name is required")
     else
       row <- insert now new_id (ReqUser.company_id user)
                (param (Body.name body)) (param (Body.email body))
                (param (Body.phone body)) (param (Body.position body))
                (param (Body.company_name body))
                (Some (or_zero (Body.value body)))
                (param (Body.notes body))
                (param (default "prospect" (Body.status body))) ;;
       ret (json 201 row))
    (error 500 "Failed to create contact").

(** The SET list of PUT /contacts/:id, with the NOT NULL constraint of
    [name] and the updated_at trigger. *)
Definition set (now : timestamp) (body : Body.t) (r : Contact.row)
  : option Contact.row :=
  match param (Body.name body) with
  | Some n =>
      Some {| Contact.id := Contact.id r;
              Contact.company_id := Contact.company_id r;
              Contact.name := n;
              Contact.email := param (Body.email body);
              Contact.phone := param (Body.phone body);
              Contact.position := param (Body.position body);
              Contact.company_name := param (Body.company_name body);
              Contact.status := param (Body.status body);
              Contact.value := param (Body.value body);
              Contact.notes := param (Body.notes body);
              Contact.last_contact := Contact.last_contact r;
              Contact.tags := Contact.tags r;
              Contact.created_at := Contact.created_at r;
              Contact.updated_at := now |}
  | None => None
  end.

(** [UPDATE contacts SET ... WHERE id = $9 AND company_id = $10
     RETURNING *] *)
Definition update (now : timestamp) (id : uuid) (company_id : option uuid)
  (body : Body.t) : io (list Contact.row) :=
  statement (fun s =>
    match update_where (scoped id company_id) (set now body) (contacts s) with
    | Some (rows, returning) => Some (returning, with_contacts s rows)
    | None => None
    end).

(** PUT /contacts/:id *)
Definition put (now : timestamp) (user : ReqUser.t) (id : uuid)
  (body : Body.t) : store -> response Contact.row * store :=
  try_catch
    (result <- update now id (ReqUser.company_id user) body ;;
     match result with
     | [] => ret (error 404 "Contact not found")
     | row :: _ => ret (json 200 row)
     end)
    (error 500 "Failed to update contact").

(** ON DELETE SET NULL of tasks.contact_id, with the updated_at trigger of
    tasks. *)
Definition set_null (now : timestamp) (deleted : list uuid) (t : Task.row)
  : Task.row :=
  if holds (sql_in (Task.contact_id t) deleted) then
    {| Task.id := Task.id t; Task.company_id := Task.company_id t;
       Task.contact_id := None; Task.title := Task.title t;
       Task.description := Task.description t;
       Task.due_date := Task.due_date t; Task.priority := Task.priority t;
       Task.status := Task.status t; Task.created_at := Task.created_at t;
       Task.updated_at := now |}
  else t.

(** [DELETE FROM contacts WHERE id = $1 AND company_id = $2 RETURNING id] *)
Definition delete_from (now : timestamp) (id : uuid)
  (company_id : option uuid) : io (list uuid) :=
  statement (fun s =>
    let deleted := map Contact.id (filter (scoped id company_id) (contacts s)) in
    Some (deleted,
          {| companies := companies s; users := users s;
             contacts := filter (fun r => negb (scoped id company_id r))
                                (contacts s);
             leads := leads s;
             tasks := map (set_null now deleted) (tasks s) |})).

(** DELETE /contacts/:id *)
Definition delete (now : timestamp) (user : ReqUser.t) (id : uuid)
  : store -> response string * store :=
  try_catch
    (result <- delete_from now id (ReqUser.company_id user) ;;
     match result with
     | [] => ret (error 404 "Contact not found")
     | _ :: _ => ret (json 200 "Contact deleted successfully")
     end)
    (error 500 "Failed to delete contact").

End Contacts.

(* ================================================================= *)
(** ** routes/leads.js *)

Module Leads.

Module Listed.
Record t := {
  id : uuid;
  title : string;
  company_name : option string;
  contact_name : option string;
  value : option Z;
  stage : option string;
  probability : option Z;
  expected_close : option date;
  source : option string;
  notes : option string;
  created_at : timestamp;
  updated_at : timestamp
}.
End Listed.

Module Query.
Record t := {
  search : js string;
  stage : js string;
  limit : js string
}.
End Query.

Module Body.
Record t := {
  title : js string;
  company_name : js string;
  contact_name : js string;
  value : js Z;
  stage : js string;
  probability : js Z;
  expected_close : js date;
  source : js string;
  notes : js string
}.
End Body.

Module Pipeline.
Record t := {
  stage : option string;
  count : Z;
  total_value : option Z;
  avg_probability : option Q
}.
End Pipeline.

Definition listed (r : Lead.row) : Listed.t :=
  {| Listed.id := Lead.id r; Listed.title := Lead.title r;
     Listed.company_name := Lead.company_name r;
     Listed.contact_name := Lead.contact_name r;
     Listed.value := Lead.value r; Listed.stage := Lead.stage r;
     Listed.probability := Lead.probability r;
     Listed.expected_close := Lead.expected_close r;
     Listed.source := Lead.source r; Listed.notes := Lead.notes r;
     Listed.created_at := Lead.created_at r;
     Listed.updated_at := Lead.updated_at r |}.

(** The WHERE clause GET /leads builds. *)
Definition list_where `{Env} (company_id : option uuid) (q : Query.t)
  (r : Lead.row) : sql_bool :=
  let w := str_eq (Lead.company_id r) company_id in
  let w :=
    match text (Query.search q) with
    | Some search =>
        sql_and w
          (sql_or (sql_or (sql_ilike (Some (Lead.title r)) (contains search))
                          (sql_ilike (Lead.company_name r) (contains search)))
                  (sql_ilike (Lead.contact_name r) (contains search)))
    | None => w
    end in
  match text (Query.stage q) with
  | Some stage => sql_and w (str_eq (Lead.stage r) (Some stage))
  | None => w
  end.

Definition select_list `{Env} (company_id : option uuid) (q : Query.t)
  : io (list Listed.t) :=
  statement (fun s =>
    let rows := filter (fun r => holds (list_where company_id q r))
                       (leads s) in
    let rows := order_by (fun a b => newest_first (Lead.created_at a)
                                                  (Lead.created_at b))
                         rows in
    match limit_rows (parse_limit (Query.limit q)) rows with
    | Some rows => Some (map listed rows, s)
    | None => None
    end).

(** GET /leads *)
Definition get_all `{Env} (user : ReqUser.t) (q : Query.t)
  : store -> response (list Listed.t) * store :=
  try_catch
    (result <- select_list (ReqUser.company_id user) q ;;
     ret (json 200 result))
    (error 500 "Failed to fetch leads").

Definition scoped (id : uuid) (company_id : option uuid) (r : Lead.row)
  : bool :=
  id_and_company id company_id (Lead.id r) (Lead.company_id r).

(** [SELECT * FROM leads WHERE id = $1 AND company_id = $2] *)
Definition select_one (id : uuid) (company_id : option uuid)
  : io (list Lead.row) :=
  query (fun s => filter (scoped id company_id) (leads s)).

(** GET /leads/:id *)
Definition get_one (user : ReqUser.t) (id : uuid)
  : store -> response Lead.row * store :=
  try_catch
    (result <- select_one id (ReqUser.company_id user) ;;
     match result with
     | [] => ret (error 404 "Lead not found")
     | row :: _ => ret (json 200 row)
     end)
    (error 500 "Failed to fetch lead").

(** [INSERT INTO leads (id, company_id, title, company_name, contact_name,
     value, stage, probability, expected_close, source, notes)
     VALUES ($1, ..., $11) RETURNING *] *)
Definition insert (now : timestamp) (id : uuid) (company_id : option uuid)
  (title company_name contact_name : option string) (value : option Z)
  (stage : option string) (probability : option Z)
  (expected_close : option date) (source notes : option string)
  : io Lead.row :=
  statement (fun s =>
    match title with
    | Some t =>
        if pk_free id (map Lead.id (leads s))
           && fk_ok company_id (map Company.id (companies s))
           && probability_check probability
        then
          let r := {| Lead.id := id; Lead.company_id := company_id;
                      Lead.title := t; Lead.company_name := company_name;
                      Lead.contact_name := contact_name;
                      Lead.value := value; Lead.stage := stage;
                      Lead.probability := probability;
                      Lead.expected_close := expected_close;
                      Lead.source := source; Lead.notes := notes;
                      Lead.tags := [];
                      Lead.created_at := now;
                      Lead.updated_at := now |} in
          Some (r, with_leads s (leads s ++ [r]))
        else None
    | None => None
    end).

(** POST /leads; [new_id] is the result of [uuidv4()]. *)
Definition post (now : timestamp) (new_id : uuid) (user : ReqUser.t)
  (body : Body.t) : store -> response Lead.row * store :=
  try_catch
    (if negb (truthy (Body.title body)) then
       ret (error 400 "Title is required")
     else
       row <- insert now new_id (ReqUser.company_id user)
                (param (Body.title body)) (param (Body.company_name body))
                (param (Body.contact_name body))
                (Some (or_zero (Body.value body)))
                (param (default "lead" (Body.stage body)))
                (param (default 10 (Body.probability body)))
                (param (Body.expected_close body))
                (param (Body.source body)) (param (Body.notes body)) ;;
       ret (json 201 row))
    (error 500 "Failed to create lead").

(** The SET list of PUT /leads/:id, with the NOT NULL constraint of [title],
    the CHECK of [probability] and the updated_at trigger. *)
Definition set (now : timestamp) (body : Body.t) (r : Lead.row)
  : option Lead.row :=
  match param (Body.title body) with
  | Some t =>
      if probability_check (param (Body.probability body)) then
        Some {| Lead.id := Lead.id r;
                Lead.company_id := Lead.company_id r;
                Lead.title := t;
                Lead.company_name := param (Body.company_name body);
                Lead.contact_name := param (Body.contact_name body);
                Lead.value := param (Body.value body);
                Lead.stage := param (Body.stage body);
                Lead.probability := param (Body.probability body);
                Lead.expected_close := param (Body.expected_close body);
                Lead.source := param (Body.source body);
                Lead.notes := param (Body.notes body);
                Lead.tags := Lead.tags r;
                Lead.created_at := Lead.created_at r;
                Lead.updated_at := now |}
      else None
  | None => None
  end.

(** [UPDATE leads SET ... WHERE id = $10 AND company_id = $11 RETURNING *] *)
Definition update (now : timestamp) (id : uuid) (company_id : option uuid)
  (body : Body.t) : io (list Lead.row) :=
  statement (fun s =>
    match update_where (scoped id company_id) (set now body) (leads s) with
    | Some (rows, returning) => Some (returning, with_leads s rows)
    | None => None
    end).

(** PUT /leads/:id *)
Definition put (now : timestamp) (user : ReqUser.t) (id : uuid)
  (body : Body.t) : store -> response Lead.row * store :=
  try_catch
    (result <- update now id (ReqUser.company_id user) body ;;
     match result with
     | [] => ret (error 404 "Lead not found")
     | row :: _ => ret (json 200 row)
     end)
    (error 500 "Failed to update lead").

(** [DELETE FROM leads WHERE id = $1 AND company_id = $2 RETURNING id] *)
Definition delete_from (id : uuid) (company_id : option uuid)
  : io (list uuid) :=
  statement (fun s =>
    Some (map Lead.id (filter (scoped id company_id) (leads s)),
          with_leads s
            (filter (fun r => negb (scoped id company_id r)) (leads s)))).

(** DELETE /leads/:id *)
Definition delete (user : ReqUser.t) (id : uuid)
  : store -> response string * store :=
  try_catch
    (result <- delete_from id (ReqUser.company_id user) ;;
     match result with
     | [] => ret (error 404 "Lead not found")
     | _ :: _ => ret (json 200 "Lead deleted successfully")
     end)
    (error 500 "Failed to delete lead").

(** [CASE stage WHEN 'lead' THEN 1 ... ELSE 7 END] *)
Definition stage_rank (stage : option string) : Z :=
  match stage with
  | Some st =>
      if (st =? "lead")%string then 1
      else if (st =? "qualified")%string then 2
      else if (st =? "proposal")%string then 3
      else if (st =? "negotiation")%string then 4
      else if (st =? "closed-won")%string then 5
      else if (st =? "closed-lost")%string then 6
      else 7
  | None => 7
  end.

Definition aggregate (g : option string * list Lead.row) : Pipeline.t :=
  {| Pipeline.stage := fst g;
     Pipeline.count := Z.of_nat (List.length (snd g));
     Pipeline.total_value := sql_sum (map Lead.value (snd g));
     Pipeline.avg_probability := sql_avg (map Lead.probability (snd g)) |}.

(** [SELECT stage, COUNT( * ), SUM(value), AVG(probability) FROM leads
     WHERE company_id = $1 GROUP BY stage ORDER BY CASE stage ... END] *)
Definition select_pipeline (company_id : option uuid) : io (list Pipeline.t) :=
  query (fun s =>
    let rows := filter (fun r => in_company company_id (Lead.company_id r))
                       (leads s) in
    let groups := map aggregate (group_by same_text Lead.stage rows) in
    order_by (fun a b => stage_rank (Pipeline.stage a)
                         <=? stage_rank (Pipeline.stage b))
             groups).

(** GET /leads/stats/pipeline *)
Definition pipeline (user : ReqUser.t)
  : store -> response (list Pipeline.t) * store :=
  try_catch
    (result <- select_pipeline (ReqUser.company_id user) ;;
     ret (json 200 result))
    (error 500 "Failed to fetch pipeline statistics").

End Leads.

(* ================================================================= *)
(** ** routes/tasks.js *)

Module Tasks.

Module Listed.
Record t := {
  id : uuid;
  title : string;
  description : option string;
  due_date : option date;
  priority : option string;
  status : option string;
  contact_id : option uuid;
  created_at : timestamp;
  updated_at : timestamp;
  contact_name : option string
}.
End Listed.

Module Detailed.
Record t := {
  task : Task.row;
  contact_name : option string
}.
End Detailed.

Module Query.
Record t := {
  search : js string;
  status : js string;
  priority : js string;
  limit : js string
}.
End Query.

Module Body.
Record t := {
  title : js string;
  description : js string;
  due_date : js date;
  priority : js string;
  status : js string;
  contact_id : js uuid
}.
End Body.

Module Overview.
Record t := {
  status : option string;
  priority : option string;
  count : Z
}.
End Overview.

(** [FROM tasks t LEFT JOIN contacts c ON t.contact_id = c.id] *)
Definition left_join (ts : list Task.row) (cs : list Contact.row)
  : list (Task.row * option Contact.row) :=
  flat_map
    (fun t =>
       match filter (fun c => holds (str_eq (Task.contact_id t)
                                            (Some (Contact.id c)))) cs with
       | [] => [(t, None)]
       | matches => map (fun c => (t, Some c)) matches
       end)
    ts.

Definition listed (tc : Task.row * option Contact.row) : Listed.t :=
  let t := fst tc in
  {| Listed.id := Task.id t; Listed.title := Task.title t;
     Listed.description := Task.description t;
     Listed.due_date := Task.due_date t;
     Listed.priority := Task.priority t; Listed.status := Task.status t;
     Listed.contact_id := Task.contact_id t;
     Listed.created_at := Task.created_at t;
     Listed.updated_at := Task.updated_at t;
     Listed.contact_name := option_map Contact.name (snd tc) |}.

Definition detailed (tc : Task.row * option Contact.row) : Detailed.t :=
  {| Detailed.task := fst tc;
     Detailed.contact_name := option_map Contact.name (snd tc) |}.

(** The WHERE clause GET /tasks builds. *)
Definition list_where `{Env} (company_id : option uuid) (q : Query.t)
  (t : Task.row) : sql_bool :=
  let w := str_eq (Task.company_id t) company_id in
  let w :=
    match text (Query.search q) with
    | Some search =>
        sql_and w
          (sql_or (sql_ilike (Some (Task.title t)) (contains search))
                  (sql_ilike (Task.description t) (contains search)))
    | None => w
    end in
  let w :=
    match text (Query.status q) with
    | Some status => sql_and w (str_eq (Task.status t) (Some status))
    | None => w
    end in
  match text (Query.priority q) with
  | Some priority => sql_and w (str_eq (Task.priority t) (Some priority))
  | None => w
  end.

(** [CASE t.priority WHEN 'high' THEN 1 WHEN 'medium' THEN 2
     WHEN 'low' THEN 3 END]: NULL for anything else. *)
Definition priority_rank (priority : option string) : option Z :=
  match priority with
  | Some p =>
      if (p =? "high")%string then Some 1
      else if (p =? "medium")%string then Some 2
      else if (p =? "low")%string then Some 3
      else None
  | None => None
  end.

(** [ORDER BY CASE ... END, t.due_date ASC NULLS LAST, t.created_at DESC] *)
Definition list_order (a b : Task.row) : comparison :=
  then_by (cmp_nulls_last Z.compare (priority_rank (Task.priority a))
                                    (priority_rank (Task.priority b)))
    (then_by (cmp_nulls_last Z.compare (Task.due_date a) (Task.due_date b))
             (Z.compare (Task.created_at b) (Task.created_at a))).

Definition select_list `{Env} (company_id : option uuid) (q : Query.t)
  : io (list Listed.t) :=
  statement (fun s =>
    let rows := filter (fun tc => holds (list_where company_id q (fst tc)))
                       (left_join (tasks s) (contacts s)) in
    let rows := order_by (fun a b => not_after (list_order (fst a) (fst b)))
                         rows in
    match limit_rows (parse_limit (Query.limit q)) rows with
    | Some rows => Some (map listed rows, s)
    | None => None
    end).

(** GET /tasks *)
Definition get_all `{Env} (user : ReqUser.t) (q : Query.t)
  : store -> response (list Listed.t) * store :=
  try_catch
    (result <- select_list (ReqUser.company_id user) q ;;
     ret (json 200 result))
    (error 500 "Failed to fetch tasks").

Definition scoped (id : uuid) (company_id : option uuid) (t : Task.row)
  : bool :=
  id_and_company id company_id (Task.id t) (Task.company_id t).

(** [SELECT t.*, c.name as contact_name FROM tasks t
     LEFT JOIN contacts c ON t.contact_id = c.id
     WHERE t.id = $1 AND t.company_id = $2] *)
Definition select_one (id : uuid) (company_id : option uuid)
  : io (list Detailed.t) :=
  query (fun s =>
    map detailed
      (filter (fun tc => scoped id company_id (fst tc))
              (left_join (tasks s) (contacts s)))).

(** GET /tasks/:id *)
Definition get_one (user : ReqUser.t) (id : uuid)
  : store -> response Detailed.t * store :=
  try_catch
    (result <- select_one id (ReqUser.company_id user) ;;
     match result with
     | [] => ret (error 404 "Task not found")
     | row :: _ => ret (json 200 row)
     end)
    (error 500 "Failed to fetch task").

(** [SELECT id FROM contacts WHERE id = $1 AND company_id = $2] *)
Definition contact_check (contact_id : option uuid)
  (company_id : option uuid) : io (list uuid) :=
  query (fun s =>
    map Contact.id
      (filter (fun c => holds (sql_and (str_eq (Some (Contact.id c)) contact_id)
                                       (str_eq (Contact.company_id c)
                                               company_id)))
              (contacts s))).

(** "Verify contact belongs to same company if provided": the check is
    skipped for a falsy [contact_id] and fails when the query finds no row. *)
Definition verify_contact (contact_id : js uuid) (company_id : option uuid)
  : io bool :=
  if truthy contact_id then
    contactCheck <- contact_check (param contact_id) company_id ;;
    ret (negb (List.length contactCheck =? 0)%nat)
  else ret true.

(** [INSERT INTO tasks (id, company_id, title, description, due_date,
     priority, status, contact_id) VALUES ($1, ..., $8) RETURNING *] *)
Definition insert (now : timestamp) (id : uuid) (company_id : option uuid)
  (title description : option string) (due_date : option date)
  (priority status : option string) (contact_id : option uuid)
  : io Task.row :=
  statement (fun s =>
    match title with
    | Some ti =>
        if pk_free id (map Task.id (tasks s))
           && fk_ok company_id (map Company.id (companies s))
           && fk_ok contact_id (map Contact.id (contacts s))
           && priority_check priority
           && status_check status
        then
          let r := {| Task.id := id; Task.company_id := company_id;
                      Task.contact_id := contact_id; Task.title := ti;
                      Task.description := description;
                      Task.due_date := due_date;
                      Task.priority := priority; Task.status := status;
                      Task.created_at := now;
                      Task.updated_at := now |} in
          Some (r, with_tasks s (tasks s ++ [r]))
        else None
    | None => None
    end).

(** POST /tasks; [new_id] is the result of [uuidv4()]. *)
Definition post (now : timestamp) (new_id : uuid) (user : ReqUser.t)
  (body : Body.t) : store -> response Task.row * store :=
  try_catch
    (if negb (truthy (Body.title body)) then
       ret (error 400 "Title is required")
     else
       verified <- verify_contact (Body.contact_id body)
                                  (ReqUser.company_id user) ;;
       if negb verified then
         ret (error 400 "Invalid contact ID")
       else
         row <- insert now new_id (ReqUser.company_id user)
                  (param (Body.title body)) (param (Body.description body))
                  (param (Body.due_date body))
                  (param (default "medium" (Body.priority body)))
                  (param (default "pending" (Body.status body)))
                  (param (Body.contact_id body)) ;;
         ret (json 201 row))
    (error 500 "Failed to create task").

(** The SET list of PUT /tasks/:id, with the NOT NULL constraint of [title],
    the CHECKs of [priority] and [status], the foreign key of [contact_id]
    (against the ids [contact_ids] of the contacts table) and the
    updated_at trigger. *)
Definition set (now : timestamp) (body : Body.t) (contact_ids : list uuid)
  (t : Task.row) : option Task.row :=
  match param (Body.title body) with
  | Some ti =>
      if fk_ok (param (Body.contact_id body)) contact_ids
         && priority_check (param (Body.priority body))
         && status_check (param (Body.status body))
      then
        Some {| Task.id := Task.id t;
                Task.company_id := Task.company_id t;
                Task.contact_id := param (Body.contact_id body);
                Task.title := ti;
                Task.description := param (Body.description body);
                Task.due_date := param (Body.due_date body);
                Task.priority := param (Body.priority body);
                Task.status := param (Body.status body);
                Task.created_at := Task.created_at t;
                Task.updated_at := now |}
      else None
  | None => None
  end.

(** [UPDATE tasks SET ... WHERE id = $7 AND company_id = $8 RETURNING *] *)
Definition update (now : timestamp) (id : uuid) (company_id : option uuid)
  (body : Body.t) : io (list Task.row) :=
  statement (fun s =>
    match update_where (scoped id company_id)
            (set now body (map Contact.id (contacts s))) (tasks s) with
    | Some (rows, returning) => Some (returning, with_tasks s rows)
    | None => None
    end).

(** PUT /tasks/:id *)
Definition put (now : timestamp) (user : ReqUser.t) (id : uuid)
  (body : Body.t) : store -> response Task.row * store :=
  try_catch
    (verified <- verify_contact (Body.contact_id body)
                                (ReqUser.company_id user) ;;
     if negb verified then
       ret (error 400 "Invalid contact ID")
     else
       result <- update now id (ReqUser.company_id user) body ;;
       match result with
       | [] => ret (error 404 "Task not found")
       | row :: _ => ret (json 200 row)
       end)
    (error 500 "Failed to update task").

(** [DELETE FROM tasks WHERE id = $1 AND company_id = $2 RETURNING id] *)
Definition delete_from (id : uuid) (company_id : option uuid)
  : io (list uuid) :=
  statement (fun s =>
    Some (map Task.id (filter (scoped id company_id) (tasks s)),
          with_tasks s
            (filter (fun t => negb (scoped id company_id t)) (tasks s)))).

(** DELETE /tasks/:id *)
Definition delete (user : ReqUser.t) (id : uuid)
  : store -> response string * store :=
  try_catch
    (result <- delete_from id (ReqUser.company_id user) ;;
     match result with
     | [] => ret (error 404 "Task not found")
     | _ :: _ => ret (json 200 "Task deleted successfully")
     end)
    (error 500 "Failed to delete task").

Definition same_key (a b : option string * option string) : bool :=
  same_text (fst a) (fst b) && same_text (snd a) (snd b).

Definition key (t : Task.row) : option string * option string :=
  (Task.status t, Task.priority t).

Definition count_group (g : (option string * option string) * list Task.row)
  : Overview.t :=
  {| Overview.status := fst (fst g); Overview.priority := snd (fst g);
     Overview.count := Z.of_nat (List.length (snd g)) |}.

(** [ORDER BY status, priority] *)
Definition overview_order (a b : Overview.t) : comparison :=
  then_by (cmp_nulls_last String.compare (Overview.status a)
                                         (Overview.status b))
          (cmp_nulls_last String.compare (Overview.priority a)
                                         (Overview.priority b)).

(** [SELECT status, priority, COUNT( * ) as count FROM tasks
     WHERE company_id = $1 GROUP BY status, priority
     ORDER BY status, priority] *)
Definition select_overview (company_id : option uuid)
  : io (list Overview.t) :=
  query (fun s =>
    let rows := filter (fun t => in_company company_id (Task.company_id t))
                       (tasks s) in
    let groups := map count_group (group_by same_key key rows) in
    order_by (fun a b => not_after (overview_order a b)) groups).

(** GET /tasks/stats/overview *)
Definition overview (user : ReqUser.t)
  : store -> response (list Overview.t) * store :=
  try_catch
    (result <- select_overview (ReqUser.company_id user) ;;
     ret (json 200 result))
    (error 500 "Failed to fetch task statistics").

End Tasks.

(* ================================================================= *)
(** ** Sample data: the demo rows of init.sql and toy libraries *)

Module Sample.

Definition company_id : uuid := "123e4567-e89b-12d3-a456-426614174000".

Definition migrated : timestamp := 1704067200.

Definition demo_company : Company.row :=
  {| Company.id := company_id; Company.name := "Demo Company";
     Company.plan := Some "basic"; Company.settings := "{}";
     Company.created_at := migrated; Company.updated_at := migrated |}.

Definition other_company : Company.row :=
  {| Company.id := "9f000000-0000-4000-8000-000000000000";
     Company.name := "Other Company";
     Company.plan := Some "basic"; Company.settings := "{}";
     Company.created_at := migrated; Company.updated_at := migrated |}.

Definition demo_user : User.row :=
  {| User.id := "123e4567-e89b-12d3-a456-426614174001";
     User.email := "demo@example.com";
     User.password_hash :=
       "$2a$10$92IXUNpkjO0rOQ5byMi.Ye4oKoEa3Ro9llC/.og/at2.uheWG/igi";
     User.name := "Demo User"; User.company_id := Some company_id;
     User.role := Some "admin"; User.is_active := Some true;
     User.last_login := None;
     User.created_at := migrated; User.updated_at := migrated |}.

Definition other_user : User.row :=
  {| User.id := "9f000000-0000-4000-8000-000000000001";
     User.email := "other@example.com";
     User.password_hash := "$2a$10$other";
     User.name := "Other User";
     User.company_id := Some "9f000000-0000-4000-8000-000000000000";
     User.role := Some "user"; User.is_active := Some true;
     User.last_login := None;
     User.created_at := migrated; User.updated_at := migrated |}.

Definition john : Contact.row :=
  {| Contact.id := "c1111111-1111-1111-1111-111111111111";
     Contact.company_id := Some company_id; Contact.name := "John Smith";
     Contact.email := Some "john@acmecorp.com";
     Contact.phone := Some "+1-555-123-4567";
     Contact.position := Some "CEO";
     Contact.company_name := Some "Acme Corp";
     Contact.status := Some "active"; Contact.value := Some 50000;
     Contact.notes := Some "Key decision maker";
     Contact.last_contact := Some 19723; Contact.tags := [];
     Contact.created_at := migrated; Contact.updated_at := migrated |}.

Definition sarah : Contact.row :=
  {| Contact.id := "c2222222-2222-2222-2222-222222222222";
     Contact.company_id := Some company_id; Contact.name := "Sarah Johnson";
     Contact.email := Some "sarah@techstart.com";
     Contact.phone := Some "+1-555-987-6543";
     Contact.position := Some "CTO";
     Contact.company_name := Some "TechStart Inc";
     Contact.status := Some "prospect"; Contact.value := Some 25000;
     Contact.notes := Some "Technical evaluation";
     Contact.last_contact := Some 19723; Contact.tags := [];
     Contact.created_at := migrated; Contact.updated_at := migrated |}.

Definition enterprise : Lead.row :=
  {| Lead.id := "a1111111-1111-1111-1111-111111111111";
     Lead.company_id := Some company_id;
     Lead.title := "Enterprise Software Deal";
     Lead.company_name := Some "Global Industries";
     Lead.contact_name := Some "Mike Wilson"; Lead.value := Some 75000;
     Lead.stage := Some "negotiation"; Lead.probability := Some 70;
     Lead.expected_close := Some 19768; Lead.source := Some "Website";
     Lead.notes := Some "Large enterprise deal"; Lead.tags := [];
     Lead.created_at := migrated; Lead.updated_at := migrated |}.

Definition bakery : Lead.row :=
  {| Lead.id := "a2222222-2222-2222-2222-222222222222";
     Lead.company_id := Some company_id;
     Lead.title := "Small Business Package";
     Lead.company_name := Some "Local Bakery";
     Lead.contact_name := Some "Lisa Chen"; Lead.value := Some 5000;
     Lead.stage := Some "proposal"; Lead.probability := Some 50;
     Lead.expected_close := Some 19752; Lead.source := Some "Referral";
     Lead.notes := Some "Budget conscious client"; Lead.tags := [];
     Lead.created_at := migrated; Lead.updated_at := migrated |}.

Definition follow_up : Task.row :=
  {| Task.id := "b1111111-1111-1111-1111-111111111111";
     Task.company_id := Some company_id;
     Task.contact_id := Some "c1111111-1111-1111-1111-111111111111";
     Task.title := "Follow up with John Smith";
     Task.description := Some "Send proposal for enterprise package";
     Task.due_date := Some 19742; Task.priority := Some "high";
     Task.status := Some "pending";
     Task.created_at := migrated; Task.updated_at := migrated |}.

Definition demo : Task.row :=
  {| Task.id := "b2222222-2222-2222-2222-222222222222";
     Task.company_id := Some company_id;
     Task.contact_id := Some "c2222222-2222-2222-2222-222222222222";
     Task.title := "Technical demo for TechStart";
     Task.description := Some "Schedule product demonstration";
     Task.due_date := Some 19740; Task.priority := Some "medium";
     Task.status := Some "pending";
     Task.created_at := migrated; Task.updated_at := migrated |}.

(** The store after the migration, with a second tenant registered. The
    seeds of init.sql write the ids of the two leads and the two tasks
    with a leading [l] and [t], which are not hexadecimal digits; here [a]
    and [b] stand in their place, so that the ids are UUIDs. *)
Definition db : store :=
  {| companies := [demo_company; other_company];
     users := [demo_user; other_user];
     contacts := [john; sarah];
     leads := [enterprise; bakery];
     tasks := [follow_up; demo] |}.

(** Three tasks of priorities low, high and medium, due the same day. *)
Definition chore (id priority : string) : Task.row :=
  {| Task.id := id; Task.company_id := Some company_id;
     Task.contact_id := None; Task.title := "Chore";
     Task.description := None; Task.due_date := Some 19742;
     Task.priority := Some priority; Task.status := Some "pending";
     Task.created_at := migrated; Task.updated_at := migrated |}.

Definition chores : store :=
  {| companies := [demo_company]; users := [demo_user]; contacts := [john];
     leads := [];
     tasks := [chore "7a000000-0000-4000-8000-000000000001" "low";
               chore "7a000000-0000-4000-8000-000000000002" "high";
               chore "7a000000-0000-4000-8000-000000000003" "medium"] |}.

(** The callers the middleware resolves for the two users. *)
Definition caller : ReqUser.t := req_user demo_user.

Definition outsider : ReqUser.t := req_user other_user.

(** Toy stand-ins for the libraries, enough to run the routes. *)
Definition toy_ilike (t pattern : string) : bool :=
  (pattern =? contains t)%string.

Definition toy_parseInt (s : string) : option Z :=
  if (s =? "2")%string then Some 2
  else if (s =? "-1")%string then Some (-1)
  else None.

Definition toy_hash (password salt : string) : string :=
  (salt ++ password)%string.

Definition toy_compare (password hash : string) : bool :=
  (skip 4 hash =? password)%string.

Definition toy_sign (userId key : string) (iat : timestamp) : string :=
  (key ++ ":" ++ userId)%string.

Definition toy_verify (token key : string) (at_ : timestamp)
  : option (js uuid) :=
  if String.prefix (key ++ ":") token
  then Some (val (skip (S (String.length key)) token))
  else None.

#[export] Instance toy : Env :=
  {| ilike := toy_ilike; parseInt := toy_parseInt;
     bcrypt_hash := toy_hash; bcrypt_compare := toy_compare;
     jwt_sign := toy_sign; jwt_verify := toy_verify |}.

End Sample.


(** Requests used to run the routes on the sample store. *)
Module Requests.

Definition noon : timestamp := 1704110400.

Definition john_id : uuid := "c1111111-1111-1111-1111-111111111111".

Definition follow_up_id : uuid := "b1111111-1111-1111-1111-111111111111".

(** PUT /contacts/:id with [{ name: 'John A. Smith' }]. *)
Definition rename_john : Contacts.Body.t :=
  {| Contacts.Body.name := val "John A. Smith";
     Contacts.Body.email := undefined; Contacts.Body.phone := undefined;
     Contacts.Body.position := undefined;
     Contacts.Body.company_name := undefined;
     Contacts.Body.value := undefined; Contacts.Body.notes := undefined;
     Contacts.Body.status := undefined |}.

(** PUT /contacts/:id with [{ email: 'john@example.com' }]: no name. *)
Definition email_only : Contacts.Body.t :=
  {| Contacts.Body.name := undefined;
     Contacts.Body.email := val "john@example.com";
     Contacts.Body.phone := undefined;
     Contacts.Body.position := undefined;
     Contacts.Body.company_name := undefined;
     Contacts.Body.value := undefined; Contacts.Body.notes := undefined;
     Contacts.Body.status := undefined |}.

(** POST /leads with [{ title: 'Big deal', probability: p }]. *)
Definition big_deal (p : js Z) : Leads.Body.t :=
  {| Leads.Body.title := val "Big deal";
     Leads.Body.company_name := undefined;
     Leads.Body.contact_name := undefined;
     Leads.Body.value := undefined; Leads.Body.stage := undefined;
     Leads.Body.probability := p;
     Leads.Body.expected_close := undefined;
     Leads.Body.source := undefined; Leads.Body.notes := undefined |}.

(** POST or PUT /tasks with [{ title: 'Call back', contact_id: c }]. *)
Definition call_back (c : js uuid) : Tasks.Body.t :=
  {| Tasks.Body.title := val "Call back";
     Tasks.Body.description := undefined; Tasks.Body.due_date := undefined;
     Tasks.Body.priority := undefined; Tasks.Body.status := undefined;
     Tasks.Body.contact_id := c |}.

(** POST /tasks with [{ title: 'Call back', priority: 'urgent' }]. *)
Definition urgent_call : Tasks.Body.t :=
  {| Tasks.Body.title := val "Call back";
     Tasks.Body.description := undefined; Tasks.Body.due_date := undefined;
     Tasks.Body.priority := val "urgent"; Tasks.Body.status := undefined;
     Tasks.Body.contact_id := undefined |}.

Definition no_filter : Tasks.Query.t :=
  {| Tasks.Query.search := undefined; Tasks.Query.status := undefined;
     Tasks.Query.priority := undefined; Tasks.Query.limit := undefined |}.

Definition register_new : AuthRoutes.register_body :=
  {| AuthRoutes.rb_name := val "New User";
     AuthRoutes.rb_email := val "new@example.com";
     AuthRoutes.rb_password := val "secret";
     AuthRoutes.rb_companyName := undefined |}.

Definition register_again : AuthRoutes.register_body :=
  {| AuthRoutes.rb_name := val "Demo Two";
     AuthRoutes.rb_email := val "demo@example.com";
     AuthRoutes.rb_password := val "secret";
     AuthRoutes.rb_companyName := undefined |}.

Definition unknown_email : AuthRoutes.login_body :=
  {| AuthRoutes.lb_email := val "nobody@example.com";
     AuthRoutes.lb_password := val "password" |}.

Definition wrong_password : AuthRoutes.login_body :=
  {| AuthRoutes.lb_email := val "demo@example.com";
     AuthRoutes.lb_password := val "letmein" |}.

End Requests.

(* ================================================================= *)
(** ** The types of the columns *)

(** The routes above run their statements on parameters that are already
    of the types init.sql gives the columns. A request carries texts and
    numbers: [pool.query(text, values)] has the store read every value as
    the type of its parameter before the statement runs, whether a row
    matches or not, and throws when a value is not of that type. This
    part models that step: the input conversions of UUID, INTEGER, BIGINT
    and VARCHAR(n), and each route with the values of the request. A
    payload is still a record of texts, integers and dates: a text is a
    sequence of characters the store can hold, one byte each, and a date
    is a DATE. *)

Module Pg.

(** A hexadecimal digit, in lower case. *)
Definition hex (c : ascii) : option ascii :=
  let n := N_of_ascii c in
  if ((48 <=? n) && (n <=? 57))%N then Some c
  else if ((97 <=? n) && (n <=? 102))%N then Some c
  else if ((65 <=? n) && (n <=? 70))%N then Some (ascii_of_N (n + 32))
  else None.

(** The bytes of a UUID text, two digits each; a hyphen may follow every
    second byte but the last. [i] counts the bytes read so far. The result
    is the digits in lower case and the rest of the text. *)
Fixpoint bytes (todo i : nat) (s : string) : option (string * string) :=
  match todo with
  | O => Some (EmptyString, s)
  | S todo' =>
      match s with
      | String a (String b rest) =>
          match hex a, hex b with
          | Some a', Some b' =>
              let rest :=
                match rest with
                | String "-" rest' =>
                    if Nat.odd i && (i <? 15)%nat then rest' else rest
                | _ => rest
                end in
              match bytes todo' (S i) rest with
              | Some (digits, others) =>
                  Some (String a' (String b' digits), others)
              | None => None
              end
          | _, _ => None
          end
      | _ => None
      end
  end.

(** The text the store prints for a UUID: 8-4-4-4-12 digits. *)
Definition printed (digits : string) : uuid :=
  (String.substring 0 8 digits ++ "-" ++ String.substring 8 4 digits ++ "-"
   ++ String.substring 12 4 digits ++ "-" ++ String.substring 16 4 digits
   ++ "-" ++ String.substring 20 12 digits)%string.

(** Input of the type UUID: thirty-two hexadecimal digits in either case,
    with optional hyphens between groups of four and optional braces
    around; the value is written the way the store prints it. *)
Definition uuid_in (s : string) : option uuid :=
  let braces := match s with String "{" _ => true | _ => false end in
  let inner := match s with String "{" rest => rest | _ => s end in
  match bytes 16 0 inner with
  | Some (digits, others) =>
      let tail :=
        if braces then
          match others with
          | String "}" rest => Some rest
          | _ => None
          end
        else Some others in
      match tail with
      | Some EmptyString => Some (printed digits)
      | _ => None
      end
  | None => None
  end.

(** INTEGER is 32 bits wide, BIGINT 64. *)
Definition int4 (v : Z) : bool :=
  (-2147483648 <=? v) && (v <=? 2147483647).

Definition int8 (v : Z) : bool :=
  (-9223372036854775808 <=? v) && (v <=? 9223372036854775807).

Fixpoint blank (s : string) : bool :=
  match s with
  | EmptyString => true
  | String c s' => (c =? " ")%char && blank s'
  end.

(** A text stored in a VARCHAR(n) column: as it is when it has at most [n]
    characters, cut to [n] characters when only spaces exceed them, and
    refused otherwise. *)
Definition varchar (n : nat) (s : string) : option string :=
  if blank (skip n s) then Some (String.substring 0 n s) else None.

(** Parameters that may be missing: [undefined] and [null] are sent as
    NULL, which is of every type. *)
Definition uuid_for (x : js string) : option (js uuid) :=
  match x with
  | val s => option_map val (uuid_in s)
  | undefined => Some undefined
  | null => Some null
  end.

Definition integer_for (x : js Z) : option (js Z) :=
  match x with
  | val v => if int4 v then Some x else None
  | _ => Some x
  end.

Definition text_for (n : nat) (x : js string) : option (js string) :=
  match x with
  | val s => option_map val (varchar n s)
  | undefined => Some undefined
  | null => Some null
  end.

(** The count of a LIMIT clause is a BIGINT; NaN is not one. *)
Definition count_for (n : option Z) : option Z :=
  match n with
  | Some v => if int8 v then Some v else None
  | None => None
  end.

End Pg.

(** [pool.query(text, values)] once the values are read: the statement
    runs on them, or the query throws when one of them was refused. *)
Definition bound {A B} (values : option A) (run : A -> io B) : io B :=
  match values with
  | Some v => run v
  | None => throw
  end.

Definition and_then {A B} (m : option A) (k : A -> option B) : option B :=
  match m with
  | Some a => k a
  | None => None
  end.

Notation "x <-? m ; k" := (and_then m (fun x => k))
  (at level 61, m at next level, right associativity).

(* ================================================================= *)
(** ** routes/contacts.js, with the values of the request *)

Module ContactsApi.

(** The fields of a payload as the columns of contacts read them: name
    VARCHAR(255), email VARCHAR(255), phone VARCHAR(50), position
    VARCHAR(255), company_name VARCHAR(255), value INTEGER, notes TEXT,
    status VARCHAR(50). *)
Definition bind (body : Contacts.Body.t) : option Contacts.Body.t :=
  name <-? Pg.text_for 255 (Contacts.Body.name body) ;
  email <-? Pg.text_for 255 (Contacts.Body.email body) ;
  phone <-? Pg.text_for 50 (Contacts.Body.phone body) ;
  position <-? Pg.text_for 255 (Contacts.Body.position body) ;
  company_name <-? Pg.text_for 255 (Contacts.Body.company_name body) ;
  value <-? Pg.integer_for (Contacts.Body.value body) ;
  status <-? Pg.text_for 50 (Contacts.Body.status body) ;
  Some {| Contacts.Body.name := name; Contacts.Body.email := email;
          Contacts.Body.phone := phone; Contacts.Body.position := position;
          Contacts.Body.company_name := company_name;
          Contacts.Body.value := value;
          Contacts.Body.notes := Contacts.Body.notes body;
          Contacts.Body.status := status |}.

(** GET /contacts *)
Definition get_all `{Env} (user : ReqUser.t) (q : Contacts.Query.t)
  : store -> response (list Contacts.Listed.t) * store :=
  try_catch
    (result <- bound (Pg.count_for (parse_limit (Contacts.Query.limit q)))
                 (fun _ => Contacts.select_list (ReqUser.company_id user) q) ;;
     ret (json 200 result))
    (error 500 "Failed to fetch contacts").

(** GET /contacts/:id *)
Definition get_one (user : ReqUser.t) (id : string)
  : store -> response Contact.row * store :=
  try_catch
    (result <- bound (Pg.uuid_in id)
                 (fun id => Contacts.select_one id (ReqUser.company_id user)) ;;
     match result with
     | [] => ret (error 404 "Contact not found")
     | row :: _ => ret (json 200 row)
     end)
    (error 500 "Failed to fetch contact").

(** POST /contacts; [new_id] is the result of [uuidv4()]. *)
Definition post (now : timestamp) (new_id : uuid) (user : ReqUser.t)
  (body : Contacts.Body.t) : store -> response Contact.row * store :=
  try_catch
    (if negb (truthy (Contacts.Body.name body)) then
       ret (error 400 "Name is required")
     else
       row <- bound (bind body)
                (fun b =>
                   Contacts.insert now new_id (ReqUser.company_id user)
                     (param (Contacts.Body.name b))
                     (param (Contacts.Body.email b))
                     (param (Contacts.Body.phone b))
                     (param (Contacts.Body.position b))
                     (param (Contacts.Body.company_name b))
                     (Some (or_zero (Contacts.Body.value b)))
                     (param (Contacts.Body.notes b))
                     (param (default "prospect" (Contacts.Body.status b)))) ;;
       ret (json 201 row))
    (error 500 "Failed to create contact").

(** PUT /contacts/:id *)
Definition put (now : timestamp) (user : ReqUser.t) (id : string)
  (body : Contacts.Body.t) : store -> response Contact.row * store :=
  try_catch
    (result <- bound (id <-? Pg.uuid_in id ; b <-? bind body ; Some (id, b))
                 (fun v => Contacts.update now (fst v)
                             (ReqUser.company_id user) (snd v)) ;;
     match result with
     | [] => ret (error 404 "Contact not found")
     | row :: _ => ret (json 200 row)
     end)
    (error 500 "Failed to update contact").

(** DELETE /contacts/:id *)
Definition delete (now : timestamp) (user : ReqUser.t) (id : string)
  : store -> response string * store :=
  try_catch
    (result <- bound (Pg.uuid_in id)
                 (fun id => Contacts.delete_from now id
                              (ReqUser.company_id user)) ;;
     match result with
     | [] => ret (error 404 "Contact not found")
     | _ :: _ => ret (json 200 "Contact deleted successfully")
     end)
    (error 500 "Failed to delete contact").

End ContactsApi.

(* ================================================================= *)
(** ** routes/leads.js, with the values of the request *)

Module LeadsApi.

(** The fields of a payload as the columns of leads read them: title,
    company_name and contact_name VARCHAR(255), value INTEGER, stage
    VARCHAR(50), probability INTEGER, expected_close DATE, source
    VARCHAR(100), notes TEXT. *)
Definition bind (body : Leads.Body.t) : option Leads.Body.t :=
  title <-? Pg.text_for 255 (Leads.Body.title body) ;
  company_name <-? Pg.text_for 255 (Leads.Body.company_name body) ;
  contact_name <-? Pg.text_for 255 (Leads.Body.contact_name body) ;
  value <-? Pg.integer_for (Leads.Body.value body) ;
  stage <-? Pg.text_for 50 (Leads.Body.stage body) ;
  probability <-? Pg.integer_for (Leads.Body.probability body) ;
  source <-? Pg.text_for 100 (Leads.Body.source body) ;
  Some {| Leads.Body.title := title;
          Leads.Body.company_name := company_name;
          Leads.Body.contact_name := contact_name;
          Leads.Body.value := value; Leads.Body.stage := stage;
          Leads.Body.probability := probability;
          Leads.Body.expected_close := Leads.Body.expected_close body;
          Leads.Body.source := source;
          Leads.Body.notes := Leads.Body.notes body |}.

(** GET /leads *)
Definition get_all `{Env} (user : ReqUser.t) (q : Leads.Query.t)
  : store -> response (list Leads.Listed.t) * store :=
  try_catch
    (result <- bound (Pg.count_for (parse_limit (Leads.Query.limit q)))
                 (fun _ => Leads.select_list (ReqUser.company_id user) q) ;;
     ret (json 200 result))
    (error 500 "Failed to fetch leads").

(** GET /leads/:id *)
Definition get_one (user : ReqUser.t) (id : string)
  : store -> response Lead.row * store :=
  try_catch
    (result <- bound (Pg.uuid_in id)
                 (fun id => Leads.select_one id (ReqUser.company_id user)) ;;
     match result with
     | [] => ret (error 404 "Lead not found")
     | row :: _ => ret (json 200 row)
     end)
    (error 500 "Failed to fetch lead").

(** POST /leads; [new_id] is the result of [uuidv4()]. *)
Definition post (now : timestamp) (new_id : uuid) (user : ReqUser.t)
  (body : Leads.Body.t) : store -> response Lead.row * store :=
  try_catch
    (if negb (truthy (Leads.Body.title body)) then
       ret (error 400 "Title is required")
     else
       row <- bound (bind body)
                (fun b =>
                   Leads.insert now new_id (ReqUser.company_id user)
                     (param (Leads.Body.title b))
                     (param (Leads.Body.company_name b))
                     (param (Leads.Body.contact_name b))
                     (Some (or_zero (Leads.Body.value b)))
                     (param (default "lead" (Leads.Body.stage b)))
                     (param (default 10 (Leads.Body.probability b)))
                     (param (Leads.Body.expected_close b))
                     (param (Leads.Body.source b))
                     (param (Leads.Body.notes b))) ;;
       ret (json 201 row))
    (error 500 "Failed to create lead").

(** PUT /leads/:id *)
Definition put (now : timestamp) (user : ReqUser.t) (id : string)
  (body : Leads.Body.t) : store -> response Lead.row * store :=
  try_catch
    (result <- bound (id <-? Pg.uuid_in id ; b <-? bind body ; Some (id, b))
                 (fun v => Leads.update now (fst v)
                             (ReqUser.company_id user) (snd v)) ;;
     match result with
     | [] => ret (error 404 "Lead not found")
     | row :: _ => ret (json 200 row)
     end)
    (error 500 "Failed to update lead").

(** DELETE /leads/:id *)
Definition delete (user : ReqUser.t) (id : string)
  : store -> response string * store :=
  try_catch
    (result <- bound (Pg.uuid_in id)
                 (fun id => Leads.delete_from id (ReqUser.company_id user)) ;;
     match result with
     | [] => ret (error 404 "Lead not found")
     | _ :: _ => ret (json 200 "Lead deleted successfully")
     end)
    (error 500 "Failed to delete lead").

End LeadsApi.

(* ================================================================= *)
(** ** routes/tasks.js, with the values of the request *)

Module TasksApi.

(** The fields of a payload as the columns of tasks read them: title
    VARCHAR(255), description TEXT, due_date DATE, priority and status
    VARCHAR(20), contact_id UUID. *)
Definition bind (body : Tasks.Body.t) : option Tasks.Body.t :=
  title <-? Pg.text_for 255 (Tasks.Body.title body) ;
  priority <-? Pg.text_for 20 (Tasks.Body.priority body) ;
  status <-? Pg.text_for 20 (Tasks.Body.status body) ;
  contact_id <-? Pg.uuid_for (Tasks.Body.contact_id body) ;
  Some {| Tasks.Body.title := title;
          Tasks.Body.description := Tasks.Body.description body;
          Tasks.Body.due_date := Tasks.Body.due_date body;
          Tasks.Body.priority := priority; Tasks.Body.status := status;
          Tasks.Body.contact_id := contact_id |}.

(** GET /tasks *)
Definition get_all `{Env} (user : ReqUser.t) (q : Tasks.Query.t)
  : store -> response (list Tasks.Listed.t) * store :=
  try_catch
    (result <- bound (Pg.count_for (parse_limit (Tasks.Query.limit q)))
                 (fun _ => Tasks.select_list (ReqUser.company_id user) q) ;;
     ret (json 200 result))
    (error 500 "Failed to fetch tasks").

(** GET /tasks/:id *)
Definition get_one (user : ReqUser.t) (id : string)
  : store -> response Tasks.Detailed.t * store :=
  try_catch
    (result <- bound (Pg.uuid_in id)
                 (fun id => Tasks.select_one id (ReqUser.company_id user)) ;;
     match result with
     | [] => ret (error 404 "Task not found")
     | row :: _ => ret (json 200 row)
     end)
    (error 500 "Failed to fetch task").

(** "Verify contact belongs to same company if provided": the query of
    the check reads contact_id as a UUID. *)
Definition verify_contact (contact_id : js string)
  (company_id : option uuid) : io bool :=
  if truthy contact_id then
    contactCheck <- bound (Pg.uuid_for contact_id)
                      (fun c => Tasks.contact_check (param c) company_id) ;;
    ret (negb (List.length contactCheck =? 0)%nat)
  else ret true.

(** POST /tasks; [new_id] is the result of [uuidv4()]. *)
Definition post (now : timestamp) (new_id : uuid) (user : ReqUser.t)
  (body : Tasks.Body.t) : store -> response Task.row * store :=
  try_catch
    (if negb (truthy (Tasks.Body.title body)) then
       ret (error 400 "Title is required")
     else
       verified <- verify_contact (Tasks.Body.contact_id body)
                                  (ReqUser.company_id user) ;;
       if negb verified then
         ret (error 400 "Invalid contact ID")
       else
         row <- bound (bind body)
                  (fun b =>
                     Tasks.insert now new_id (ReqUser.company_id user)
                       (param (Tasks.Body.title b))
                       (param (Tasks.Body.description b))
                       (param (Tasks.Body.due_date b))
                       (param (default "medium" (Tasks.Body.priority b)))
                       (param (default "pending" (Tasks.Body.status b)))
                       (param (Tasks.Body.contact_id b))) ;;
         ret (json 201 row))
    (error 500 "Failed to create task").

(** PUT /tasks/:id *)
Definition put (now : timestamp) (user : ReqUser.t) (id : string)
  (body : Tasks.Body.t) : store -> response Task.row * store :=
  try_catch
    (verified <- verify_contact (Tasks.Body.contact_id body)
                                (ReqUser.company_id user) ;;
     if negb verified then
       ret (error 400 "Invalid contact ID")
     else
       result <- bound (id <-? Pg.uuid_in id ; b <-? bind body ; Some (id, b))
                   (fun v => Tasks.update now (fst v)
                               (ReqUser.company_id user) (snd v)) ;;
       match result with
       | [] => ret (error 404 "Task not found")
       | row :: _ => ret (json 200 row)
       end)
    (error 500 "Failed to update task").

(** DELETE /tasks/:id *)
Definition delete (user : ReqUser.t) (id : string)
  : store -> response string * store :=
  try_catch
    (result <- bound (Pg.uuid_in id)
                 (fun id => Tasks.delete_from id (ReqUser.company_id user)) ;;
     match result with
     | [] => ret (error 404 "Task not found")
     | _ :: _ => ret (json 200 "Task deleted successfully")
     end)
    (error 500 "Failed to delete task").

End TasksApi.

(* ================================================================= *)
(** ** routes/auth.js, with the values of the request *)

Module AuthApi.

(** The values of the user insert as the columns of users read them:
    email, password_hash and name VARCHAR(255). *)
Definition bind (email : js string) (password_hash : string)
  (name : js string) : option (js string * string * js string) :=
  email <-? Pg.text_for 255 email ;
  password_hash <-? Pg.varchar 255 password_hash ;
  name <-? Pg.text_for 255 name ;
  Some (email, password_hash, name).

(** POST /auth/register; companies.name is a VARCHAR(255). *)
Definition register_body_io `{Env} (JWT_SECRET : js string) (now : timestamp)
  (company_uuid user_uuid : uuid) (salt : string)
  (body : AuthRoutes.register_body) : io (response AuthRoutes.registered) :=
  existingUser <- AuthRoutes.select_users_by_email
                    (param (AuthRoutes.rb_email body)) ;;
  if (0 <? List.length existingUser)%nat then
    ret (error 400 "User already exists")
  else
    companyId <- bound (Pg.text_for 255
                          (or_else (AuthRoutes.rb_companyName body)
                                   (val "My Company")))
                   (fun name =>
                      AuthRoutes.insert_company now company_uuid
                        (param name)) ;;
    hashedPassword <- AuthRoutes.hash_password (AuthRoutes.rb_password body)
                        salt ;;
    user <- bound (bind (AuthRoutes.rb_email body) hashedPassword
                        (AuthRoutes.rb_name body))
              (fun v =>
                 AuthRoutes.insert_user now user_uuid (param (fst (fst v)))
                   (Some (snd (fst v))) (param (snd v)) (Some companyId)) ;;
    let token := jwt_sign (User.id user) (secret JWT_SECRET) now in
    ret (json 201 {| AuthRoutes.r_token := token;
                     AuthRoutes.r_id := User.id user;
                     AuthRoutes.r_email := User.email user;
                     AuthRoutes.r_name := User.name user |}).

Definition register `{Env} (JWT_SECRET : js string) (now : timestamp)
  (company_uuid user_uuid : uuid) (salt : string)
  (body : AuthRoutes.register_body)
  : store -> response AuthRoutes.registered * store :=
  try_catch (register_body_io JWT_SECRET now company_uuid user_uuid salt body)
            (error 500 "Server error during registration").

End AuthApi.

(* ================================================================= *)
(** ** Vocabulary of the specification *)

(** The three refusals of the auth gate: no token in the request, a token
    that does not verify, a verified token whose user id matches no row of
    users. *)
Definition no_token (h : headers) : Prop :=
  text (token_of h) = None.

Definition verification_fails `{Env} (JWT_SECRET : js string)
  (now : timestamp) (h : headers) : Prop :=
  exists t, text (token_of h) = Some t
            /\ jwt_verify t (secret JWT_SECRET) now = None.

Definition user_unresolved `{Env} (JWT_SECRET : js string)
  (now : timestamp) (h : headers) (s : store) : Prop :=
  exists t decoded,
    text (token_of h) = Some t
    /\ jwt_verify t (secret JWT_SECRET) now = Some decoded
    /\ forall u, In u (users s) -> Some (User.id u) <> param decoded.

(** Severity order of task priorities: high, medium, low, and anything
    else after them. *)
Definition severity (priority : option string) : Z :=
  if same_text priority (Some "high") then 1
  else if same_text priority (Some "medium") then 2
  else if same_text priority (Some "low") then 3
  else 4.

(** Due dates in ascending order, a missing due date after every date. *)
Definition due_before (a b : option date) : Prop :=
  match a, b with
  | Some x, Some y => x < y
  | Some _, None => True
  | None, _ => False
  end.

(** The order of the task list: by severity, then by due date, then the
    newest first. *)
Definition tasks_in_order (a b : Tasks.Listed.t) : Prop :=
  severity (Tasks.Listed.priority a) < severity (Tasks.Listed.priority b)
  \/ (severity (Tasks.Listed.priority a) = severity (Tasks.Listed.priority b)
      /\ (due_before (Tasks.Listed.due_date a) (Tasks.Listed.due_date b)
          \/ (Tasks.Listed.due_date a = Tasks.Listed.due_date b
              /\ Tasks.Listed.created_at b <= Tasks.Listed.created_at a))).

(** The order of the contact and lead lists: the newest first. *)
Definition contacts_in_order (a b : Contacts.Listed.t) : Prop :=
  Contacts.Listed.created_at b <= Contacts.Listed.created_at a.

Definition leads_in_order (a b : Leads.Listed.t) : Prop :=
  Leads.Listed.created_at b <= Leads.Listed.created_at a.

(** The rows a group holds for a key, if the key has a group. *)
Fixpoint group_of {R K} (same : K -> K -> bool) (k : K)
  (groups : list (K * list R)) : option (list R) :=
  match groups with
  | [] => None
  | (k', rows) :: rest =>
      if same k' k then Some rows else group_of same k rest
  end.

(** What GROUP BY computes: the keys are distinct, and the group of a key
    holds, in order, the rows with that key. *)
Definition grouped {R K} (same : K -> K -> bool) (key : R -> K)
  (groups : list (K * list R)) (rows : list R) : Prop :=
  NoDup (map fst groups)
  /\ forall k, group_of same k groups =
               match filter (fun r => same k (key r)) rows with
               | [] => None
               | rs => Some rs
               end.

(** The fixed sequence of the pipeline and the place of a stage in it;
    a stage outside the sequence, or no stage, comes after all of them. *)
Definition pipeline_sequence : list string :=
  ["lead"; "qualified"; "proposal"; "negotiation"; "closed-won";
   "closed-lost"].

Fixpoint place (x : string) (l : list string) : nat :=
  match l with
  | [] => O
  | y :: l' => if (x =? y)%string then O else S (place x l')
  end.

Definition stage_place (stage : option string) : nat :=
  match stage with
  | Some st => place st pipeline_sequence
  | None => List.length pipeline_sequence
  end.

Definition pipeline_in_order (a b : Leads.Pipeline.t) : Prop :=
  (stage_place (Leads.Pipeline.stage a)
   <= stage_place (Leads.Pipeline.stage b))%nat.

(** The leads of the caller's company with a given stage. *)
Definition leads_in_stage (user : ReqUser.t) (stage : option string)
  (s : store) : list Lead.row :=
  filter (fun l => in_company (ReqUser.company_id user) (Lead.company_id l)
                   && same_text stage (Lead.stage l))
         (leads s).

(** A row of another tenant: its company_id is not the caller's. *)
Definition foreign (company_id row_company : option uuid) : bool :=
  negb (same_text row_company company_id).

(** Nothing that belongs to another tenant differs between two stores:
    the companies, the users, and the contacts, leads and tasks of every
    company but the caller's are the same, in the same order. *)
Definition other_tenants_untouched (company_id : option uuid)
  (s s' : store) : Prop :=
  companies s' = companies s
  /\ users s' = users s
  /\ filter (fun r => foreign company_id (Contact.company_id r)) (contacts s')
     = filter (fun r => foreign company_id (Contact.company_id r))
              (contacts s)
  /\ filter (fun r => foreign company_id (Lead.company_id r)) (leads s')
     = filter (fun r => foreign company_id (Lead.company_id r)) (leads s)
  /\ filter (fun r => foreign company_id (Task.company_id r)) (tasks s')
     = filter (fun r => foreign company_id (Task.company_id r)) (tasks s).

(** Referential integrity of tasks.contact_id within a tenant: a contact a
    task refers to belongs to the company of the task. *)
Definition references_own_company (s : store) : Prop :=
  forall t c r,
    In t (tasks s) -> Task.contact_id t = Some c ->
    In r (contacts s) -> Contact.id r = c ->
    Contact.company_id r = Task.company_id t.

(** A row carries exactly the payload of an update: every column of the
    SET list holds the payload's field, NULL when the field is missing, and
    updated_at holds the time of the update. *)
Definition contact_overwritten (now : timestamp) (body : Contacts.Body.t)
  (new : Contact.row) : Prop :=
  Some (Contact.name new) = param (Contacts.Body.name body)
  /\ Contact.email new = param (Contacts.Body.email body)
  /\ Contact.phone new = param (Contacts.Body.phone body)
  /\ Contact.position new = param (Contacts.Body.position body)
  /\ Contact.company_name new = param (Contacts.Body.company_name body)
  /\ Contact.value new = param (Contacts.Body.value body)
  /\ Contact.notes new = param (Contacts.Body.notes body)
  /\ Contact.status new = param (Contacts.Body.status body)
  /\ Contact.updated_at new = now.

Definition lead_overwritten (now : timestamp) (body : Leads.Body.t)
  (new : Lead.row) : Prop :=
  Some (Lead.title new) = param (Leads.Body.title body)
  /\ Lead.company_name new = param (Leads.Body.company_name body)
  /\ Lead.contact_name new = param (Leads.Body.contact_name body)
  /\ Lead.value new = param (Leads.Body.value body)
  /\ Lead.stage new = param (Leads.Body.stage body)
  /\ Lead.probability new = param (Leads.Body.probability body)
  /\ Lead.expected_close new = param (Leads.Body.expected_close body)
  /\ Lead.source new = param (Leads.Body.source body)
  /\ Lead.notes new = param (Leads.Body.notes body)
  /\ Lead.updated_at new = now.

Definition task_overwritten (now : timestamp) (body : Tasks.Body.t)
  (new : Task.row) : Prop :=
  Some (Task.title new) = param (Tasks.Body.title body)
  /\ Task.description new = param (Tasks.Body.description body)
  /\ Task.due_date new = param (Tasks.Body.due_date body)
  /\ Task.priority new = param (Tasks.Body.priority body)
  /\ Task.status new = param (Tasks.Body.status body)
  /\ Task.contact_id new = param (Tasks.Body.contact_id body)
  /\ Task.updated_at new = now.

(** The payload of an update passes the constraints of its table: the
    required column is not NULL, the probability is in range, priority and
    status are among the allowed values, contact_id names a contact. *)
Definition present {A} (x : option A) : bool :=
  match x with
  | Some _ => true
  | None => false
  end.

Definition contact_accepted (body : Contacts.Body.t) : bool :=
  present (param (Contacts.Body.name body)).

Definition lead_accepted (body : Leads.Body.t) : bool :=
  present (param (Leads.Body.title body))
  && probability_check (param (Leads.Body.probability body)).

Definition task_accepted (body : Tasks.Body.t) (s : store) : bool :=
  present (param (Tasks.Body.title body))
  && fk_ok (param (Tasks.Body.contact_id body)) (map Contact.id (contacts s))
  && priority_check (param (Tasks.Body.priority body))
  && status_check (param (Tasks.Body.status body)).

(** The contact check of the task routes lets the payload through: it
    names no contact, or one of the caller's company. *)
Definition contact_verified (user : ReqUser.t) (body : Tasks.Body.t)
  (s : store) : Prop :=
  match text (Tasks.Body.contact_id body) with
  | Some c =>
      exists r, In r (contacts s)
                /\ Contacts.scoped c (ReqUser.company_id user) r = true
  | None => True
  end.

(** Tenant isolation of the contact routes on an id and a payload of the
    column types, for a caller [user]: the list
    and the single read leave the store alone and answer only with contacts
    of the caller's company; a create stores a contact of the caller's
    company; create, update and delete leave every row of another tenant
    as it was (a delete reaches tasks through ON DELETE SET NULL, which
    stays within the tenant as long as tasks refer to contacts of their own
    company); the id of a contact of another tenant gets the 404 response
    from the single read, the update and the delete, and the store is
    unchanged. *)
Definition contacts_isolation `{Env} (now : timestamp) (new_id : uuid)
  (user : ReqUser.t) (id : uuid) (body : Contacts.Body.t) (s : store) : Prop :=
  (forall q, snd (Contacts.get_all user q s) = s)
  /\ (forall q rows,
        fst (Contacts.get_all user q s) = json 200 rows ->
        forall x, In x rows ->
          exists r, In r (contacts s) /\ x = Contacts.listed r
                    /\ Contact.company_id r = ReqUser.company_id user)
  /\ snd (Contacts.get_one user id s) = s
  /\ (forall row,
        fst (Contacts.get_one user id s) = json 200 row ->
        In row (contacts s) /\ Contact.id row = id
        /\ Contact.company_id row = ReqUser.company_id user)
  /\ other_tenants_untouched (ReqUser.company_id user) s
       (snd (Contacts.post now new_id user body s))
  /\ (forall row,
        fst (Contacts.post now new_id user body s) = json 201 row ->
        Contact.company_id row = ReqUser.company_id user
        /\ contacts (snd (Contacts.post now new_id user body s))
           = contacts s ++ [row])
  /\ other_tenants_untouched (ReqUser.company_id user) s
       (snd (Contacts.put now user id body s))
  /\ (forall row,
        fst (Contacts.put now user id body s) = json 200 row ->
        Contact.id row = id
        /\ Contact.company_id row = ReqUser.company_id user)
  /\ (references_own_company s ->
      other_tenants_untouched (ReqUser.company_id user) s
        (snd (Contacts.delete now user id s)))
  /\ (forall r,
        NoDup (map Contact.id (contacts s)) ->
        In r (contacts s) -> Contact.id r = id ->
        Contact.company_id r <> ReqUser.company_id user ->
        Contacts.get_one user id s = (error 404 "Contact not found", s)
        /\ Contacts.put now user id body s
           = (error 404 "Contact not found", s)
        /\ Contacts.delete now user id s
           = (error 404 "Contact not found", s)).

(** Tenant isolation of the lead routes on an id and a payload of the
    column types: as for contacts, and the pipeline statistics leave the
    store alone and depend on nothing but the leads of the caller's
    company. *)
Definition leads_isolation `{Env} (now : timestamp) (new_id : uuid)
  (user : ReqUser.t) (id : uuid) (body : Leads.Body.t) (s : store) : Prop :=
  (forall q, snd (Leads.get_all user q s) = s)
  /\ (forall q rows,
        fst (Leads.get_all user q s) = json 200 rows ->
        forall x, In x rows ->
          exists r, In r (leads s) /\ x = Leads.listed r
                    /\ Lead.company_id r = ReqUser.company_id user)
  /\ snd (Leads.get_one user id s) = s
  /\ (forall row,
        fst (Leads.get_one user id s) = json 200 row ->
        In row (leads s) /\ Lead.id row = id
        /\ Lead.company_id row = ReqUser.company_id user)
  /\ other_tenants_untouched (ReqUser.company_id user) s
       (snd (Leads.post now new_id user body s))
  /\ (forall row,
        fst (Leads.post now new_id user body s) = json 201 row ->
        Lead.company_id row = ReqUser.company_id user
        /\ leads (snd (Leads.post now new_id user body s))
           = leads s ++ [row])
  /\ other_tenants_untouched (ReqUser.company_id user) s
       (snd (Leads.put now user id body s))
  /\ (forall row,
        fst (Leads.put now user id body s) = json 200 row ->
        Lead.id row = id /\ Lead.company_id row = ReqUser.company_id user)
  /\ other_tenants_untouched (ReqUser.company_id user) s
       (snd (Leads.delete user id s))
  /\ (forall r,
        NoDup (map Lead.id (leads s)) ->
        In r (leads s) -> Lead.id r = id ->
        Lead.company_id r <> ReqUser.company_id user ->
        Leads.get_one user id s = (error 404 "Lead not found", s)
        /\ Leads.put now user id body s = (error 404 "Lead not found", s)
        /\ Leads.delete user id s = (error 404 "Lead not found", s))
  /\ snd (Leads.pipeline user s) = s
  /\ (forall s2,
        filter (fun r => in_company (ReqUser.company_id user)
                                    (Lead.company_id r)) (leads s2)
        = filter (fun r => in_company (ReqUser.company_id user)
                                      (Lead.company_id r)) (leads s) ->
        fst (Leads.pipeline user s2) = fst (Leads.pipeline user s)).

(** Tenant isolation of the task routes on an id and a payload of the
    column types: as for contacts, with the
    contact a listed task shows belonging to the caller's company too, and
    the overview statistics depending on nothing but the tasks of the
    caller's company. The id of a task of another tenant gets the 404
    response from the single read and the delete; the update answers 404
    as well unless its payload names a contact that is not the caller's, in
    which case the contact check answers 400 first. *)
Definition tasks_isolation `{Env} (now : timestamp) (new_id : uuid)
  (user : ReqUser.t) (id : uuid) (body : Tasks.Body.t) (s : store) : Prop :=
  (forall q, snd (Tasks.get_all user q s) = s)
  /\ (forall q rows,
        fst (Tasks.get_all user q s) = json 200 rows ->
        forall x, In x rows ->
          exists t c, In t (tasks s) /\ x = Tasks.listed (t, c)
                      /\ Task.company_id t = ReqUser.company_id user
                      /\ (references_own_company s ->
                          forall r, c = Some r ->
                            Contact.company_id r = ReqUser.company_id user))
  /\ snd (Tasks.get_one user id s) = s
  /\ (forall row,
        fst (Tasks.get_one user id s) = json 200 row ->
        exists t c, In t (tasks s) /\ row = Tasks.detailed (t, c)
                    /\ Task.id t = id
                    /\ Task.company_id t = ReqUser.company_id user
                    /\ (references_own_company s ->
                        forall r, c = Some r ->
                          Contact.company_id r = ReqUser.company_id user))
  /\ other_tenants_untouched (ReqUser.company_id user) s
       (snd (Tasks.post now new_id user body s))
  /\ (forall row,
        fst (Tasks.post now new_id user body s) = json 201 row ->
        Task.company_id row = ReqUser.company_id user
        /\ tasks (snd (Tasks.post now new_id user body s))
           = tasks s ++ [row])
  /\ other_tenants_untouched (ReqUser.company_id user) s
       (snd (Tasks.put now user id body s))
  /\ (forall row,
        fst (Tasks.put now user id body s) = json 200 row ->
        Task.id row = id /\ Task.company_id row = ReqUser.company_id user)
  /\ other_tenants_untouched (ReqUser.company_id user) s
       (snd (Tasks.delete user id s))
  /\ (forall t,
        NoDup (map Task.id (tasks s)) ->
        In t (tasks s) -> Task.id t = id ->
        Task.company_id t <> ReqUser.company_id user ->
        Tasks.get_one user id s = (error 404 "Task not found", s)
        /\ Tasks.delete user id s = (error 404 "Task not found", s)
        /\ (contact_verified user body s ->
            Tasks.put now user id body s = (error 404 "Task not found", s))
        /\ (~ contact_verified user body s ->
            Tasks.put now user id body s
            = (error 400 "Invalid contact ID", s)))
  /\ snd (Tasks.overview user s) = s
  /\ (forall s2,
        filter (fun t => in_company (ReqUser.company_id user)
                                    (Task.company_id t)) (tasks s2)
        = filter (fun t => in_company (ReqUser.company_id user)
                                      (Task.company_id t)) (tasks s) ->
        fst (Tasks.overview user s2) = fst (Tasks.overview user s)).

(** What the schema and the routes keep true of a store: the primary keys
    of contacts, leads and tasks are unique, a contact id is never the
    empty string, and the contact a task refers to exists and belongs to
    the company of the task. *)
Definition well_formed (s : store) : Prop :=
  NoDup (map Contact.id (contacts s))
  /\ NoDup (map Lead.id (leads s))
  /\ NoDup (map Task.id (tasks s))
  /\ (forall r, In r (contacts s) -> Contact.id r <> "")
  /\ (forall t c,
        In t (tasks s) -> Task.contact_id t = Some c ->
        exists r, In r (contacts s) /\ Contact.id r = c
                  /\ Contact.company_id r = Task.company_id t).

(** A task as ON DELETE SET NULL leaves it: without its contact, touched at
    [now], otherwise as it was. *)
Definition contact_cleared (now : timestamp) (old new : Task.row) : Prop :=
  Task.id new = Task.id old
  /\ Task.company_id new = Task.company_id old
  /\ Task.contact_id new = None
  /\ Task.title new = Task.title old
  /\ Task.description new = Task.description old
  /\ Task.due_date new = Task.due_date old
  /\ Task.priority new = Task.priority old
  /\ Task.status new = Task.status old
  /\ Task.created_at new = Task.created_at old
  /\ Task.updated_at new = now.

(** Lexical order of optional texts, the missing text last. *)
Definition text_before (a b : option string) : Prop :=
  cmp_nulls_last String.compare a b = Lt.

(** The order of the task overview: by status, then by priority. *)
Definition overview_in_order (a b : Tasks.Overview.t) : Prop :=
  text_before (Tasks.Overview.status a) (Tasks.Overview.status b)
  \/ (Tasks.Overview.status a = Tasks.Overview.status b
      /\ (text_before (Tasks.Overview.priority a) (Tasks.Overview.priority b)
          \/ Tasks.Overview.priority a = Tasks.Overview.priority b)).

(** The tasks of the caller's company with a given status and priority. *)
Definition tasks_in_group (user : ReqUser.t)
  (status priority : option string) (s : store) : list Task.row :=
  filter (fun t => in_company (ReqUser.company_id user) (Task.company_id t)
                   && Tasks.same_key (status, priority) (Tasks.key t))
         (tasks s).

(** A three-way comparison that is a strict total order: [Eq] is equality,
    swapping the arguments swaps the answer, and [Lt] is transitive. *)
Record total_order {A} (cmp : A -> A -> comparison) : Prop := {
  cmp_eq : forall a b, cmp a b = Eq <-> a = b;
  cmp_swap : forall a b, cmp b a = CompOpp (cmp a b);
  cmp_trans : forall a b c, cmp a b = Lt -> cmp b c = Lt -> cmp a c = Lt
}.

(* ================================================================= *)
(** ** Vocabulary of the listings *)

(** A text column is found by a search when it is not NULL and ILIKE
    accepts it against [%search%]. *)
Definition found_in `{Env} (search : string) (column : option string)
  : bool :=
  match column with
  | Some t => ilike t (contains search)
  | None => false
  end.

(** The search of a listing over its columns: no search (missing or
    empty), or one of the columns is found. *)
Definition searched `{Env} (search : js string)
  (columns : list (option string)) : bool :=
  match text search with
  | Some wanted => existsb (found_in wanted) columns
  | None => true
  end.

(** An exact filter of a listing on a column: no filter (missing or
    empty), or the column holds the filter's value. *)
Definition passes (wanted : js string) (column : option string) : bool :=
  match text wanted with
  | Some v => same_text column (Some v)
  | None => true
  end.

(** The rows each listing is about, in two-valued terms. *)
Definition contact_listed_for `{Env} (company_id : option uuid)
  (q : Contacts.Query.t) (r : Contact.row) : bool :=
  in_company company_id (Contact.company_id r)
  && searched (Contacts.Query.search q)
       [Some (Contact.name r); Contact.email r; Contact.company_name r]
  && passes (Contacts.Query.status q) (Contact.status r).

Definition lead_listed_for `{Env} (company_id : option uuid)
  (q : Leads.Query.t) (r : Lead.row) : bool :=
  in_company company_id (Lead.company_id r)
  && searched (Leads.Query.search q)
       [Some (Lead.title r); Lead.company_name r; Lead.contact_name r]
  && passes (Leads.Query.stage q) (Lead.stage r).

Definition task_listed_for `{Env} (company_id : option uuid)
  (q : Tasks.Query.t) (t : Task.row) : bool :=
  in_company company_id (Task.company_id t)
  && searched (Tasks.Query.search q)
       [Some (Task.title t); Task.description t]
  && passes (Tasks.Query.status q) (Task.status t)
  && passes (Tasks.Query.priority q) (Task.priority t).

(** The contact a task refers to: the first contact with the id the task
    names, if there is one. *)
Definition referred (cs : list Contact.row) (t : Task.row)
  : option Contact.row :=
  match Task.contact_id t with
  | Some k => find (fun c => (Contact.id c =? k)%string) cs
  | None => None
  end.

(** A task as the single read shows it, and as the list shows it. *)
Definition task_with_contact (s : store) (t : Task.row) : Tasks.Detailed.t :=
  Tasks.detailed (t, referred (contacts s) t).

Definition task_shown (s : store) (t : Task.row) : Tasks.Listed.t :=
  Tasks.listed (t, referred (contacts s) t).

(* ================================================================= *)
(** ** Vocabulary of the accounts *)

(** The company a registration creates. *)
Definition new_company (now : timestamp) (id : uuid)
  (body : AuthRoutes.register_body) : Company.row :=
  {| Company.id := id;
     Company.name :=
       match text (AuthRoutes.rb_companyName body) with
       | Some n => n
       | None => "My Company"
       end;
     Company.plan := Some "basic"; Company.settings := "{}";
     Company.created_at := now; Company.updated_at := now |}.

(** The user a registration creates. *)
Definition new_user `{Env} (now : timestamp) (id company : uuid)
  (email name password salt : string) : User.row :=
  {| User.id := id; User.email := email;
     User.password_hash := bcrypt_hash password salt;
     User.name := name; User.company_id := Some company;
     User.role := Some "user"; User.is_active := Some true;
     User.last_login := None;
     User.created_at := now; User.updated_at := now |}.

(** What a login answers with for a user. *)
Definition session `{Env} (JWT_SECRET : js string) (now : timestamp)
  (u : User.row) : AuthRoutes.logged_in :=
  {| AuthRoutes.token := jwt_sign (User.id u) (secret JWT_SECRET) now;
     AuthRoutes.id := User.id u; AuthRoutes.email := User.email u;
     AuthRoutes.name := User.name u;
     AuthRoutes.company_id := User.company_id u |}.

(** A request that carries a token the way the clients send it: in
    x-auth-token, or in Authorization after the Bearer prefix. *)
Definition carries (h : headers) (t : string) : Prop :=
  x_auth_token h = val t
  \/ (text (x_auth_token h) = None
      /\ authorization h = val ("Bearer " ++ t)%string).

(** [pat] occurs in [s] at offset [n]. *)
Definition occurs_at (pat s : string) (n : nat) : bool :=
  starts_with pat (skip n s).

(** The company ids a column refers to are ids of companies. *)
Definition companies_known (s : store) (refs : list (option uuid)) : Prop :=
  forall c, In (Some c) refs -> In c (map Company.id (companies s)).

(** What the schema and the routes keep true of the accounts: the ids of
    companies and users and the emails of users are unique, and the
    company_id of every user, contact, lead and task is NULL or the id of
    a company. *)
Definition accounts_well_formed (s : store) : Prop :=
  NoDup (map Company.id (companies s))
  /\ NoDup (map User.id (users s))
  /\ NoDup (map User.email (users s))
  /\ companies_known s (map User.company_id (users s))
  /\ companies_known s (map Contact.company_id (contacts s))
  /\ companies_known s (map Lead.company_id (leads s))
  /\ companies_known s (map Task.company_id (tasks s)).

(** More requests to run the routes on the sample store. *)
Module Cases.

(** POST /auth/login of the demo user, with the password the toy library
    accepts for its hash. *)
Definition demo_login : AuthRoutes.login_body :=
  {| AuthRoutes.lb_email := val "demo@example.com";
     AuthRoutes.lb_password :=
       val "10$92IXUNpkjO0rOQ5byMi.Ye4oKoEa3Ro9llC/.og/at2.uheWG/igi" |}.

(** The token a login of the demo user is answered with when JWT_SECRET is
    not set. *)
Definition demo_token : string :=
  "fallback-secret-key:123e4567-e89b-12d3-a456-426614174001".

Definition with_bearer : headers :=
  {| x_auth_token := undefined;
     authorization := val ("Bearer " ++ demo_token)%string |}.

(** An Authorization header with the prefix in the middle. *)
Definition odd_header : headers :=
  {| x_auth_token := val ""; authorization := val "Token Bearer abc" |}.

(** POST /auth/register with [{ email, password }]: no name. *)
Definition register_nameless : AuthRoutes.register_body :=
  {| AuthRoutes.rb_name := undefined;
     AuthRoutes.rb_email := val "nameless@example.com";
     AuthRoutes.rb_password := val "secret";
     AuthRoutes.rb_companyName := val "Nameless Ltd" |}.

(** POST /auth/login of the user [Requests.register_new] registers. *)
Definition new_login : AuthRoutes.login_body :=
  {| AuthRoutes.lb_email := val "new@example.com";
     AuthRoutes.lb_password := val "secret" |}.

(** GET /contacts?status=active *)
Definition active_contacts : Contacts.Query.t :=
  {| Contacts.Query.search := undefined;
     Contacts.Query.status := val "active";
     Contacts.Query.limit := undefined |}.

(** GET /contacts?limit=-1 *)
Definition negative_limit : Contacts.Query.t :=
  {| Contacts.Query.search := undefined;
     Contacts.Query.status := undefined;
     Contacts.Query.limit := val "-1" |}.

(** POST /contacts with [{ name: 'Ann Lee' }]. *)
Definition ann : Contacts.Body.t :=
  {| Contacts.Body.name := val "Ann Lee";
     Contacts.Body.email := undefined; Contacts.Body.phone := undefined;
     Contacts.Body.position := undefined;
     Contacts.Body.company_name := undefined;
     Contacts.Body.value := undefined; Contacts.Body.notes := undefined;
     Contacts.Body.status := undefined |}.

Definition ann_id : uuid := "c3333333-3333-3333-3333-333333333333".

Definition enterprise_id : uuid := "a1111111-1111-1111-1111-111111111111".

End Cases.

(* ================================================================= *)
(** ** Vocabulary of the requests *)

(** The contact a task payload names, as the routes check it. It is
    unknown when the contact_id is a UUID that no contact of the caller's
    company has; it is malformed when the contact_id is a text that is
    not a UUID (the empty text included). *)
Definition contact_unknown (user : ReqUser.t) (body : Tasks.Body.t)
  (s : store) : Prop :=
  exists c c',
    text (Tasks.Body.contact_id body) = Some c
    /\ Pg.uuid_in c = Some c'
    /\ forall r, In r (contacts s) ->
                 Contacts.scoped c' (ReqUser.company_id user) r = false.

Definition contact_malformed (body : Tasks.Body.t) : Prop :=
  exists c, param (Tasks.Body.contact_id body) = Some c
            /\ Pg.uuid_in c = None.

(** A number of the payload that is not an INTEGER. *)
Definition out_of_integer (x : js Z) : Prop :=
  exists v, x = val v /\ Pg.int4 v = false.

(** A stored probability is missing or lies in [0, 100]. *)
Definition probability_in_range (p : option Z) : Prop :=
  match p with
  | Some x => 0 <= x <= 100
  | None => True
  end.

(** Tenant isolation of the contact routes, for a caller [user] and the
    values of a request: the list and the single read leave the store
    alone and answer only with contacts of the caller's company; a create
    stores a contact of the caller's company; create, update and delete
    leave every row of another tenant as it was (a delete reaches tasks
    through ON DELETE SET NULL, which stays within the tenant as long as
    tasks refer to contacts of their own company); the id of a contact of
    another tenant gets the 404 response from the single read and the
    delete, and from the update when the store can read the payload, the
    store being unchanged; an update whose value is not an INTEGER, and
    any of the three with an id that is not a UUID, gets the 500 response
    and changes nothing. *)
Definition contacts_tenancy `{Env} (now : timestamp) (new_id : uuid)
  (user : ReqUser.t) (id : string) (body : Contacts.Body.t) (s : store)
  : Prop :=
  (forall q, snd (ContactsApi.get_all user q s) = s)
  /\ (forall q rows,
        fst (ContactsApi.get_all user q s) = json 200 rows ->
        forall x, In x rows ->
          exists r, In r (contacts s) /\ x = Contacts.listed r
                    /\ Contact.company_id r = ReqUser.company_id user)
  /\ snd (ContactsApi.get_one user id s) = s
  /\ (forall row,
        fst (ContactsApi.get_one user id s) = json 200 row ->
        In row (contacts s) /\ Pg.uuid_in id = Some (Contact.id row)
        /\ Contact.company_id row = ReqUser.company_id user)
  /\ other_tenants_untouched (ReqUser.company_id user) s
       (snd (ContactsApi.post now new_id user body s))
  /\ (forall row,
        fst (ContactsApi.post now new_id user body s) = json 201 row ->
        Contact.company_id row = ReqUser.company_id user
        /\ contacts (snd (ContactsApi.post now new_id user body s))
           = contacts s ++ [row])
  /\ other_tenants_untouched (ReqUser.company_id user) s
       (snd (ContactsApi.put now user id body s))
  /\ (forall row,
        fst (ContactsApi.put now user id body s) = json 200 row ->
        Pg.uuid_in id = Some (Contact.id row)
        /\ Contact.company_id row = ReqUser.company_id user)
  /\ (references_own_company s ->
      other_tenants_untouched (ReqUser.company_id user) s
        (snd (ContactsApi.delete now user id s)))
  /\ (forall r,
        NoDup (map Contact.id (contacts s)) ->
        In r (contacts s) -> Pg.uuid_in id = Some (Contact.id r) ->
        Contact.company_id r <> ReqUser.company_id user ->
        ContactsApi.get_one user id s = (error 404 "Contact not found", s)
        /\ ContactsApi.delete now user id s
           = (error 404 "Contact not found", s)
        /\ (ContactsApi.bind body <> None ->
            ContactsApi.put now user id body s
            = (error 404 "Contact not found", s)))
  /\ (out_of_integer (Contacts.Body.value body) ->
      ContactsApi.put now user id body s
      = (error 500 "Failed to update contact", s))
  /\ (Pg.uuid_in id = None ->
      ContactsApi.get_one user id s
      = (error 500 "Failed to fetch contact", s)
      /\ ContactsApi.put now user id body s
         = (error 500 "Failed to update contact", s)
      /\ ContactsApi.delete now user id s
         = (error 500 "Failed to delete contact", s)).

(** Tenant isolation of the lead routes: as for contacts, and the
    pipeline statistics leave the store alone and depend on nothing but the
    leads of the caller's company. *)
Definition leads_tenancy `{Env} (now : timestamp) (new_id : uuid)
  (user : ReqUser.t) (id : string) (body : Leads.Body.t) (s : store)
  : Prop :=
  (forall q, snd (LeadsApi.get_all user q s) = s)
  /\ (forall q rows,
        fst (LeadsApi.get_all user q s) = json 200 rows ->
        forall x, In x rows ->
          exists r, In r (leads s) /\ x = Leads.listed r
                    /\ Lead.company_id r = ReqUser.company_id user)
  /\ snd (LeadsApi.get_one user id s) = s
  /\ (forall row,
        fst (LeadsApi.get_one user id s) = json 200 row ->
        In row (leads s) /\ Pg.uuid_in id = Some (Lead.id row)
        /\ Lead.company_id row = ReqUser.company_id user)
  /\ other_tenants_untouched (ReqUser.company_id user) s
       (snd (LeadsApi.post now new_id user body s))
  /\ (forall row,
        fst (LeadsApi.post now new_id user body s) = json 201 row ->
        Lead.company_id row = ReqUser.company_id user
        /\ leads (snd (LeadsApi.post now new_id user body s))
           = leads s ++ [row])
  /\ other_tenants_untouched (ReqUser.company_id user) s
       (snd (LeadsApi.put now user id body s))
  /\ (forall row,
        fst (LeadsApi.put now user id body s) = json 200 row ->
        Pg.uuid_in id = Some (Lead.id row)
        /\ Lead.company_id row = ReqUser.company_id user)
  /\ other_tenants_untouched (ReqUser.company_id user) s
       (snd (LeadsApi.delete user id s))
  /\ (forall r,
        NoDup (map Lead.id (leads s)) ->
        In r (leads s) -> Pg.uuid_in id = Some (Lead.id r) ->
        Lead.company_id r <> ReqUser.company_id user ->
        LeadsApi.get_one user id s = (error 404 "Lead not found", s)
        /\ LeadsApi.delete user id s = (error 404 "Lead not found", s)
        /\ (LeadsApi.bind body <> None ->
            LeadsApi.put now user id body s
            = (error 404 "Lead not found", s)))
  /\ (out_of_integer (Leads.Body.value body)
      \/ out_of_integer (Leads.Body.probability body) ->
      LeadsApi.put now user id body s
      = (error 500 "Failed to update lead", s))
  /\ (Pg.uuid_in id = None ->
      LeadsApi.get_one user id s = (error 500 "Failed to fetch lead", s)
      /\ LeadsApi.put now user id body s
         = (error 500 "Failed to update lead", s)
      /\ LeadsApi.delete user id s
         = (error 500 "Failed to delete lead", s))
  /\ snd (Leads.pipeline user s) = s
  /\ (forall s2,
        filter (fun r => in_company (ReqUser.company_id user)
                                    (Lead.company_id r)) (leads s2)
        = filter (fun r => in_company (ReqUser.company_id user)
                                      (Lead.company_id r)) (leads s) ->
        fst (Leads.pipeline user s2) = fst (Leads.pipeline user s)).

(** Tenant isolation of the task routes: as for contacts, with the
    contact a listed task shows belonging to the caller's company too, and
    the overview statistics depending on nothing but the tasks of the
    caller's company. The id of a task of another tenant gets the 404
    response from the single read and the delete. The update checks the
    contact of its payload before it looks the task up: it answers 400
    when that contact is unknown, 500 when the contact_id is malformed,
    and 404 for the id of a task of another tenant otherwise, provided
    the store can read the payload. *)
Definition tasks_tenancy `{Env} (now : timestamp) (new_id : uuid)
  (user : ReqUser.t) (id : string) (body : Tasks.Body.t) (s : store)
  : Prop :=
  (forall q, snd (TasksApi.get_all user q s) = s)
  /\ (forall q rows,
        fst (TasksApi.get_all user q s) = json 200 rows ->
        forall x, In x rows ->
          exists t c, In t (tasks s) /\ x = Tasks.listed (t, c)
                      /\ Task.company_id t = ReqUser.company_id user
                      /\ (references_own_company s ->
                          forall r, c = Some r ->
                            Contact.company_id r = ReqUser.company_id user))
  /\ snd (TasksApi.get_one user id s) = s
  /\ (forall row,
        fst (TasksApi.get_one user id s) = json 200 row ->
        exists t c, In t (tasks s) /\ row = Tasks.detailed (t, c)
                    /\ Pg.uuid_in id = Some (Task.id t)
                    /\ Task.company_id t = ReqUser.company_id user
                    /\ (references_own_company s ->
                        forall r, c = Some r ->
                          Contact.company_id r = ReqUser.company_id user))
  /\ other_tenants_untouched (ReqUser.company_id user) s
       (snd (TasksApi.post now new_id user body s))
  /\ (forall row,
        fst (TasksApi.post now new_id user body s) = json 201 row ->
        Task.company_id row = ReqUser.company_id user
        /\ tasks (snd (TasksApi.post now new_id user body s))
           = tasks s ++ [row])
  /\ other_tenants_untouched (ReqUser.company_id user) s
       (snd (TasksApi.put now user id body s))
  /\ (forall row,
        fst (TasksApi.put now user id body s) = json 200 row ->
        Pg.uuid_in id = Some (Task.id row)
        /\ Task.company_id row = ReqUser.company_id user)
  /\ other_tenants_untouched (ReqUser.company_id user) s
       (snd (TasksApi.delete user id s))
  /\ (forall t,
        NoDup (map Task.id (tasks s)) ->
        In t (tasks s) -> Pg.uuid_in id = Some (Task.id t) ->
        Task.company_id t <> ReqUser.company_id user ->
        TasksApi.get_one user id s = (error 404 "Task not found", s)
        /\ TasksApi.delete user id s = (error 404 "Task not found", s)
        /\ (~ contact_unknown user body s ->
            TasksApi.bind body <> None ->
            TasksApi.put now user id body s
            = (error 404 "Task not found", s)))
  /\ (contact_unknown user body s ->
      TasksApi.put now user id body s = (error 400 "Invalid contact ID", s))
  /\ (contact_malformed body ->
      TasksApi.put now user id body s
      = (error 500 "Failed to update task", s))
  /\ (Pg.uuid_in id = None ->
      TasksApi.get_one user id s = (error 500 "Failed to fetch task", s)
      /\ TasksApi.delete user id s = (error 500 "Failed to delete task", s)
      /\ (~ contact_unknown user body s ->
          TasksApi.put now user id body s
          = (error 500 "Failed to update task", s)))
  /\ snd (Tasks.overview user s) = s
  /\ (forall s2,
        filter (fun t => in_company (ReqUser.company_id user)
                                    (Task.company_id t)) (tasks s2)
        = filter (fun t => in_company (ReqUser.company_id user)
                                      (Task.company_id t)) (tasks s) ->
        fst (Tasks.overview user s2) = fst (Tasks.overview user s)).
(* ================================================================= *)
(** * Properties *)

(** ** Three-valued predicates *)

Lemma holds_str_eq (x y : option string) :
  holds (str_eq x y) = true <-> exists a, x = Some a /\ y = Some a.
Proof.
  unfold str_eq, sql_eq.
  destruct x as [a|], y as [b|]; simpl; split;
    try discriminate; try (intros (c & Hx & Hy); discriminate).
  - destruct (String.eqb_spec a b) as [->|Hne]; simpl; [eauto | discriminate].
  - intros (c & Hx & Hy). inversion Hx; inversion Hy; subst.
    now rewrite String.eqb_refl.
Qed.

Lemma holds_sql_and (p q : sql_bool) :
  holds (sql_and p q) = true <-> holds p = true /\ holds q = true.
Proof.
  destruct p as [[|]|], q as [[|]|]; simpl; intuition discriminate.
Qed.

Lemma id_and_company_true id cid rid rc :
  id_and_company id cid rid rc = true <->
  rid = id /\ exists c, rc = Some c /\ cid = Some c.
Proof.
  unfold id_and_company. rewrite holds_sql_and, !holds_str_eq.
  split.
  - intros [(a & Ha & Hb) Hc]. inversion Ha; inversion Hb; subst. auto.
  - intros [-> Hc]. eauto.
Qed.

Lemma in_company_true cid rc :
  in_company cid rc = true <-> exists c, rc = Some c /\ cid = Some c.
Proof. unfold in_company. apply holds_str_eq. Qed.

Lemma id_and_company_in_company id cid rid rc :
  id_and_company id cid rid rc = true -> in_company cid rc = true.
Proof.
  rewrite id_and_company_true, in_company_true. tauto.
Qed.

(** ** Lists *)

Lemma filter_nil_iff {A} (f : A -> bool) (l : list A) :
  filter f l = [] <-> forall x, In x l -> f x = false.
Proof.
  induction l as [|a l IH]; simpl.
  - tauto.
  - destruct (f a) eqn:Hf; split.
    + discriminate.
    + intros Hall. specialize (Hall a (or_introl eq_refl)). congruence.
    + intros Hnil x [<-|Hin]; [assumption | now apply IH].
    + intros Hall. apply IH. auto.
Qed.

Lemma filter_head_In {A} (f : A -> bool) (l : list A) x rest :
  filter f l = x :: rest -> In x l /\ f x = true.
Proof.
  intros Hf. apply filter_In. rewrite Hf. now left.
Qed.

Lemma text_Some (x : js string) (t : string) :
  text x = Some t -> x = val t /\ t <> "".
Proof.
  destruct x as [| |a]; simpl; try discriminate.
  destruct (String.eqb_spec a "") as [->|Hne]; [discriminate|].
  intros Heq. inversion Heq; subst. auto.
Qed.

Lemma truthy_text (x : js string) :
  truthy x = true <-> exists t, text x = Some t.
Proof.
  unfold truthy. destruct (text x) as [t|]; split; eauto; try discriminate.
  intros (t & Ht). discriminate.
Qed.

Lemma map_eq_nil_iff {A B} (f : A -> B) (l : list A) :
  map f l = [] <-> l = [].
Proof. destruct l; simpl; split; congruence. Qed.

(** Turn equations between optional values into equations between the
    values, for [lia]. *)
Lemma Some_eq_iff {A} (x y : A) : Some x = Some y <-> x = y.
Proof. split; congruence. Qed.

Lemma Some_None_iff {A} (x : A) : Some x = None <-> False.
Proof. split; [discriminate | tauto]. Qed.

Lemma None_Some_iff {A} (x : A) : None = Some x <-> False.
Proof. split; [discriminate | tauto]. Qed.

Lemma None_None_iff {A} : @None A = None <-> True.
Proof. tauto. Qed.

Ltac options :=
  rewrite ?Some_eq_iff, ?Some_None_iff, ?None_Some_iff, ?None_None_iff in *.

(** ** ORDER BY and LIMIT *)

Section Ordering.

Context {A : Type} (leb : A -> A -> bool).

Lemma insert_by_perm (x : A) (l : list A) :
  Permutation (x :: l) (insert_by leb x l).
Proof.
  induction l as [|y l IH]; simpl.
  - apply Permutation_refl.
  - destruct (leb x y).
    + apply Permutation_refl.
    + eapply Permutation_trans; [apply perm_swap|].
      now apply perm_skip.
Qed.

Lemma order_by_perm (l : list A) : Permutation l (order_by leb l).
Proof.
  induction l as [|x l IH]; simpl.
  - constructor.
  - eapply Permutation_trans; [|apply insert_by_perm].
    now apply perm_skip.
Qed.

Lemma order_by_In (l : list A) (x : A) : In x (order_by leb l) <-> In x l.
Proof.
  split; apply Permutation_in;
    [apply Permutation_sym|]; apply order_by_perm.
Qed.

Hypothesis leb_total : forall a b, leb a b = true \/ leb b a = true.
Hypothesis leb_trans :
  forall a b c, leb a b = true -> leb b c = true -> leb a c = true.

Let le (a b : A) : Prop := leb a b = true.

Lemma insert_by_sorted (x : A) (l : list A) :
  StronglySorted le l -> StronglySorted le (insert_by leb x l).
Proof.
  induction 1 as [|y l Hs IH Hall]; simpl.
  - repeat constructor.
  - destruct (leb x y) eqn:Hxy.
    + constructor.
      * now constructor.
      * constructor; [exact Hxy|].
        eapply Forall_impl; [|exact Hall].
        intros z Hz. exact (leb_trans _ _ _ Hxy Hz).
    + constructor; [exact IH|].
      apply Forall_forall. intros z Hz.
      apply (Permutation_in _ (Permutation_sym (insert_by_perm x l))) in Hz.
      destruct Hz as [<-|Hz].
      * destruct (leb_total x y) as [Hc|Hc]; [congruence | exact Hc].
      * rewrite Forall_forall in Hall. now apply Hall.
Qed.

Lemma order_by_sorted (l : list A) : StronglySorted le (order_by leb l).
Proof.
  induction l as [|x l IH]; simpl.
  - constructor.
  - now apply insert_by_sorted.
Qed.

End Ordering.

Lemma firstn_In {A} (n : nat) (l : list A) (x : A) :
  In x (firstn n l) -> In x l.
Proof.
  intros Hx. rewrite <- (firstn_skipn n l). apply in_or_app. now left.
Qed.

Lemma StronglySorted_firstn {A} (R : A -> A -> Prop) (n : nat) (l : list A) :
  StronglySorted R l -> StronglySorted R (firstn n l).
Proof.
  intros Hs. revert n.
  induction Hs as [|x l Hs IH Hall]; intros [|n]; simpl; try constructor.
  - apply IH.
  - rewrite Forall_forall in *. intros y Hy. apply Hall.
    eapply firstn_In. exact Hy.
Qed.

Lemma StronglySorted_map {A B} (R : A -> A -> Prop) (Q : B -> B -> Prop)
  (f : A -> B) (l : list A) :
  (forall a b, R a b -> Q (f a) (f b)) ->
  StronglySorted R l -> StronglySorted Q (map f l).
Proof.
  intros HRQ. induction 1 as [|x l Hs IH Hall]; simpl; constructor; auto.
  rewrite Forall_forall in *. intros y Hy.
  apply in_map_iff in Hy. destruct Hy as (a & <- & Ha). auto.
Qed.

Lemma limit_rows_Some {A} (n : option Z) (rows out : list A) :
  limit_rows n rows = Some out <->
  exists k, n = Some k /\ 0 <= k /\ out = firstn (Z.to_nat k) rows.
Proof.
  unfold limit_rows. destruct n as [k|].
  - destruct (Z.ltb_spec k 0); split.
    + discriminate.
    + intros (k' & Hk & Hpos & _). inversion Hk; subst. lia.
    + intros Heq. inversion Heq. eauto.
    + intros (k' & Hk & _ & ->). now inversion Hk.
  - split; [discriminate|]. intros (k & Hk & _). discriminate.
Qed.

(** A listing that filters, sorts, limits and projects yields rows sorted
    by any relation the comparison refines. *)
Lemma listing_sorted {R L} (leb : R -> R -> bool) (project : R -> L)
  (Q : L -> L -> Prop) (n : option Z) (rows out : list R) :
  (forall a b, leb a b = true \/ leb b a = true) ->
  (forall a b c, leb a b = true -> leb b c = true -> leb a c = true) ->
  (forall a b, leb a b = true -> Q (project a) (project b)) ->
  limit_rows n (order_by leb rows) = Some out ->
  StronglySorted Q (map project out).
Proof.
  intros Htot Htrans Hrefines Hlim.
  apply limit_rows_Some in Hlim. destruct Hlim as (k & _ & _ & ->).
  apply StronglySorted_map with (R := fun a b => leb a b = true); auto.
  apply StronglySorted_firstn. now apply order_by_sorted.
Qed.

Section Properties.

Context `{Env}.

(** ** Registration and login *)

(** The lookup by email precedes both inserts of a registration. *)
Lemma register_refuses_taken_email JWT_SECRET now company_uuid user_uuid
  salt body s e :
  AuthRoutes.rb_email body = val e ->
  (exists u, In u (users s) /\ User.email u = e) ->
  AuthRoutes.register JWT_SECRET now company_uuid user_uuid salt body s
  = (error 400 "User already exists", s).
Proof.
  intros Hemail (u & Hin & Hu).
  unfold AuthRoutes.register, try_catch, AuthRoutes.register_body_io, bind,
    AuthRoutes.select_users_by_email, query.
  rewrite Hemail. simpl param.
  destruct (filter _ (users s)) as [|x rest] eqn:Hf.
  - exfalso. rewrite filter_nil_iff in Hf. specialize (Hf u Hin).
    cbv beta in Hf.
    assert (Ht : holds (str_eq (Some (User.email u)) (Some e)) = true)
      by (apply holds_str_eq; exists e; subst; auto).
    unfold param in Hf. rewrite Ht in Hf. discriminate.
  - reflexivity.
Qed.

(** C9. A registration refused because the email is already taken leaves
    the store exactly as it was: the lookup precedes both inserts, so no
    company and no user is created. *)
Theorem register_conflict_leaves_store_unchanged :
  forall JWT_SECRET now company_uuid user_uuid salt body s e,
    AuthRoutes.rb_email body = val e ->
    (exists u, In u (users s) /\ User.email u = e) ->
    AuthRoutes.register JWT_SECRET now company_uuid user_uuid salt body s
    = (error 400 "User already exists", s).
Proof.
  intros J now cu uu salt body s e. apply register_refuses_taken_email.
Qed.

(** C5. A login with an unknown email and a login with a known email and
    a password that does not match its hash get the same response, status
    and body: 400 with [{ error: 'Invalid credentials' }]. *)
Theorem login_failures_indistinguishable :
  forall JWT_SECRET now1 now2 s1 s2 (b1 b2 : AuthRoutes.login_body) pw,
    (forall u, In u (users s1) ->
               Some (User.email u) <> param (AuthRoutes.lb_email b1)) ->
    (exists u, In u (users s2) /\
               Some (User.email u) = param (AuthRoutes.lb_email b2)) ->
    AuthRoutes.lb_password b2 = val pw ->
    (forall u, In u (users s2) ->
               Some (User.email u) = param (AuthRoutes.lb_email b2) ->
               bcrypt_compare pw (User.password_hash u) = false) ->
    fst (AuthRoutes.login JWT_SECRET now1 b1 s1)
    = fst (AuthRoutes.login JWT_SECRET now2 b2 s2)
    /\ fst (AuthRoutes.login JWT_SECRET now1 b1 s1)
       = error 400 "Invalid credentials".
Proof.
  intros J now1 now2 s1 s2 b1 b2 pw Hunknown (u & Hin & Hu) Hpw Hwrong.
  assert (H1 : fst (AuthRoutes.login J now1 b1 s1)
               = error 400 "Invalid credentials").
  { unfold AuthRoutes.login, try_catch, AuthRoutes.login_body_io, bind,
      AuthRoutes.select_users_by_email, query.
    destruct (filter _ (users s1)) as [|x rest] eqn:Hf; [reflexivity|].
    exfalso. apply filter_head_In in Hf. destruct Hf as [Hx Hm].
    apply holds_str_eq in Hm. destruct Hm as (a & Ha & Hb).
    apply (Hunknown x Hx). congruence. }
  split; [|exact H1]. rewrite H1.
  unfold AuthRoutes.login, try_catch, AuthRoutes.login_body_io, bind,
    AuthRoutes.select_users_by_email, query.
  destruct (filter _ (users s2)) as [|x rest] eqn:Hf; [reflexivity|].
  apply filter_head_In in Hf. destruct Hf as [Hx Hm].
  apply holds_str_eq in Hm. destruct Hm as (a & Ha & Hb).
  unfold AuthRoutes.compare_password. rewrite Hpw. unfold ret.
  rewrite (Hwrong x Hx) by congruence. reflexivity.
Qed.


(** ** The auth gate *)

(** The middleware, computed: the decisions it takes in order. *)
Lemma auth_decides JWT_SECRET now h s :
  auth JWT_SECRET now h s =
  (match text (token_of h) with
   | None => denied 401 "No token, authorization denied"
   | Some t =>
       match jwt_verify t (secret JWT_SECRET) now with
       | None => denied 401 "Token is not valid"
       | Some decoded =>
           match filter (fun u => holds (str_eq (Some (User.id u))
                                                (param decoded)))
                        (users s) with
           | [] => denied 401 "User not found"
           | u :: _ => next (req_user u)
           end
       end
   end, s).
Proof.
  unfold auth, try_catch, auth_body, truthy.
  destruct (text (token_of h)) as [t|] eqn:Ht; simpl; [|reflexivity].
  apply text_Some in Ht. destruct Ht as [-> _].
  unfold bind. destruct (jwt_verify t (secret JWT_SECRET) now) as [d|];
    [|reflexivity].
  unfold ret, select_user_by_id, query.
  destruct (filter _ (users s)) as [|u rest]; reflexivity.
Qed.

Lemma bearer_strips (t : string) :
  bearer (val ("Bearer " ++ t)%string) = val t.
Proof. reflexivity. Qed.


(** ** The order of the listings *)

Lemma severity_rank (p : option string) :
  match Tasks.priority_rank p with
  | Some r => severity p = r /\ 1 <= r <= 3
  | None => severity p = 4
  end.
Proof.
  unfold Tasks.priority_rank, severity, same_text.
  destruct p as [s|]; [|reflexivity].
  destruct (s =? "high")%string; [lia|].
  destruct (s =? "medium")%string; [lia|].
  destruct (s =? "low")%string; [lia|reflexivity].
Qed.

Lemma tasks_in_order_total (a b : Tasks.Listed.t) :
  tasks_in_order a b \/ tasks_in_order b a.
Proof.
  unfold tasks_in_order, due_before.
  destruct (Tasks.Listed.due_date a) as [da|],
           (Tasks.Listed.due_date b) as [db|]; options; lia.
Qed.

Lemma tasks_in_order_trans (a b c : Tasks.Listed.t) :
  tasks_in_order a b -> tasks_in_order b c -> tasks_in_order a c.
Proof.
  unfold tasks_in_order, due_before.
  destruct (Tasks.Listed.due_date a) as [da|],
           (Tasks.Listed.due_date b) as [db|],
           (Tasks.Listed.due_date c) as [dc|]; options; lia.
Qed.

Lemma list_order_spec (a b : Task.row) (ca cb : option Contact.row) :
  not_after (Tasks.list_order a b) = true <->
  tasks_in_order (Tasks.listed (a, ca)) (Tasks.listed (b, cb)).
Proof.
  pose proof (severity_rank (Task.priority a)) as Ha.
  pose proof (severity_rank (Task.priority b)) as Hb.
  unfold tasks_in_order, due_before, Tasks.listed, Tasks.list_order,
    cmp_nulls_last, then_by, not_after. cbn [fst snd
    Tasks.Listed.priority Tasks.Listed.due_date Tasks.Listed.created_at].
  destruct (Tasks.priority_rank (Task.priority a)) as [ra|],
           (Tasks.priority_rank (Task.priority b)) as [rb|];
    destruct (Task.due_date a) as [da|], (Task.due_date b) as [db|];
    repeat match goal with
      | |- context [?x ?= ?y] => destruct (Z.compare_spec x y)
      end;
    options; split; intros Hyp; try reflexivity; try discriminate; lia.
Qed.

Lemma tasks_get_all_runs user q s :
  Tasks.get_all user q s =
  match limit_rows (parse_limit (Tasks.Query.limit q))
          (order_by (fun a b => not_after (Tasks.list_order (fst a) (fst b)))
             (filter (fun tc => holds (Tasks.list_where
                                         (ReqUser.company_id user) q (fst tc)))
                     (Tasks.left_join (tasks s) (contacts s)))) with
  | Some rows => (json 200 (map Tasks.listed rows), s)
  | None => (error 500 "Failed to fetch tasks", s)
  end.
Proof.
  unfold Tasks.get_all, try_catch, bind, Tasks.select_list, statement.
  destruct (limit_rows _ _); reflexivity.
Qed.

Lemma contacts_get_all_runs user q s :
  Contacts.get_all user q s =
  match limit_rows (parse_limit (Contacts.Query.limit q))
          (order_by (fun a b => newest_first (Contact.created_at a)
                                             (Contact.created_at b))
             (filter (fun r => holds (Contacts.list_where
                                        (ReqUser.company_id user) q r))
                     (contacts s))) with
  | Some rows => (json 200 (map Contacts.listed rows), s)
  | None => (error 500 "Failed to fetch contacts", s)
  end.
Proof.
  unfold Contacts.get_all, try_catch, bind, Contacts.select_list, statement.
  destruct (limit_rows _ _); reflexivity.
Qed.

Lemma leads_get_all_runs user q s :
  Leads.get_all user q s =
  match limit_rows (parse_limit (Leads.Query.limit q))
          (order_by (fun a b => newest_first (Lead.created_at a)
                                             (Lead.created_at b))
             (filter (fun r => holds (Leads.list_where
                                        (ReqUser.company_id user) q r))
                     (leads s))) with
  | Some rows => (json 200 (map Leads.listed rows), s)
  | None => (error 500 "Failed to fetch leads", s)
  end.
Proof.
  unfold Leads.get_all, try_catch, bind, Leads.select_list, statement.
  destruct (limit_rows _ _); reflexivity.
Qed.

Lemma filter_at_most_one {A} (f : A -> uuid) (p : A -> bool) (k : uuid)
  (l : list A) :
  NoDup (map f l) ->
  (forall x, p x = true -> f x = k) ->
  filter p l = [] \/ exists x, filter p l = [x].
Proof.
  intros Hnd Hp. induction l as [|a l IH]; simpl; [now left|].
  inversion Hnd as [|? ? Hnotin Hnd']; subst.
  destruct (p a) eqn:Hpa.
  - right. exists a. f_equal. apply filter_nil_iff. intros x Hx.
    destruct (p x) eqn:Hpx; [|reflexivity].
    exfalso. apply Hnotin. apply in_map_iff. exists x. split; [|exact Hx].
    rewrite (Hp x Hpx), (Hp a Hpa). reflexivity.
  - now apply IH.
Qed.

Lemma left_join_one (t : Task.row) (ts : list Task.row)
  (cs : list Contact.row) :
  NoDup (map Contact.id cs) ->
  exists c, Tasks.left_join (t :: ts) cs = (t, c) :: Tasks.left_join ts cs.
Proof.
  intros Hnd. unfold Tasks.left_join. simpl.
  destruct (Task.contact_id t) as [k|].
  - destruct (filter_at_most_one Contact.id
                (fun c => holds (str_eq (Some k) (Some (Contact.id c)))) k cs
                Hnd) as [Hnil|(x & Hx)].
    + intros x Hx. apply holds_str_eq in Hx.
      destruct Hx as (a & Ha & Hb). congruence.
    + rewrite Hnil. now exists None.
    + rewrite Hx. now exists (Some x).
  - exists None.
    replace (filter _ cs) with (@nil Contact.row); [reflexivity|].
    symmetry. apply filter_nil_iff. reflexivity.
Qed.

(** C6. The task list comes sorted by severity of priority (high, medium,
    low), then by due date with the tasks without one last, then newest
    first; three tasks of priorities low, high, medium with equal due dates
    come back as high, medium, low. The contact and lead lists come newest
    first. Each listing succeeds whenever its limit is a count. *)
Theorem lists_are_ordered :
  forall (user : ReqUser.t) (s : store),
    (forall q n, parse_limit (Tasks.Query.limit q) = Some n -> 0 <= n ->
                 exists rows, Tasks.get_all user q s = (json 200 rows, s))
    /\ (forall q rows s', Tasks.get_all user q s = (json 200 rows, s') ->
                          StronglySorted tasks_in_order rows)
    /\ (forall q t1 t2 t3 c,
          tasks s = [t1; t2; t3] ->
          NoDup (map Contact.id (contacts s)) ->
          ReqUser.company_id user = Some c ->
          Task.company_id t1 = Some c ->
          Task.company_id t2 = Some c ->
          Task.company_id t3 = Some c ->
          Task.priority t1 = Some "low" ->
          Task.priority t2 = Some "high" ->
          Task.priority t3 = Some "medium" ->
          Task.due_date t1 = Task.due_date t2 ->
          Task.due_date t2 = Task.due_date t3 ->
          text (Tasks.Query.search q) = None ->
          text (Tasks.Query.status q) = None ->
          text (Tasks.Query.priority q) = None ->
          Tasks.Query.limit q = undefined ->
          exists rows,
            Tasks.get_all user q s = (json 200 rows, s)
            /\ map Tasks.Listed.id rows = [Task.id t2; Task.id t3; Task.id t1]
            /\ map Tasks.Listed.priority rows
               = [Some "high"; Some "medium"; Some "low"])
    /\ (forall q n, parse_limit (Contacts.Query.limit q) = Some n -> 0 <= n ->
                    exists rows,
                      Contacts.get_all user q s = (json 200 rows, s))
    /\ (forall q rows s', Contacts.get_all user q s = (json 200 rows, s') ->
                          StronglySorted contacts_in_order rows)
    /\ (forall q n, parse_limit (Leads.Query.limit q) = Some n -> 0 <= n ->
                    exists rows, Leads.get_all user q s = (json 200 rows, s))
    /\ (forall q rows s', Leads.get_all user q s = (json 200 rows, s') ->
                          StronglySorted leads_in_order rows).
Proof.
  intros user s.
  assert (Hlim : forall A n k (l : list A), n = Some k -> 0 <= k ->
                   limit_rows n l = Some (firstn (Z.to_nat k) l)).
  { intros A n k l -> Hk. unfold limit_rows.
    destruct (Z.ltb_spec k 0); [lia | reflexivity]. }
  assert (Hnewest_total : forall a b : Z,
            newest_first a b = true \/ newest_first b a = true).
  { intros a b. unfold newest_first. rewrite !Z.leb_le. lia. }
  assert (Hnewest_trans : forall a b c : Z,
            newest_first a b = true -> newest_first b c = true ->
            newest_first a c = true).
  { intros a b c. unfold newest_first. rewrite !Z.leb_le. lia. }
  split; [|split; [|split; [|split; [|split; [|split]]]]].
  - intros q n Hn Hpos. rewrite tasks_get_all_runs.
    rewrite (Hlim _ _ n _ Hn Hpos). eauto.
  - intros q rows s' Hrun. rewrite tasks_get_all_runs in Hrun.
    destruct (limit_rows _ _) as [out|] eqn:Hout; [|discriminate].
    inversion Hrun; subst.
    eapply listing_sorted; [| | |exact Hout].
    + intros [a ca] [b cb]. cbn [fst].
      rewrite (list_order_spec a b ca cb), (list_order_spec b a cb ca).
      apply tasks_in_order_total.
    + intros [a ca] [b cb] [c cc]. cbn [fst].
      rewrite (list_order_spec a b ca cb), (list_order_spec b c cb cc),
        (list_order_spec a c ca cc).
      apply tasks_in_order_trans.
    + intros [a ca] [b cb]. cbn [fst]. apply list_order_spec.
  - intros q t1 t2 t3 c Htasks Hnd Hc H1 H2 H3 Hp1 Hp2 Hp3 Hd12 Hd23
      Hsearch Hstatus Hpriority Hlimit.
    rewrite tasks_get_all_runs, Htasks, Hlimit.
    destruct (left_join_one t1 [t2; t3] _ Hnd) as (c1 & ->).
    destruct (left_join_one t2 [t3] _ Hnd) as (c2 & ->).
    destruct (left_join_one t3 [] _ Hnd) as (c3 & ->).
    unfold Tasks.list_where. rewrite Hsearch, Hstatus, Hpriority, Hc.
    cbn [filter fst Tasks.left_join flat_map].
    rewrite H1, H2, H3.
    assert (Hself : holds (str_eq (Some c) (Some c)) = true)
      by (apply holds_str_eq; eauto).
    rewrite Hself.
    unfold order_by, Tasks.list_order. cbn [fold_right insert_by fst].
    rewrite Hp2, Hp3. cbn [Tasks.priority_rank String.eqb Ascii.eqb
      Bool.eqb cmp_nulls_last Z.compare Pos.compare Pos.compare_cont
      then_by not_after insert_by fst].
    rewrite Hp1, ?Hp2, ?Hp3. cbn [Tasks.priority_rank String.eqb Ascii.eqb
      Bool.eqb cmp_nulls_last Z.compare Pos.compare Pos.compare_cont
      then_by not_after insert_by fst].
    rewrite ?Hp1, ?Hp2, ?Hp3. cbn [Tasks.priority_rank String.eqb Ascii.eqb
      Bool.eqb cmp_nulls_last Z.compare Pos.compare Pos.compare_cont
      then_by not_after insert_by fst].
    eexists. split; [reflexivity|].
    rewrite firstn_all2 by (cbn [List.length Z.to_nat]; lia).
    cbn. rewrite Hp1, Hp2, Hp3. auto.
  - intros q n Hn Hpos. rewrite contacts_get_all_runs.
    rewrite (Hlim _ _ n _ Hn Hpos). eauto.
  - intros q rows s' Hrun. rewrite contacts_get_all_runs in Hrun.
    destruct (limit_rows _ _) as [out|] eqn:Hout; [|discriminate].
    inversion Hrun; subst.
    eapply listing_sorted; [| | |exact Hout]; cbv beta; auto.
    + intros a b c. apply Hnewest_trans.
    + intros a b. unfold newest_first, contacts_in_order. simpl.
      now rewrite Z.leb_le.
  - intros q n Hn Hpos. rewrite leads_get_all_runs.
    rewrite (Hlim _ _ n _ Hn Hpos). eauto.
  - intros q rows s' Hrun. rewrite leads_get_all_runs in Hrun.
    destruct (limit_rows _ _) as [out|] eqn:Hout; [|discriminate].
    inversion Hrun; subst.
    eapply listing_sorted; [| | |exact Hout]; cbv beta; auto.
    + intros a b c. apply Hnewest_trans.
    + intros a b. unfold newest_first, leads_in_order. simpl.
      now rewrite Z.leb_le.
Qed.

(** ** GROUP BY *)

Section GroupBy.

Context {R K : Type} (same : K -> K -> bool) (key : R -> K).

Hypothesis same_eq : forall a b, same a b = true <-> a = b.

Lemma same_refl (k : K) : same k k = true.
Proof. now apply same_eq. Qed.

Lemma group_of_add (k : K) (r : R) (groups : list (K * list R)) :
  group_of same k (add_to_group same key r groups) =
  if same (key r) k then
    Some (match group_of same k groups with
          | Some rows => rows ++ [r]
          | None => [r]
          end)
  else group_of same k groups.
Proof.
  induction groups as [|[k' rows] rest IH]; simpl.
  - destruct (same (key r) k); reflexivity.
  - destruct (same k' (key r)) eqn:Hk'; simpl.
    + apply same_eq in Hk'. subst k'.
      destruct (same (key r) k); reflexivity.
    + destruct (same k' k) eqn:Hkk.
      * apply same_eq in Hkk. subst k'.
        destruct (same (key r) k) eqn:Hrk; [|reflexivity].
        apply same_eq in Hrk. subst k. rewrite same_refl in Hk'.
        discriminate.
      * exact IH.
Qed.

Lemma keys_add (r : R) (groups : list (K * list R)) :
  map fst (add_to_group same key r groups) =
  match group_of same (key r) groups with
  | Some _ => map fst groups
  | None => map fst groups ++ [key r]
  end.
Proof.
  induction groups as [|[k' rows] rest IH]; simpl; [reflexivity|].
  destruct (same k' (key r)); simpl; [reflexivity|].
  rewrite IH. destruct (group_of same (key r) rest); reflexivity.
Qed.

Lemma group_of_None (k : K) (groups : list (K * list R)) :
  group_of same k groups = None <-> ~ In k (map fst groups).
Proof.
  induction groups as [|[k' rows] rest IH]; simpl.
  - tauto.
  - destruct (same k' k) eqn:Hk.
    + apply same_eq in Hk. split; [discriminate | tauto].
    + rewrite IH. split.
      * intros Hn [Heq|Hin]; [|tauto].
        subst k'. rewrite same_refl in Hk. discriminate.
      * tauto.
Qed.

Lemma group_of_In (k : K) (rows : list R) (groups : list (K * list R)) :
  NoDup (map fst groups) ->
  (In (k, rows) groups <-> group_of same k groups = Some rows).
Proof.
  induction groups as [|[k' rows'] rest IH]; simpl; intros Hnd.
  - split; [tauto | discriminate].
  - inversion Hnd as [|? ? Hnotin Hnd']; subst.
    destruct (same k' k) eqn:Hk.
    + apply same_eq in Hk. subst k'. split.
      * intros [Heq|Hin]; [congruence|].
        exfalso. apply Hnotin. apply in_map_iff. now exists (k, rows).
      * intros Heq. left. congruence.
    + rewrite <- (IH Hnd'). split; [|tauto].
      intros [Heq|Hin]; [|exact Hin].
      inversion Heq; subst. rewrite same_refl in Hk. discriminate.
Qed.

Lemma grouped_add (r : R) (groups : list (K * list R)) (rows : list R) :
  grouped same key groups rows ->
  grouped same key (add_to_group same key r groups) (rows ++ [r]).
Proof.
  intros [Hnd Hgroups]. split.
  - rewrite keys_add.
    destruct (group_of same (key r) groups) eqn:Hg; [exact Hnd|].
    apply group_of_None in Hg.
    apply NoDup_rev in Hnd. rewrite <- (rev_involutive (_ ++ _)).
    apply NoDup_rev. rewrite rev_app_distr. simpl.
    constructor; [|exact Hnd]. now rewrite <- in_rev.
  - intros k. rewrite group_of_add, Hgroups, filter_app. simpl.
    destruct (same (key r) k) eqn:Hrk.
    + apply same_eq in Hrk. subst k. rewrite same_refl.
      destruct (filter _ rows); reflexivity.
    + assert (Hkr : same k (key r) = false).
      { destruct (same k (key r)) eqn:Hkr; [|reflexivity].
        apply same_eq in Hkr. subst k. rewrite same_refl in Hrk.
        discriminate. }
      rewrite Hkr, app_nil_r. reflexivity.
Qed.

Lemma grouped_fold (rows : list R) :
  forall groups done,
    grouped same key groups done ->
    grouped same key (fold_left (fun g r => add_to_group same key r g) rows groups)
            (done ++ rows).
Proof.
  induction rows as [|r rows IH]; intros groups done Hg; simpl.
  - now rewrite app_nil_r.
  - replace (done ++ r :: rows) with ((done ++ [r]) ++ rows)
      by (rewrite <- app_assoc; reflexivity).
    apply IH. now apply grouped_add.
Qed.

Lemma group_by_grouped (rows : list R) :
  grouped same key (group_by same key rows) rows.
Proof.
  apply (grouped_fold rows [] []). split; [constructor | reflexivity].
Qed.

Lemma group_by_In (rows : list R) (k : K) (rs : list R) :
  In (k, rs) (group_by same key rows) <->
  rs = filter (fun r => same k (key r)) rows /\ rs <> [].
Proof.
  destruct (group_by_grouped rows) as [Hnd Hgroups].
  rewrite (group_of_In k rs _ Hnd), Hgroups.
  destruct (filter _ rows) as [|x l]; split.
  - discriminate.
  - intros [-> Hne]. congruence.
  - intros Heq. inversion Heq. split; [reflexivity | discriminate].
  - intros [-> _]. reflexivity.
Qed.

End GroupBy.

Lemma same_text_eq (a b : option string) : same_text a b = true <-> a = b.
Proof.
  destruct a as [x|], b as [y|]; simpl; split; try congruence.
  - intros Heq. apply String.eqb_eq in Heq. congruence.
  - intros Heq. inversion Heq. apply String.eqb_refl.
Qed.

(** ** The lead pipeline *)

Lemma filter_filter {A} (f g : A -> bool) (l : list A) :
  filter f (filter g l) = filter (fun x => g x && f x) l.
Proof.
  induction l as [|a l IH]; simpl; [reflexivity|].
  destruct (g a); simpl; [|exact IH].
  destruct (f a); now rewrite IH.
Qed.

Lemma stage_rank_place (stage : option string) :
  Leads.stage_rank stage = Z.of_nat (stage_place stage) + 1.
Proof.
  unfold Leads.stage_rank, stage_place, pipeline_sequence.
  destruct stage as [st|]; [|reflexivity]. simpl.
  repeat match goal with
    | |- context [(st =? ?x)%string] => destruct (st =? x)%string
    end; reflexivity.
Qed.

Lemma non_null_Some {A} (l : list A) : non_null (map Some l) = l.
Proof.
  unfold non_null. induction l as [|a l IH]; simpl; [reflexivity|].
  now rewrite IH.
Qed.

Lemma pipeline_runs user s :
  Leads.pipeline user s =
  (json 200
     (order_by (fun a b => Leads.stage_rank (Leads.Pipeline.stage a)
                           <=? Leads.stage_rank (Leads.Pipeline.stage b))
        (map Leads.aggregate
           (group_by same_text Lead.stage
              (filter (fun r => in_company (ReqUser.company_id user)
                                           (Lead.company_id r))
                      (leads s))))), s).
Proof. reflexivity. Qed.

(** C7. The pipeline statistics answer with one group per stage found
    among the caller's leads; each group carries the number of those
    leads, the sum of their values and the average of their probabilities
    (the aggregates skip missing values); the groups follow the sequence
    lead, qualified, proposal, negotiation, closed-won, closed-lost, with
    every other stage after these. *)
Theorem pipeline_groups_by_stage :
  forall (user : ReqUser.t) (s : store),
  exists groups,
    Leads.pipeline user s = (json 200 groups, s)
    /\ NoDup (map Leads.Pipeline.stage groups)
    /\ (forall stage,
          In stage (map Leads.Pipeline.stage groups) <->
          exists l, In l (leads s)
                    /\ in_company (ReqUser.company_id user)
                                  (Lead.company_id l) = true
                    /\ Lead.stage l = stage)
    /\ (forall g, In g groups ->
          Leads.Pipeline.count g
          = Z.of_nat (List.length
                        (leads_in_stage user (Leads.Pipeline.stage g) s))
          /\ Leads.Pipeline.total_value g
             = sql_sum (map Lead.value
                          (leads_in_stage user (Leads.Pipeline.stage g) s))
          /\ Leads.Pipeline.avg_probability g
             = sql_avg (map Lead.probability
                          (leads_in_stage user (Leads.Pipeline.stage g) s))
          /\ (forall vs,
                map Lead.value
                    (leads_in_stage user (Leads.Pipeline.stage g) s)
                = map Some vs ->
                Leads.Pipeline.total_value g = Some (total vs))
          /\ (forall ps,
                map Lead.probability
                    (leads_in_stage user (Leads.Pipeline.stage g) s)
                = map Some ps ->
                exists q, Leads.Pipeline.avg_probability g = Some q
                          /\ q == total ps # Pos.of_nat (List.length ps)))
    /\ StronglySorted pipeline_in_order groups.
Proof.
  intros user s. rewrite pipeline_runs.
  set (mine := filter _ (leads s)).
  set (groups := group_by same_text Lead.stage mine).
  set (leb := fun a b : Leads.Pipeline.t => _ <=? _).
  eexists. split; [reflexivity|].
  assert (Hperm : Permutation (map Leads.aggregate groups)
                              (order_by leb (map Leads.aggregate groups)))
    by apply order_by_perm.
  assert (Hkeys : map Leads.Pipeline.stage (map Leads.aggregate groups)
                  = map fst groups)
    by (rewrite map_map; reflexivity).
  destruct (group_by_grouped same_text Lead.stage same_text_eq mine)
    as [Hnd _]. fold groups in Hnd.
  assert (Hmembers : forall stage,
            filter (fun r => same_text stage (Lead.stage r)) mine
            = leads_in_stage user stage s).
  { intros stage. unfold mine, leads_in_stage. apply filter_filter. }
  split; [|split; [|split]].
  - eapply Permutation_NoDup; [apply Permutation_map, Hperm|].
    now rewrite Hkeys.
  - intros stage.
    assert (Hin : In stage (map Leads.Pipeline.stage
                              (order_by leb (map Leads.aggregate groups)))
                  <-> In stage (map fst groups)).
    { rewrite <- Hkeys. split; apply Permutation_in, Permutation_map;
        [apply Permutation_sym|]; exact Hperm. }
    rewrite Hin. split.
    + intros Hst. apply in_map_iff in Hst.
      destruct Hst as ([k rs] & Hk & Hg). simpl in Hk. subst k.
      apply (group_by_In same_text Lead.stage same_text_eq) in Hg.
      destruct Hg as [-> Hne].
      destruct (filter _ mine) as [|l rest] eqn:Hf; [congruence|].
      apply filter_head_In in Hf. destruct Hf as [Hl Hsame].
      apply same_text_eq in Hsame.
      apply filter_In in Hl. destruct Hl as [Hl Hmine]. eauto.
    + intros (l & Hl & Hmine & Hstage).
      apply in_map_iff.
      exists (stage, filter (fun r => same_text stage (Lead.stage r)) mine).
      split; [reflexivity|].
      apply (group_by_In same_text Lead.stage same_text_eq).
      split; [reflexivity|]. intros Hnil.
      rewrite filter_nil_iff in Hnil. specialize (Hnil l). cbv beta in Hnil.
      assert (Hs : same_text stage (Lead.stage l) = true)
        by (apply same_text_eq; congruence).
      rewrite Hs in Hnil. enough (true = false) by discriminate.
      apply Hnil. apply filter_In. auto.
  - intros g Hg.
    apply (Permutation_in _ (Permutation_sym Hperm)) in Hg.
    apply in_map_iff in Hg. destruct Hg as ([k rs] & <- & Hg).
    apply (group_by_In same_text Lead.stage same_text_eq) in Hg.
    destruct Hg as [-> Hne]. unfold Leads.aggregate. cbn [fst snd
      Leads.Pipeline.stage Leads.Pipeline.count Leads.Pipeline.total_value
      Leads.Pipeline.avg_probability].
    rewrite Hmembers in *.
    split; [reflexivity|]. split; [reflexivity|]. split; [reflexivity|].
    split.
    + intros vs Hvs. unfold sql_sum. rewrite Hvs, non_null_Some.
      destruct vs as [|v vs]; [|reflexivity].
      apply map_eq_nil_iff in Hvs. congruence.
    + intros ps Hps. unfold sql_avg. rewrite Hps, non_null_Some.
      destruct ps as [|p ps].
      * apply map_eq_nil_iff in Hps. congruence.
      * eexists. split; [reflexivity|]. apply Qred_correct.
  - rewrite <- (map_id (order_by leb _)).
    apply StronglySorted_map with (R := fun a b => leb a b = true).
    + intros a b. unfold leb, pipeline_in_order.
      rewrite Z.leb_le, !stage_rank_place. lia.
    + apply order_by_sorted; intros a b; unfold leb; rewrite ?Z.leb_le.
      * lia.
      * intros c. rewrite !Z.leb_le. lia.
Qed.

(** ** Statements scoped by id and company *)

Lemma store_eta (s : store) :
  {| companies := companies s; users := users s; contacts := contacts s;
     leads := leads s; tasks := tasks s |} = s.
Proof. now destruct s. Qed.

Lemma filter_all {A} (f : A -> bool) (l : list A) :
  (forall x, In x l -> f x = true) -> filter f l = l.
Proof.
  induction l as [|a l IH]; simpl; intros Hall; [reflexivity|].
  rewrite (Hall a) by now left. f_equal. apply IH. auto.
Qed.

Lemma filter_negb_of_nil {A} (f : A -> bool) (l : list A) :
  filter f l = [] -> filter (fun x => negb (f x)) l = l.
Proof.
  intros Hnil. apply filter_all. intros x Hx.
  rewrite filter_nil_iff in Hnil. now rewrite (Hnil x Hx).
Qed.

Lemma filter_app_one {A} (f : A -> bool) (l : list A) (x : A) :
  f x = false -> filter f (l ++ [x]) = filter f l.
Proof.
  intros Hx. rewrite filter_app. simpl. rewrite Hx. apply app_nil_r.
Qed.

Lemma foreign_false cid rc : foreign cid rc = false <-> rc = cid.
Proof.
  unfold foreign. rewrite negb_false_iff. apply same_text_eq.
Qed.

Lemma foreign_true cid rc : foreign cid rc = true <-> rc <> cid.
Proof.
  unfold foreign. rewrite negb_true_iff, <- not_true_iff_false.
  now rewrite same_text_eq.
Qed.

Lemma in_company_own cid rc : in_company cid rc = true -> rc = cid.
Proof.
  rewrite in_company_true. intros (c & -> & ->). reflexivity.
Qed.

Lemma in_company_not_foreign cid rc :
  in_company cid rc = true -> foreign cid rc = false.
Proof. intros Hin. apply foreign_false. now apply in_company_own. Qed.

Section Scoped.

Context {R : Type} (rid : R -> uuid) (rco : R -> option uuid).

Let scoped (id : uuid) (cid : option uuid) (r : R) : bool :=
  id_and_company id cid (rid r) (rco r).

Lemma scoped_own id cid r :
  scoped id cid r = true -> rid r = id /\ rco r = cid /\ cid <> None.
Proof.
  unfold scoped. rewrite id_and_company_true.
  intros [Hid (c & Hc & ->)]. repeat split; auto. discriminate.
Qed.

Lemma scoped_not_foreign id cid r :
  scoped id cid r = true -> foreign cid (rco r) = false.
Proof.
  intros Hs. apply foreign_false. now apply scoped_own in Hs.
Qed.

Lemma delete_keeps_foreign id cid (rows : list R) :
  filter (fun r => foreign cid (rco r))
         (filter (fun r => negb (scoped id cid r)) rows)
  = filter (fun r => foreign cid (rco r)) rows.
Proof.
  rewrite filter_filter. apply filter_ext. intros r.
  destruct (scoped id cid r) eqn:Hs; simpl; [|reflexivity].
  now rewrite (scoped_not_foreign id cid r Hs).
Qed.

Lemma insert_keeps_foreign cid (rows : list R) (r : R) :
  rco r = cid ->
  filter (fun r => foreign cid (rco r)) (rows ++ [r])
  = filter (fun r => foreign cid (rco r)) rows.
Proof.
  intros Hr. apply filter_app_one. now apply foreign_false.
Qed.

Lemma foreign_id_matches_nothing id cid (rows : list R) (r : R) :
  NoDup (map rid rows) -> In r rows -> rid r = id -> rco r <> cid ->
  filter (scoped id cid) rows = [].
Proof.
  intros Hnd Hin Hid Hco. apply filter_nil_iff. intros x Hx.
  destruct (scoped id cid x) eqn:Hs; [|reflexivity].
  apply scoped_own in Hs. destruct Hs as (Hxid & Hxco & _).
  assert (x = r).
  { clear Hco Hxco. induction rows as [|a rows IH]; [contradiction|].
    inversion Hnd as [|? ? Hnotin Hnd']; subst.
    destruct Hin as [->|Hin], Hx as [->|Hx]; auto.
    - exfalso. apply Hnotin. apply in_map_iff. exists x. auto.
    - exfalso. apply Hnotin. apply in_map_iff. exists r. auto. }
  subst x. contradiction.
Qed.

(** UPDATE ... WHERE id = $i AND company_id = $c *)

Variable set : R -> option R.

Lemma update_where_no_match (p : R -> bool) (rows : list R) :
  filter p rows = [] -> update_where p set rows = Some (rows, []).
Proof.
  induction rows as [|r rows IH]; simpl; [reflexivity|].
  destruct (p r) eqn:Hp; [discriminate|].
  intros Hnil. now rewrite (IH Hnil).
Qed.

Lemma update_where_rejected (p : R -> bool) (rows : list R) (r : R) :
  In r rows -> p r = true -> set r = None ->
  update_where p set rows = None.
Proof.
  induction rows as [|a rows IH]; simpl; [contradiction|].
  intros [->|Hin] Hp Hset.
  - destruct (update_where p set rows) as [[rest ret]|]; [|reflexivity].
    now rewrite Hp, Hset.
  - now rewrite (IH Hin Hp Hset).
Qed.

Lemma update_where_accepted (p : R -> bool) (rows : list R) :
  (forall r, In r rows -> p r = true -> set r <> None) ->
  exists rows' returning,
    update_where p set rows = Some (rows', returning).
Proof.
  induction rows as [|a rows IH]; simpl; intros Hall; [eauto|].
  destruct IH as (rows' & ret & ->); [auto|].
  destruct (p a) eqn:Hp; [|eauto].
  destruct (set a) eqn:Hset; [eauto|].
  exfalso. now apply (Hall a (or_introl eq_refl) Hp).
Qed.

Lemma update_where_rows (p : R -> bool) (rows rows' returning : list R) :
  update_where p set rows = Some (rows', returning) ->
  Forall2 (fun old new => if p old then set old = Some new else new = old)
          rows rows'
  /\ (forall new, In new returning <->
                  exists old, In old rows /\ p old = true
                              /\ set old = Some new)
  /\ (forall new, In new returning -> In new rows').
Proof.
  revert rows' returning.
  induction rows as [|a rows IH]; simpl; intros rows' ret Hup.
  - inversion Hup; subst. repeat split; try constructor; try contradiction.
    intros (old & [] & _).
  - destruct (update_where p set rows) as [[rest ret0]|]; [|discriminate].
    destruct (IH rest ret0 eq_refl) as (Hrows & Hret & Hin).
    destruct (p a) eqn:Hp.
    + destruct (set a) as [a'|] eqn:Hset; [|discriminate].
      inversion Hup; subst. split; [|split].
      * constructor; [now rewrite Hp | exact Hrows].
      * intros new. simpl. rewrite Hret. split.
        -- intros [<-|(old & Ho & Hpo & Hso)]; eauto 6.
        -- intros (old & [<-|Ho] & Hpo & Hso); [left; congruence|eauto 6].
      * intros new [<-|Hnew]; simpl; auto.
    + inversion Hup; subst. split; [|split].
      * constructor; [now rewrite Hp | exact Hrows].
      * intros new. rewrite Hret. split.
        -- intros (old & Ho & Hpo & Hso). eauto 6.
        -- intros (old & [<-|Ho] & Hpo & Hso); [congruence|eauto 6].
      * intros new Hnew. simpl. auto.
Qed.

Lemma update_keeps_foreign id cid (rows rows' returning : list R) :
  (forall old new, set old = Some new -> rco new = rco old) ->
  update_where (scoped id cid) set rows = Some (rows', returning) ->
  filter (fun r => foreign cid (rco r)) rows'
  = filter (fun r => foreign cid (rco r)) rows.
Proof.
  intros Hkeeps Hup. apply update_where_rows in Hup.
  destruct Hup as (Hrows & _ & _).
  induction Hrows as [|old new rows rows' Hone Hrest IH]; simpl;
    [reflexivity|].
  destruct (scoped id cid old) eqn:Hs.
  - rewrite (Hkeeps _ _ Hone), (scoped_not_foreign id cid old Hs). exact IH.
  - subst new. now rewrite IH.
Qed.

End Scoped.

(** ** The contact routes, computed *)

Lemma contacts_get_one_runs user id s :
  Contacts.get_one user id s =
  (match filter (Contacts.scoped id (ReqUser.company_id user)) (contacts s)
   with
   | [] => error 404 "Contact not found"
   | row :: _ => json 200 row
   end, s).
Proof.
  unfold Contacts.get_one, try_catch, bind, Contacts.select_one, query.
  destruct (filter _ (contacts s)); reflexivity.
Qed.

Lemma contacts_put_runs now user id body s :
  Contacts.put now user id body s =
  match update_where (Contacts.scoped id (ReqUser.company_id user))
          (Contacts.set now body) (contacts s) with
  | Some (rows, []) =>
      (error 404 "Contact not found", with_contacts s rows)
  | Some (rows, row :: _) => (json 200 row, with_contacts s rows)
  | None => (error 500 "Failed to update contact", s)
  end.
Proof.
  unfold Contacts.put, try_catch, bind, Contacts.update, statement.
  destruct (update_where _ _ _) as [[rows [|row ret]]|]; reflexivity.
Qed.

Lemma contacts_delete_runs now user id s :
  Contacts.delete now user id s =
  match filter (Contacts.scoped id (ReqUser.company_id user)) (contacts s)
  with
  | [] => (error 404 "Contact not found", s)
  | row :: rest =>
      (json 200 "Contact deleted successfully",
       {| companies := companies s; users := users s;
          contacts := filter (fun r => negb (Contacts.scoped id
                                               (ReqUser.company_id user) r))
                             (contacts s);
          leads := leads s;
          tasks := map (Contacts.set_null now
                          (map Contact.id (row :: rest))) (tasks s) |})
  end.
Proof.
  unfold Contacts.delete, try_catch, bind, Contacts.delete_from, statement.
  destruct (filter _ (contacts s)) as [|row rest] eqn:Hf; cbn [map];
    [|reflexivity].
  rewrite (filter_negb_of_nil _ _ Hf).
  replace (map (Contacts.set_null now []) (tasks s)) with (tasks s).
  - now rewrite store_eta.
  - symmetry. rewrite <- (map_id (tasks s)) at 2. apply map_ext.
    intros t. unfold Contacts.set_null, sql_in.
    destruct (Task.contact_id t); reflexivity.
Qed.

Lemma contacts_post_runs now new_id user body s :
  Contacts.post now new_id user body s =
  match text (Contacts.Body.name body) with
  | None => (error 400 "Name is required", s)
  | Some n =>
      if pk_free new_id (map Contact.id (contacts s))
         && fk_ok (ReqUser.company_id user) (map Company.id (companies s))
      then
        let r :=
          {| Contact.id := new_id;
             Contact.company_id := ReqUser.company_id user;
             Contact.name := n;
             Contact.email := param (Contacts.Body.email body);
             Contact.phone := param (Contacts.Body.phone body);
             Contact.position := param (Contacts.Body.position body);
             Contact.company_name := param (Contacts.Body.company_name body);
             Contact.status :=
               param (default "prospect" (Contacts.Body.status body));
             Contact.value := Some (or_zero (Contacts.Body.value body));
             Contact.notes := param (Contacts.Body.notes body);
             Contact.last_contact := Some (current_date now);
             Contact.tags := [];
             Contact.created_at := now;
             Contact.updated_at := now |} in
        (json 201 r, with_contacts s (contacts s ++ [r]))
      else (error 500 "Failed to create contact", s)
  end.
Proof.
  unfold Contacts.post, try_catch, truthy.
  destruct (text (Contacts.Body.name body)) as [n|] eqn:Hn; [|reflexivity].
  apply text_Some in Hn. destruct Hn as [Hn _]. rewrite Hn.
  unfold bind, Contacts.insert, statement. cbn [negb param].
  destruct (pk_free _ _ && fk_ok _ _); reflexivity.
Qed.

(** ** What a contact update leaves alone *)

Lemma contacts_set_keeps now body old new :
  Contacts.set now body old = Some new ->
  Contact.id new = Contact.id old
  /\ Contact.company_id new = Contact.company_id old
  /\ Contact.created_at new = Contact.created_at old
  /\ Contact.last_contact new = Contact.last_contact old
  /\ Contact.tags new = Contact.tags old.
Proof.
  unfold Contacts.set. destruct (param (Contacts.Body.name body));
    [|discriminate].
  intros Heq. inversion Heq; subst. simpl. auto.
Qed.

(** C10. A successful contact update leaves the other tables as they
    were, keeps every contact it does not address identical, and keeps the
    id, company_id, created_at, last_contact and tags of the contact it
    rewrites: only name, email, phone, position, company_name, value,
    notes, status and updated_at can differ. *)
Theorem contact_update_frame :
  forall now (user : ReqUser.t) id body s row s',
    Contacts.put now user id body s = (json 200 row, s') ->
    companies s' = companies s
    /\ users s' = users s
    /\ leads s' = leads s
    /\ tasks s' = tasks s
    /\ Forall2
         (fun old new =>
            Contact.id new = Contact.id old
            /\ Contact.company_id new = Contact.company_id old
            /\ Contact.created_at new = Contact.created_at old
            /\ Contact.last_contact new = Contact.last_contact old
            /\ Contact.tags new = Contact.tags old
            /\ (Contacts.scoped id (ReqUser.company_id user) old = false ->
                new = old))
         (contacts s) (contacts s')
    /\ In row (contacts s')
    /\ Contact.id row = id
    /\ Contact.company_id row = ReqUser.company_id user.
Proof.
  intros now user id body s row s' Hput.
  rewrite contacts_put_runs in Hput.
  destruct (update_where _ _ _) as [[rows [|r ret]]|] eqn:Hup;
    try discriminate.
  inversion Hput; subst; clear Hput. cbn [with_contacts companies users
    leads tasks contacts].
  apply update_where_rows in Hup. destruct Hup as (Hrows & Hret & Hin).
  repeat split; auto.
  - eapply Forall2_impl; [|exact Hrows]. intros old new Hone. cbv beta in Hone.
    destruct (Contacts.scoped id (ReqUser.company_id user) old) eqn:Hs.
    + apply contacts_set_keeps in Hone. intuition discriminate.
    + subst new. intuition.
  - apply Hin. now left.
  - destruct (proj1 (Hret row) (or_introl eq_refl)) as (old & _ & Hs & Hset).
    apply contacts_set_keeps in Hset.
    apply (scoped_own Contact.id Contact.company_id) in Hs.
    destruct Hset as (-> & _). tauto.
  - destruct (proj1 (Hret row) (or_introl eq_refl)) as (old & _ & Hs & Hset).
    apply contacts_set_keeps in Hset.
    apply (scoped_own Contact.id Contact.company_id) in Hs.
    destruct Hset as (_ & -> & _). tauto.
Qed.

(** ** The lead routes, computed *)

Lemma leads_get_one_runs user id s :
  Leads.get_one user id s =
  (match filter (Leads.scoped id (ReqUser.company_id user)) (leads s) with
   | [] => error 404 "Lead not found"
   | row :: _ => json 200 row
   end, s).
Proof.
  unfold Leads.get_one, try_catch, bind, Leads.select_one, query.
  destruct (filter _ (leads s)); reflexivity.
Qed.

Lemma leads_put_runs now user id body s :
  Leads.put now user id body s =
  match update_where (Leads.scoped id (ReqUser.company_id user))
          (Leads.set now body) (leads s) with
  | Some (rows, []) => (error 404 "Lead not found", with_leads s rows)
  | Some (rows, row :: _) => (json 200 row, with_leads s rows)
  | None => (error 500 "Failed to update lead", s)
  end.
Proof.
  unfold Leads.put, try_catch, bind, Leads.update, statement.
  destruct (update_where _ _ _) as [[rows [|row ret]]|]; reflexivity.
Qed.

Lemma leads_delete_runs user id s :
  Leads.delete user id s =
  match filter (Leads.scoped id (ReqUser.company_id user)) (leads s) with
  | [] => (error 404 "Lead not found", s)
  | _ :: _ =>
      (json 200 "Lead deleted successfully",
       with_leads s
         (filter (fun r => negb (Leads.scoped id (ReqUser.company_id user) r))
                 (leads s)))
  end.
Proof.
  unfold Leads.delete, try_catch, bind, Leads.delete_from, statement.
  destruct (filter _ (leads s)) as [|row rest] eqn:Hf; cbn [map];
    [|reflexivity].
  rewrite (filter_negb_of_nil _ _ Hf). unfold with_leads.
  now rewrite store_eta.
Qed.

Lemma leads_post_runs now new_id user body s :
  Leads.post now new_id user body s =
  match text (Leads.Body.title body) with
  | None => (error 400 "Title is required", s)
  | Some t =>
      if pk_free new_id (map Lead.id (leads s))
         && fk_ok (ReqUser.company_id user) (map Company.id (companies s))
         && probability_check (param (default 10 (Leads.Body.probability body)))
      then
        let r :=
          {| Lead.id := new_id;
             Lead.company_id := ReqUser.company_id user;
             Lead.title := t;
             Lead.company_name := param (Leads.Body.company_name body);
             Lead.contact_name := param (Leads.Body.contact_name body);
             Lead.value := Some (or_zero (Leads.Body.value body));
             Lead.stage := param (default "lead" (Leads.Body.stage body));
             Lead.probability :=
               param (default 10 (Leads.Body.probability body));
             Lead.expected_close := param (Leads.Body.expected_close body);
             Lead.source := param (Leads.Body.source body);
             Lead.notes := param (Leads.Body.notes body);
             Lead.tags := [];
             Lead.created_at := now;
             Lead.updated_at := now |} in
        (json 201 r, with_leads s (leads s ++ [r]))
      else (error 500 "Failed to create lead", s)
  end.
Proof.
  unfold Leads.post, try_catch, truthy.
  destruct (text (Leads.Body.title body)) as [t|] eqn:Ht; [|reflexivity].
  apply text_Some in Ht. destruct Ht as [Ht _]. rewrite Ht.
  unfold bind, Leads.insert, statement. cbn [negb param].
  destruct (pk_free _ _ && fk_ok _ _ && probability_check _); reflexivity.
Qed.

Lemma leads_set_keeps now body old new :
  Leads.set now body old = Some new ->
  Lead.id new = Lead.id old
  /\ Lead.company_id new = Lead.company_id old
  /\ Lead.probability new = param (Leads.Body.probability body)
  /\ probability_check (Lead.probability new) = true.
Proof.
  unfold Leads.set. destruct (param (Leads.Body.title body)); [|discriminate].
  destruct (probability_check _) eqn:Hc; [|discriminate].
  intros Heq. inversion Heq; subst. simpl. auto.
Qed.

Lemma probability_check_range (p : option Z) :
  probability_check p = true <->
  p = None \/ exists x, p = Some x /\ 0 <= x <= 100.
Proof.
  unfold probability_check. destruct p as [x|]; simpl.
  - destruct (Z.leb_spec 0 x), (Z.leb_spec x 100); simpl; split;
      try discriminate; try (intros _; right; exists x; split; [auto|lia]);
      try (intros [Hn|(y & Hy & Hr)]; [discriminate|];
           inversion Hy; subst; lia); auto.
  - split; auto.
Qed.

(** ** The task routes, computed *)

Lemma tasks_get_one_runs user id s :
  Tasks.get_one user id s =
  (match filter (fun tc => Tasks.scoped id (ReqUser.company_id user) (fst tc))
                (Tasks.left_join (tasks s) (contacts s)) with
   | [] => error 404 "Task not found"
   | row :: _ => json 200 (Tasks.detailed row)
   end, s).
Proof.
  unfold Tasks.get_one, try_catch, bind, Tasks.select_one, query.
  destruct (filter _ (Tasks.left_join _ _)); reflexivity.
Qed.

Lemma verify_contact_runs contact_id company_id s :
  Tasks.verify_contact contact_id company_id s =
  (Done match text contact_id with
        | Some c =>
            match filter (Contacts.scoped c company_id) (contacts s) with
            | [] => false
            | _ :: _ => true
            end
        | None => true
        end, s).
Proof.
  unfold Tasks.verify_contact, truthy.
  destruct (text contact_id) as [c|] eqn:Hc; [|reflexivity].
  apply text_Some in Hc. destruct Hc as [-> _].
  unfold bind, Tasks.contact_check, query, ret. cbn [param].
  change (fun c0 : Contact.row =>
            holds (sql_and (str_eq (Some (Contact.id c0)) (Some c))
                           (str_eq (Contact.company_id c0) company_id)))
    with (Contacts.scoped c company_id).
  destruct (filter _ (contacts s)); reflexivity.
Qed.

Lemma tasks_put_runs now user id body s :
  Tasks.put now user id body s =
  match fst (Tasks.verify_contact (Tasks.Body.contact_id body)
                                  (ReqUser.company_id user) s) with
  | Done true =>
      match update_where (Tasks.scoped id (ReqUser.company_id user))
              (Tasks.set now body (map Contact.id (contacts s))) (tasks s)
      with
      | Some (rows, []) => (error 404 "Task not found", with_tasks s rows)
      | Some (rows, row :: _) => (json 200 row, with_tasks s rows)
      | None => (error 500 "Failed to update task", s)
      end
  | _ => (error 400 "Invalid contact ID", s)
  end.
Proof.
  unfold Tasks.put, try_catch, bind. rewrite verify_contact_runs. cbn [fst].
  destruct (match text _ with Some _ => _ | None => _ end); [|reflexivity].
  cbn [negb]. unfold Tasks.update, statement.
  destruct (update_where _ _ _) as [[rows [|row ret]]|]; reflexivity.
Qed.

Lemma tasks_delete_runs user id s :
  Tasks.delete user id s =
  match filter (Tasks.scoped id (ReqUser.company_id user)) (tasks s) with
  | [] => (error 404 "Task not found", s)
  | _ :: _ =>
      (json 200 "Task deleted successfully",
       with_tasks s
         (filter (fun r => negb (Tasks.scoped id (ReqUser.company_id user) r))
                 (tasks s)))
  end.
Proof.
  unfold Tasks.delete, try_catch, bind, Tasks.delete_from, statement.
  destruct (filter _ (tasks s)) as [|row rest] eqn:Hf; cbn [map];
    [|reflexivity].
  rewrite (filter_negb_of_nil _ _ Hf). unfold with_tasks.
  now rewrite store_eta.
Qed.

Lemma tasks_post_runs now new_id user body s :
  Tasks.post now new_id user body s =
  match text (Tasks.Body.title body) with
  | None => (error 400 "Title is required", s)
  | Some t =>
      match fst (Tasks.verify_contact (Tasks.Body.contact_id body)
                                      (ReqUser.company_id user) s) with
      | Done true =>
          if pk_free new_id (map Task.id (tasks s))
             && fk_ok (ReqUser.company_id user) (map Company.id (companies s))
             && fk_ok (param (Tasks.Body.contact_id body))
                      (map Contact.id (contacts s))
             && priority_check
                  (param (default "medium" (Tasks.Body.priority body)))
             && status_check
                  (param (default "pending" (Tasks.Body.status body)))
          then
            let r :=
              {| Task.id := new_id;
                 Task.company_id := ReqUser.company_id user;
                 Task.contact_id := param (Tasks.Body.contact_id body);
                 Task.title := t;
                 Task.description := param (Tasks.Body.description body);
                 Task.due_date := param (Tasks.Body.due_date body);
                 Task.priority :=
                   param (default "medium" (Tasks.Body.priority body));
                 Task.status :=
                   param (default "pending" (Tasks.Body.status body));
                 Task.created_at := now;
                 Task.updated_at := now |} in
            (json 201 r, with_tasks s (tasks s ++ [r]))
          else (error 500 "Failed to create task", s)
      | _ => (error 400 "Invalid contact ID", s)
      end
  end.
Proof.
  unfold Tasks.post, try_catch, truthy.
  destruct (text (Tasks.Body.title body)) as [t|] eqn:Ht; [|reflexivity].
  apply text_Some in Ht. destruct Ht as [Ht _]. rewrite Ht.
  cbn [negb]. unfold bind. rewrite verify_contact_runs. cbn [fst].
  destruct (match text _ with Some _ => _ | None => _ end); [|reflexivity].
  cbn [negb]. unfold Tasks.insert, statement. cbn [param].
  destruct (pk_free _ _ && fk_ok _ _ && fk_ok _ _ && priority_check _
            && status_check _); reflexivity.
Qed.

(** ** The contact of a task *)

(** On parameters of the column types: the contact check of the task
    routes, and a create without contact_id. *)
Lemma bound_task_contact :
  forall now new_id (user : ReqUser.t) body s,
    (forall c,
       text (Tasks.Body.contact_id body) = Some c ->
       (forall r, In r (contacts s) ->
                  Contacts.scoped c (ReqUser.company_id user) r = false) ->
       (exists msg, Tasks.post now new_id user body s = (error 400 msg, s))
       /\ forall id,
            Tasks.put now user id body s = (error 400 "Invalid contact ID", s))
    /\ (forall t,
          param (Tasks.Body.contact_id body) = None ->
          text (Tasks.Body.title body) = Some t ->
          priority_check (param (default "medium" (Tasks.Body.priority body)))
          = true ->
          status_check (param (default "pending" (Tasks.Body.status body)))
          = true ->
          pk_free new_id (map Task.id (tasks s)) = true ->
          fk_ok (ReqUser.company_id user) (map Company.id (companies s))
          = true ->
          exists row,
            Tasks.post now new_id user body s
            = (json 201 row, with_tasks s (tasks s ++ [row]))
            /\ Task.id row = new_id
            /\ Task.company_id row = ReqUser.company_id user
            /\ Task.contact_id row = None
            /\ Task.title row = t)
    /\ (forall t,
          param (Tasks.Body.contact_id body) = None ->
          text (Tasks.Body.title body) = Some t ->
          priority_check (param (default "medium" (Tasks.Body.priority body)))
          && status_check (param (default "pending" (Tasks.Body.status body)))
          = false ->
          Tasks.post now new_id user body s
          = (error 500 "Failed to create task", s))
    /\ (forall c r,
          text (Tasks.Body.contact_id body) = Some c ->
          In r (contacts s) ->
          Contacts.scoped c (ReqUser.company_id user) r = true ->
          fst (Tasks.verify_contact (Tasks.Body.contact_id body)
                                    (ReqUser.company_id user) s) = Done true).
Proof.
  intros now new_id user body s.
  assert (Htext : param (Tasks.Body.contact_id body) = None ->
                  text (Tasks.Body.contact_id body) = None).
  { destruct (Tasks.Body.contact_id body); try reflexivity. discriminate. }
  split; [|split; [|split]].
  - intros c Hc Hnone.
    assert (Hf : filter (Contacts.scoped c (ReqUser.company_id user))
                        (contacts s) = [])
      by now apply filter_nil_iff.
    split.
    + rewrite tasks_post_runs, verify_contact_runs, Hc, Hf. cbn [fst].
      destruct (text (Tasks.Body.title body)); eauto.
    + intros id. rewrite tasks_put_runs, verify_contact_runs, Hc, Hf.
      reflexivity.
  - intros t Hnone Htitle Hpriority Hstatus Hpk Hfk.
    rewrite tasks_post_runs, verify_contact_runs, Htitle.
    rewrite (Htext Hnone), Hnone, Hpriority, Hstatus, Hpk, Hfk. cbn.
    eexists. split; [reflexivity|]. cbn. auto.
  - intros t Hnone Htitle Hrefused.
    rewrite tasks_post_runs, verify_contact_runs, Htitle.
    rewrite (Htext Hnone). cbn [fst].
    rewrite <- !andb_assoc, Hrefused, !andb_false_r. reflexivity.
  - intros c r Hc Hin Hscoped. rewrite verify_contact_runs, Hc. cbn [fst].
    destruct (filter _ (contacts s)) eqn:Hf; [|reflexivity].
    rewrite filter_nil_iff in Hf. rewrite (Hf r Hin) in Hscoped.
    discriminate.
Qed.

(** ** Updates replace the whole row *)

Section Replace.

Context {R : Type} (set : R -> option R) (p : R -> bool).

Lemma update_matched (rows : list R) (old : R) :
  In old rows -> p old = true ->
  (forall r, set r <> None) ->
  exists rows' row rest,
    update_where p set rows = Some (rows', row :: rest)
    /\ Forall2 (fun o n => if p o then set o = Some n else n = o) rows rows'
    /\ (exists o, In o rows /\ p o = true /\ set o = Some row)
    /\ In row rows'.
Proof.
  intros Hold Hp Hset.
  destruct (update_where_accepted set p rows) as (rows' & ret & Hup);
    [auto|].
  pose proof (update_where_rows _ _ _ _ _ Hup) as (Hrows & Hret & Hin).
  destruct ret as [|row rest].
  - exfalso. destruct (set old) as [new|] eqn:Hnew.
    + apply (proj2 (Hret new)). eauto.
    + now apply (Hset old).
  - exists rows', row, rest. repeat split; auto.
    + apply Hret. now left.
    + apply Hin. now left.
Qed.

End Replace.

Lemma contacts_set_overwrites now body old new :
  Contacts.set now body old = Some new ->
  contact_overwritten now body new /\ Contact.id new = Contact.id old.
Proof.
  unfold Contacts.set, contact_overwritten.
  destruct (param (Contacts.Body.name body)); [|discriminate].
  intros Heq. inversion Heq; subst. simpl. tauto.
Qed.

Lemma contacts_set_accepts now body r :
  Contacts.set now body r = None <-> contact_accepted body = false.
Proof.
  unfold Contacts.set, contact_accepted, present.
  destruct (param (Contacts.Body.name body)); split; congruence.
Qed.

Lemma leads_set_overwrites now body old new :
  Leads.set now body old = Some new ->
  lead_overwritten now body new /\ Lead.id new = Lead.id old.
Proof.
  unfold Leads.set, lead_overwritten.
  destruct (param (Leads.Body.title body)); [|discriminate].
  destruct (probability_check _); [|discriminate].
  intros Heq. inversion Heq; subst. simpl. tauto.
Qed.

Lemma leads_set_accepts now body r :
  Leads.set now body r = None <-> lead_accepted body = false.
Proof.
  unfold Leads.set, lead_accepted, present.
  destruct (param (Leads.Body.title body)); cbn [andb];
    [|split; congruence].
  destruct (probability_check _); split; congruence.
Qed.

Lemma tasks_set_overwrites now body ids old new :
  Tasks.set now body ids old = Some new ->
  task_overwritten now body new /\ Task.id new = Task.id old.
Proof.
  unfold Tasks.set, task_overwritten.
  destruct (param (Tasks.Body.title body)); [|discriminate].
  destruct (fk_ok _ _ && priority_check _ && status_check _);
    [|discriminate].
  intros Heq. inversion Heq; subst. simpl. tauto.
Qed.

Lemma tasks_set_accepts now body s r :
  Tasks.set now body (map Contact.id (contacts s)) r = None <->
  task_accepted body s = false.
Proof.
  unfold Tasks.set, task_accepted, present.
  destruct (param (Tasks.Body.title body)); cbn [andb];
    [|split; congruence].
  destruct (fk_ok _ _ && priority_check _ && status_check _);
    split; congruence.
Qed.

Lemma with_contacts_same s : with_contacts s (contacts s) = s.
Proof. apply store_eta. Qed.

Lemma with_leads_same s : with_leads s (leads s) = s.
Proof. apply store_eta. Qed.

Lemma with_tasks_same s : with_tasks s (tasks s) = s.
Proof. apply store_eta. Qed.

Lemma verify_contact_verified user body s :
  fst (Tasks.verify_contact (Tasks.Body.contact_id body)
                            (ReqUser.company_id user) s) = Done true
  <-> contact_verified user body s.
Proof.
  rewrite verify_contact_runs. unfold contact_verified. cbn [fst].
  destruct (text (Tasks.Body.contact_id body)) as [c|]; [|tauto].
  destruct (filter _ (contacts s)) as [|r rest] eqn:Hf; split.
  - discriminate.
  - intros (r & Hin & Hs). rewrite filter_nil_iff in Hf.
    rewrite (Hf r Hin) in Hs. discriminate.
  - intros _. apply filter_head_In in Hf. eauto.
  - reflexivity.
Qed.

Lemma verify_contact_refuses user body s :
  ~ contact_verified user body s ->
  fst (Tasks.verify_contact (Tasks.Body.contact_id body)
                            (ReqUser.company_id user) s) = Done false.
Proof.
  intros Hno. rewrite <- verify_contact_verified in Hno.
  rewrite verify_contact_runs in *. cbn [fst] in *.
  destruct (match text _ with Some _ => _ | None => _ end);
    [now elim Hno | reflexivity].
Qed.

Lemma contacts_put_replaces now user id body s old :
  In old (contacts s) ->
  Contacts.scoped id (ReqUser.company_id user) old = true ->
  (contact_accepted body = true ->
   exists row s',
     Contacts.put now user id body s = (json 200 row, s')
     /\ contact_overwritten now body row
     /\ Contact.id row = id
     /\ In row (contacts s')
     /\ Forall2 (fun o n =>
                   if Contacts.scoped id (ReqUser.company_id user) o
                   then contact_overwritten now body n
                        /\ Contact.id n = Contact.id o
                   else n = o)
                (contacts s) (contacts s'))
  /\ (contact_accepted body = false ->
      Contacts.put now user id body s
      = (error 500 "Failed to update contact", s)).
Proof.
  intros Hold Hscoped. rewrite contacts_put_runs. split; intros Hacc.
  - destruct (update_matched (Contacts.set now body) _ _ old Hold Hscoped)
      as (rows' & row & rest & -> & Hrows & (o & Ho & Hso & Hset) & Hin).
    { intros r Hnone. apply contacts_set_accepts in Hnone. congruence. }
    exists row, (with_contacts s rows'). split; [reflexivity|].
    apply contacts_set_overwrites in Hset. destruct Hset as [Hw Hid].
    apply (scoped_own Contact.id Contact.company_id) in Hso.
    split; [exact Hw|]. split; [rewrite Hid; tauto|].
    split; [exact Hin|].
    eapply Forall2_impl; [|exact Hrows]. intros a b Hab. cbv beta in Hab.
    destruct (Contacts.scoped id (ReqUser.company_id user) a); [|exact Hab].
    now apply contacts_set_overwrites in Hab.
  - rewrite (update_where_rejected (Contacts.set now body) _ _ old Hold
               Hscoped); [reflexivity|].
    now apply contacts_set_accepts.
Qed.

Lemma leads_put_replaces now user id body s old :
  In old (leads s) ->
  Leads.scoped id (ReqUser.company_id user) old = true ->
  (lead_accepted body = true ->
   exists row s',
     Leads.put now user id body s = (json 200 row, s')
     /\ lead_overwritten now body row
     /\ Lead.id row = id
     /\ In row (leads s')
     /\ Forall2 (fun o n =>
                   if Leads.scoped id (ReqUser.company_id user) o
                   then lead_overwritten now body n /\ Lead.id n = Lead.id o
                   else n = o)
                (leads s) (leads s'))
  /\ (lead_accepted body = false ->
      Leads.put now user id body s = (error 500 "Failed to update lead", s)).
Proof.
  intros Hold Hscoped. rewrite leads_put_runs. split; intros Hacc.
  - destruct (update_matched (Leads.set now body) _ _ old Hold Hscoped)
      as (rows' & row & rest & -> & Hrows & (o & Ho & Hso & Hset) & Hin).
    { intros r Hnone. apply leads_set_accepts in Hnone. congruence. }
    exists row, (with_leads s rows'). split; [reflexivity|].
    apply leads_set_overwrites in Hset. destruct Hset as [Hw Hid].
    apply (scoped_own Lead.id Lead.company_id) in Hso.
    split; [exact Hw|]. split; [rewrite Hid; tauto|].
    split; [exact Hin|].
    eapply Forall2_impl; [|exact Hrows]. intros a b Hab. cbv beta in Hab.
    destruct (Leads.scoped id (ReqUser.company_id user) a); [|exact Hab].
    now apply leads_set_overwrites in Hab.
  - rewrite (update_where_rejected (Leads.set now body) _ _ old Hold
               Hscoped); [reflexivity|].
    now apply leads_set_accepts.
Qed.

Lemma tasks_put_replaces now user id body s old :
  contact_verified user body s ->
  In old (tasks s) ->
  Tasks.scoped id (ReqUser.company_id user) old = true ->
  (task_accepted body s = true ->
   exists row s',
     Tasks.put now user id body s = (json 200 row, s')
     /\ task_overwritten now body row
     /\ Task.id row = id
     /\ In row (tasks s')
     /\ Forall2 (fun o n =>
                   if Tasks.scoped id (ReqUser.company_id user) o
                   then task_overwritten now body n /\ Task.id n = Task.id o
                   else n = o)
                (tasks s) (tasks s'))
  /\ (task_accepted body s = false ->
      Tasks.put now user id body s = (error 500 "Failed to update task", s)).
Proof.
  intros Hverified Hold Hscoped. rewrite tasks_put_runs.
  rewrite (proj2 (verify_contact_verified user body s) Hverified).
  split; intros Hacc.
  - destruct (update_matched
                (Tasks.set now body (map Contact.id (contacts s)))
                _ _ old Hold Hscoped)
      as (rows' & row & rest & -> & Hrows & (o & Ho & Hso & Hset) & Hin).
    { intros r Hnone. apply tasks_set_accepts in Hnone. congruence. }
    exists row, (with_tasks s rows'). split; [reflexivity|].
    apply tasks_set_overwrites in Hset. destruct Hset as [Hw Hid].
    apply (scoped_own Task.id Task.company_id) in Hso.
    split; [exact Hw|]. split; [rewrite Hid; tauto|].
    split; [exact Hin|].
    eapply Forall2_impl; [|exact Hrows]. intros a b Hab. cbv beta in Hab.
    destruct (Tasks.scoped id (ReqUser.company_id user) a); [|exact Hab].
    now apply tasks_set_overwrites in Hab.
  - rewrite (update_where_rejected
               (Tasks.set now body (map Contact.id (contacts s))) _ _ old
               Hold Hscoped); [reflexivity|].
    now apply tasks_set_accepts.
Qed.

(** ** Tenant isolation *)

Lemma listing_In {A} (leb : A -> A -> bool) (f : A -> bool) (n : option Z)
  (rows out : list A) (r : A) :
  limit_rows n (order_by leb (filter f rows)) = Some out ->
  In r out -> In r rows /\ f r = true.
Proof.
  intros Hlim Hr. apply limit_rows_Some in Hlim.
  destruct Hlim as (k & _ & _ & ->).
  apply firstn_In, order_by_In, filter_In in Hr. exact Hr.
Qed.

Lemma holds_and_left (p q : sql_bool) :
  holds (sql_and p q) = true -> holds p = true.
Proof. intros Hpq. now apply holds_sql_and in Hpq. Qed.

Lemma contacts_list_where_own cid q r :
  holds (Contacts.list_where cid q r) = true ->
  Contact.company_id r = cid /\ cid <> None.
Proof.
  unfold Contacts.list_where.
  destruct (text (Contacts.Query.search q)),
           (text (Contacts.Query.status q));
    intros Hw; repeat apply holds_and_left in Hw;
    apply holds_str_eq in Hw; destruct Hw as (c & -> & ->);
    (split; [reflexivity | discriminate]).
Qed.

Lemma leads_list_where_own cid q r :
  holds (Leads.list_where cid q r) = true ->
  Lead.company_id r = cid /\ cid <> None.
Proof.
  unfold Leads.list_where.
  destruct (text (Leads.Query.search q)), (text (Leads.Query.stage q));
    intros Hw; repeat apply holds_and_left in Hw;
    apply holds_str_eq in Hw; destruct Hw as (c & -> & ->);
    (split; [reflexivity | discriminate]).
Qed.

Lemma tasks_list_where_own cid q r :
  holds (Tasks.list_where cid q r) = true ->
  Task.company_id r = cid /\ cid <> None.
Proof.
  unfold Tasks.list_where.
  destruct (text (Tasks.Query.search q)), (text (Tasks.Query.status q)),
           (text (Tasks.Query.priority q));
    intros Hw; repeat apply holds_and_left in Hw;
    apply holds_str_eq in Hw; destruct Hw as (c & -> & ->);
    (split; [reflexivity | discriminate]).
Qed.

Lemma left_join_In ts cs t c :
  In (t, c) (Tasks.left_join ts cs) ->
  In t ts
  /\ match c with
     | Some r => In r cs /\ Task.contact_id t = Some (Contact.id r)
     | None => True
     end.
Proof.
  unfold Tasks.left_join. rewrite in_flat_map.
  intros (t' & Ht' & Hin).
  destruct (filter _ cs) as [|m ms] eqn:Hf.
  - destruct Hin as [Heq|[]]. inversion Heq; subst. auto.
  - apply in_map_iff in Hin. destruct Hin as (r & Heq & Hr).
    inversion Heq; subst. split; [exact Ht'|].
    rewrite <- Hf in Hr. apply filter_In in Hr. destruct Hr as [Hr Hm].
    apply holds_str_eq in Hm. destruct Hm as (a & Ha & Hb).
    split; [exact Hr | congruence].
Qed.

Lemma untouched_refl cid s : other_tenants_untouched cid s s.
Proof. unfold other_tenants_untouched. auto. Qed.

Lemma filter_map_same {A} (p : A -> bool) (f : A -> A) (l : list A) :
  (forall x, In x l -> p (f x) = p x /\ (p x = true -> f x = x)) ->
  filter p (map f l) = filter p l.
Proof.
  induction l as [|a l IH]; simpl; intros Hall; [reflexivity|].
  destruct (Hall a (or_introl eq_refl)) as [Hp Hf]. rewrite Hp.
  destruct (p a) eqn:Hpa.
  - rewrite (Hf eq_refl). f_equal. apply IH. auto.
  - apply IH. auto.
Qed.

Lemma set_null_company now deleted t :
  Task.company_id (Contacts.set_null now deleted t) = Task.company_id t.
Proof.
  unfold Contacts.set_null. destruct (holds _); reflexivity.
Qed.

Lemma contacts_isolated now new_id (user : ReqUser.t) id body s :
  contacts_isolation now new_id user id body s.
Proof.
  unfold contacts_isolation.
  set (cid := ReqUser.company_id user).
  split; [|split; [|split; [|split; [|split; [|split; [|split; [|split;
    [|split]]]]]]]].
  - intros q. rewrite contacts_get_all_runs.
    destruct (limit_rows _ _); reflexivity.
  - intros q rows Hrun x Hx. rewrite contacts_get_all_runs in Hrun.
    destruct (limit_rows _ _) as [out|] eqn:Hout; [|discriminate].
    inversion Hrun; subst. apply in_map_iff in Hx.
    destruct Hx as (r & <- & Hr).
    destruct (listing_In _ _ _ _ _ r Hout Hr) as [Hin Hw].
    apply contacts_list_where_own in Hw. exists r. tauto.
  - now rewrite contacts_get_one_runs.
  - intros row. rewrite contacts_get_one_runs. cbn [fst].
    destruct (filter _ (contacts s)) as [|r rest] eqn:Hf; [discriminate|].
    intros Heq. inversion Heq; subst. apply filter_head_In in Hf.
    destruct Hf as [Hin Hs].
    apply (scoped_own Contact.id Contact.company_id) in Hs. tauto.
  - rewrite contacts_post_runs.
    destruct (text (Contacts.Body.name body)); [|apply untouched_refl].
    destruct (pk_free _ _ && fk_ok _ _); [|apply untouched_refl].
    unfold other_tenants_untouched. cbn.
    repeat split; auto.
    now apply (insert_keeps_foreign Contact.company_id).
  - intros row. rewrite contacts_post_runs.
    destruct (text (Contacts.Body.name body)); [|discriminate].
    destruct (pk_free _ _ && fk_ok _ _); [|discriminate].
    cbn. intros Heq. inversion Heq; subst. auto.
  - rewrite contacts_put_runs.
    destruct (update_where _ _ _) as [[rows ret]|] eqn:Hup;
      [|apply untouched_refl].
    assert (Hkeep : filter (fun r => foreign cid (Contact.company_id r)) rows
                    = filter (fun r => foreign cid (Contact.company_id r))
                             (contacts s)).
    { eapply (update_keeps_foreign Contact.id Contact.company_id);
        [|exact Hup].
      intros old new Hset. now apply contacts_set_keeps in Hset. }
    destruct ret; unfold other_tenants_untouched; cbn; auto.
  - intros row. rewrite contacts_put_runs.
    destruct (update_where _ _ _) as [[rows [|r ret]]|] eqn:Hup;
      try discriminate.
    cbn. intros Heq. inversion Heq; subst.
    apply update_where_rows in Hup. destruct Hup as (_ & Hret & _).
    destruct (proj1 (Hret row) (or_introl eq_refl)) as (old & _ & Hs & Hset).
    apply contacts_set_keeps in Hset.
    apply (scoped_own Contact.id Contact.company_id) in Hs.
    destruct Hset as (-> & -> & _). tauto.
  - intros Hwf. rewrite contacts_delete_runs.
    destruct (filter _ (contacts s)) as [|row rest] eqn:Hf;
      [apply untouched_refl|].
    unfold other_tenants_untouched. cbn [snd companies users contacts leads
      tasks].
    repeat split; auto.
    + apply (delete_keeps_foreign Contact.id Contact.company_id).
    + apply filter_map_same. intros t Ht.
      rewrite set_null_company. split; [reflexivity|].
      intros Hforeign. unfold Contacts.set_null.
      destruct (holds (sql_in (Task.contact_id t) _)) eqn:Hin;
        [|reflexivity].
      exfalso. unfold sql_in in Hin.
      destruct (Task.contact_id t) as [c|] eqn:Hc; [|discriminate].
      cbn [holds] in Hin.
      destruct (existsb _ _) eqn:Hex; [|discriminate].
      apply existsb_exists in Hex. destruct Hex as (k & Hk & Heq).
      apply String.eqb_eq in Heq. subst k.
      rewrite <- Hf in Hk. apply in_map_iff in Hk.
      destruct Hk as (r & Hr & Hrin). apply filter_In in Hrin.
      destruct Hrin as [Hrin Hs].
      apply (scoped_own Contact.id Contact.company_id) in Hs.
      apply foreign_true in Hforeign. apply Hforeign.
      rewrite <- (Hwf t c r Ht Hc Hrin Hr). tauto.
  - intros r Hnd Hin Hid Hco.
    pose proof (foreign_id_matches_nothing Contact.id Contact.company_id
                  id cid (contacts s) r Hnd Hin Hid Hco) as Hnone.
    change (filter (Contacts.scoped id cid) (contacts s) = []) in Hnone.
    rewrite contacts_get_one_runs, contacts_put_runs, contacts_delete_runs.
    fold cid. rewrite Hnone, (update_where_no_match _ _ _ Hnone).
    now rewrite with_contacts_same.
Qed.

Lemma leads_isolated now new_id (user : ReqUser.t) id body s :
  leads_isolation now new_id user id body s.
Proof.
  unfold leads_isolation.
  set (cid := ReqUser.company_id user).
  split; [|split; [|split; [|split; [|split; [|split; [|split; [|split;
    [|split; [|split; [|split]]]]]]]]]].
  - intros q. rewrite leads_get_all_runs.
    destruct (limit_rows _ _); reflexivity.
  - intros q rows Hrun x Hx. rewrite leads_get_all_runs in Hrun.
    destruct (limit_rows _ _) as [out|] eqn:Hout; [|discriminate].
    inversion Hrun; subst. apply in_map_iff in Hx.
    destruct Hx as (r & <- & Hr).
    destruct (listing_In _ _ _ _ _ r Hout Hr) as [Hin Hw].
    apply leads_list_where_own in Hw. exists r. tauto.
  - now rewrite leads_get_one_runs.
  - intros row. rewrite leads_get_one_runs. cbn [fst].
    destruct (filter _ (leads s)) as [|r rest] eqn:Hf; [discriminate|].
    intros Heq. inversion Heq; subst. apply filter_head_In in Hf.
    destruct Hf as [Hin Hs].
    apply (scoped_own Lead.id Lead.company_id) in Hs. tauto.
  - rewrite leads_post_runs.
    destruct (text (Leads.Body.title body)); [|apply untouched_refl].
    destruct (pk_free _ _ && fk_ok _ _ && probability_check _);
      [|apply untouched_refl].
    unfold other_tenants_untouched. cbn.
    repeat split; auto.
    now apply (insert_keeps_foreign Lead.company_id).
  - intros row. rewrite leads_post_runs.
    destruct (text (Leads.Body.title body)); [|discriminate].
    destruct (pk_free _ _ && fk_ok _ _ && probability_check _);
      [|discriminate].
    cbn. intros Heq. inversion Heq; subst. auto.
  - rewrite leads_put_runs.
    destruct (update_where _ _ _) as [[rows ret]|] eqn:Hup;
      [|apply untouched_refl].
    assert (Hkeep : filter (fun r => foreign cid (Lead.company_id r)) rows
                    = filter (fun r => foreign cid (Lead.company_id r))
                             (leads s)).
    { eapply (update_keeps_foreign Lead.id Lead.company_id); [|exact Hup].
      intros old new Hset. now apply leads_set_keeps in Hset. }
    destruct ret; unfold other_tenants_untouched; cbn; auto.
  - intros row. rewrite leads_put_runs.
    destruct (update_where _ _ _) as [[rows [|r ret]]|] eqn:Hup;
      try discriminate.
    cbn. intros Heq. inversion Heq; subst.
    apply update_where_rows in Hup. destruct Hup as (_ & Hret & _).
    destruct (proj1 (Hret row) (or_introl eq_refl)) as (old & _ & Hs & Hset).
    apply leads_set_keeps in Hset.
    apply (scoped_own Lead.id Lead.company_id) in Hs.
    destruct Hset as (-> & -> & _). tauto.
  - rewrite leads_delete_runs.
    destruct (filter _ (leads s)) as [|row rest] eqn:Hf;
      [apply untouched_refl|].
    unfold other_tenants_untouched. cbn. repeat split; auto.
    apply (delete_keeps_foreign Lead.id Lead.company_id).
  - intros r Hnd Hin Hid Hco.
    pose proof (foreign_id_matches_nothing Lead.id Lead.company_id
                  id cid (leads s) r Hnd Hin Hid Hco) as Hnone.
    change (filter (Leads.scoped id cid) (leads s) = []) in Hnone.
    rewrite leads_get_one_runs, leads_put_runs, leads_delete_runs.
    fold cid. rewrite Hnone, (update_where_no_match _ _ _ Hnone).
    now rewrite with_leads_same.
  - reflexivity.
  - intros s2 Hsame. rewrite !pipeline_runs. cbn [fst]. fold cid.
    fold cid in Hsame. now rewrite Hsame.
Qed.

Lemma left_join_no_match (p : Task.row -> bool) ts cs :
  filter p ts = [] ->
  filter (fun tc => p (fst tc)) (Tasks.left_join ts cs) = [].
Proof.
  intros Hnone. apply filter_nil_iff. intros [t c] Htc.
  apply left_join_In in Htc. destruct Htc as [Ht _].
  rewrite filter_nil_iff in Hnone. now apply Hnone.
Qed.

Lemma tasks_set_keeps now body ids old new :
  Tasks.set now body ids old = Some new ->
  Task.id new = Task.id old /\ Task.company_id new = Task.company_id old.
Proof.
  unfold Tasks.set. destruct (param (Tasks.Body.title body));
    [|discriminate].
  destruct (fk_ok _ _ && priority_check _ && status_check _);
    [|discriminate].
  intros Heq. inversion Heq; subst. simpl. auto.
Qed.

Lemma overview_runs user s :
  Tasks.overview user s =
  (json 200
     (order_by (fun a b => not_after (Tasks.overview_order a b))
        (map Tasks.count_group
           (group_by Tasks.same_key Tasks.key
              (filter (fun t => in_company (ReqUser.company_id user)
                                           (Task.company_id t))
                      (tasks s))))), s).
Proof. reflexivity. Qed.

Lemma tasks_isolated now new_id (user : ReqUser.t) id body s :
  tasks_isolation now new_id user id body s.
Proof.
  unfold tasks_isolation.
  set (cid := ReqUser.company_id user).
  assert (Hcontact : forall t c, In (t, c) (Tasks.left_join (tasks s)
                                               (contacts s)) ->
            Task.company_id t = cid ->
            references_own_company s ->
            forall r, c = Some r -> Contact.company_id r = cid).
  { intros t c Htc Hco Hwf r ->. apply left_join_In in Htc.
    destruct Htc as (Ht & Hr & Hc).
    rewrite <- Hco. now apply (Hwf t (Contact.id r) r). }
  split; [|split; [|split; [|split; [|split; [|split; [|split; [|split;
    [|split; [|split; [|split]]]]]]]]]].
  - intros q. rewrite tasks_get_all_runs.
    destruct (limit_rows _ _); reflexivity.
  - intros q rows Hrun x Hx. rewrite tasks_get_all_runs in Hrun.
    destruct (limit_rows _ _) as [out|] eqn:Hout; [|discriminate].
    inversion Hrun; subst. apply in_map_iff in Hx.
    destruct Hx as ([t c] & <- & Hr).
    destruct (listing_In _ _ _ _ _ (t, c) Hout Hr) as [Hin Hw].
    cbn [fst] in Hw. apply tasks_list_where_own in Hw.
    exists t, c. pose proof (left_join_In _ _ _ _ Hin) as [Ht _].
    repeat split; try tauto. apply (Hcontact t c Hin). tauto.
  - now rewrite tasks_get_one_runs.
  - intros row. rewrite tasks_get_one_runs. cbn [fst].
    destruct (filter _ (Tasks.left_join _ _)) as [|[t c] rest] eqn:Hf;
      [discriminate|].
    intros Heq. inversion Heq; subst. apply filter_head_In in Hf.
    destruct Hf as [Hin Hs]. cbn [fst] in Hs.
    apply (scoped_own Task.id Task.company_id) in Hs.
    pose proof (left_join_In _ _ _ _ Hin) as [Ht _].
    exists t, c. repeat split; try tauto. apply (Hcontact t c Hin). tauto.
  - rewrite tasks_post_runs.
    destruct (text (Tasks.Body.title body)); [|apply untouched_refl].
    destruct (fst (Tasks.verify_contact _ _ _)) as [[|]|];
      try apply untouched_refl.
    destruct (pk_free _ _ && fk_ok _ _ && fk_ok _ _ && priority_check _
              && status_check _); [|apply untouched_refl].
    unfold other_tenants_untouched. cbn.
    repeat split; auto.
    now apply (insert_keeps_foreign Task.company_id).
  - intros row. rewrite tasks_post_runs.
    destruct (text (Tasks.Body.title body)); [|discriminate].
    destruct (fst (Tasks.verify_contact _ _ _)) as [[|]|];
      try discriminate.
    destruct (pk_free _ _ && fk_ok _ _ && fk_ok _ _ && priority_check _
              && status_check _); [|discriminate].
    cbn. intros Heq. inversion Heq; subst. auto.
  - rewrite tasks_put_runs.
    destruct (fst (Tasks.verify_contact _ _ _)) as [[|]|];
      try apply untouched_refl.
    destruct (update_where _ _ _) as [[rows ret]|] eqn:Hup;
      [|apply untouched_refl].
    assert (Hkeep : filter (fun r => foreign cid (Task.company_id r)) rows
                    = filter (fun r => foreign cid (Task.company_id r))
                             (tasks s)).
    { eapply (update_keeps_foreign Task.id Task.company_id); [|exact Hup].
      intros old new Hset. now apply tasks_set_keeps in Hset. }
    destruct ret; unfold other_tenants_untouched; cbn; auto.
  - intros row. rewrite tasks_put_runs.
    destruct (fst (Tasks.verify_contact _ _ _)) as [[|]|];
      try discriminate.
    destruct (update_where _ _ _) as [[rows [|r ret]]|] eqn:Hup;
      try discriminate.
    cbn. intros Heq. inversion Heq; subst.
    apply update_where_rows in Hup. destruct Hup as (_ & Hret & _).
    destruct (proj1 (Hret row) (or_introl eq_refl)) as (old & _ & Hs & Hset).
    apply tasks_set_keeps in Hset.
    apply (scoped_own Task.id Task.company_id) in Hs.
    destruct Hset as (-> & ->). tauto.
  - rewrite tasks_delete_runs.
    destruct (filter _ (tasks s)) as [|row rest] eqn:Hf;
      [apply untouched_refl|].
    unfold other_tenants_untouched. cbn. repeat split; auto.
    apply (delete_keeps_foreign Task.id Task.company_id).
  - intros t Hnd Hin Hid Hco.
    pose proof (foreign_id_matches_nothing Task.id Task.company_id
                  id cid (tasks s) t Hnd Hin Hid Hco) as Hnone.
    change (filter (Tasks.scoped id cid) (tasks s) = []) in Hnone.
    rewrite tasks_get_one_runs, tasks_put_runs, tasks_delete_runs.
    fold cid. rewrite Hnone, (update_where_no_match _ _ _ Hnone).
    rewrite (left_join_no_match _ _ _ Hnone), with_tasks_same.
    subst cid. repeat split.
    + intros Hv. now rewrite (proj2 (verify_contact_verified user body s) Hv).
    + intros Hv. now rewrite (verify_contact_refuses user body s Hv).
  - reflexivity.
  - intros s2 Hsame. rewrite !overview_runs. cbn [fst]. fold cid.
    fold cid in Hsame. now rewrite Hsame.
Qed.


(** ** The routes keep the store well formed *)

Lemma NoDup_map_filter {A B} (key : A -> B) (keep : A -> bool)
  (rows : list A) :
  NoDup (map key rows) -> NoDup (map key (filter keep rows)).
Proof.
  intros Hnd. induction rows as [|a rows IH]; simpl; [constructor|].
  simpl in Hnd. inversion Hnd as [|? ? Hnotin Hnd']; subst.
  destruct (keep a); simpl; [|auto].
  constructor; [|auto].
  intros Hin. apply Hnotin. apply in_map_iff in Hin.
  destruct Hin as (x & Hx & Hxin). apply filter_In in Hxin.
  apply in_map_iff. exists x. tauto.
Qed.

Lemma NoDup_map_app_one {A B} (f : A -> B) (l : list A) (x : A) :
  NoDup (map f l) -> ~ In (f x) (map f l) -> NoDup (map f (l ++ [x])).
Proof.
  intros Hnd Hnotin. rewrite map_app. simpl.
  apply NoDup_rev in Hnd. rewrite <- (rev_involutive (_ ++ _)).
  apply NoDup_rev. rewrite rev_app_distr. simpl.
  constructor; [|exact Hnd]. now rewrite <- in_rev.
Qed.

Lemma pk_free_not_In id ids : pk_free id ids = true -> ~ In id ids.
Proof.
  unfold pk_free. rewrite negb_true_iff. intros Hex Hin.
  assert (existsb (String.eqb id) ids = true).
  { apply existsb_exists. exists id. split; [exact Hin|].
    apply String.eqb_refl. }
  congruence.
Qed.

Lemma fk_ok_In k ids : fk_ok (Some k) ids = true -> In k ids.
Proof.
  simpl. intros Hex. apply existsb_exists in Hex.
  destruct Hex as (x & Hx & Heq). apply String.eqb_eq in Heq. now subst.
Qed.

Lemma update_where_map {R B} (f : R -> B) (p : R -> bool)
  (set : R -> option R) (rows rows' returning : list R) :
  (forall o n, set o = Some n -> f n = f o) ->
  update_where p set rows = Some (rows', returning) ->
  map f rows' = map f rows.
Proof.
  intros Hkeeps Hup. apply update_where_rows in Hup.
  destruct Hup as (Hrows & _ & _).
  induction Hrows as [|o n rows rows' Hone _ IH]; simpl; [reflexivity|].
  rewrite IH. f_equal. destruct (p o); [eauto | now subst].
Qed.

Lemma well_formed_references s :
  well_formed s -> references_own_company s.
Proof.
  intros (Hnd & _ & _ & _ & Hfk) t c r Ht Hc Hr Hid.
  destruct (Hfk t c Ht Hc) as (r' & Hr' & Hid' & Hco).
  assert (r = r'); [|now subst].
  clear - Hnd Hr Hr' Hid Hid'. subst c.
  induction (contacts s) as [|a l IH]; [contradiction|].
  simpl in Hnd. inversion Hnd as [|? ? Hnotin Hnd']; subst.
  destruct Hr as [->|Hr], Hr' as [->|Hr']; auto.
  - exfalso. apply Hnotin. apply in_map_iff. exists r'. auto.
  - exfalso. apply Hnotin. apply in_map_iff. exists r. auto.
Qed.

Lemma contacts_post_well_formed now new_id user body s :
  well_formed s -> new_id <> "" ->
  well_formed (snd (Contacts.post now new_id user body s)).
Proof.
  intros Hwf Hid. rewrite contacts_post_runs.
  destruct (text (Contacts.Body.name body)); [|exact Hwf].
  destruct (pk_free _ _) eqn:Hpk; cbn [andb]; [|exact Hwf].
  destruct (fk_ok _ _); [|exact Hwf].
  destruct Hwf as (Hc & Hl & Ht & Hne & Hfk).
  unfold well_formed. cbn [snd with_contacts contacts leads tasks].
  split; [|split; [|split; [|split]]]; auto.
  - apply NoDup_map_app_one; [exact Hc|]. now apply pk_free_not_In.
  - intros r Hr. apply in_app_or in Hr.
    destruct Hr as [Hr|[<-|[]]]; [now apply Hne | exact Hid].
  - intros t c Hin Hcid. destruct (Hfk t c Hin Hcid) as (r & Hr & Hrest).
    exists r. split; [apply in_or_app; now left | exact Hrest].
Qed.

Lemma Forall2_In_right {A} (P : A -> A -> Prop) (l l' : list A) (y : A) :
  Forall2 P l l' -> In y l' -> exists x, In x l /\ P x y.
Proof.
  induction 1 as [|a b l l' Hab _ IH]; simpl; [contradiction|].
  intros [<-|Hy]; [eauto|].
  destruct (IH Hy) as (x & Hx & Hp). eauto.
Qed.

Lemma Forall2_In_left {A} (P : A -> A -> Prop) (l l' : list A) (x : A) :
  Forall2 P l l' -> In x l -> exists y, In y l' /\ P x y.
Proof.
  induction 1 as [|a b l l' Hab _ IH]; simpl; [contradiction|].
  intros [<-|Hx]; [eauto|].
  destruct (IH Hx) as (y & Hy & Hp). eauto.
Qed.

Lemma contacts_put_well_formed now user id body s :
  well_formed s -> well_formed (snd (Contacts.put now user id body s)).
Proof.
  intros Hwf. rewrite contacts_put_runs.
  destruct (update_where _ _ _) as [[rows ret]|] eqn:Hup; [|exact Hwf].
  assert (Hids : map Contact.id rows = map Contact.id (contacts s)).
  { eapply update_where_map; [|exact Hup].
    intros o n Hset. now apply contacts_set_keeps in Hset. }
  pose proof (update_where_rows _ _ _ _ _ Hup) as (Hrows & _ & _).
  destruct Hwf as (Hc & Hl & Ht & Hne & Hfk).
  assert (Hwf' : well_formed (with_contacts s rows)).
  { unfold well_formed. cbn [with_contacts contacts leads tasks].
    split; [|split; [|split; [|split]]]; auto.
    - now rewrite Hids.
    - intros r Hr.
      destruct (Forall2_In_right _ _ _ r Hrows Hr) as (o & Ho & Hone).
      cbv beta in Hone.
      destruct (Contacts.scoped id (ReqUser.company_id user) o).
      + apply contacts_set_keeps in Hone. destruct Hone as (-> & _).
        now apply Hne.
      + subst r. now apply Hne.
    - intros t c Hin Hcid. destruct (Hfk t c Hin Hcid) as (r & Hr & Hi & Hco).
      destruct (Forall2_In_left _ _ _ r Hrows Hr) as (n & Hn & Hone).
      cbv beta in Hone. exists n. split; [exact Hn|].
      destruct (Contacts.scoped id (ReqUser.company_id user) r).
      + apply contacts_set_keeps in Hone.
        destruct Hone as (-> & -> & _). auto.
      + subst n. auto. }
  destruct ret; exact Hwf'.
Qed.

Lemma contacts_delete_well_formed now user id s :
  well_formed s -> well_formed (snd (Contacts.delete now user id s)).
Proof.
  intros Hwf. rewrite contacts_delete_runs.
  destruct (filter _ (contacts s)) as [|row rest] eqn:Hf; [exact Hwf|].
  destruct Hwf as (Hc & Hl & Ht & Hne & Hfk).
  cbn [snd]. unfold well_formed. cbn [contacts leads tasks].
  split; [|split; [|split; [|split]]]; auto.
  - now apply NoDup_map_filter.
  - rewrite map_map.
    replace (map (fun x => Task.id (Contacts.set_null now
                                      (map Contact.id (row :: rest)) x))
                 (tasks s)) with (map Task.id (tasks s)); [exact Ht|].
    apply map_ext. intros t. unfold Contacts.set_null.
    destruct (holds _); reflexivity.
  - intros r Hr. apply filter_In in Hr. now apply Hne.
  - intros t' c Hin Hcid. apply in_map_iff in Hin.
    destruct Hin as (t & <- & Hin). revert Hcid.
    unfold Contacts.set_null.
    destruct (holds (sql_in (Task.contact_id t) _)) eqn:Hdel;
      cbn [Task.contact_id Task.company_id]; [discriminate|].
    intros Hcid. destruct (Hfk t c Hin Hcid) as (r & Hr & Hi & Hco).
    exists r. split; [|auto]. apply filter_In. split; [exact Hr|].
    apply negb_true_iff.
    destruct (Contacts.scoped id (ReqUser.company_id user) r) eqn:Hs;
      [|reflexivity].
    exfalso. rewrite Hcid in Hdel. unfold sql_in in Hdel. cbn [holds] in Hdel.
    assert (Hex : existsb (String.eqb c) (map Contact.id (row :: rest))
                  = true).
    { apply existsb_exists. exists c. split; [|apply String.eqb_refl].
      rewrite <- Hf. apply in_map_iff. exists r.
      split; [exact Hi|]. apply filter_In. auto. }
    rewrite Hex in Hdel. discriminate.
Qed.

Lemma leads_routes_well_formed now new_id user id body s :
  well_formed s ->
  well_formed (snd (Leads.post now new_id user body s))
  /\ well_formed (snd (Leads.put now user id body s))
  /\ well_formed (snd (Leads.delete user id s)).
Proof.
  intros Hwf. pose proof Hwf as (Hc & Hl & Ht & Hne & Hfk).
  split; [|split].
  - rewrite leads_post_runs.
    destruct (text (Leads.Body.title body)); [|exact Hwf].
    destruct (pk_free _ _) eqn:Hpk; cbn [andb]; [|exact Hwf].
    destruct (fk_ok _ _ && probability_check _); [|exact Hwf].
    unfold well_formed. cbn [snd with_leads contacts leads tasks].
    split; [|split; [|split; [|split]]]; auto.
    apply NoDup_map_app_one; [exact Hl|]. now apply pk_free_not_In.
  - rewrite leads_put_runs.
    destruct (update_where _ _ _) as [[rows ret]|] eqn:Hup; [|exact Hwf].
    assert (Hids : map Lead.id rows = map Lead.id (leads s)).
    { eapply update_where_map; [|exact Hup].
      intros o n Hset. now apply leads_set_keeps in Hset. }
    assert (Hwf' : well_formed (with_leads s rows)).
    { unfold well_formed. cbn [with_leads contacts leads tasks].
      split; [|split; [|split; [|split]]]; auto. now rewrite Hids. }
    destruct ret; exact Hwf'.
  - rewrite leads_delete_runs.
    destruct (filter _ (leads s)); [exact Hwf|].
    unfold well_formed. cbn [snd with_leads contacts leads tasks].
    split; [|split; [|split; [|split]]]; auto. now apply NoDup_map_filter.
Qed.

Lemma param_text (x : js string) (c : string) :
  param x = Some c -> text x = Some c \/ (c = "" /\ text x = None).
Proof.
  destruct x as [| |a]; simpl; try discriminate.
  intros Heq. inversion Heq; subst.
  destruct (String.eqb_spec c ""); auto.
Qed.

(** The contact a task route writes is one of the caller's company,
    provided the check let the payload through and the foreign key
    accepted it. *)
Lemma verified_contact_is_own user body s c :
  (forall r, In r (contacts s) -> Contact.id r <> "") ->
  contact_verified user body s ->
  fk_ok (param (Tasks.Body.contact_id body)) (map Contact.id (contacts s))
  = true ->
  param (Tasks.Body.contact_id body) = Some c ->
  exists r, In r (contacts s) /\ Contact.id r = c
            /\ Contact.company_id r = ReqUser.company_id user.
Proof.
  intros Hne Hverified Hfk Hc. unfold contact_verified in Hverified.
  destruct (param_text _ _ Hc) as [Ht|[-> Ht]]; rewrite Ht in Hverified.
  - destruct Hverified as (r & Hr & Hs).
    apply (scoped_own Contact.id Contact.company_id) in Hs.
    exists r. tauto.
  - exfalso. rewrite Hc in Hfk. apply fk_ok_In in Hfk.
    apply in_map_iff in Hfk. destruct Hfk as (r & Hid & Hr).
    now apply (Hne r Hr).
Qed.

Lemma tasks_routes_well_formed now new_id user id body s :
  well_formed s ->
  well_formed (snd (Tasks.post now new_id user body s))
  /\ well_formed (snd (Tasks.put now user id body s))
  /\ well_formed (snd (Tasks.delete user id s)).
Proof.
  intros Hwf. pose proof Hwf as (Hc & Hl & Ht & Hne & Hfk).
  split; [|split].
  - rewrite tasks_post_runs.
    destruct (text (Tasks.Body.title body)); [|exact Hwf].
    destruct (fst (Tasks.verify_contact _ _ _)) as [[|]|] eqn:Hv;
      try exact Hwf.
    apply verify_contact_verified in Hv.
    destruct (pk_free _ _) eqn:Hpk; cbn [andb]; [|exact Hwf].
    destruct (fk_ok (ReqUser.company_id user) _); cbn [andb]; [|exact Hwf].
    destruct (fk_ok (param _) _) eqn:Hfkc; cbn [andb]; [|exact Hwf].
    destruct (priority_check _ && status_check _); [|exact Hwf].
    unfold well_formed. cbn [snd with_tasks contacts leads tasks].
    split; [|split; [|split; [|split]]]; auto.
    + apply NoDup_map_app_one; [exact Ht|]. now apply pk_free_not_In.
    + intros t c Hin Hcid. apply in_app_or in Hin.
      destruct Hin as [Hin|[<-|[]]]; [now apply Hfk|].
      cbn [Task.contact_id Task.company_id] in *.
      now apply (verified_contact_is_own user body s c).
  - rewrite tasks_put_runs.
    destruct (fst (Tasks.verify_contact _ _ _)) as [[|]|] eqn:Hv;
      try exact Hwf.
    apply verify_contact_verified in Hv.
    destruct (update_where _ _ _) as [[rows ret]|] eqn:Hup; [|exact Hwf].
    assert (Hids : map Task.id rows = map Task.id (tasks s)).
    { eapply update_where_map; [|exact Hup].
      intros o n Hset. now apply tasks_set_keeps in Hset. }
    pose proof (update_where_rows _ _ _ _ _ Hup) as (Hrows & _ & _).
    assert (Hwf' : well_formed (with_tasks s rows)).
    { unfold well_formed. cbn [with_tasks contacts leads tasks].
      split; [|split; [|split; [|split]]]; auto.
      - now rewrite Hids.
      - intros t c Hin Hcid.
        destruct (Forall2_In_right _ _ _ t Hrows Hin) as (o & Ho & Hone).
        cbv beta in Hone.
        destruct (Tasks.scoped id (ReqUser.company_id user) o) eqn:Hs.
        + apply (scoped_own Task.id Task.company_id) in Hs.
          pose proof (tasks_set_keeps _ _ _ _ _ Hone) as (_ & Hco).
          pose proof (tasks_set_overwrites _ _ _ _ _ Hone)
            as ((_ & _ & _ & _ & _ & Hcontact & _) & _).
          rewrite Hco. replace (Task.company_id o)
            with (ReqUser.company_id user) by (symmetry; tauto).
          apply (verified_contact_is_own user body s c); auto.
          * revert Hone. unfold Tasks.set.
            destruct (param (Tasks.Body.title body)); [|discriminate].
            destruct (fk_ok _ _); [reflexivity | discriminate].
          * congruence.
        + subst t. now apply Hfk. }
    destruct ret; exact Hwf'.
  - rewrite tasks_delete_runs.
    destruct (filter _ (tasks s)); [exact Hwf|].
    unfold well_formed. cbn [snd with_tasks contacts leads tasks].
    split; [|split; [|split; [|split]]]; auto.
    + now apply NoDup_map_filter.
    + intros t c Hin Hcid. apply filter_In in Hin. now apply Hfk.
Qed.

Lemma register_keeps_records JWT_SECRET now company_uuid user_uuid salt
  body s :
  contacts (snd (AuthRoutes.register JWT_SECRET now company_uuid user_uuid
                   salt body s)) = contacts s
  /\ leads (snd (AuthRoutes.register JWT_SECRET now company_uuid user_uuid
                   salt body s)) = leads s
  /\ tasks (snd (AuthRoutes.register JWT_SECRET now company_uuid user_uuid
                   salt body s)) = tasks s.
Proof.
  unfold AuthRoutes.register, try_catch, AuthRoutes.register_body_io, bind,
    AuthRoutes.select_users_by_email, query, AuthRoutes.insert_company,
    AuthRoutes.insert_user, AuthRoutes.hash_password, statement, ret, throw.
  destruct (0 <? List.length _)%nat; [auto|].
  destruct (param (or_else _ _)); [|auto].
  destruct (pk_free company_uuid _); [|auto].
  destruct (AuthRoutes.rb_password body); cbn; auto.
  destruct (param (AuthRoutes.rb_email body)); cbn; auto.
  destruct (param (AuthRoutes.rb_name body)); cbn; auto.
  destruct (_ && _); cbn; auto.
Qed.

(** Every route that writes keeps the store well formed, whatever its
    outcome; the ids the UUID generator hands to the creates are not
    empty. A well formed store has every task refer to a contact of its
    own company. *)
Theorem routes_keep_store_well_formed :
  forall JWT_SECRET now new_id other_id salt (user : ReqUser.t) id
         (br : AuthRoutes.register_body)
         (bc : Contacts.Body.t) (bl : Leads.Body.t) (bt : Tasks.Body.t) s,
    well_formed s -> new_id <> "" ->
    references_own_company s
    /\ well_formed (snd (AuthRoutes.register JWT_SECRET now new_id other_id
                           salt br s))
    /\ well_formed (snd (Contacts.post now new_id user bc s))
    /\ well_formed (snd (Contacts.put now user id bc s))
    /\ well_formed (snd (Contacts.delete now user id s))
    /\ well_formed (snd (Leads.post now new_id user bl s))
    /\ well_formed (snd (Leads.put now user id bl s))
    /\ well_formed (snd (Leads.delete user id s))
    /\ well_formed (snd (Tasks.post now new_id user bt s))
    /\ well_formed (snd (Tasks.put now user id bt s))
    /\ well_formed (snd (Tasks.delete user id s)).
Proof.
  intros J now new_id other_id salt user id br bc bl bt s Hwf Hid.
  split; [now apply well_formed_references|].
  split.
  { destruct (register_keeps_records J now new_id other_id salt br s)
      as (Hc & Hl & Ht).
    unfold well_formed. rewrite Hc, Hl, Ht. exact Hwf. }
  split; [now apply contacts_post_well_formed|].
  split; [now apply contacts_put_well_formed|].
  split; [now apply contacts_delete_well_formed|].
  destruct (leads_routes_well_formed now new_id user id bl s Hwf)
    as (H1 & H2 & H3).
  destruct (tasks_routes_well_formed now new_id user id bt s Hwf)
    as (H4 & H5 & H6).
  split; [exact H1|]. split; [exact H2|]. split; [exact H3|].
  split; [exact H4|]. split; [exact H5 | exact H6].
Qed.

(** ** Deleting a contact that tasks refer to *)

Lemma left_join_without_contact t ts cs :
  In t ts -> Task.contact_id t = None ->
  In (t, None) (Tasks.left_join ts cs).
Proof.
  intros Hin Hnone. unfold Tasks.left_join. apply in_flat_map.
  exists t. split; [exact Hin|]. rewrite Hnone.
  replace (filter _ cs) with (@nil Contact.row); [now left|].
  symmetry. apply filter_nil_iff. reflexivity.
Qed.

Lemma NoDup_map_unique {A B} (f : A -> B) (l : list A) (x y : A) :
  NoDup (map f l) -> In x l -> In y l -> f x = f y -> x = y.
Proof.
  induction l as [|a l IH]; simpl; intros Hnd Hx Hy Heq; [contradiction|].
  inversion Hnd as [|? ? Hnotin Hnd']; subst.
  destruct Hx as [->|Hx], Hy as [->|Hy]; auto.
  - exfalso. apply Hnotin. rewrite Heq. now apply in_map.
  - exfalso. apply Hnotin. rewrite <- Heq. now apply in_map.
Qed.

Lemma Forall2_map_self {A} (P : A -> A -> Prop) (f : A -> A) (l : list A) :
  (forall x, P x (f x)) -> Forall2 P l (map f l).
Proof.
  intros HP. induction l as [|a l IH]; simpl; constructor; auto.
Qed.

(** Deleting a contact of the caller's company succeeds, removes the
    contact and deletes no task: a task that referred to the contact stays
    with contact_id NULL, every other task is untouched; and such a task
    can still be read, without a contact name. *)
Theorem contact_delete_clears_tasks :
  forall now (user : ReqUser.t) id s row,
    well_formed s ->
    In row (contacts s) ->
    Contacts.scoped id (ReqUser.company_id user) row = true ->
    exists s',
      Contacts.delete now user id s
      = (json 200 "Contact deleted successfully", s')
      /\ (forall r, In r (contacts s') -> Contact.id r <> id)
      /\ Forall2 (fun old new =>
                    if same_text (Task.contact_id old) (Some id)
                    then contact_cleared now old new
                    else new = old)
                 (tasks s) (tasks s')
      /\ (forall t, In t (tasks s) -> Task.contact_id t = Some id ->
                    exists d,
                      Tasks.get_one user (Task.id t) s' = (json 200 d, s')
                      /\ contact_cleared now t (Tasks.Detailed.task d)
                      /\ Tasks.Detailed.contact_name d = None).
Proof.
  intros now user id s row Hwf Hrow Hscoped.
  pose proof (well_formed_references s Hwf) as Hown.
  pose proof (contacts_delete_well_formed now user id s Hwf) as Hwf'.
  pose proof Hwf as (Hc & _ & Ht & _ & Hfk).
  rewrite contacts_delete_runs in *.
  destruct (filter _ (contacts s)) as [|d rest] eqn:Hf.
  { rewrite filter_nil_iff in Hf. rewrite (Hf row Hrow) in Hscoped.
    discriminate. }
  cbn [snd] in Hwf'. eexists. split; [reflexivity|].
  cbn [contacts tasks].
  assert (Hdeleted : forall c, In c (map Contact.id (d :: rest)) <-> c = id).
  { intros c. rewrite <- Hf. rewrite in_map_iff. split.
    - intros (r & <- & Hr). apply filter_In in Hr. destruct Hr as [_ Hs].
      now apply (scoped_own Contact.id Contact.company_id) in Hs.
    - intros ->. exists row. split.
      + now apply (scoped_own Contact.id Contact.company_id) in Hscoped.
      + apply filter_In. auto. }
  assert (Hclears : forall t,
            holds (sql_in (Task.contact_id t) (map Contact.id (d :: rest)))
            = same_text (Task.contact_id t) (Some id)).
  { intros t. unfold sql_in, same_text.
    destruct (Task.contact_id t) as [c|]; [|reflexivity]. cbn [holds].
    destruct (String.eqb_spec c id) as [->|Hne].
    - destruct (existsb _ _) eqn:Hex; [reflexivity|].
      assert (Hin : existsb (String.eqb id) (map Contact.id (d :: rest))
                    = true).
      { apply existsb_exists. exists id.
        split; [now apply Hdeleted | apply String.eqb_refl]. }
      congruence.
    - destruct (existsb _ _) eqn:Hex; [|reflexivity].
      apply existsb_exists in Hex. destruct Hex as (k & Hk & Heq).
      apply String.eqb_eq in Heq. subst k. apply Hdeleted in Hk.
      contradiction. }
  assert (Hone : forall t,
            if same_text (Task.contact_id t) (Some id)
            then contact_cleared now t
                   (Contacts.set_null now (map Contact.id (d :: rest)) t)
            else Contacts.set_null now (map Contact.id (d :: rest)) t = t).
  { intros t. unfold Contacts.set_null. rewrite Hclears.
    destruct (same_text _ _); [|reflexivity].
    unfold contact_cleared. cbn. tauto. }
  split; [|split].
  - intros r Hr Hid. apply filter_In in Hr. destruct Hr as [Hr Hs].
    apply negb_true_iff in Hs.
    assert (r = row).
    { apply (NoDup_map_unique Contact.id (contacts s)); auto.
      apply (scoped_own Contact.id Contact.company_id) in Hscoped.
      destruct Hscoped as (-> & _). exact Hid. }
    subst r. congruence.
  - apply Forall2_map_self. exact Hone.
  - intros t Hin Hcid.
    set (t' := Contacts.set_null now (map Contact.id (d :: rest)) t).
    assert (Hcleared : contact_cleared now t t').
    { pose proof (Hone t) as Ht'. rewrite Hcid in Ht'.
      cbn [same_text] in Ht'. now rewrite String.eqb_refl in Ht'. }
    assert (Hco : Task.company_id t = ReqUser.company_id user).
    { rewrite <- (Hown t id row Hin Hcid Hrow).
      - now apply (scoped_own Contact.id Contact.company_id) in Hscoped.
      - now apply (scoped_own Contact.id Contact.company_id) in Hscoped. }
    assert (Hcid_some : ReqUser.company_id user <> None)
      by now apply (scoped_own Contact.id Contact.company_id) in Hscoped.
    rewrite tasks_get_one_runs. cbn [tasks contacts].
    match goal with
    | |- context [filter ?p (Tasks.left_join ?ts ?cs)] =>
        destruct (filter p (Tasks.left_join ts cs)) as [|[x c] more] eqn:Hg
    end.
    + exfalso. rewrite filter_nil_iff in Hg.
      specialize (Hg (t', None)). cbn [fst] in Hg.
      assert (Hs : Tasks.scoped (Task.id t) (ReqUser.company_id user) t'
                   = true).
      { apply id_and_company_true.
        destruct Hcleared as (-> & -> & _). split; [reflexivity|].
        destruct (ReqUser.company_id user) as [k|]; [|contradiction].
        exists k. split; [exact Hco | reflexivity]. }
      rewrite Hs in Hg. enough (true = false) by discriminate.
      apply Hg. apply left_join_without_contact.
      * apply in_map_iff. exists t. auto.
      * now destruct Hcleared as (_ & _ & -> & _).
    + apply filter_head_In in Hg. destruct Hg as [Hg Hs]. cbn [fst] in Hs.
      apply (scoped_own Task.id Task.company_id) in Hs.
      pose proof (left_join_In _ _ _ _ Hg) as [Hx Hc'].
      assert (x = t').
      { destruct Hwf' as (_ & _ & Ht' & _). cbn [tasks] in Ht'.
        apply (NoDup_map_unique Task.id _ x t' Ht' Hx).
        - apply in_map_iff. exists t. auto.
        - destruct Hcleared as (-> & _). tauto. }
      subst x. eexists. split; [reflexivity|].
      cbn [Tasks.detailed fst snd Tasks.Detailed.task
           Tasks.Detailed.contact_name].
      split; [exact Hcleared|].
      destruct c as [r|]; [|reflexivity].
      destruct Hc' as [_ Hc']. destruct Hcleared as (_ & _ & Hnone & _).
      congruence.
Qed.

(** ** Registration *)

Lemma existsb_eqb_false (x : string) (l : list string) :
  ~ In x l -> existsb (String.eqb x) l = false.
Proof.
  intros Hnotin. destruct (existsb _ l) eqn:Hex; [|reflexivity].
  apply existsb_exists in Hex. destruct Hex as (y & Hy & Heq).
  apply String.eqb_eq in Heq. subst y. contradiction.
Qed.

(** On parameters of the column types: a registration with a name, a
    password and an email no user has yet creates one company and one user
    of it, and a second registration with the same email is refused. *)
Lemma bound_register_creates_tenant :
  forall JWT_SECRET now company_uuid user_uuid salt body s name email pw,
    AuthRoutes.rb_name body = val name ->
    AuthRoutes.rb_email body = val email ->
    AuthRoutes.rb_password body = val pw ->
    (forall u, In u (users s) -> User.email u <> email) ->
    pk_free company_uuid (map Company.id (companies s)) = true ->
    pk_free user_uuid (map User.id (users s)) = true ->
    exists s',
      AuthRoutes.register JWT_SECRET now company_uuid user_uuid salt body s
      = (json 201
           {| AuthRoutes.r_token :=
                jwt_sign user_uuid (secret JWT_SECRET) now;
              AuthRoutes.r_id := user_uuid;
              AuthRoutes.r_email := email;
              AuthRoutes.r_name := name |}, s')
      /\ companies s'
         = companies s ++
           [{| Company.id := company_uuid;
               Company.name :=
                 match text (AuthRoutes.rb_companyName body) with
                 | Some n => n
                 | None => "My Company"
                 end;
               Company.plan := Some "basic"; Company.settings := "{}";
               Company.created_at := now; Company.updated_at := now |}]
      /\ users s'
         = users s ++
           [{| User.id := user_uuid; User.email := email;
               User.password_hash := bcrypt_hash pw salt;
               User.name := name; User.company_id := Some company_uuid;
               User.role := Some "user"; User.is_active := Some true;
               User.last_login := None;
               User.created_at := now; User.updated_at := now |}]
      /\ contacts s' = contacts s /\ leads s' = leads s /\ tasks s' = tasks s
      /\ forall now2 company_uuid2 user_uuid2 salt2 body2,
           AuthRoutes.rb_email body2 = val email ->
           AuthRoutes.register JWT_SECRET now2 company_uuid2 user_uuid2 salt2
             body2 s'
           = (error 400 "User already exists", s').
Proof.
  intros J now cu uu salt body s name email pw Hname Hemail Hpw Hfree Hcu Huu.
  assert (Hcompany : param (or_else (AuthRoutes.rb_companyName body)
                                    (val "My Company"))
                     = Some match text (AuthRoutes.rb_companyName body) with
                            | Some n => n
                            | None => "My Company"
                            end).
  { unfold or_else, truthy.
    destruct (text (AuthRoutes.rb_companyName body)) as [n|] eqn:Hn;
      [|reflexivity].
    apply text_Some in Hn. destruct Hn as [-> _]. reflexivity. }
  assert (Hnone : filter (fun u => holds (str_eq (Some (User.email u))
                                                 (Some email))) (users s)
                  = []).
  { apply filter_nil_iff. intros u Hu.
    destruct (holds _) eqn:Hh; [|reflexivity].
    apply holds_str_eq in Hh. destruct Hh as (a & Ha & Hb).
    exfalso. apply (Hfree u Hu). congruence. }
  assert (Hunique : existsb (String.eqb email) (map User.email (users s))
                    = false).
  { apply existsb_eqb_false. intros Hin. apply in_map_iff in Hin.
    destruct Hin as (u & Hu & Hin). now apply (Hfree u Hin). }
  assert (Hfk : existsb (String.eqb cu)
                  (map Company.id
                     (companies s ++
                      [{| Company.id := cu;
                          Company.name :=
                            match text (AuthRoutes.rb_companyName body) with
                            | Some n => n
                            | None => "My Company"
                            end;
                          Company.plan := Some "basic";
                          Company.settings := "{}";
                          Company.created_at := now;
                          Company.updated_at := now |}])) = true).
  { apply existsb_exists. exists cu. split; [|apply String.eqb_refl].
    rewrite map_app. apply in_or_app. right. now left. }
  eexists. split.
  - unfold AuthRoutes.register, try_catch, AuthRoutes.register_body_io, bind,
      AuthRoutes.select_users_by_email, query.
    rewrite Hemail, Hname, Hpw. cbn [param]. rewrite Hnone.
    cbn [List.length Nat.ltb Nat.leb].
    unfold AuthRoutes.insert_company, statement. rewrite Hcompany, Hcu.
    unfold AuthRoutes.hash_password, ret, AuthRoutes.insert_user, statement.
    cbn [with_companies users companies fk_ok]. rewrite Huu, Hunique, Hfk.
    cbn [negb andb]. reflexivity.
  - cbn [with_users with_companies companies users contacts leads tasks].
    repeat split.
    intros now2 cu2 uu2 salt2 body2 Hemail2.
    apply (register_refuses_taken_email _ _ _ _ _ _ _ email Hemail2).
    eexists. split.
    + cbn [users with_users]. apply in_or_app. right. now left.
    + reflexivity.
Qed.

(** ** Creates: validation and defaults *)

(** A create without its required field (name for a contact, title for a
    lead or a task) is refused with a 400 response and inserts nothing. A
    create that succeeds stores a row with the generated id and the
    caller's company; a contact gets value 0 and status "prospect" when the
    payload names none, and the current date as last_contact; a lead gets
    value 0, stage "lead" and probability 10; a task gets priority
    "medium" and status "pending". *)
Theorem creates_validate_and_default :
  forall now new_id (user : ReqUser.t)
         (bc : Contacts.Body.t) (bl : Leads.Body.t) (bt : Tasks.Body.t) s,
    (text (Contacts.Body.name bc) = None ->
     Contacts.post now new_id user bc s = (error 400 "Name is required", s))
    /\ (text (Leads.Body.title bl) = None ->
        Leads.post now new_id user bl s = (error 400 "Title is required", s))
    /\ (text (Tasks.Body.title bt) = None ->
        Tasks.post now new_id user bt s = (error 400 "Title is required", s))
    /\ (forall row s',
          Contacts.post now new_id user bc s = (json 201 row, s') ->
          Contact.id row = new_id
          /\ Contact.company_id row = ReqUser.company_id user
          /\ Some (Contact.name row) = param (Contacts.Body.name bc)
          /\ Contact.last_contact row = Some (current_date now)
          /\ (param (Contacts.Body.value bc) = None ->
              Contact.value row = Some 0)
          /\ (Contacts.Body.status bc = undefined ->
              Contact.status row = Some "prospect"))
    /\ (forall row s',
          Leads.post now new_id user bl s = (json 201 row, s') ->
          Lead.id row = new_id
          /\ Lead.company_id row = ReqUser.company_id user
          /\ Some (Lead.title row) = param (Leads.Body.title bl)
          /\ (param (Leads.Body.value bl) = None -> Lead.value row = Some 0)
          /\ (Leads.Body.stage bl = undefined ->
              Lead.stage row = Some "lead")
          /\ (Leads.Body.probability bl = undefined ->
              Lead.probability row = Some 10))
    /\ (forall row s',
          Tasks.post now new_id user bt s = (json 201 row, s') ->
          Task.id row = new_id
          /\ Task.company_id row = ReqUser.company_id user
          /\ Some (Task.title row) = param (Tasks.Body.title bt)
          /\ (Tasks.Body.priority bt = undefined ->
              Task.priority row = Some "medium")
          /\ (Tasks.Body.status bt = undefined ->
              Task.status row = Some "pending")).
Proof.
  intros now new_id user bc bl bt s.
  assert (Hzero : forall v : js Z, param v = None -> or_zero v = 0).
  { intros [| |n]; simpl; try reflexivity. discriminate. }
  split; [|split; [|split; [|split; [|split]]]].
  - intros Hn. now rewrite contacts_post_runs, Hn.
  - intros Hn. now rewrite leads_post_runs, Hn.
  - intros Hn. now rewrite tasks_post_runs, Hn.
  - intros row s'. rewrite contacts_post_runs.
    destruct (text (Contacts.Body.name bc)) as [n|] eqn:Hn; [|discriminate].
    destruct (pk_free _ _ && fk_ok _ _); [|discriminate].
    cbn zeta. intros Heq. inversion Heq; subst. cbn.
    apply text_Some in Hn. destruct Hn as [Hn _]. rewrite Hn.
    repeat split; auto.
    + intros Hv. now rewrite (Hzero _ Hv).
    + intros ->. reflexivity.
  - intros row s'. rewrite leads_post_runs.
    destruct (text (Leads.Body.title bl)) as [n|] eqn:Hn; [|discriminate].
    destruct (pk_free _ _ && fk_ok _ _ && probability_check _);
      [|discriminate].
    cbn zeta. intros Heq. inversion Heq; subst. cbn.
    apply text_Some in Hn. destruct Hn as [Hn _]. rewrite Hn.
    repeat split; auto.
    + intros Hv. now rewrite (Hzero _ Hv).
    + intros ->. reflexivity.
    + intros ->. reflexivity.
  - intros row s'. rewrite tasks_post_runs.
    destruct (text (Tasks.Body.title bt)) as [n|] eqn:Hn; [|discriminate].
    destruct (fst (Tasks.verify_contact _ _ _)) as [[|]|];
      try discriminate.
    destruct (pk_free _ _ && fk_ok _ _ && fk_ok _ _ && priority_check _
              && status_check _); [|discriminate].
    cbn zeta. intros Heq. inversion Heq; subst. cbn.
    apply text_Some in Hn. destruct Hn as [Hn _]. rewrite Hn.
    repeat split; auto.
    + intros ->. reflexivity.
    + intros ->. reflexivity.
Qed.

(** ** Comparisons of text *)

Lemma ascii_compare_order : total_order Ascii.compare.
Proof.
  split.
  - intros a b. unfold Ascii.compare. rewrite N.compare_eq_iff. split.
    + intros Heq. rewrite <- (ascii_N_embedding a), <- (ascii_N_embedding b).
      now rewrite Heq.
    + now intros ->.
  - intros a b. apply Ascii.compare_antisym.
  - intros a b c. unfold Ascii.compare. rewrite !N.compare_lt_iff. lia.
Qed.

Lemma string_compare_order : total_order String.compare.
Proof.
  pose proof ascii_compare_order as [Aeq Aswap Atrans].
  split.
  - intros a b. split; [apply String.compare_eq_iff|].
    intros <-. induction a as [|x a IH]; simpl; [reflexivity|].
    now rewrite (proj2 (Aeq x x) eq_refl).
  - intros a b. apply String.compare_antisym.
  - intros a. induction a as [|x a IH]; intros [|y b] [|z c]; simpl;
      try discriminate; try reflexivity.
    destruct (Ascii.compare x y) eqn:Hxy; try discriminate;
      destruct (Ascii.compare y z) eqn:Hyz; try discriminate.
    + apply Aeq in Hxy. apply Aeq in Hyz. subst.
      rewrite (proj2 (Aeq z z) eq_refl). apply IH.
    + apply Aeq in Hxy. subst. now rewrite Hyz.
    + apply Aeq in Hyz. subst. now rewrite Hxy.
    + now rewrite (Atrans _ _ _ Hxy Hyz).
Qed.

Section Comparisons.

Context {A : Type} (cmp : A -> A -> comparison).

Hypothesis cmp_order : total_order cmp.

Lemma nulls_last_order : total_order (cmp_nulls_last cmp).
Proof.
  destruct cmp_order as [Heq Hswap Htrans]. split.
  - intros [a|] [b|]; simpl; split; try discriminate; try reflexivity.
    + intros Hab. f_equal. now apply Heq.
    + intros Hab. apply Heq. congruence.
  - intros [a|] [b|]; simpl; auto.
  - intros [a|] [b|] [c|]; simpl; try discriminate; try reflexivity.
    apply Htrans.
Qed.

End Comparisons.

Section Lexicographic.

Context {R K1 K2 : Type} (k1 : R -> K1) (k2 : R -> K2)
  (c1 : K1 -> K1 -> comparison) (c2 : K2 -> K2 -> comparison).

Hypothesis order1 : total_order c1.
Hypothesis order2 : total_order c2.

Let leb (a b : R) : bool :=
  not_after (then_by (c1 (k1 a) (k1 b)) (c2 (k2 a) (k2 b))).

Lemma lexicographic_spec (a b : R) :
  leb a b = true <->
  c1 (k1 a) (k1 b) = Lt
  \/ (k1 a = k1 b /\ (c2 (k2 a) (k2 b) = Lt \/ k2 a = k2 b)).
Proof.
  destruct order1 as [Heq1 Hswap1 Htrans1].
  destruct order2 as [Heq2 Hswap2 Htrans2].
  unfold leb, then_by, not_after.
  destruct (c1 (k1 a) (k1 b)) eqn:H1.
  - apply Heq1 in H1.
    destruct (c2 (k2 a) (k2 b)) eqn:H2.
    + apply Heq2 in H2. split; auto.
    + split; auto.
    + split; [discriminate|].
      intros [Hlt|[_ [Hlt|Heq]]]; try discriminate.
      apply Heq2 in Heq. congruence.
  - split; auto.
  - split; [discriminate|].
    intros [Hlt|[Heq _]]; [discriminate|].
    apply Heq1 in Heq. congruence.
Qed.

Lemma lexicographic_total (a b : R) : leb a b = true \/ leb b a = true.
Proof.
  destruct order1 as [Heq1 Hswap1 Htrans1].
  destruct order2 as [Heq2 Hswap2 Htrans2].
  unfold leb, then_by, not_after.
  rewrite (Hswap1 (k1 a) (k1 b)), (Hswap2 (k2 a) (k2 b)).
  destruct (c1 (k1 a) (k1 b)), (c2 (k2 a) (k2 b)); simpl; auto.
Qed.

Lemma lexicographic_trans (a b c : R) :
  leb a b = true -> leb b c = true -> leb a c = true.
Proof.
  rewrite !lexicographic_spec.
  destruct order1 as [Heq1 Hswap1 Htrans1].
  destruct order2 as [Heq2 Hswap2 Htrans2].
  intros [H1|[E1 H1]] [H2|[E2 H2]].
  - left. eauto.
  - left. now rewrite <- E2.
  - left. now rewrite E1.
  - right. split; [congruence|].
    destruct H1 as [H1|H1], H2 as [H2|H2].
    + left. eauto.
    + left. now rewrite <- H2.
    + left. now rewrite H1.
    + right. congruence.
Qed.

End Lexicographic.

(** ** The task overview *)

Lemma same_key_eq (a b : option string * option string) :
  Tasks.same_key a b = true <-> a = b.
Proof.
  destruct a as [a1 a2], b as [b1 b2]. unfold Tasks.same_key. cbn [fst snd].
  rewrite andb_true_iff, !same_text_eq. split.
  - intros [-> ->]. reflexivity.
  - intros Heq. inversion Heq. auto.
Qed.

(** The task overview answers with one group per pair of status and
    priority found among the caller's tasks, each with the number of those
    tasks, sorted by status and then by priority in lexical order, a
    missing value last. *)
Theorem overview_groups_by_status_and_priority :
  forall (user : ReqUser.t) (s : store),
  exists groups,
    Tasks.overview user s = (json 200 groups, s)
    /\ NoDup (map (fun g => (Tasks.Overview.status g,
                             Tasks.Overview.priority g)) groups)
    /\ (forall status priority,
          In (status, priority)
             (map (fun g => (Tasks.Overview.status g,
                             Tasks.Overview.priority g)) groups) <->
          exists t, In t (tasks s)
                    /\ in_company (ReqUser.company_id user)
                                  (Task.company_id t) = true
                    /\ Task.status t = status
                    /\ Task.priority t = priority)
    /\ (forall g, In g groups ->
          Tasks.Overview.count g
          = Z.of_nat (List.length
                        (tasks_in_group user (Tasks.Overview.status g)
                           (Tasks.Overview.priority g) s)))
    /\ StronglySorted overview_in_order groups.
Proof.
  intros user s. rewrite overview_runs.
  set (mine := filter _ (tasks s)).
  set (groups := group_by Tasks.same_key Tasks.key mine).
  set (leb := fun a b : Tasks.Overview.t => not_after _).
  eexists. split; [reflexivity|].
  assert (Hperm : Permutation (map Tasks.count_group groups)
                              (order_by leb (map Tasks.count_group groups)))
    by apply order_by_perm.
  assert (Hkeys : map (fun g => (Tasks.Overview.status g,
                                 Tasks.Overview.priority g))
                      (map Tasks.count_group groups)
                  = map fst groups).
  { rewrite map_map. apply map_ext. intros [[st pr] rows]. reflexivity. }
  destruct (group_by_grouped Tasks.same_key Tasks.key same_key_eq mine)
    as [Hnd _]. fold groups in Hnd.
  pose proof (nulls_last_order String.compare string_compare_order)
    as Horder.
  split; [|split; [|split]].
  - eapply Permutation_NoDup; [apply Permutation_map, Hperm|].
    now rewrite Hkeys.
  - intros status priority.
    assert (Hin : In (status, priority)
                     (map (fun g => (Tasks.Overview.status g,
                                     Tasks.Overview.priority g))
                          (order_by leb (map Tasks.count_group groups)))
                  <-> In (status, priority) (map fst groups)).
    { rewrite <- Hkeys. split; apply Permutation_in, Permutation_map;
        [apply Permutation_sym|]; exact Hperm. }
    rewrite Hin. split.
    + intros Hst. apply in_map_iff in Hst.
      destruct Hst as ([k rs] & Hk & Hg). simpl in Hk. subst k.
      apply (group_by_In Tasks.same_key Tasks.key same_key_eq) in Hg.
      destruct Hg as [-> Hne].
      destruct (filter _ mine) as [|t rest] eqn:Hf; [congruence|].
      apply filter_head_In in Hf. destruct Hf as [Ht Hsame].
      apply same_key_eq in Hsame. inversion Hsame.
      apply filter_In in Ht. destruct Ht as [Ht Hmine]. eauto 6.
    + intros (t & Ht & Hmine & Hstatus & Hpriority).
      apply in_map_iff.
      exists ((status, priority),
              filter (fun r => Tasks.same_key (status, priority)
                                              (Tasks.key r)) mine).
      split; [reflexivity|].
      apply (group_by_In Tasks.same_key Tasks.key same_key_eq).
      split; [reflexivity|]. intros Hnil.
      rewrite filter_nil_iff in Hnil. specialize (Hnil t). cbv beta in Hnil.
      assert (Hs : Tasks.same_key (status, priority) (Tasks.key t) = true).
      { apply same_key_eq. unfold Tasks.key. congruence. }
      rewrite Hs in Hnil. enough (true = false) by discriminate.
      apply Hnil. apply filter_In. auto.
  - intros g Hg.
    apply (Permutation_in _ (Permutation_sym Hperm)) in Hg.
    apply in_map_iff in Hg. destruct Hg as ([[st pr] rs] & <- & Hg).
    apply (group_by_In Tasks.same_key Tasks.key same_key_eq) in Hg.
    destruct Hg as [-> Hne]. unfold Tasks.count_group, tasks_in_group.
    cbn [fst snd Tasks.Overview.status Tasks.Overview.priority
         Tasks.Overview.count].
    unfold mine. now rewrite filter_filter.
  - rewrite <- (map_id (order_by leb _)).
    apply StronglySorted_map with (R := fun a b => leb a b = true).
    + intros a b Hab. unfold overview_in_order, text_before.
      now apply (lexicographic_spec Tasks.Overview.status
                   Tasks.Overview.priority _ _ Horder Horder).
    + apply order_by_sorted.
      * apply (lexicographic_total Tasks.Overview.status
                 Tasks.Overview.priority _ _ Horder Horder).
      * apply (lexicographic_trans Tasks.Overview.status
                 Tasks.Overview.priority _ _ Horder Horder).
Qed.

(* ================================================================= *)
(** ** What the listings return *)

Lemma holds_and (p q : sql_bool) :
  holds (sql_and p q) = holds p && holds q.
Proof. destruct p as [[|]|], q as [[|]|]; reflexivity. Qed.

Lemma holds_or (p q : sql_bool) :
  holds (sql_or p q) = holds p || holds q.
Proof. destruct p as [[|]|], q as [[|]|]; reflexivity. Qed.

Lemma holds_ilike (column : option string) (wanted : string) :
  holds (sql_ilike column (contains wanted)) = found_in wanted column.
Proof.
  unfold sql_ilike, found_in. destruct column as [t|]; [|reflexivity].
  cbn [option_map holds]. now destruct (ilike t (contains wanted)).
Qed.

Lemma holds_exact (column : option string) (v : string) :
  holds (str_eq column (Some v)) = same_text column (Some v).
Proof.
  destruct column as [c|]; [|reflexivity]. cbn.
  now destruct (c =? v)%string.
Qed.

Lemma contacts_list_where_two_valued cid q r :
  holds (Contacts.list_where cid q r) = contact_listed_for cid q r.
Proof.
  unfold Contacts.list_where, contact_listed_for, searched, passes,
    in_company.
  destruct (text (Contacts.Query.search q)),
           (text (Contacts.Query.status q));
    rewrite ?holds_and, ?holds_or, ?holds_ilike, ?holds_exact;
    cbn [existsb]; rewrite ?orb_false_r, ?andb_true_r, ?orb_assoc;
    reflexivity.
Qed.

Lemma leads_list_where_two_valued cid q r :
  holds (Leads.list_where cid q r) = lead_listed_for cid q r.
Proof.
  unfold Leads.list_where, lead_listed_for, searched, passes, in_company.
  destruct (text (Leads.Query.search q)), (text (Leads.Query.stage q));
    rewrite ?holds_and, ?holds_or, ?holds_ilike, ?holds_exact;
    cbn [existsb]; rewrite ?orb_false_r, ?andb_true_r, ?orb_assoc;
    reflexivity.
Qed.

Lemma tasks_list_where_two_valued cid q t :
  holds (Tasks.list_where cid q t) = task_listed_for cid q t.
Proof.
  unfold Tasks.list_where, task_listed_for, searched, passes, in_company.
  destruct (text (Tasks.Query.search q)), (text (Tasks.Query.status q)),
           (text (Tasks.Query.priority q));
    rewrite ?holds_and, ?holds_or, ?holds_ilike, ?holds_exact;
    cbn [existsb]; rewrite ?orb_false_r, ?andb_true_r, ?orb_assoc;
    reflexivity.
Qed.

Lemma find_first_kept {A} (p : A -> bool) (l : list A) :
  find p l = hd_error (filter p l).
Proof.
  induction l as [|a l IH]; cbn; [reflexivity|].
  destruct (p a); [reflexivity | exact IH].
Qed.

(** The contacts the join pairs with a task, the first of which is the
    contact the task refers to. *)
Lemma joined_contacts (t : Task.row) (cs : list Contact.row) :
  hd_error (filter (fun c => holds (str_eq (Task.contact_id t)
                                           (Some (Contact.id c)))) cs)
  = referred cs t.
Proof.
  unfold referred. destruct (Task.contact_id t) as [k|].
  - rewrite find_first_kept. f_equal. apply filter_ext. intros c. cbn.
    rewrite String.eqb_sym. now destruct (Contact.id c =? k)%string.
  - replace (filter _ cs) with (@nil Contact.row); [reflexivity|].
    symmetry. apply filter_nil_iff. reflexivity.
Qed.

(** The first joined row a predicate on tasks keeps is the first task it
    keeps, with the contact that task refers to. *)
Lemma left_join_first (p : Task.row -> bool) ts cs :
  hd_error (filter (fun tc => p (fst tc)) (Tasks.left_join ts cs))
  = option_map (fun t => (t, referred cs t)) (hd_error (filter p ts)).
Proof.
  induction ts as [|t ts IH]; [reflexivity|].
  unfold Tasks.left_join in *. cbn [flat_map]. rewrite filter_app.
  cbn [filter]. destruct (p t) eqn:Hp.
  - cbn [hd_error option_map]. rewrite <- (joined_contacts t cs).
    destruct (filter _ cs) as [|m ms]; cbn [filter fst map app hd_error];
      rewrite Hp; reflexivity.
  - replace (filter (fun tc => p (fst tc)) _) with
      (@nil (Task.row * option Contact.row)); [exact IH|].
    symmetry. apply filter_nil_iff. intros [t' c] Hin.
    destruct (filter _ cs) as [|m ms].
    + destruct Hin as [Heq|[]]. inversion Heq; subst. exact Hp.
    + apply in_map_iff in Hin. destruct Hin as (r & Heq & _).
      inversion Heq; subst. exact Hp.
Qed.

(** With unique contact ids the join pairs every task with the contact it
    refers to, once. *)
Lemma left_join_unique ts cs :
  NoDup (map Contact.id cs) ->
  Tasks.left_join ts cs = map (fun t => (t, referred cs t)) ts.
Proof.
  intros Hnd. induction ts as [|t ts IH]; [reflexivity|].
  destruct (left_join_one t ts cs Hnd) as (c & Hc). rewrite Hc, IH.
  cbn [map]. do 2 f_equal.
  pose proof (left_join_first (fun _ => true) (t :: ts) cs) as Hfirst.
  rewrite !filter_all in Hfirst by reflexivity.
  rewrite Hc in Hfirst. cbn in Hfirst. now inversion Hfirst.
Qed.

Lemma filter_map_swap {A B} (f : A -> B) (p : B -> bool) (l : list A) :
  filter p (map f l) = map f (filter (fun a => p (f a)) l).
Proof.
  induction l as [|a l IH]; cbn; [reflexivity|].
  destruct (p (f a)); cbn; now rewrite IH.
Qed.

(** A filtered, sorted and limited listing holds as many rows as match, up
    to the limit, and all of them when the limit allows. *)
Lemma listing_counts {A} (leb : A -> A -> bool) (f : A -> bool)
  (n : option Z) (rows out : list A) :
  limit_rows n (order_by leb (filter f rows)) = Some out ->
  exists k, n = Some k /\ 0 <= k
    /\ List.length out = Nat.min (Z.to_nat k) (List.length (filter f rows))
    /\ ((List.length (filter f rows) <= Z.to_nat k)%nat ->
        Permutation out (filter f rows)).
Proof.
  intros Hlim. apply limit_rows_Some in Hlim.
  destruct Hlim as (k & Hn & Hk & ->). exists k.
  pose proof (order_by_perm leb (filter f rows)) as Hperm.
  pose proof (Permutation_length Hperm) as Hlen.
  split; [exact Hn|]. split; [exact Hk|]. split.
  - rewrite length_firstn. now rewrite <- Hlen.
  - intros Hall. rewrite firstn_all2 by (rewrite <- Hlen; exact Hall).
    now apply Permutation_sym.
Qed.

(** The rows a listing answers with are rows of the caller's company
    that pass the search and the exact filters, a NULL column never
    passing either: for contacts the search looks at name, email and
    company_name and the filter at status; for leads at title,
    company_name and contact_name, and at stage; for tasks at title and
    description, and at status and priority. The listing holds as many
    rows as match, up to the limit, and every matching row when the limit
    allows; a task comes with the name of the contact it refers to. *)
Theorem lists_return_the_matching_rows :
  forall (user : ReqUser.t) s,
    (forall q rows,
       fst (Contacts.get_all user q s) = json 200 rows ->
       (forall x, In x rows ->
          exists r, In r (contacts s) /\ x = Contacts.listed r
                    /\ contact_listed_for (ReqUser.company_id user) q r
                       = true)
       /\ exists n,
            parse_limit (Contacts.Query.limit q) = Some n /\ 0 <= n
            /\ List.length rows
               = Nat.min (Z.to_nat n)
                   (List.length
                      (filter (contact_listed_for (ReqUser.company_id user) q)
                              (contacts s)))
            /\ ((List.length
                   (filter (contact_listed_for (ReqUser.company_id user) q)
                           (contacts s)) <= Z.to_nat n)%nat ->
                Permutation rows
                  (map Contacts.listed
                     (filter (contact_listed_for (ReqUser.company_id user) q)
                             (contacts s)))))
    /\ (forall q rows,
          fst (Leads.get_all user q s) = json 200 rows ->
          (forall x, In x rows ->
             exists r, In r (leads s) /\ x = Leads.listed r
                       /\ lead_listed_for (ReqUser.company_id user) q r
                          = true)
          /\ exists n,
               parse_limit (Leads.Query.limit q) = Some n /\ 0 <= n
               /\ List.length rows
                  = Nat.min (Z.to_nat n)
                      (List.length
                         (filter (lead_listed_for (ReqUser.company_id user) q)
                                 (leads s)))
               /\ ((List.length
                      (filter (lead_listed_for (ReqUser.company_id user) q)
                              (leads s)) <= Z.to_nat n)%nat ->
                   Permutation rows
                     (map Leads.listed
                        (filter (lead_listed_for (ReqUser.company_id user) q)
                                (leads s)))))
    /\ (forall q rows,
          fst (Tasks.get_all user q s) = json 200 rows ->
          NoDup (map Contact.id (contacts s)) ->
          (forall x, In x rows ->
             exists t, In t (tasks s) /\ x = task_shown s t
                       /\ task_listed_for (ReqUser.company_id user) q t
                          = true)
          /\ exists n,
               parse_limit (Tasks.Query.limit q) = Some n /\ 0 <= n
               /\ List.length rows
                  = Nat.min (Z.to_nat n)
                      (List.length
                         (filter (task_listed_for (ReqUser.company_id user) q)
                                 (tasks s)))
               /\ ((List.length
                      (filter (task_listed_for (ReqUser.company_id user) q)
                              (tasks s)) <= Z.to_nat n)%nat ->
                   Permutation rows
                     (map (task_shown s)
                        (filter (task_listed_for (ReqUser.company_id user) q)
                                (tasks s))))).
Proof.
  intros user s. split; [|split].
  - intros q rows. rewrite contacts_get_all_runs.
    rewrite (filter_ext _ _ (contacts_list_where_two_valued
                               (ReqUser.company_id user) q)).
    destruct (limit_rows _ _) as [out|] eqn:Hlim; [|discriminate].
    cbn [fst]. intros Heq. inversion Heq; subst rows; clear Heq. split.
    + intros x Hx. apply in_map_iff in Hx. destruct Hx as (r & <- & Hr).
      destruct (listing_In _ _ _ _ _ _ Hlim Hr) as [Hin Hm]. eauto.
    + destruct (listing_counts _ _ _ _ _ Hlim) as (k & Hn & Hk & Hlen & Hall).
      exists k. rewrite length_map. repeat split; auto.
      intros Hfew. now apply Permutation_map, Hall.
  - intros q rows. rewrite leads_get_all_runs.
    rewrite (filter_ext _ _ (leads_list_where_two_valued
                               (ReqUser.company_id user) q)).
    destruct (limit_rows _ _) as [out|] eqn:Hlim; [|discriminate].
    cbn [fst]. intros Heq. inversion Heq; subst rows; clear Heq. split.
    + intros x Hx. apply in_map_iff in Hx. destruct Hx as (r & <- & Hr).
      destruct (listing_In _ _ _ _ _ _ Hlim Hr) as [Hin Hm]. eauto.
    + destruct (listing_counts _ _ _ _ _ Hlim) as (k & Hn & Hk & Hlen & Hall).
      exists k. rewrite length_map. repeat split; auto.
      intros Hfew. now apply Permutation_map, Hall.
  - intros q rows Hget Hnd. rewrite tasks_get_all_runs in Hget.
    rewrite (left_join_unique _ _ Hnd) in Hget.
    rewrite (filter_map_swap (fun t => (t, referred (contacts s) t))
               (fun tc => holds (Tasks.list_where (ReqUser.company_id user) q
                                   (fst tc)))) in Hget.
    cbn [fst] in Hget.
    rewrite (filter_ext _ _ (tasks_list_where_two_valued
                               (ReqUser.company_id user) q)) in Hget.
    rewrite <- (filter_map_swap (fun t => (t, referred (contacts s) t))
                  (fun tc => task_listed_for (ReqUser.company_id user) q
                               (fst tc))) in Hget.
    destruct (limit_rows _ _) as [out|] eqn:Hlim; [|discriminate].
    cbn [fst] in Hget. inversion Hget; subst rows; clear Hget. split.
    + intros x Hx. apply in_map_iff in Hx. destruct Hx as (tc & <- & Htc).
      destruct (listing_In _ _ _ _ _ _ Hlim Htc) as [Hin Hm].
      apply in_map_iff in Hin. destruct Hin as (t & <- & Ht).
      exists t. auto.
    + destruct (listing_counts _ _ _ _ _ Hlim) as (k & Hn & Hk & Hlen & Hall).
      rewrite filter_map_swap in Hlen, Hall. cbn [fst] in Hlen, Hall.
      rewrite length_map in Hlen, Hall.
      exists k. rewrite length_map. repeat split; auto.
      intros Hfew. specialize (Hall Hfew).
      apply (Permutation_map Tasks.listed) in Hall.
      now rewrite map_map in Hall.
Qed.

(** The limit of a listing, as a count of any size: 100 rows at most when
    the request names none, no row for a limit of 0, as many as asked
    otherwise; a limit that is not a number, or a negative one, is rejected
    by the store. *)
Lemma bound_list_limit :
  forall (user : ReqUser.t) s
         (qc : Contacts.Query.t) (ql : Leads.Query.t) (qt : Tasks.Query.t),
    (forall n, parse_limit (Contacts.Query.limit qc) = Some n -> 0 <= n ->
       exists rows, Contacts.get_all user qc s = (json 200 rows, s)
                    /\ (List.length rows <= Z.to_nat n)%nat)
    /\ (forall n, parse_limit (Leads.Query.limit ql) = Some n -> 0 <= n ->
          exists rows, Leads.get_all user ql s = (json 200 rows, s)
                       /\ (List.length rows <= Z.to_nat n)%nat)
    /\ (forall n, parse_limit (Tasks.Query.limit qt) = Some n -> 0 <= n ->
          exists rows, Tasks.get_all user qt s = (json 200 rows, s)
                       /\ (List.length rows <= Z.to_nat n)%nat)
    /\ (Contacts.Query.limit qc = undefined ->
        exists rows, Contacts.get_all user qc s = (json 200 rows, s)
                     /\ (List.length rows <= 100)%nat)
    /\ (Leads.Query.limit ql = undefined ->
        exists rows, Leads.get_all user ql s = (json 200 rows, s)
                     /\ (List.length rows <= 100)%nat)
    /\ (Tasks.Query.limit qt = undefined ->
        exists rows, Tasks.get_all user qt s = (json 200 rows, s)
                     /\ (List.length rows <= 100)%nat)
    /\ (parse_limit (Contacts.Query.limit qc) = Some 0 ->
        Contacts.get_all user qc s = (json 200 [], s))
    /\ (parse_limit (Leads.Query.limit ql) = Some 0 ->
        Leads.get_all user ql s = (json 200 [], s))
    /\ (parse_limit (Tasks.Query.limit qt) = Some 0 ->
        Tasks.get_all user qt s = (json 200 [], s))
    /\ ((parse_limit (Contacts.Query.limit qc) = None
         \/ exists n, parse_limit (Contacts.Query.limit qc) = Some n /\ n < 0)
        -> Contacts.get_all user qc s
           = (error 500 "Failed to fetch contacts", s))
    /\ ((parse_limit (Leads.Query.limit ql) = None
         \/ exists n, parse_limit (Leads.Query.limit ql) = Some n /\ n < 0)
        -> Leads.get_all user ql s = (error 500 "Failed to fetch leads", s))
    /\ ((parse_limit (Tasks.Query.limit qt) = None
         \/ exists n, parse_limit (Tasks.Query.limit qt) = Some n /\ n < 0)
        -> Tasks.get_all user qt s = (error 500 "Failed to fetch tasks", s)).
Proof.
  intros user s qc ql qt.
  assert (Hsome : forall A (n : Z) (l : list A), 0 <= n ->
            limit_rows (Some n) l = Some (firstn (Z.to_nat n) l)).
  { intros A n l Hn. unfold limit_rows.
    destruct (Z.ltb_spec n 0); [lia | reflexivity]. }
  assert (Hnone : forall A (n : option Z) (l : list A),
            n = None \/ (exists k, n = Some k /\ k < 0) ->
            limit_rows n l = None).
  { intros A n l [->|(k & -> & Hk)]; [reflexivity|]. unfold limit_rows.
    destruct (Z.ltb_spec k 0); [reflexivity | lia]. }
  assert (Hshort : forall A B (f : A -> B) (n : nat) (l : list A),
            (List.length (map f (firstn n l)) <= n)%nat).
  { intros A B f n l. rewrite length_map, length_firstn. lia. }
  split; [|split; [|split; [|split; [|split; [|split; [|split; [|split;
    [|split; [|split; [|split]]]]]]]]]].
  - intros n Hp Hn. rewrite contacts_get_all_runs, Hp, Hsome by exact Hn.
    eexists. split; [reflexivity | apply Hshort].
  - intros n Hp Hn. rewrite leads_get_all_runs, Hp, Hsome by exact Hn.
    eexists. split; [reflexivity | apply Hshort].
  - intros n Hp Hn. rewrite tasks_get_all_runs, Hp, Hsome by exact Hn.
    eexists. split; [reflexivity | apply Hshort].
  - intros Hu. rewrite contacts_get_all_runs, Hu. cbn [parse_limit].
    rewrite Hsome by lia.
    eexists. split; [reflexivity | apply (Hshort _ _ _ 100%nat)].
  - intros Hu. rewrite leads_get_all_runs, Hu. cbn [parse_limit].
    rewrite Hsome by lia.
    eexists. split; [reflexivity | apply (Hshort _ _ _ 100%nat)].
  - intros Hu. rewrite tasks_get_all_runs, Hu. cbn [parse_limit].
    rewrite Hsome by lia.
    eexists. split; [reflexivity | apply (Hshort _ _ _ 100%nat)].
  - intros Hp. now rewrite contacts_get_all_runs, Hp.
  - intros Hp. now rewrite leads_get_all_runs, Hp.
  - intros Hp. now rewrite tasks_get_all_runs, Hp.
  - intros Hp. now rewrite contacts_get_all_runs, (Hnone _ _ _ Hp).
  - intros Hp. now rewrite leads_get_all_runs, (Hnone _ _ _ Hp).
  - intros Hp. now rewrite tasks_get_all_runs, (Hnone _ _ _ Hp).
Qed.

(* ================================================================= *)
(** ** Reading what was written *)

Section Trips.

Context {R : Type} (set : R -> option R) (p : R -> bool).

Hypothesis set_keeps_match : forall r r', set r = Some r' -> p r' = p r.

(** The rows an update returns are the rows its WHERE clause selects
    afterwards. *)
Lemma update_where_kept (rows rows' returning : list R) :
  update_where p set rows = Some (rows', returning) ->
  filter p rows' = returning.
Proof.
  revert rows' returning.
  induction rows as [|a rows IH]; cbn; intros rows' ret Hup.
  - now inversion Hup.
  - destruct (update_where p set rows) as [[rest ret0]|]; [|discriminate].
    specialize (IH rest ret0 eq_refl).
    destruct (p a) eqn:Hp.
    + destruct (set a) as [a'|] eqn:Hset; [|discriminate].
      inversion Hup; subst. cbn.
      now rewrite (set_keeps_match _ _ Hset), Hp.
    + inversion Hup; subst. cbn. now rewrite Hp.
Qed.

Hypothesis set_settles : forall r r', set r = Some r' -> set r' = Some r'.

(** Running the same update again changes nothing more. *)
Lemma update_where_again (rows rows' returning : list R) :
  update_where p set rows = Some (rows', returning) ->
  update_where p set rows' = Some (rows', returning).
Proof.
  revert rows' returning.
  induction rows as [|a rows IH]; cbn; intros rows' ret Hup.
  - now inversion Hup.
  - destruct (update_where p set rows) as [[rest ret0]|]; [|discriminate].
    specialize (IH rest ret0 eq_refl).
    destruct (p a) eqn:Hp.
    + destruct (set a) as [a'|] eqn:Hset; [|discriminate].
      inversion Hup; subst. cbn. rewrite IH.
      now rewrite (set_keeps_match _ _ Hset), Hp, (set_settles _ _ Hset).
    + inversion Hup; subst. cbn. now rewrite IH, Hp.
Qed.

End Trips.

Lemma scoped_new_row id cid :
  id_and_company id cid id cid = true <-> cid <> None.
Proof.
  rewrite id_and_company_true. split.
  - intros (_ & c & -> & _). discriminate.
  - destruct cid as [c|]; [eauto | congruence].
Qed.

Lemma fresh_id_matches_nothing {R} (rid : R -> uuid) (rco : R -> option uuid)
  id cid (rows : list R) :
  pk_free id (map rid rows) = true ->
  filter (fun r => id_and_company id cid (rid r) (rco r)) rows = [].
Proof.
  intros Hfree. apply pk_free_not_In in Hfree.
  apply filter_nil_iff. intros r Hr.
  destruct (id_and_company _ _ _ _) eqn:Hs; [|reflexivity].
  apply id_and_company_true in Hs. destruct Hs as [Hid _].
  exfalso. apply Hfree. apply in_map_iff. eauto.
Qed.

Lemma taken_id_not_free {R} (rid : R -> uuid) id (rows : list R) :
  (exists r, In r rows /\ rid r = id) -> pk_free id (map rid rows) = false.
Proof.
  intros (r & Hr & Hid). unfold pk_free. apply negb_false_iff.
  apply existsb_exists. exists id. split; [|apply String.eqb_refl].
  apply in_map_iff. eauto.
Qed.

(** The single read of a task, computed: the first task the route's WHERE
    clause selects, with the contact it refers to. *)
Lemma tasks_get_one_first user id s :
  Tasks.get_one user id s =
  (match hd_error (filter (Tasks.scoped id (ReqUser.company_id user))
                          (tasks s)) with
   | Some t => json 200 (task_with_contact s t)
   | None => error 404 "Task not found"
   end, s).
Proof.
  rewrite tasks_get_one_runs.
  pose proof (left_join_first (Tasks.scoped id (ReqUser.company_id user))
                (tasks s) (contacts s)) as Hfirst.
  destruct (filter _ (Tasks.left_join _ _)) as [|row rest];
    destruct (filter _ (tasks s)) as [|t ts]; cbn in Hfirst;
    try discriminate; [reflexivity|].
  inversion Hfirst; subst. reflexivity.
Qed.

Lemma find_some_of_match (cs : list Contact.row) (c : uuid) (r : Contact.row) :
  In r cs -> Contact.id r = c ->
  exists r0, find (fun x => (Contact.id x =? c)%string) cs = Some r0
             /\ In r0 cs /\ Contact.id r0 = c.
Proof.
  intros Hin Hid.
  destruct (find _ cs) as [r0|] eqn:Hfind.
  - apply find_some in Hfind. destruct Hfind as [Hr0 Heq].
    apply String.eqb_eq in Heq. eauto.
  - exfalso. apply (find_none _ _ Hfind) in Hin.
    rewrite Hid, String.eqb_refl in Hin. discriminate.
Qed.

(** A create either appends one row to its table or changes
    nothing. The row it answers with is what the single read of the new
    id then returns to the same caller; for a task the read adds the name
    of the contact the payload names. A caller without a company is the
    exception: the row is stored with no company, and the single read of
    its id answers 404. A generated id that is already taken is refused by
    the primary key, and nothing is stored. *)
Theorem created_rows_are_read_back :
  forall now new_id (user : ReqUser.t)
         (bc : Contacts.Body.t) (bl : Leads.Body.t) (bt : Tasks.Body.t) s,
    (forall row s',
       Contacts.post now new_id user bc s = (json 201 row, s') ->
       s' = with_contacts s (contacts s ++ [row])
       /\ (ReqUser.company_id user <> None ->
           Contacts.get_one user new_id s' = (json 200 row, s'))
       /\ (ReqUser.company_id user = None ->
           Contacts.get_one user new_id s'
           = (error 404 "Contact not found", s')))
    /\ (forall row s',
          Leads.post now new_id user bl s = (json 201 row, s') ->
          s' = with_leads s (leads s ++ [row])
          /\ (ReqUser.company_id user <> None ->
              Leads.get_one user new_id s' = (json 200 row, s'))
          /\ (ReqUser.company_id user = None ->
              Leads.get_one user new_id s'
              = (error 404 "Lead not found", s')))
    /\ (forall row s',
          Tasks.post now new_id user bt s = (json 201 row, s') ->
          s' = with_tasks s (tasks s ++ [row])
          /\ (ReqUser.company_id user <> None ->
              Tasks.get_one user new_id s'
              = (json 200 (task_with_contact s' row), s'))
          /\ (ReqUser.company_id user = None ->
              Tasks.get_one user new_id s'
              = (error 404 "Task not found", s'))
          /\ (param (Tasks.Body.contact_id bt) = None ->
              Tasks.Detailed.contact_name (task_with_contact s' row) = None)
          /\ (forall c,
                text (Tasks.Body.contact_id bt) = Some c ->
                NoDup (map Contact.id (contacts s)) ->
                exists r,
                  In r (contacts s) /\ Contact.id r = c
                  /\ Contact.company_id r = ReqUser.company_id user
                  /\ Tasks.Detailed.contact_name (task_with_contact s' row)
                     = Some (Contact.name r)))
    /\ ((exists row, fst (Contacts.post now new_id user bc s) = json 201 row)
        \/ snd (Contacts.post now new_id user bc s) = s)
    /\ ((exists row, fst (Leads.post now new_id user bl s) = json 201 row)
        \/ snd (Leads.post now new_id user bl s) = s)
    /\ ((exists row, fst (Tasks.post now new_id user bt s) = json 201 row)
        \/ snd (Tasks.post now new_id user bt s) = s)
    /\ ((exists r, In r (contacts s) /\ Contact.id r = new_id) ->
        status_of (fst (Contacts.post now new_id user bc s)) <> 201%nat
        /\ snd (Contacts.post now new_id user bc s) = s)
    /\ ((exists r, In r (leads s) /\ Lead.id r = new_id) ->
        status_of (fst (Leads.post now new_id user bl s)) <> 201%nat
        /\ snd (Leads.post now new_id user bl s) = s)
    /\ ((exists t, In t (tasks s) /\ Task.id t = new_id) ->
        status_of (fst (Tasks.post now new_id user bt s)) <> 201%nat
        /\ snd (Tasks.post now new_id user bt s) = s).
Proof.
  intros now new_id user bc bl bt s.
  split; [|split; [|split; [|split; [|split; [|split; [|split; [|split]]]]]]].
  - intros row s'. rewrite contacts_post_runs.
    destruct (text (Contacts.Body.name bc)) as [n|]; [|discriminate].
    destruct (pk_free _ _) eqn:Hpk; [|discriminate].
    destruct (fk_ok _ _); [|discriminate].
    cbn [andb]. cbn zeta. intros Heq. inversion Heq; subst; clear Heq.
    split; [reflexivity|].
    rewrite contacts_get_one_runs. cbn [with_contacts contacts].
    rewrite filter_app.
    assert (Hnone : filter (Contacts.scoped new_id (ReqUser.company_id user))
                           (contacts s) = [])
      by exact (fresh_id_matches_nothing Contact.id Contact.company_id
                  new_id (ReqUser.company_id user) (contacts s) Hpk).
    rewrite Hnone.
    cbn [filter app]. unfold Contacts.scoped. cbn [Contact.id
      Contact.company_id].
    split; intros Hc.
    + now rewrite (proj2 (scoped_new_row new_id _) Hc).
    + destruct (id_and_company _ _ _ _) eqn:Hs; [|reflexivity].
      apply scoped_new_row in Hs. contradiction.
  - intros row s'. rewrite leads_post_runs.
    destruct (text (Leads.Body.title bl)) as [n|]; [|discriminate].
    destruct (pk_free _ _) eqn:Hpk; cbn [andb]; [|discriminate].
    destruct (fk_ok _ _ && probability_check _); [|discriminate].
    cbn [andb]. cbn zeta. intros Heq. inversion Heq; subst; clear Heq.
    split; [reflexivity|].
    rewrite leads_get_one_runs. cbn [with_leads leads].
    rewrite filter_app.
    assert (Hnone : filter (Leads.scoped new_id (ReqUser.company_id user))
                           (leads s) = [])
      by exact (fresh_id_matches_nothing Lead.id Lead.company_id
                  new_id (ReqUser.company_id user) (leads s) Hpk).
    rewrite Hnone.
    cbn [filter app]. unfold Leads.scoped. cbn [Lead.id
      Lead.company_id].
    split; intros Hc.
    + now rewrite (proj2 (scoped_new_row new_id _) Hc).
    + destruct (id_and_company _ _ _ _) eqn:Hs; [|reflexivity].
      apply scoped_new_row in Hs. contradiction.
  - intros row s'. rewrite tasks_post_runs.
    destruct (text (Tasks.Body.title bt)) as [n|]; [|discriminate].
    rewrite verify_contact_runs. cbn [fst].
    destruct (match text (Tasks.Body.contact_id bt) with
              | Some _ => _ | None => _ end) eqn:Hverified; [|discriminate].
    destruct (pk_free _ _) eqn:Hpk; cbn [andb]; [|discriminate].
    destruct (fk_ok _ _ && fk_ok _ _ && priority_check _ && status_check _);
      [|discriminate].
    cbn [andb]. cbn zeta. intros Heq. inversion Heq; subst; clear Heq.
    split; [reflexivity|].
    rewrite tasks_get_one_first. cbn [with_tasks tasks].
    rewrite filter_app.
    assert (Hnone : filter (Tasks.scoped new_id (ReqUser.company_id user))
                           (tasks s) = [])
      by exact (fresh_id_matches_nothing Task.id Task.company_id
                  new_id (ReqUser.company_id user) (tasks s) Hpk).
    rewrite Hnone.
    cbn [filter app]. unfold Tasks.scoped. cbn [Task.id
      Task.company_id].
    split; [|split; [|split]].
    + intros Hc. now rewrite (proj2 (scoped_new_row new_id _) Hc).
    + intros Hc. destruct (id_and_company _ _ _ _) eqn:Hs; [|reflexivity].
      apply scoped_new_row in Hs. contradiction.
    + intros Hnull. unfold task_with_contact, referred.
      cbn [Tasks.detailed Tasks.Detailed.contact_name snd Task.contact_id].
      now rewrite Hnull.
    + intros c Hc Hnd. rewrite Hc in Hverified.
      destruct (filter _ (contacts s)) as [|r rest] eqn:Hf; [discriminate|].
      apply filter_head_In in Hf. destruct Hf as [Hr Hs].
      apply (scoped_own Contact.id Contact.company_id) in Hs.
      destruct Hs as (Hid & Hco & _).
      destruct (find_some_of_match (contacts s) c r Hr Hid)
        as (r0 & Hfind & Hr0 & Hid0).
      assert (r0 = r)
        by (apply (NoDup_map_unique Contact.id (contacts s)); auto;
            congruence).
      subst r0. exists r. repeat split; auto.
      unfold task_with_contact, referred.
      cbn [Tasks.detailed Tasks.Detailed.contact_name snd Task.contact_id
           with_tasks contacts].
      apply text_Some in Hc. destruct Hc as [-> _]. cbn [param].
      now rewrite Hfind.
  - rewrite contacts_post_runs.
    destruct (text (Contacts.Body.name bc)); [|now right].
    destruct (_ && _); [left; cbn; eauto | now right].
  - rewrite leads_post_runs.
    destruct (text (Leads.Body.title bl)); [|now right].
    destruct (_ && _); [left; cbn; eauto | now right].
  - rewrite tasks_post_runs.
    destruct (text (Tasks.Body.title bt)); [|now right].
    rewrite verify_contact_runs. cbn [fst].
    destruct (match text (Tasks.Body.contact_id bt) with
              | Some _ => _ | None => _ end); [|now right].
    destruct (_ && _); [left; cbn; eauto | now right].
  - intros Htaken. rewrite contacts_post_runs.
    rewrite (taken_id_not_free Contact.id new_id (contacts s) Htaken).
    destruct (text (Contacts.Body.name bc)); cbn; split;
      auto; discriminate.
  - intros Htaken. rewrite leads_post_runs.
    rewrite (taken_id_not_free Lead.id new_id (leads s) Htaken).
    destruct (text (Leads.Body.title bl)); cbn; split;
      auto; discriminate.
  - intros Htaken. rewrite tasks_post_runs.
    rewrite (taken_id_not_free Task.id new_id (tasks s) Htaken).
    destruct (text (Tasks.Body.title bt)); cbn [fst snd status_of];
      [|split; auto; discriminate].
    rewrite verify_contact_runs. cbn [fst].
    destruct (match text (Tasks.Body.contact_id bt) with
              | Some _ => _ | None => _ end); cbn; split; auto; discriminate.
Qed.

Lemma contacts_set_keeps_match now body id cid r r' :
  Contacts.set now body r = Some r' ->
  Contacts.scoped id cid r' = Contacts.scoped id cid r.
Proof.
  intros Hset. apply contacts_set_keeps in Hset.
  destruct Hset as (Hid & Hco & _). unfold Contacts.scoped.
  now rewrite Hid, Hco.
Qed.

Lemma contacts_set_settles now body r r' :
  Contacts.set now body r = Some r' -> Contacts.set now body r' = Some r'.
Proof.
  unfold Contacts.set. destruct (param (Contacts.Body.name body));
    [|discriminate].
  intros Heq. inversion Heq; subst. reflexivity.
Qed.

Lemma leads_set_keeps_match now body id cid r r' :
  Leads.set now body r = Some r' ->
  Leads.scoped id cid r' = Leads.scoped id cid r.
Proof.
  intros Hset. apply leads_set_keeps in Hset.
  destruct Hset as (Hid & Hco & _). unfold Leads.scoped.
  now rewrite Hid, Hco.
Qed.

Lemma leads_set_settles now body r r' :
  Leads.set now body r = Some r' -> Leads.set now body r' = Some r'.
Proof.
  unfold Leads.set. destruct (param (Leads.Body.title body));
    [|discriminate].
  destruct (probability_check _); [|discriminate].
  intros Heq. inversion Heq; subst. reflexivity.
Qed.

Lemma tasks_set_keeps_match now body ids id cid t t' :
  Tasks.set now body ids t = Some t' ->
  Tasks.scoped id cid t' = Tasks.scoped id cid t.
Proof.
  unfold Tasks.set. destruct (param (Tasks.Body.title body));
    [|discriminate].
  destruct (_ && _); [|discriminate].
  intros Heq. inversion Heq; subst. reflexivity.
Qed.

Lemma tasks_set_settles now body ids t t' :
  Tasks.set now body ids t = Some t' -> Tasks.set now body ids t' = Some t'.
Proof.
  unfold Tasks.set. destruct (param (Tasks.Body.title body));
    [|discriminate].
  destruct (_ && _); [|discriminate].
  intros Heq. inversion Heq; subst. reflexivity.
Qed.

(** The row an update answers with is what the single read of the
    same id then returns to the same caller (a task with the name of its
    contact), and the updates are idempotent: the same update at the same
    time answers with the same row and leaves the store as the first one
    left it. *)
Theorem updated_rows_are_read_back :
  forall now (user : ReqUser.t) id
         (bc : Contacts.Body.t) (bl : Leads.Body.t) (bt : Tasks.Body.t) s,
    (forall row s',
       Contacts.put now user id bc s = (json 200 row, s') ->
       Contacts.get_one user id s' = (json 200 row, s')
       /\ Contacts.put now user id bc s' = (json 200 row, s'))
    /\ (forall row s',
          Leads.put now user id bl s = (json 200 row, s') ->
          Leads.get_one user id s' = (json 200 row, s')
          /\ Leads.put now user id bl s' = (json 200 row, s'))
    /\ (forall row s',
          Tasks.put now user id bt s = (json 200 row, s') ->
          Tasks.get_one user id s'
          = (json 200 (task_with_contact s' row), s')
          /\ Tasks.put now user id bt s' = (json 200 row, s')).
Proof.
  intros now user id bc bl bt s. split; [|split].
  - intros row s'. rewrite contacts_put_runs.
    destruct (update_where _ _ _) as [[rows [|r ret]]|] eqn:Hup;
      try discriminate.
    intros Heq. inversion Heq; subst; clear Heq.
    rewrite contacts_get_one_runs, contacts_put_runs.
    cbn [with_contacts contacts].
    rewrite (update_where_kept _ _
               (contacts_set_keeps_match now bc id _) _ _ _ Hup).
    rewrite (update_where_again _ _
               (contacts_set_keeps_match now bc id _)
               (contacts_set_settles now bc) _ _ _ Hup).
    split; reflexivity.
  - intros row s'. rewrite leads_put_runs.
    destruct (update_where _ _ _) as [[rows [|r ret]]|] eqn:Hup;
      try discriminate.
    intros Heq. inversion Heq; subst; clear Heq.
    rewrite leads_get_one_runs, leads_put_runs.
    cbn [with_leads leads].
    rewrite (update_where_kept _ _
               (leads_set_keeps_match now bl id _) _ _ _ Hup).
    rewrite (update_where_again _ _
               (leads_set_keeps_match now bl id _)
               (leads_set_settles now bl) _ _ _ Hup).
    split; reflexivity.
  - intros row s'. rewrite tasks_put_runs, verify_contact_runs. cbn [fst].
    destruct (match text (Tasks.Body.contact_id bt) with
              | Some _ => _ | None => _ end) eqn:Hverified; [|discriminate].
    destruct (update_where _ _ _) as [[rows [|r ret]]|] eqn:Hup;
      try discriminate.
    intros Heq. inversion Heq; subst; clear Heq.
    rewrite tasks_get_one_first, tasks_put_runs, verify_contact_runs.
    cbn [with_tasks tasks contacts fst]. rewrite Hverified.
    rewrite (update_where_kept _ _
               (tasks_set_keeps_match now bt _ id _) _ _ _ Hup).
    rewrite (update_where_again _ _
               (tasks_set_keeps_match now bt _ id _)
               (tasks_set_settles now bt _) _ _ _ Hup).
    split; reflexivity.
Qed.

Lemma filter_twice_none {A} (p : A -> bool) (l : list A) :
  filter p (filter (fun x => negb (p x)) l) = [].
Proof.
  apply filter_nil_iff. intros x Hx. apply filter_In in Hx.
  destruct Hx as [_ Hx]. now apply negb_true_iff in Hx.
Qed.

(** On an id that is a UUID: a delete answers 200 exactly when a row of
    the caller's company has the id, removes every such row and keeps the
    others; afterwards the single read and a second delete answer 404. *)
Lemma bound_deleted_rows_are_gone :
  forall now (user : ReqUser.t) id s,
    ((exists r, In r (contacts s)
                /\ Contacts.scoped id (ReqUser.company_id user) r = true)
     <-> fst (Contacts.delete now user id s)
         = json 200 "Contact deleted successfully")
    /\ ((forall r, In r (contacts s) ->
                   Contacts.scoped id (ReqUser.company_id user) r = false)
        <-> Contacts.delete now user id s
            = (error 404 "Contact not found", s))
    /\ (forall r,
          In r (contacts (snd (Contacts.delete now user id s)))
          <-> In r (contacts s)
              /\ Contacts.scoped id (ReqUser.company_id user) r = false)
    /\ Contacts.get_one user id (snd (Contacts.delete now user id s))
       = (error 404 "Contact not found", snd (Contacts.delete now user id s))
    /\ (forall later,
          Contacts.delete later user id (snd (Contacts.delete now user id s))
          = (error 404 "Contact not found",
             snd (Contacts.delete now user id s)))
    /\ ((exists r, In r (leads s)
                   /\ Leads.scoped id (ReqUser.company_id user) r = true)
        <-> fst (Leads.delete user id s)
            = json 200 "Lead deleted successfully")
    /\ ((forall r, In r (leads s) ->
                   Leads.scoped id (ReqUser.company_id user) r = false)
        <-> Leads.delete user id s = (error 404 "Lead not found", s))
    /\ (forall r,
          In r (leads (snd (Leads.delete user id s)))
          <-> In r (leads s)
              /\ Leads.scoped id (ReqUser.company_id user) r = false)
    /\ Leads.get_one user id (snd (Leads.delete user id s))
       = (error 404 "Lead not found", snd (Leads.delete user id s))
    /\ Leads.delete user id (snd (Leads.delete user id s))
       = (error 404 "Lead not found", snd (Leads.delete user id s))
    /\ ((exists t, In t (tasks s)
                   /\ Tasks.scoped id (ReqUser.company_id user) t = true)
        <-> fst (Tasks.delete user id s)
            = json 200 "Task deleted successfully")
    /\ ((forall t, In t (tasks s) ->
                   Tasks.scoped id (ReqUser.company_id user) t = false)
        <-> Tasks.delete user id s = (error 404 "Task not found", s))
    /\ (forall t,
          In t (tasks (snd (Tasks.delete user id s)))
          <-> In t (tasks s)
              /\ Tasks.scoped id (ReqUser.company_id user) t = false)
    /\ Tasks.get_one user id (snd (Tasks.delete user id s))
       = (error 404 "Task not found", snd (Tasks.delete user id s))
    /\ Tasks.delete user id (snd (Tasks.delete user id s))
       = (error 404 "Task not found", snd (Tasks.delete user id s)).
Proof.
  intros now user id s.
  assert (Hsome : forall A (p : A -> bool) (l : list A),
            (exists r, In r l /\ p r = true) <-> filter p l <> []).
  { intros A p l. rewrite filter_nil_iff. split.
    - intros (r & Hr & Hp) Hall. rewrite (Hall r Hr) in Hp. discriminate.
    - intros Hsome. destruct (filter p l) as [|r rest] eqn:Hf.
      + exfalso. apply Hsome. now apply filter_nil_iff.
      + apply filter_head_In in Hf. eauto. }
  assert (Hleft : forall A (p : A -> bool) (l : list A) (r : A),
            In r (filter (fun x => negb (p x)) l)
            <-> In r l /\ p r = false).
  { intros A p l r. rewrite filter_In, negb_true_iff. tauto. }
  repeat match goal with |- _ /\ _ => split end.
  - rewrite Hsome, contacts_delete_runs.
    destruct (filter _ (contacts s)); cbn [fst]; split; congruence.
  - rewrite <- filter_nil_iff, contacts_delete_runs.
    destruct (filter _ (contacts s)); split; congruence.
  - intros r. rewrite contacts_delete_runs.
    destruct (filter _ (contacts s)) eqn:Hf; cbn [snd contacts].
    + rewrite filter_nil_iff in Hf. split; [auto | tauto].
    + apply Hleft.
  - rewrite contacts_get_one_runs, contacts_delete_runs.
    destruct (filter _ (contacts s)) eqn:Hf; cbn [snd contacts].
    + now rewrite Hf.
    + now rewrite filter_twice_none.
  - intros later. rewrite (contacts_delete_runs later), contacts_delete_runs.
    destruct (filter _ (contacts s)) eqn:Hf; cbn [snd contacts].
    + now rewrite Hf.
    + now rewrite filter_twice_none.
  - rewrite Hsome, leads_delete_runs.
    destruct (filter _ (leads s)); cbn [fst]; split; congruence.
  - rewrite <- filter_nil_iff, leads_delete_runs.
    destruct (filter _ (leads s)); split; congruence.
  - intros r. rewrite leads_delete_runs.
    destruct (filter _ (leads s)) eqn:Hf; cbn [snd with_leads leads].
    + rewrite filter_nil_iff in Hf. split; [auto | tauto].
    + apply Hleft.
  - rewrite leads_get_one_runs, leads_delete_runs.
    destruct (filter _ (leads s)) eqn:Hf; cbn [snd with_leads leads].
    + now rewrite Hf.
    + now rewrite filter_twice_none.
  - rewrite (leads_delete_runs user id (snd _)), leads_delete_runs.
    destruct (filter _ (leads s)) eqn:Hf; cbn [snd with_leads leads].
    + now rewrite Hf.
    + now rewrite filter_twice_none.
  - rewrite Hsome, tasks_delete_runs.
    destruct (filter _ (tasks s)); cbn [fst]; split; congruence.
  - rewrite <- filter_nil_iff, tasks_delete_runs.
    destruct (filter _ (tasks s)); split; congruence.
  - intros t. rewrite tasks_delete_runs.
    destruct (filter _ (tasks s)) eqn:Hf; cbn [snd with_tasks tasks].
    + rewrite filter_nil_iff in Hf. split; [auto | tauto].
    + apply Hleft.
  - rewrite tasks_get_one_first, tasks_delete_runs.
    destruct (filter _ (tasks s)) eqn:Hf; cbn [snd with_tasks tasks].
    + now rewrite Hf.
    + now rewrite filter_twice_none.
  - rewrite (tasks_delete_runs user id (snd _)), tasks_delete_runs.
    destruct (filter _ (tasks s)) eqn:Hf; cbn [snd with_tasks tasks].
    + now rewrite Hf.
    + now rewrite filter_twice_none.
Qed.

(** ** What the updates of leads and tasks leave alone *)

Lemma update_where_none_returned {R} (set : R -> option R) (p : R -> bool)
  (rows rows' : list R) :
  update_where p set rows = Some (rows', []) -> rows' = rows.
Proof.
  revert rows'. induction rows as [|a rows IH]; cbn; intros rows' Hup.
  - now inversion Hup.
  - destruct (update_where p set rows) as [[rest ret]|]; [|discriminate].
    destruct (p a).
    + destruct (set a); discriminate.
    + inversion Hup; subst. f_equal. now apply IH.
Qed.

Lemma leads_set_frame now body old new :
  Leads.set now body old = Some new ->
  Lead.id new = Lead.id old
  /\ Lead.company_id new = Lead.company_id old
  /\ Lead.created_at new = Lead.created_at old
  /\ Lead.tags new = Lead.tags old.
Proof.
  unfold Leads.set. destruct (param (Leads.Body.title body)); [|discriminate].
  destruct (probability_check _); [|discriminate].
  intros Heq. inversion Heq; subst. cbn. auto.
Qed.

Lemma tasks_set_frame now body ids old new :
  Tasks.set now body ids old = Some new ->
  Task.id new = Task.id old
  /\ Task.company_id new = Task.company_id old
  /\ Task.created_at new = Task.created_at old.
Proof.
  unfold Tasks.set. destruct (param (Tasks.Body.title body)); [|discriminate].
  destruct (_ && _); [|discriminate].
  intros Heq. inversion Heq; subst. cbn. auto.
Qed.

(** A successful update of a lead leaves the other tables as they
    were, keeps every lead it does not address identical and in place, and
    keeps the id, company_id, created_at and tags of the lead it rewrites;
    a successful update of a task does the same for tasks, keeping id,
    company_id and created_at. An update of a contact, a lead or a task
    that does not answer 200 leaves the store exactly as it was. *)
Theorem updates_touch_one_row :
  forall now (user : ReqUser.t) id
         (bc : Contacts.Body.t) (bl : Leads.Body.t) (bt : Tasks.Body.t) s,
    (forall row s',
       Leads.put now user id bl s = (json 200 row, s') ->
       companies s' = companies s /\ users s' = users s
       /\ contacts s' = contacts s /\ tasks s' = tasks s
       /\ Forall2
            (fun old new =>
               Lead.id new = Lead.id old
               /\ Lead.company_id new = Lead.company_id old
               /\ Lead.created_at new = Lead.created_at old
               /\ Lead.tags new = Lead.tags old
               /\ (Leads.scoped id (ReqUser.company_id user) old = false ->
                   new = old))
            (leads s) (leads s'))
    /\ (forall row s',
          Tasks.put now user id bt s = (json 200 row, s') ->
          companies s' = companies s /\ users s' = users s
          /\ contacts s' = contacts s /\ leads s' = leads s
          /\ Forall2
               (fun old new =>
                  Task.id new = Task.id old
                  /\ Task.company_id new = Task.company_id old
                  /\ Task.created_at new = Task.created_at old
                  /\ (Tasks.scoped id (ReqUser.company_id user) old = false ->
                      new = old))
               (tasks s) (tasks s'))
    /\ ((exists row, fst (Contacts.put now user id bc s) = json 200 row)
        \/ snd (Contacts.put now user id bc s) = s)
    /\ ((exists row, fst (Leads.put now user id bl s) = json 200 row)
        \/ snd (Leads.put now user id bl s) = s)
    /\ ((exists row, fst (Tasks.put now user id bt s) = json 200 row)
        \/ snd (Tasks.put now user id bt s) = s).
Proof.
  intros now user id bc bl bt s.
  repeat match goal with |- _ /\ _ => split end.
  - intros row s'. rewrite leads_put_runs.
    destruct (update_where _ _ _) as [[rows [|r ret]]|] eqn:Hup;
      try discriminate.
    intros Heq. inversion Heq; subst; clear Heq.
    cbn [with_leads companies users contacts leads tasks].
    apply update_where_rows in Hup. destruct Hup as (Hrows & _ & _).
    repeat split; auto.
    eapply Forall2_impl; [|exact Hrows]. intros old new Hone.
    cbv beta in Hone.
    destruct (Leads.scoped id (ReqUser.company_id user) old) eqn:Hs.
    + apply leads_set_frame in Hone. intuition discriminate.
    + subst new. intuition.
  - intros row s'. rewrite tasks_put_runs.
    destruct (fst (Tasks.verify_contact _ _ _)) as [[|]|]; try discriminate.
    destruct (update_where _ _ _) as [[rows [|r ret]]|] eqn:Hup;
      try discriminate.
    intros Heq. inversion Heq; subst; clear Heq.
    cbn [with_tasks companies users contacts leads tasks].
    apply update_where_rows in Hup. destruct Hup as (Hrows & _ & _).
    repeat split; auto.
    eapply Forall2_impl; [|exact Hrows]. intros old new Hone.
    cbv beta in Hone.
    destruct (Tasks.scoped id (ReqUser.company_id user) old) eqn:Hs.
    + apply tasks_set_frame in Hone. intuition discriminate.
    + subst new. intuition.
  - rewrite contacts_put_runs.
    destruct (update_where _ _ _) as [[rows [|r ret]]|] eqn:Hup;
      [right|left; cbn; eauto|now right].
    apply update_where_none_returned in Hup. subst rows.
    apply with_contacts_same.
  - rewrite leads_put_runs.
    destruct (update_where _ _ _) as [[rows [|r ret]]|] eqn:Hup;
      [right|left; cbn; eauto|now right].
    apply update_where_none_returned in Hup. subst rows.
    apply with_leads_same.
  - rewrite tasks_put_runs.
    destruct (fst (Tasks.verify_contact _ _ _)) as [[|]|]; try now right.
    destruct (update_where _ _ _) as [[rows [|r ret]]|] eqn:Hup;
      [right|left; cbn; eauto|now right].
    apply update_where_none_returned in Hup. subst rows.
    apply with_tasks_same.
Qed.

(* ================================================================= *)
(** ** Sessions: login, the gate, registration *)

Lemma select_unique {A} (f : A -> string) (l : list A) (x : A) :
  NoDup (map f l) -> In x l ->
  filter (fun y => holds (str_eq (Some (f y)) (Some (f x)))) l = [x].
Proof.
  intros Hnd Hx.
  destruct (filter_at_most_one f
              (fun y => holds (str_eq (Some (f y)) (Some (f x)))) (f x) l Hnd)
    as [Hnil|(y & Hy)].
  - intros y Hy. apply holds_str_eq in Hy. destruct Hy as (a & Ha & Hb).
    congruence.
  - exfalso. rewrite filter_nil_iff in Hnil. specialize (Hnil x Hx).
    cbv beta in Hnil.
    assert (Ht : holds (str_eq (Some (f x)) (Some (f x))) = true)
      by (apply holds_str_eq; eauto).
    rewrite Ht in Hnil. discriminate.
  - rewrite Hy. f_equal.
    assert (Hin : In x (filter (fun y => holds (str_eq (Some (f y))
                                                       (Some (f x)))) l)).
    { apply filter_In. split; [exact Hx|]. apply holds_str_eq. eauto. }
    rewrite Hy in Hin. destruct Hin as [->|[]]. reflexivity.
Qed.

(** A login with the email of a user and a password its hash accepts. *)
Lemma login_accepts JWT_SECRET now body s u pw :
  filter (fun x => holds (str_eq (Some (User.email x))
                                 (param (AuthRoutes.lb_email body))))
         (users s) = [u] ->
  AuthRoutes.lb_password body = val pw ->
  AuthRoutes.login JWT_SECRET now body s
  = (if bcrypt_compare pw (User.password_hash u)
     then json 200 (session JWT_SECRET now u)
     else error 400 "Invalid credentials", s).
Proof.
  intros Hfound Hpw.
  unfold AuthRoutes.login, try_catch, AuthRoutes.login_body_io, bind,
    AuthRoutes.select_users_by_email, query.
  rewrite Hfound. unfold AuthRoutes.compare_password. rewrite Hpw.
  unfold ret. destruct (bcrypt_compare pw (User.password_hash u));
    reflexivity.
Qed.

Lemma carried_token h t : t <> "" -> carries h t -> text (token_of h) = Some t.
Proof.
  intros Ht Hcarries.
  assert (Htext : text (val t) = Some t).
  { cbn [text]. destruct (String.eqb_spec t ""); [contradiction|reflexivity]. }
  destruct Hcarries as [Hx|[Hx Ha]]; unfold token_of, or_else, truthy.
  - now rewrite Hx, Htext.
  - now rewrite Hx, Ha, bearer_strips.
Qed.


Lemma company_name_param (body : AuthRoutes.register_body) :
  param (or_else (AuthRoutes.rb_companyName body) (val "My Company"))
  = Some match text (AuthRoutes.rb_companyName body) with
         | Some n => n
         | None => "My Company"
         end.
Proof.
  unfold or_else, truthy.
  destruct (text (AuthRoutes.rb_companyName body)) as [n|] eqn:Hn;
    [|reflexivity].
  apply text_Some in Hn. destruct Hn as [-> _]. reflexivity.
Qed.

Lemma unknown_email_selects_nothing (email : option string) s :
  (forall u, In u (users s) -> Some (User.email u) <> email) ->
  filter (fun u => holds (str_eq (Some (User.email u)) email)) (users s) = [].
Proof.
  intros Hfree. apply filter_nil_iff. intros u Hu.
  destruct (holds _) eqn:Hh; [|reflexivity].
  apply holds_str_eq in Hh. destruct Hh as (a & Ha & Hb).
  exfalso. apply (Hfree u Hu). congruence.
Qed.

Lemma new_company_referenced now id body s :
  fk_ok (Some id)
    (map Company.id (companies s ++ [new_company now id body])) = true.
Proof.
  cbn [fk_ok]. apply existsb_exists. exists id.
  split; [|apply String.eqb_refl].
  rewrite map_app. apply in_or_app. right. now left.
Qed.

(** A registration, computed, once the email is known to be free: the
    company is inserted first, then the user. *)
Lemma register_runs JWT_SECRET now company_uuid user_uuid salt body s pw :
  (forall u, In u (users s) ->
             Some (User.email u) <> param (AuthRoutes.rb_email body)) ->
  AuthRoutes.rb_password body = val pw ->
  AuthRoutes.register JWT_SECRET now company_uuid user_uuid salt body s =
  if pk_free company_uuid (map Company.id (companies s)) then
    let s1 := with_companies s
                (companies s ++ [new_company now company_uuid body]) in
    match param (AuthRoutes.rb_email body),
          param (AuthRoutes.rb_name body) with
    | Some email, Some name =>
        if pk_free user_uuid (map User.id (users s))
           && negb (existsb (String.eqb email) (map User.email (users s)))
        then
          (json 201
             {| AuthRoutes.r_token :=
                  jwt_sign user_uuid (secret JWT_SECRET) now;
                AuthRoutes.r_id := user_uuid;
                AuthRoutes.r_email := email;
                AuthRoutes.r_name := name |},
           with_users s1
             (users s ++
              [new_user now user_uuid company_uuid email name pw salt]))
        else (error 500 "Server error during registration", s1)
    | _, _ => (error 500 "Server error during registration", s1)
    end
  else (error 500 "Server error during registration", s).
Proof.
  intros Hfree Hpw.
  unfold AuthRoutes.register, try_catch, AuthRoutes.register_body_io, bind,
    AuthRoutes.select_users_by_email, query.
  rewrite (unknown_email_selects_nothing _ s Hfree).
  cbn [List.length Nat.ltb Nat.leb].
  unfold AuthRoutes.insert_company, statement.
  rewrite company_name_param.
  destruct (pk_free company_uuid _); [|reflexivity].
  fold (new_company now company_uuid body).
  unfold AuthRoutes.hash_password, ret. rewrite Hpw.
  unfold AuthRoutes.insert_user, statement.
  cbn [with_companies users companies].
  destruct (param (AuthRoutes.rb_email body)) as [email|]; [|reflexivity].
  destruct (param (AuthRoutes.rb_name body)) as [name|]; [|reflexivity].
  rewrite (new_company_referenced now company_uuid body s), andb_true_r.
  destruct (_ && _); reflexivity.
Qed.

(** On parameters of the column types: after a registration that
    answered 201, a login with the same email and password answers 200 for
    the new user; a login with a password the hash refuses answers 400. *)
Lemma bound_registered_user_can_log_in :
  forall JWT_SECRET now later company_uuid user_uuid salt
         (body : AuthRoutes.register_body) s name email pw,
    AuthRoutes.rb_name body = val name ->
    AuthRoutes.rb_email body = val email ->
    AuthRoutes.rb_password body = val pw ->
    (forall u, In u (users s) -> User.email u <> email) ->
    pk_free company_uuid (map Company.id (companies s)) = true ->
    pk_free user_uuid (map User.id (users s)) = true ->
    exists created s',
      AuthRoutes.register JWT_SECRET now company_uuid user_uuid salt body s
      = (json 201 created, s')
      /\ (bcrypt_compare pw (bcrypt_hash pw salt) = true ->
          AuthRoutes.login JWT_SECRET later
            {| AuthRoutes.lb_email := val email;
               AuthRoutes.lb_password := val pw |} s'
          = (json 200
               {| AuthRoutes.token :=
                    jwt_sign user_uuid (secret JWT_SECRET) later;
                  AuthRoutes.id := user_uuid;
                  AuthRoutes.email := email;
                  AuthRoutes.name := name;
                  AuthRoutes.company_id := Some company_uuid |}, s'))
      /\ (forall other,
            bcrypt_compare other (bcrypt_hash pw salt) = false ->
            AuthRoutes.login JWT_SECRET later
              {| AuthRoutes.lb_email := val email;
                 AuthRoutes.lb_password := val other |} s'
            = (error 400 "Invalid credentials", s')).
Proof.
  intros J now later cu uu salt body s name email pw
    Hname Hemail Hpw Hfree Hcu Huu.
  assert (Hfree' : forall u, In u (users s) ->
                     Some (User.email u) <> param (AuthRoutes.rb_email body)).
  { intros u Hu. rewrite Hemail. cbn [param]. intros Heq.
    inversion Heq. now apply (Hfree u Hu). }
  assert (Hunique : existsb (String.eqb email) (map User.email (users s))
                    = false).
  { apply existsb_eqb_false. intros Hin. apply in_map_iff in Hin.
    destruct Hin as (u & Hu & Hin). now apply (Hfree u Hin). }
  rewrite (register_runs J now cu uu salt body s pw Hfree' Hpw).
  rewrite Hcu, Hemail, Hname. cbn [param]. rewrite Huu, Hunique.
  cbn [negb andb]. cbn zeta.
  do 2 eexists. split; [reflexivity|].
  assert (Hfound : forall b,
            AuthRoutes.lb_email b = val email ->
            filter (fun x => holds (str_eq (Some (User.email x))
                                           (param (AuthRoutes.lb_email b))))
              (users (with_users
                        (with_companies s
                           (companies s ++ [new_company now cu body]))
                        (users s ++ [new_user now uu cu email name pw salt])))
            = [new_user now uu cu email name pw salt]).
  { intros b Hb. rewrite Hb. cbn [with_users users param].
    rewrite filter_app.
    rewrite (unknown_email_selects_nothing (Some email) s).
    - cbn [filter app new_user User.email holds str_eq sql_eq].
      now rewrite String.eqb_refl.
    - intros u Hu Heq. inversion Heq. now apply (Hfree u Hu). }
  split.
  - intros Hok.
    rewrite (login_accepts J later _ _ _ pw
               (Hfound {| AuthRoutes.lb_email := val email;
                          AuthRoutes.lb_password := val pw |} eq_refl)
               eq_refl).
    cbn [new_user User.password_hash]. rewrite Hok. reflexivity.
  - intros other Hno.
    rewrite (login_accepts J later _ _ _ other
               (Hfound {| AuthRoutes.lb_email := val email;
                          AuthRoutes.lb_password := val other |} eq_refl)
               eq_refl).
    cbn [new_user User.password_hash]. now rewrite Hno.
Qed.


(** ** The token of a request *)

Lemma starts_with_empty (pat : string) :
  starts_with pat "" = true -> pat = ""%string.
Proof. destruct pat; [reflexivity | discriminate]. Qed.

(** [replace] rewrites the first occurrence of the pattern, wherever it
    is, and only that one. *)
Lemma replace_first (pat rep s : string) (n : nat) :
  occurs_at pat s n = true ->
  (forall k, (k < n)%nat -> occurs_at pat s k = false) ->
  replace pat rep s
  = (String.substring 0 n s ++ rep ++ skip (n + String.length pat) s)%string.
Proof.
  unfold occurs_at. revert s. induction n as [|n IH]; intros s Hat Hbefore.
  - cbn [skip] in Hat. destruct s; cbn [replace]; rewrite Hat; reflexivity.
  - pose proof (Hbefore O (Nat.lt_0_succ n)) as Hzero. cbn [skip] in Hzero.
    destruct s as [|c s].
    + cbn [skip] in Hat. apply starts_with_empty in Hat. subst pat.
      discriminate.
    + cbn [replace]. rewrite Hzero. cbn [skip] in Hat.
      rewrite (IH s Hat).
      * reflexivity.
      * intros k Hk. apply (Hbefore (S k)). lia.
Qed.

Lemma replace_absent (pat rep s : string) :
  (forall n, occurs_at pat s n = false) -> replace pat rep s = s.
Proof.
  unfold occurs_at. induction s as [|c s IH]; intros Hnone.
  - pose proof (Hnone O) as Hzero. cbn [skip] in Hzero.
    cbn [replace]. now rewrite Hzero.
  - pose proof (Hnone O) as Hzero. cbn [skip] in Hzero.
    cbn [replace]. rewrite Hzero. f_equal. apply IH.
    intros n. exact (Hnone (S n)).
Qed.

(** How the gate reads the Authorization header when x-auth-token
    gives no token: the first occurrence of "Bearer " is cut out wherever
    it stands, not only at the start, and nothing else is; a header
    without it is the token as it is. A request without the header, with
    an empty one or with the bare prefix has no token and is answered 401
    [No token, authorization denied], the store unchanged. *)
Theorem bearer_prefix_is_cut_once :
  forall (h : headers) (header : string),
    text (x_auth_token h) = None ->
    authorization h = val header ->
    ((forall n, occurs_at "Bearer " header n = false) ->
     token_of h = val header)
    /\ (forall n,
          occurs_at "Bearer " header n = true ->
          (forall k, (k < n)%nat -> occurs_at "Bearer " header k = false) ->
          token_of h
          = val (String.substring 0 n header ++ skip (n + 7) header)%string)
    /\ (forall JWT_SECRET now s,
          header = ""%string \/ header = "Bearer "%string ->
          auth JWT_SECRET now h s
          = (denied 401 "No token, authorization denied", s))
    /\ (forall JWT_SECRET now s (h0 : headers),
          text (x_auth_token h0) = None ->
          authorization h0 = undefined ->
          auth JWT_SECRET now h0 s
          = (denied 401 "No token, authorization denied", s)).
Proof.
  intros h header Hx Ha.
  assert (Htoken : token_of h = val (replace "Bearer " "" header)).
  { unfold token_of, or_else, truthy. now rewrite Hx, Ha. }
  repeat match goal with |- _ /\ _ => split end.
  - intros Hnone. now rewrite Htoken, replace_absent.
  - intros n Hat Hbefore.
    now rewrite Htoken, (replace_first _ _ _ n Hat Hbefore).
  - intros J now s Hbare. rewrite auth_decides, Htoken.
    destruct Hbare as [->| ->]; reflexivity.
  - intros J now s h0 Hx0 Ha0. rewrite auth_decides.
    unfold token_of, or_else, truthy. now rewrite Hx0, Ha0.
Qed.

(* ================================================================= *)
(** ** The statistics count every row once *)

Section Dealing.

Context {R K : Type} (same : K -> K -> bool) (key : R -> K).

(** Dealing a row to its group adds it to the rows the groups hold. *)
Lemma add_to_group_holds (r : R) (groups : list (K * list R)) :
  Permutation (List.concat (map snd (add_to_group same key r groups)))
              (r :: List.concat (map snd groups)).
Proof.
  induction groups as [|[k held] rest IH]; cbn [add_to_group].
  - cbn. apply Permutation_refl.
  - destruct (same k (key r)); cbn [map snd List.concat].
    + rewrite <- app_assoc. cbn [app].
      apply Permutation_sym, Permutation_middle.
    + eapply Permutation_trans.
      * apply Permutation_app_head. exact IH.
      * apply Permutation_sym, Permutation_middle.
Qed.

Lemma deal_holds (rows : list R) :
  forall groups,
    Permutation
      (List.concat (map snd (fold_left (fun g r => add_to_group same key r g)
                                  rows groups)))
      (List.concat (map snd groups) ++ rows).
Proof.
  induction rows as [|r rows IH]; intros groups; cbn [fold_left].
  - rewrite app_nil_r. apply Permutation_refl.
  - eapply Permutation_trans; [apply IH|].
    eapply Permutation_trans.
    + apply Permutation_app_tail. apply add_to_group_holds.
    + cbn [app]. apply Permutation_middle.
Qed.

(** The groups of GROUP BY hold the rows, each once. *)
Lemma group_by_holds (rows : list R) :
  Permutation (List.concat (map snd (group_by same key rows))) rows.
Proof. exact (deal_holds rows []). Qed.

End Dealing.

Lemma total_app (a b : list Z) : total (a ++ b) = total a + total b.
Proof.
  unfold total. induction a as [|x a IH]; cbn; [reflexivity|].
  rewrite IH. lia.
Qed.

Lemma total_same (a b : list Z) : Permutation a b -> total a = total b.
Proof.
  unfold total. induction 1; cbn; lia.
Qed.

Lemma non_null_app {A} (a b : list (option A)) :
  non_null (a ++ b) = non_null a ++ non_null b.
Proof. unfold non_null. apply flat_map_app. Qed.

Lemma non_null_same {A} (a b : list (option A)) :
  Permutation a b -> Permutation (non_null a) (non_null b).
Proof.
  unfold non_null. induction 1 as [|x a b Hab IH|x y a|a b c Hab IH1 Hbc IH2];
    cbn [flat_map].
  - apply Permutation_refl.
  - now apply Permutation_app_head.
  - rewrite !app_assoc. apply Permutation_app_tail.
    apply Permutation_app_comm.
  - eapply Permutation_trans; eauto.
Qed.

Lemma counts_add_up {G X} (held : G -> list X) (groups : list G) :
  total (map (fun g => Z.of_nat (List.length (held g))) groups)
  = Z.of_nat (List.length (List.concat (map held groups))).
Proof.
  induction groups as [|g groups IH]; [reflexivity|].
  cbn [map List.concat]. rewrite length_app, Nat2Z.inj_add, <- IH. reflexivity.
Qed.

Lemma sum_of_one (l : list (option Z)) :
  total (non_null [sql_sum l]) = total (non_null l).
Proof.
  unfold sql_sum. destruct (non_null l) as [|v vs]; [reflexivity|].
  cbn. lia.
Qed.

Lemma sums_add_up {G} (held : G -> list (option Z)) (groups : list G) :
  total (non_null (map (fun g => sql_sum (held g)) groups))
  = total (non_null (List.concat (map held groups))).
Proof.
  induction groups as [|g groups IH]; [reflexivity|].
  cbn [map List.concat].
  change (sql_sum (held g) :: map (fun g0 => sql_sum (held g0)) groups)
    with ([sql_sum (held g)] ++ map (fun g0 => sql_sum (held g0)) groups).
  rewrite !non_null_app, !total_app, IH, sum_of_one. reflexivity.
Qed.

(** The statistics count every row of the caller's company exactly
    once: the counts of the pipeline groups add up to the number of the
    caller's leads and their total values to the sum of the values of
    those leads; the counts of the task overview add up to the number of
    the caller's tasks. *)
Theorem statistics_count_every_row_once :
  forall (user : ReqUser.t) s,
    (exists groups,
       Leads.pipeline user s = (json 200 groups, s)
       /\ total (map Leads.Pipeline.count groups)
          = Z.of_nat
              (List.length
                 (filter (fun r => in_company (ReqUser.company_id user)
                                              (Lead.company_id r))
                         (leads s)))
       /\ total (non_null (map Leads.Pipeline.total_value groups))
          = total
              (non_null
                 (map Lead.value
                    (filter (fun r => in_company (ReqUser.company_id user)
                                                 (Lead.company_id r))
                            (leads s)))))
    /\ (exists groups,
          Tasks.overview user s = (json 200 groups, s)
          /\ total (map Tasks.Overview.count groups)
             = Z.of_nat
                 (List.length
                    (filter (fun t => in_company (ReqUser.company_id user)
                                                 (Task.company_id t))
                            (tasks s)))).
Proof.
  intros user s. split.
  - eexists. split; [apply pipeline_runs|].
    set (mine := filter _ (leads s)).
    set (groups := group_by same_text Lead.stage mine).
    pose proof (group_by_holds same_text Lead.stage mine) as Hheld.
    fold groups in Hheld.
    pose proof (order_by_perm
                  (fun a b => Leads.stage_rank (Leads.Pipeline.stage a)
                              <=? Leads.stage_rank (Leads.Pipeline.stage b))
                  (map Leads.aggregate groups)) as Hsorted.
    split.
    + rewrite <- (total_same _ _ (Permutation_map _ Hsorted)).
      rewrite map_map. cbn [Leads.aggregate Leads.Pipeline.count].
      rewrite (counts_add_up snd groups).
      now rewrite (Permutation_length Hheld).
    + rewrite <- (total_same _ _
                    (non_null_same _ _ (Permutation_map _ Hsorted))).
      rewrite map_map. cbn [Leads.aggregate Leads.Pipeline.total_value].
      rewrite (sums_add_up (fun g => map Lead.value (snd g)) groups).
      rewrite <- (map_map snd (map Lead.value)), <- concat_map.
      apply total_same, non_null_same, Permutation_map. exact Hheld.
  - eexists. split; [apply overview_runs|].
    set (mine := filter _ (tasks s)).
    set (groups := group_by Tasks.same_key Tasks.key mine).
    pose proof (group_by_holds Tasks.same_key Tasks.key mine) as Hheld.
    fold groups in Hheld.
    pose proof (order_by_perm
                  (fun a b => not_after (Tasks.overview_order a b))
                  (map Tasks.count_group groups)) as Hsorted.
    rewrite <- (total_same _ _ (Permutation_map _ Hsorted)).
    rewrite map_map. cbn [Tasks.count_group Tasks.Overview.count].
    rewrite (counts_add_up snd groups).
    now rewrite (Permutation_length Hheld).
Qed.

(* ================================================================= *)
(** ** Accounts stay well formed *)

(** Where a registration can leave the store: as it was, with the new
    company only, or with the new company and a user of it. *)
Lemma register_store JWT_SECRET now company_uuid user_uuid salt body s :
  let s' := snd (AuthRoutes.register JWT_SECRET now company_uuid user_uuid
                   salt body s) in
  s' = s
  \/ (pk_free company_uuid (map Company.id (companies s)) = true
      /\ (s' = with_companies s
                 (companies s ++ [new_company now company_uuid body])
          \/ exists u,
               pk_free (User.id u) (map User.id (users s)) = true
               /\ pk_free (User.email u) (map User.email (users s)) = true
               /\ User.company_id u = Some company_uuid
               /\ s' = with_users
                         (with_companies s
                            (companies s
                             ++ [new_company now company_uuid body]))
                         (users s ++ [u]))).
Proof.
  unfold AuthRoutes.register, try_catch, AuthRoutes.register_body_io, bind,
    AuthRoutes.select_users_by_email, query, AuthRoutes.insert_company,
    AuthRoutes.insert_user, AuthRoutes.hash_password, statement, ret, throw.
  destruct (0 <? List.length _)%nat; [now left|].
  rewrite company_name_param.
  destruct (pk_free company_uuid _) eqn:Hcu; [|now left].
  fold (new_company now company_uuid body).
  right. split; [reflexivity|].
  destruct (AuthRoutes.rb_password body) as [| |pw]; cbn; auto.
  destruct (param (AuthRoutes.rb_email body)) as [email|]; cbn; auto.
  destruct (param (AuthRoutes.rb_name body)) as [name|]; cbn; auto.
  destruct (pk_free user_uuid _) eqn:Huu; cbn; auto.
  destruct (negb (existsb _ _)) eqn:Hemail; cbn; auto.
  destruct (existsb (String.eqb company_uuid) _); cbn; auto.
  right. eexists. split; [|split; [|split; [|reflexivity]]];
    cbn [User.id User.email User.company_id];
    [exact Huu | exact Hemail | reflexivity].
Qed.

Lemma companies_known_more s s' refs :
  (forall c, In c (map Company.id (companies s)) ->
             In c (map Company.id (companies s'))) ->
  companies_known s refs -> companies_known s' refs.
Proof. intros Hmore Hknown c Hc. auto. Qed.

(** A route that leaves companies and users alone, and stores no
    company_id but those already stored or that of a company, keeps the
    accounts well formed. *)
Lemma accounts_kept s s' :
  companies s' = companies s -> users s' = users s ->
  (forall c, In (Some c) (map Contact.company_id (contacts s')) ->
             In (Some c) (map Contact.company_id (contacts s))
             \/ In c (map Company.id (companies s))) ->
  (forall c, In (Some c) (map Lead.company_id (leads s')) ->
             In (Some c) (map Lead.company_id (leads s))
             \/ In c (map Company.id (companies s))) ->
  (forall c, In (Some c) (map Task.company_id (tasks s')) ->
             In (Some c) (map Task.company_id (tasks s))
             \/ In c (map Company.id (companies s))) ->
  accounts_well_formed s -> accounts_well_formed s'.
Proof.
  intros Hco Hus Hc Hl Ht (H1 & H2 & H3 & H4 & H5 & H6 & H7).
  unfold accounts_well_formed, companies_known. rewrite Hco, Hus.
  repeat match goal with |- _ /\ _ => split end; auto.
  - intros c Hin. destruct (Hc c Hin); auto.
  - intros c Hin. destruct (Hl c Hin); auto.
  - intros c Hin. destruct (Ht c Hin); auto.
Qed.

Lemma appended_ref {R} (co : R -> option uuid) (rows : list R) (r : R)
  (ids : list uuid) :
  fk_ok (co r) ids = true ->
  forall c, In (Some c) (map co (rows ++ [r])) ->
            In (Some c) (map co rows) \/ In c ids.
Proof.
  intros Hfk c Hin. rewrite map_app in Hin. apply in_app_or in Hin.
  destruct Hin as [Hin|[Heq|[]]]; [now left|].
  right. rewrite Heq in Hfk. now apply fk_ok_In.
Qed.

Lemma kept_refs {R} (co : R -> option uuid) (p : R -> bool) (rows : list R)
  (ids : list uuid) :
  forall c, In (Some c) (map co (filter p rows)) ->
            In (Some c) (map co rows) \/ In c ids.
Proof.
  intros c Hin. left. apply in_map_iff in Hin.
  destruct Hin as (r & Hr & Hin). apply filter_In in Hin.
  apply in_map_iff. exists r. tauto.
Qed.

Lemma register_accounts JWT_SECRET now company_uuid user_uuid salt body s :
  accounts_well_formed s ->
  accounts_well_formed
    (snd (AuthRoutes.register JWT_SECRET now company_uuid user_uuid salt
            body s)).
Proof.
  intros Hwf.
  destruct (register_store JWT_SECRET now company_uuid user_uuid salt body s)
    as [->|[Hcu [->|(u & Hid & Hemail & Hco & ->)]]]; [exact Hwf| |];
    destruct Hwf as (H1 & H2 & H3 & H4 & H5 & H6 & H7);
    assert (Hmore : forall c,
              In c (map Company.id (companies s)) ->
              In c (map Company.id
                      (companies s ++ [new_company now company_uuid body])))
      by (intros c Hc; rewrite map_app; apply in_or_app; now left);
    unfold accounts_well_formed, companies_known;
    cbn [with_users with_companies companies users contacts leads tasks];
    repeat match goal with |- _ /\ _ => split end; auto.
  - apply NoDup_map_app_one; [exact H1 | now apply pk_free_not_In].
  - apply NoDup_map_app_one; [exact H1 | now apply pk_free_not_In].
  - apply NoDup_map_app_one; [exact H2 | now apply pk_free_not_In].
  - apply NoDup_map_app_one; [exact H3 | now apply pk_free_not_In].
  - intros c Hc. rewrite map_app in Hc. apply in_app_or in Hc.
    destruct Hc as [Hc|[Hc|[]]]; [auto|].
    rewrite Hco in Hc. inversion Hc; subst c.
    rewrite map_app. apply in_or_app. right. now left.
Qed.

Lemma same_refs {R} (co : R -> option uuid) (rows rows' : list R)
  (ids : list uuid) :
  map co rows' = map co rows ->
  forall c, In (Some c) (map co rows') ->
            In (Some c) (map co rows) \/ In c ids.
Proof. intros -> c Hc. now left. Qed.

Lemma contacts_routes_accounts now new_id user id body s :
  accounts_well_formed s ->
  accounts_well_formed (snd (Contacts.post now new_id user body s))
  /\ accounts_well_formed (snd (Contacts.put now user id body s))
  /\ accounts_well_formed (snd (Contacts.delete now user id s)).
Proof.
  intros Hwf. split; [|split].
  - rewrite contacts_post_runs.
    destruct (text (Contacts.Body.name body)); [|exact Hwf].
    destruct (pk_free _ _); cbn [andb]; [|exact Hwf].
    destruct (fk_ok _ _) eqn:Hfk; [|exact Hwf].
    cbn zeta. cbn [snd]. apply (accounts_kept s); auto.
    cbn [with_contacts contacts]. now apply appended_ref.
  - rewrite contacts_put_runs.
    destruct (update_where _ _ _) as [[rows ret]|] eqn:Hup; [|exact Hwf].
    assert (Hkept : accounts_well_formed (with_contacts s rows)).
    { apply (accounts_kept s); auto.
      cbn [with_contacts contacts]. apply same_refs.
      eapply update_where_map; [|exact Hup].
      intros o n Hset. now apply contacts_set_keeps in Hset. }
    destruct ret; exact Hkept.
  - rewrite contacts_delete_runs.
    destruct (filter _ (contacts s)) as [|r rest]; [exact Hwf|].
    cbn [snd]. apply (accounts_kept s); auto; cbn [contacts tasks].
    + apply kept_refs.
    + apply same_refs. rewrite map_map. apply map_ext.
      intros t. apply set_null_company.
Qed.

Lemma leads_routes_accounts now new_id user id body s :
  accounts_well_formed s ->
  accounts_well_formed (snd (Leads.post now new_id user body s))
  /\ accounts_well_formed (snd (Leads.put now user id body s))
  /\ accounts_well_formed (snd (Leads.delete user id s)).
Proof.
  intros Hwf. split; [|split].
  - rewrite leads_post_runs.
    destruct (text (Leads.Body.title body)); [|exact Hwf].
    destruct (pk_free _ _); cbn [andb]; [|exact Hwf].
    destruct (fk_ok _ _) eqn:Hfk; cbn [andb]; [|exact Hwf].
    destruct (probability_check _); [|exact Hwf].
    cbn zeta. cbn [snd]. apply (accounts_kept s); auto.
    cbn [with_leads leads]. now apply appended_ref.
  - rewrite leads_put_runs.
    destruct (update_where _ _ _) as [[rows ret]|] eqn:Hup; [|exact Hwf].
    assert (Hkept : accounts_well_formed (with_leads s rows)).
    { apply (accounts_kept s); auto.
      cbn [with_leads leads]. apply same_refs.
      eapply update_where_map; [|exact Hup].
      intros o n Hset. now apply leads_set_keeps in Hset. }
    destruct ret; exact Hkept.
  - rewrite leads_delete_runs.
    destruct (filter _ (leads s)) as [|r rest]; [exact Hwf|].
    cbn [snd]. apply (accounts_kept s); auto; cbn [with_leads leads].
    apply kept_refs.
Qed.

Lemma tasks_routes_accounts now new_id user id body s :
  accounts_well_formed s ->
  accounts_well_formed (snd (Tasks.post now new_id user body s))
  /\ accounts_well_formed (snd (Tasks.put now user id body s))
  /\ accounts_well_formed (snd (Tasks.delete user id s)).
Proof.
  intros Hwf. split; [|split].
  - rewrite tasks_post_runs.
    destruct (text (Tasks.Body.title body)); [|exact Hwf].
    destruct (fst (Tasks.verify_contact _ _ _)) as [[|]|]; try exact Hwf.
    destruct (pk_free _ _); cbn [andb]; [|exact Hwf].
    destruct (fk_ok (ReqUser.company_id user) _) eqn:Hfk; cbn [andb];
      [|exact Hwf].
    destruct (fk_ok _ _ && priority_check _ && status_check _);
      [|exact Hwf].
    cbn zeta. cbn [snd]. apply (accounts_kept s); auto.
    cbn [with_tasks tasks]. now apply appended_ref.
  - rewrite tasks_put_runs.
    destruct (fst (Tasks.verify_contact _ _ _)) as [[|]|]; try exact Hwf.
    destruct (update_where _ _ _) as [[rows ret]|] eqn:Hup; [|exact Hwf].
    assert (Hkept : accounts_well_formed (with_tasks s rows)).
    { apply (accounts_kept s); auto.
      cbn [with_tasks tasks]. apply same_refs.
      eapply update_where_map; [|exact Hup].
      intros o n Hset. now apply tasks_set_keeps in Hset. }
    destruct ret; exact Hkept.
  - rewrite tasks_delete_runs.
    destruct (filter _ (tasks s)) as [|r rest]; [exact Hwf|].
    cbn [snd]. apply (accounts_kept s); auto; cbn [with_tasks tasks].
    apply kept_refs.
Qed.

(** Every route that writes keeps the accounts well formed,
    whatever its outcome: the ids of companies and users and the emails of
    users stay unique, and every company_id stored with a user, a contact,
    a lead or a task is NULL or the id of a company. *)
Theorem routes_keep_accounts_well_formed :
  forall JWT_SECRET now new_id other_id salt (user : ReqUser.t) id
         (br : AuthRoutes.register_body)
         (bc : Contacts.Body.t) (bl : Leads.Body.t) (bt : Tasks.Body.t) s,
    accounts_well_formed s ->
    accounts_well_formed
      (snd (AuthRoutes.register JWT_SECRET now new_id other_id salt br s))
    /\ accounts_well_formed (snd (Contacts.post now new_id user bc s))
    /\ accounts_well_formed (snd (Contacts.put now user id bc s))
    /\ accounts_well_formed (snd (Contacts.delete now user id s))
    /\ accounts_well_formed (snd (Leads.post now new_id user bl s))
    /\ accounts_well_formed (snd (Leads.put now user id bl s))
    /\ accounts_well_formed (snd (Leads.delete user id s))
    /\ accounts_well_formed (snd (Tasks.post now new_id user bt s))
    /\ accounts_well_formed (snd (Tasks.put now user id bt s))
    /\ accounts_well_formed (snd (Tasks.delete user id s)).
Proof.
  intros J now new_id other_id salt user id br bc bl bt s Hwf.
  destruct (contacts_routes_accounts now new_id user id bc s Hwf)
    as (C1 & C2 & C3).
  destruct (leads_routes_accounts now new_id user id bl s Hwf)
    as (L1 & L2 & L3).
  destruct (tasks_routes_accounts now new_id user id bt s Hwf)
    as (T1 & T2 & T3).
  pose proof (register_accounts J now new_id other_id salt br s Hwf) as R1.
  repeat match goal with |- _ /\ _ => split end; assumption.
Qed.

(* ================================================================= *)
(** ** The routes with the values of the request *)

(** *** What the input conversions keep *)

Lemma varchar_keeps_text (n : nat) (s s' : string) :
  Pg.varchar (S n) s = Some s' -> s <> ""%string -> s' <> ""%string.
Proof.
  unfold Pg.varchar. destruct (Pg.blank _); [|discriminate].
  intros Heq Hs. inversion Heq; subst. destruct s; [contradiction|].
  discriminate.
Qed.

Lemma text_for_keeps_text (n : nat) (x y : js string) (t : string) :
  Pg.text_for (S n) x = Some y -> text x = Some t ->
  exists t', text y = Some t'.
Proof.
  intros Hy Ht. apply text_Some in Ht. destruct Ht as [-> Hne].
  cbn [Pg.text_for] in Hy.
  destruct (Pg.varchar (S n) t) as [t'|] eqn:Hv; [|discriminate].
  inversion Hy; subst. exists t'. cbn [text].
  pose proof (varchar_keeps_text n t t' Hv Hne) as Hne'.
  destruct (String.eqb_spec t' ""); [contradiction | reflexivity].
Qed.

Lemma uuid_in_not_empty (s : string) (c : uuid) :
  Pg.uuid_in s = Some c -> text (val c) = Some c.
Proof.
  unfold Pg.uuid_in. cbv zeta.
  destruct (Pg.bytes 16 0 _) as [[digits others]|]; [|discriminate].
  match goal with |- context [if ?b then _ else _] => destruct b end;
    repeat match goal with
      | |- context [match ?x with EmptyString => _ | String _ _ => _ end] =>
          destruct x
      | |- context [match ?x with Ascii _ _ _ _ _ _ _ _ => _ end] =>
          destruct x
      | |- context [if ?b then _ else _] => destruct b
      end;
    try discriminate;
    intros Heq; inversion Heq; subst; unfold Pg.printed;
    destruct (String.substring 0 8 digits); reflexivity.
Qed.

Lemma uuid_for_text (x : js string) (y : js uuid) (c : string) :
  Pg.uuid_for x = Some y -> text x = Some c ->
  exists c', Pg.uuid_in c = Some c' /\ y = val c'.
Proof.
  intros Hy Hc. apply text_Some in Hc. destruct Hc as [-> _].
  cbn [Pg.uuid_for] in Hy. destruct (Pg.uuid_in c) as [c'|]; [|discriminate].
  inversion Hy. eauto.
Qed.

Lemma uuid_for_no_text (x : js string) (y : js uuid) :
  Pg.uuid_for x = Some y -> text x = None -> text y = None /\ y = x.
Proof.
  destruct x as [| |c]; cbn [Pg.uuid_for]; intros Hy Hx;
    try (inversion Hy; subst; auto).
  cbn [text] in Hx. destruct (String.eqb_spec c ""); [|discriminate].
  subst c. discriminate.
Qed.

Ltac unbind H :=
  unfold ContactsApi.bind, LeadsApi.bind, TasksApi.bind, AuthApi.bind,
    and_then in H;
  repeat match type of H with
    | context [match ?x with Some _ => _ | None => _ end] =>
        let E := fresh "Hfield" in destruct x eqn:E; [|discriminate H]
    end;
  inversion H; subst; clear H.

(** *** Contacts *)

Lemma contacts_api_get_all user q s :
  ContactsApi.get_all user q s =
  match Pg.count_for (parse_limit (Contacts.Query.limit q)) with
  | Some _ => Contacts.get_all user q s
  | None => (error 500 "Failed to fetch contacts", s)
  end.
Proof.
  unfold ContactsApi.get_all, Contacts.get_all, try_catch, bind.
  destruct (Pg.count_for _); reflexivity.
Qed.

Lemma contacts_api_get_one user id s :
  ContactsApi.get_one user id s =
  match Pg.uuid_in id with
  | Some c => Contacts.get_one user c s
  | None => (error 500 "Failed to fetch contact", s)
  end.
Proof.
  unfold ContactsApi.get_one, Contacts.get_one, try_catch, bind.
  destruct (Pg.uuid_in id); reflexivity.
Qed.

Lemma contacts_api_post now new_id user body s :
  ContactsApi.post now new_id user body s =
  match text (Contacts.Body.name body) with
  | None => (error 400 "Name is required", s)
  | Some _ =>
      match ContactsApi.bind body with
      | Some b => Contacts.post now new_id user b s
      | None => (error 500 "Failed to create contact", s)
      end
  end.
Proof.
  unfold ContactsApi.post, Contacts.post, try_catch, truthy.
  destruct (text (Contacts.Body.name body)) as [t|] eqn:Ht; [|reflexivity].
  cbn [negb]. unfold bind.
  destruct (ContactsApi.bind body) as [b|] eqn:Hb; [|reflexivity].
  cbn [bound].
  assert (Hname : exists t', text (Contacts.Body.name b) = Some t').
  { unbind Hb. cbn [Contacts.Body.name]. eapply text_for_keeps_text; eauto. }
  destruct Hname as (t' & ->). reflexivity.
Qed.

Lemma contacts_api_put now user id body s :
  ContactsApi.put now user id body s =
  match Pg.uuid_in id, ContactsApi.bind body with
  | Some c, Some b => Contacts.put now user c b s
  | _, _ => (error 500 "Failed to update contact", s)
  end.
Proof.
  unfold ContactsApi.put, Contacts.put, try_catch, bind, and_then.
  destruct (Pg.uuid_in id); [|reflexivity].
  destruct (ContactsApi.bind body); reflexivity.
Qed.

Lemma contacts_api_delete now user id s :
  ContactsApi.delete now user id s =
  match Pg.uuid_in id with
  | Some c => Contacts.delete now user c s
  | None => (error 500 "Failed to delete contact", s)
  end.
Proof.
  unfold ContactsApi.delete, Contacts.delete, try_catch, bind.
  destruct (Pg.uuid_in id); reflexivity.
Qed.

(** *** Leads *)

Lemma leads_api_get_all user q s :
  LeadsApi.get_all user q s =
  match Pg.count_for (parse_limit (Leads.Query.limit q)) with
  | Some _ => Leads.get_all user q s
  | None => (error 500 "Failed to fetch leads", s)
  end.
Proof.
  unfold LeadsApi.get_all, Leads.get_all, try_catch, bind.
  destruct (Pg.count_for _); reflexivity.
Qed.

Lemma leads_api_get_one user id s :
  LeadsApi.get_one user id s =
  match Pg.uuid_in id with
  | Some c => Leads.get_one user c s
  | None => (error 500 "Failed to fetch lead", s)
  end.
Proof.
  unfold LeadsApi.get_one, Leads.get_one, try_catch, bind.
  destruct (Pg.uuid_in id); reflexivity.
Qed.

Lemma leads_api_post now new_id user body s :
  LeadsApi.post now new_id user body s =
  match text (Leads.Body.title body) with
  | None => (error 400 "Title is required", s)
  | Some _ =>
      match LeadsApi.bind body with
      | Some b => Leads.post now new_id user b s
      | None => (error 500 "Failed to create lead", s)
      end
  end.
Proof.
  unfold LeadsApi.post, Leads.post, try_catch, truthy.
  destruct (text (Leads.Body.title body)) as [t|] eqn:Ht; [|reflexivity].
  cbn [negb]. unfold bind.
  destruct (LeadsApi.bind body) as [b|] eqn:Hb; [|reflexivity].
  cbn [bound].
  assert (Htitle : exists t', text (Leads.Body.title b) = Some t').
  { unbind Hb. cbn [Leads.Body.title]. eapply text_for_keeps_text; eauto. }
  destruct Htitle as (t' & ->). reflexivity.
Qed.

Lemma leads_api_put now user id body s :
  LeadsApi.put now user id body s =
  match Pg.uuid_in id, LeadsApi.bind body with
  | Some c, Some b => Leads.put now user c b s
  | _, _ => (error 500 "Failed to update lead", s)
  end.
Proof.
  unfold LeadsApi.put, Leads.put, try_catch, bind, and_then.
  destruct (Pg.uuid_in id); [|reflexivity].
  destruct (LeadsApi.bind body); reflexivity.
Qed.

Lemma leads_api_delete user id s :
  LeadsApi.delete user id s =
  match Pg.uuid_in id with
  | Some c => Leads.delete user c s
  | None => (error 500 "Failed to delete lead", s)
  end.
Proof.
  unfold LeadsApi.delete, Leads.delete, try_catch, bind.
  destruct (Pg.uuid_in id); reflexivity.
Qed.

(** *** Tasks *)

Lemma tasks_api_get_all user q s :
  TasksApi.get_all user q s =
  match Pg.count_for (parse_limit (Tasks.Query.limit q)) with
  | Some _ => Tasks.get_all user q s
  | None => (error 500 "Failed to fetch tasks", s)
  end.
Proof.
  unfold TasksApi.get_all, Tasks.get_all, try_catch, bind.
  destruct (Pg.count_for _); reflexivity.
Qed.

Lemma tasks_api_get_one user id s :
  TasksApi.get_one user id s =
  match Pg.uuid_in id with
  | Some c => Tasks.get_one user c s
  | None => (error 500 "Failed to fetch task", s)
  end.
Proof.
  unfold TasksApi.get_one, Tasks.get_one, try_catch, bind.
  destruct (Pg.uuid_in id); reflexivity.
Qed.

Lemma tasks_api_delete user id s :
  TasksApi.delete user id s =
  match Pg.uuid_in id with
  | Some c => Tasks.delete user c s
  | None => (error 500 "Failed to delete task", s)
  end.
Proof.
  unfold TasksApi.delete, Tasks.delete, try_catch, bind.
  destruct (Pg.uuid_in id); reflexivity.
Qed.

(** The contact check with the contact_id of the request: it throws on a
    contact_id that is not a UUID, and is otherwise the check on the UUID
    it reads. *)
Lemma tasks_api_verify contact_id company_id s :
  TasksApi.verify_contact contact_id company_id s =
  match text contact_id with
  | Some c =>
      match Pg.uuid_in c with
      | Some c' => Tasks.verify_contact (val c') company_id s
      | None => (Thrown, s)
      end
  | None => (Done true, s)
  end.
Proof.
  unfold TasksApi.verify_contact, truthy.
  destruct (text contact_id) as [c|] eqn:Hc; [|reflexivity].
  apply text_Some in Hc. destruct Hc as [-> _].
  cbn [Pg.uuid_for]. unfold bind.
  destruct (Pg.uuid_in c) as [c'|] eqn:Hin; [|reflexivity].
  cbn [option_map bound param].
  unfold Tasks.verify_contact, truthy. rewrite (uuid_in_not_empty c c' Hin).
  reflexivity.
Qed.

(** A payload the columns read as it is passes the same contact check. *)
Lemma tasks_api_verify_bound body b company_id s :
  TasksApi.bind body = Some b ->
  TasksApi.verify_contact (Tasks.Body.contact_id body) company_id s
  = Tasks.verify_contact (Tasks.Body.contact_id b) company_id s.
Proof.
  intros Hb. rewrite tasks_api_verify. unbind Hb.
  cbn [Tasks.Body.contact_id].
  destruct (text (Tasks.Body.contact_id body)) as [c|] eqn:Hc.
  - destruct (uuid_for_text _ _ c Hfield2 Hc) as (c' & Hin & ->).
    now rewrite Hin.
  - destruct (uuid_for_no_text _ _ Hfield2 Hc) as [Hnone _].
    unfold Tasks.verify_contact, truthy. now rewrite Hnone.
Qed.

Lemma tasks_api_post now new_id user body s :
  TasksApi.post now new_id user body s =
  match text (Tasks.Body.title body) with
  | None => (error 400 "Title is required", s)
  | Some _ =>
      match fst (TasksApi.verify_contact (Tasks.Body.contact_id body)
                                         (ReqUser.company_id user) s) with
      | Done true =>
          match TasksApi.bind body with
          | Some b => Tasks.post now new_id user b s
          | None => (error 500 "Failed to create task", s)
          end
      | Done false => (error 400 "Invalid contact ID", s)
      | Thrown => (error 500 "Failed to create task", s)
      end
  end.
Proof.
  unfold TasksApi.post, try_catch, truthy.
  destruct (text (Tasks.Body.title body)) as [t|] eqn:Ht; [|reflexivity].
  cbn [negb]. unfold bind.
  destruct (TasksApi.bind body) as [b|] eqn:Hb.
  - rewrite (tasks_api_verify_bound body b _ s Hb).
    rewrite tasks_post_runs.
    assert (Htitle : exists t', text (Tasks.Body.title b) = Some t').
    { pose proof Hb as Hb'. unbind Hb'. cbn [Tasks.Body.title].
      eapply text_for_keeps_text; eauto. }
    destruct Htitle as (t' & Ht').
    rewrite Ht', verify_contact_runs. cbn [fst].
    destruct (match text (Tasks.Body.contact_id b) with
              | Some _ => _ | None => _ end); [|reflexivity].
    cbn [negb bound]. unfold Tasks.insert, statement.
    apply text_Some in Ht'. destruct Ht' as [Ht' _]. rewrite Ht'.
    cbn [param].
    destruct (pk_free _ _ && fk_ok _ _ && fk_ok _ _ && priority_check _
              && status_check _); reflexivity.
  - rewrite tasks_api_verify.
    destruct (text (Tasks.Body.contact_id body)) as [c|]; [|reflexivity].
    destruct (Pg.uuid_in c) as [c'|]; [|reflexivity].
    rewrite verify_contact_runs. cbn [fst].
    destruct (match text (val c') with Some _ => _ | None => _ end);
      reflexivity.
Qed.

Lemma tasks_api_put now user id body s :
  TasksApi.put now user id body s =
  match fst (TasksApi.verify_contact (Tasks.Body.contact_id body)
                                     (ReqUser.company_id user) s) with
  | Done true =>
      match Pg.uuid_in id, TasksApi.bind body with
      | Some c, Some b => Tasks.put now user c b s
      | _, _ => (error 500 "Failed to update task", s)
      end
  | Done false => (error 400 "Invalid contact ID", s)
  | Thrown => (error 500 "Failed to update task", s)
  end.
Proof.
  unfold TasksApi.put, try_catch, bind, and_then.
  destruct (TasksApi.bind body) as [b|] eqn:Hb.
  - rewrite (tasks_api_verify_bound body b _ s Hb).
    rewrite verify_contact_runs. cbn [fst].
    destruct (Pg.uuid_in id) as [c|].
    + rewrite tasks_put_runs, verify_contact_runs. cbn [fst bound snd].
      destruct (match text (Tasks.Body.contact_id b) with
                | Some _ => _ | None => _ end); [|reflexivity].
      cbn [negb]. unfold Tasks.update, statement.
      destruct (update_where _ _ _) as [[rows [|row ret]]|]; reflexivity.
    + destruct (match text (Tasks.Body.contact_id b) with
                | Some _ => _ | None => _ end); reflexivity.
  - rewrite tasks_api_verify.
    destruct (text (Tasks.Body.contact_id body)) as [c|].
    + destruct (Pg.uuid_in c) as [c'|]; [|reflexivity].
      rewrite verify_contact_runs. cbn [fst].
      destruct (match text (val c') with Some _ => _ | None => _ end);
        [|reflexivity].
      cbn [negb]. destruct (Pg.uuid_in id); reflexivity.
    + cbn [fst negb]. destruct (Pg.uuid_in id); reflexivity.
Qed.

(* ================================================================= *)
(** ** The claims on the routes with the values of the request *)

(** *** What the store refuses to read *)

Lemma integer_out_refused (x : js Z) :
  out_of_integer x -> Pg.integer_for x = None.
Proof. intros (v & -> & Hv). cbn [Pg.integer_for]. now rewrite Hv. Qed.

Lemma integer_for_same (x y : js Z) : Pg.integer_for x = Some y -> y = x.
Proof.
  destruct x as [| |v]; cbn [Pg.integer_for]; try congruence.
  destruct (Pg.int4 v); congruence.
Qed.

Ltac skip_texts :=
  repeat match goal with
    | |- context [Pg.text_for ?n ?x] => destruct (Pg.text_for n x)
    | |- context [Pg.integer_for ?x] => destruct (Pg.integer_for x)
    end;
  try reflexivity.

Lemma contacts_bind_integer (body : Contacts.Body.t) :
  out_of_integer (Contacts.Body.value body) -> ContactsApi.bind body = None.
Proof.
  intros Hv. unfold ContactsApi.bind, and_then.
  rewrite (integer_out_refused _ Hv). skip_texts.
Qed.

Lemma leads_bind_integer (body : Leads.Body.t) :
  out_of_integer (Leads.Body.value body)
  \/ out_of_integer (Leads.Body.probability body) ->
  LeadsApi.bind body = None.
Proof.
  intros [Hv|Hv]; unfold LeadsApi.bind, and_then;
    rewrite (integer_out_refused _ Hv); skip_texts.
Qed.

Lemma leads_bind_numbers (body b : Leads.Body.t) :
  LeadsApi.bind body = Some b ->
  Leads.Body.probability b = Leads.Body.probability body
  /\ Leads.Body.value b = Leads.Body.value body.
Proof.
  intros Hb. unbind Hb. cbn [Leads.Body.probability Leads.Body.value].
  repeat match goal with
    | H : Pg.integer_for _ = Some _ |- _ => apply integer_for_same in H
    end.
  split; congruence.
Qed.

Lemma leads_bind_title (body b : Leads.Body.t) (t : string) :
  LeadsApi.bind body = Some b -> text (Leads.Body.title body) = Some t ->
  exists t', text (Leads.Body.title b) = Some t'.
Proof.
  intros Hb Ht. unbind Hb. cbn [Leads.Body.title].
  eapply text_for_keeps_text; eauto.
Qed.

Lemma tasks_bind_malformed (body : Tasks.Body.t) :
  contact_malformed body -> TasksApi.bind body = None.
Proof.
  intros (c & Hc & Hin). unfold TasksApi.bind, and_then.
  destruct (Tasks.Body.contact_id body) as [| |c0]; try discriminate.
  cbn [param] in Hc. inversion Hc; subst c0. cbn [Pg.uuid_for].
  rewrite Hin. cbn [option_map]. skip_texts.
Qed.

(** *** The contact check, case by case *)

Lemma tasks_api_verify_unknown user body s :
  contact_unknown user body s ->
  fst (TasksApi.verify_contact (Tasks.Body.contact_id body)
                               (ReqUser.company_id user) s) = Done false.
Proof.
  intros (c & c' & Hc & Hin & Hnone).
  rewrite tasks_api_verify, Hc, Hin, verify_contact_runs.
  rewrite (uuid_in_not_empty c c' Hin). cbn [fst].
  replace (filter (Contacts.scoped c' (ReqUser.company_id user)) (contacts s))
    with (@nil Contact.row); [reflexivity|].
  symmetry. now apply filter_nil_iff.
Qed.

Lemma tasks_api_verify_refuses user body s :
  fst (TasksApi.verify_contact (Tasks.Body.contact_id body)
                               (ReqUser.company_id user) s) = Done false ->
  contact_unknown user body s.
Proof.
  rewrite tasks_api_verify.
  destruct (text (Tasks.Body.contact_id body)) as [c|] eqn:Hc;
    [|discriminate].
  destruct (Pg.uuid_in c) as [c'|] eqn:Hin; [|discriminate].
  rewrite verify_contact_runs, (uuid_in_not_empty c c' Hin). cbn [fst].
  destruct (filter _ (contacts s)) eqn:Hf; [|discriminate].
  intros _. exists c, c'. rewrite filter_nil_iff in Hf. auto.
Qed.

Lemma tasks_api_verify_own user body s c c' r :
  text (Tasks.Body.contact_id body) = Some c ->
  Pg.uuid_in c = Some c' ->
  In r (contacts s) ->
  Contacts.scoped c' (ReqUser.company_id user) r = true ->
  fst (TasksApi.verify_contact (Tasks.Body.contact_id body)
                               (ReqUser.company_id user) s) = Done true.
Proof.
  intros Hc Hin Hr Hs.
  rewrite tasks_api_verify, Hc, Hin, verify_contact_runs.
  rewrite (uuid_in_not_empty c c' Hin). cbn [fst].
  destruct (filter _ (contacts s)) eqn:Hf; [|reflexivity].
  rewrite filter_nil_iff in Hf. rewrite (Hf r Hr) in Hs. discriminate.
Qed.

Lemma tasks_api_verify_malformed user body s :
  contact_malformed body ->
  fst (TasksApi.verify_contact (Tasks.Body.contact_id body)
                               (ReqUser.company_id user) s) = Thrown
  \/ fst (TasksApi.verify_contact (Tasks.Body.contact_id body)
                                  (ReqUser.company_id user) s) = Done true.
Proof.
  intros (c & Hc & Hin). rewrite tasks_api_verify.
  destruct (Tasks.Body.contact_id body) as [| |c0]; try discriminate.
  cbn [param] in Hc. inversion Hc; subst c0.
  destruct (text (val c)) as [c1|] eqn:Hc1; [|now right].
  apply text_Some in Hc1. destruct Hc1 as [Hc1 _]. inversion Hc1; subst c1.
  rewrite Hin. now left.
Qed.

Lemma tasks_api_put_bound now user id body s c b :
  Pg.uuid_in id = Some c -> TasksApi.bind body = Some b ->
  TasksApi.put now user id body s = Tasks.put now user c b s.
Proof.
  intros Hid Hb.
  rewrite tasks_api_put, (tasks_api_verify_bound body b _ s Hb), Hid, Hb.
  rewrite tasks_put_runs, verify_contact_runs. cbn [fst].
  destruct (match text (Tasks.Body.contact_id b) with
            | Some _ => _ | None => _ end); reflexivity.
Qed.

Lemma tasks_api_put_unknown now user id body s :
  contact_unknown user body s ->
  TasksApi.put now user id body s = (error 400 "Invalid contact ID", s).
Proof.
  intros Hu. now rewrite tasks_api_put, (tasks_api_verify_unknown _ _ _ Hu).
Qed.

Lemma tasks_api_put_malformed now user id body s :
  contact_malformed body ->
  TasksApi.put now user id body s = (error 500 "Failed to update task", s).
Proof.
  intros Hm. rewrite tasks_api_put.
  destruct (tasks_api_verify_malformed user body s Hm) as [-> | ->];
    [reflexivity|].
  rewrite (tasks_bind_malformed body Hm).
  destruct (Pg.uuid_in id); reflexivity.
Qed.

Lemma tasks_api_put_no_uuid now user id body s :
  Pg.uuid_in id = None -> ~ contact_unknown user body s ->
  TasksApi.put now user id body s = (error 500 "Failed to update task", s).
Proof.
  intros Hid Hk. rewrite tasks_api_put, Hid.
  destruct (fst (TasksApi.verify_contact _ _ _)) as [[|]|] eqn:Hv;
    try reflexivity.
  elim Hk. now apply tasks_api_verify_refuses.
Qed.

(** *** Updates replace the whole row *)


(** *** The contact of a task *)

Lemma substring_short (n : nat) (s : string) :
  (String.length (String.substring 0 n s) < n)%nat ->
  String.substring 0 n s = s.
Proof.
  revert n. induction s as [|a s IH]; intros [|n]; cbn; intros Hlen;
    try reflexivity; try lia.
  f_equal. apply IH. lia.
Qed.

Lemma substring_all (n : nat) (s : string) :
  (String.length s < n)%nat -> String.substring 0 n s = s.
Proof.
  revert n. induction s as [|a s IH]; intros [|n]; cbn; intros Hlen;
    try reflexivity; try lia.
  f_equal. apply IH. lia.
Qed.

Lemma varchar_same_in (n : nat) (s s' : string) (vs : list string) :
  Pg.varchar n s = Some s' ->
  Forall (fun v => (String.length v < n)%nat) vs ->
  existsb (String.eqb s') vs = existsb (String.eqb s) vs.
Proof.
  unfold Pg.varchar. destruct (Pg.blank _); [|discriminate].
  intros Heq Hshort. inversion Heq; subst s'. clear Heq.
  induction Hshort as [|v vs Hv _ IH]; [reflexivity|].
  cbn [existsb]. rewrite IH. f_equal.
  destruct (String.eqb_spec s v) as [->|Hne].
  - rewrite (substring_all n v Hv). apply String.eqb_refl.
  - apply String.eqb_neq. intros Heq. apply Hne. rewrite <- Heq in Hv.
    rewrite <- Heq. symmetry. now apply substring_short.
Qed.

Lemma text_for_check (n : nat) (d : string) (x y : js string)
  (vs : list string) :
  Pg.text_for n x = Some y ->
  Forall (fun v => (String.length v < n)%nat) vs ->
  check (sql_in (param (default d y)) vs)
  = check (sql_in (param (default d x)) vs).
Proof.
  destruct x as [| |s]; cbn [Pg.text_for]; intros Hy Hvs;
    try (inversion Hy; reflexivity).
  destruct (Pg.varchar n s) as [s'|] eqn:Hv; [|discriminate].
  inversion Hy; subst y. cbn [default param sql_in].
  now rewrite (varchar_same_in n s s' vs Hv Hvs).
Qed.

Lemma tasks_bind_checks (body b : Tasks.Body.t) :
  TasksApi.bind body = Some b ->
  priority_check (param (default "medium" (Tasks.Body.priority b)))
  = priority_check (param (default "medium" (Tasks.Body.priority body)))
  /\ status_check (param (default "pending" (Tasks.Body.status b)))
     = status_check (param (default "pending" (Tasks.Body.status body))).
Proof.
  intros Hb. unbind Hb. cbn [Tasks.Body.priority Tasks.Body.status].
  unfold priority_check, status_check.
  split; eapply text_for_check; eauto;
    repeat (constructor; [cbn; lia|]); constructor.
Qed.

Lemma tasks_bind_no_contact (body b : Tasks.Body.t) :
  TasksApi.bind body = Some b ->
  param (Tasks.Body.contact_id body) = None ->
  param (Tasks.Body.contact_id b) = None.
Proof.
  intros Hb Hnone. unbind Hb. cbn [Tasks.Body.contact_id].
  destruct (Tasks.Body.contact_id body); try discriminate;
    cbn [Pg.uuid_for] in *; congruence.
Qed.

Lemma tasks_bind_title (body b : Tasks.Body.t) (t : string) :
  TasksApi.bind body = Some b -> text (Tasks.Body.title body) = Some t ->
  exists t', text (Tasks.Body.title b) = Some t'.
Proof.
  intros Hb Ht. unbind Hb. cbn [Tasks.Body.title].
  eapply text_for_keeps_text; eauto.
Qed.

Lemma no_contact_verified (body : Tasks.Body.t) company_id s :
  param (Tasks.Body.contact_id body) = None ->
  TasksApi.verify_contact (Tasks.Body.contact_id body) company_id s
  = (Done true, s).
Proof.
  intros Hnone. rewrite tasks_api_verify.
  destruct (Tasks.Body.contact_id body); try discriminate; reflexivity.
Qed.


(** *** The probability of a lead *)

Lemma probability_range_checked (p : option Z) :
  probability_check p = true <-> probability_in_range p.
Proof.
  rewrite probability_check_range. unfold probability_in_range.
  destruct p as [x|]; split; auto.
  - intros [Hn|(y & Hy & Hr)]; [discriminate|]. now inversion Hy; subst.
  - intros Hr. right. eauto.
Qed.

Lemma probability_refused (x : Z) :
  x < 0 \/ 100 < x -> probability_check (Some x) = false.
Proof.
  intros Hx. destruct (probability_check (Some x)) eqn:Hc; [|reflexivity].
  apply probability_range_checked in Hc. cbn in Hc. lia.
Qed.

Lemma leads_put_refused now user c b s :
  lead_accepted b = false ->
  Leads.put now user c b s = (error 500 "Failed to update lead", s)
  \/ Leads.put now user c b s = (error 404 "Lead not found", s).
Proof.
  intros Hacc. rewrite leads_put_runs.
  destruct (filter (Leads.scoped c (ReqUser.company_id user)) (leads s))
    as [|old rest] eqn:Hf.
  - right. rewrite (update_where_no_match _ _ _ Hf).
    now rewrite with_leads_same.
  - left. apply filter_head_In in Hf. destruct Hf as [Hold Hs].
    rewrite (update_where_rejected (Leads.set now b) _ _ old Hold Hs);
      [reflexivity|].
    now apply leads_set_accepts.
Qed.


(** *** Tenant isolation *)

Lemma bound_contact_verified user body b s :
  TasksApi.bind body = Some b ->
  ~ contact_unknown user body s ->
  contact_verified user b s.
Proof.
  intros Hb Hk. apply verify_contact_verified.
  rewrite <- (tasks_api_verify_bound body b _ s Hb).
  destruct (fst (TasksApi.verify_contact _ _ _)) as [[|]|] eqn:Hv.
  - reflexivity.
  - elim Hk. now apply tasks_api_verify_refuses.
  - rewrite (tasks_api_verify_bound body b _ s Hb), verify_contact_runs in Hv.
    discriminate.
Qed.

Lemma contacts_tenant_isolated now new_id (user : ReqUser.t) id body s :
  contacts_tenancy now new_id user id body s.
Proof.
  unfold contacts_tenancy.
  assert (I : forall c b, contacts_isolation now new_id user c b s)
    by (intros; apply contacts_isolated).
  unfold contacts_isolation in I.
  split; [|split; [|split; [|split; [|split; [|split; [|split; [|split;
    [|split; [|split; [|split]]]]]]]]]].
  - intros q. rewrite contacts_api_get_all.
    destruct (Pg.count_for _); [apply (I id body)|reflexivity].
  - intros q rows. rewrite contacts_api_get_all.
    destruct (Pg.count_for _); [apply (I id body)|discriminate].
  - rewrite contacts_api_get_one.
    destruct (Pg.uuid_in id) as [c|]; [apply (I c body)|reflexivity].
  - intros row. rewrite contacts_api_get_one.
    destruct (Pg.uuid_in id) as [c|]; [|discriminate].
    intros Hrun.
    destruct (I c body) as (_ & _ & _ & I4 & _).
    destruct (I4 row Hrun) as (Hin & <- & Hco). auto.
  - rewrite contacts_api_post.
    destruct (text (Contacts.Body.name body)); [|apply untouched_refl].
    destruct (ContactsApi.bind body) as [b|]; [|apply untouched_refl].
    apply (I id b).
  - intros row. rewrite contacts_api_post.
    destruct (text (Contacts.Body.name body)); [|discriminate].
    destruct (ContactsApi.bind body) as [b|]; [|discriminate].
    apply (I id b).
  - rewrite contacts_api_put.
    destruct (Pg.uuid_in id) as [c|]; [|apply untouched_refl].
    destruct (ContactsApi.bind body) as [b|]; [|apply untouched_refl].
    apply (I c b).
  - intros row. rewrite contacts_api_put.
    destruct (Pg.uuid_in id) as [c|]; [|discriminate].
    destruct (ContactsApi.bind body) as [b|]; [|discriminate].
    intros Hrun.
    destruct (I c b) as (_ & _ & _ & _ & _ & _ & _ & I8 & _).
    destruct (I8 row Hrun) as (<- & Hco). auto.
  - intros Hwf. rewrite contacts_api_delete.
    destruct (Pg.uuid_in id) as [c|]; [|apply untouched_refl].
    now apply (I c body).
  - intros r Hnd Hin Hid Hco.
    rewrite contacts_api_get_one, contacts_api_delete, contacts_api_put, Hid.
    destruct (I (Contact.id r) body)
      as (_ & _ & _ & _ & _ & _ & _ & _ & _ & I10).
    destruct (I10 r Hnd Hin eq_refl Hco) as (Hget & _ & Hdel).
    split; [exact Hget|]. split; [exact Hdel|].
    intros Hb. destruct (ContactsApi.bind body) as [b|]; [|congruence].
    destruct (I (Contact.id r) b)
      as (_ & _ & _ & _ & _ & _ & _ & _ & _ & J10).
    now destruct (J10 r Hnd Hin eq_refl Hco) as (_ & Hput & _).
  - intros Hv. rewrite contacts_api_put, (contacts_bind_integer body Hv).
    destruct (Pg.uuid_in id); reflexivity.
  - intros Hid.
    rewrite contacts_api_get_one, contacts_api_delete, contacts_api_put, Hid.
    auto.
Qed.

Lemma leads_tenant_isolated now new_id (user : ReqUser.t) id body s :
  leads_tenancy now new_id user id body s.
Proof.
  unfold leads_tenancy.
  assert (I : forall c b, leads_isolation now new_id user c b s)
    by (intros; apply leads_isolated).
  unfold leads_isolation in I.
  split; [|split; [|split; [|split; [|split; [|split; [|split; [|split;
    [|split; [|split; [|split; [|split; [|split]]]]]]]]]]]].
  - intros q. rewrite leads_api_get_all.
    destruct (Pg.count_for _); [apply (I id body)|reflexivity].
  - intros q rows. rewrite leads_api_get_all.
    destruct (Pg.count_for _); [apply (I id body)|discriminate].
  - rewrite leads_api_get_one.
    destruct (Pg.uuid_in id) as [c|]; [apply (I c body)|reflexivity].
  - intros row. rewrite leads_api_get_one.
    destruct (Pg.uuid_in id) as [c|]; [|discriminate].
    intros Hrun.
    destruct (I c body) as (_ & _ & _ & I4 & _).
    destruct (I4 row Hrun) as (Hin & <- & Hco). auto.
  - rewrite leads_api_post.
    destruct (text (Leads.Body.title body)); [|apply untouched_refl].
    destruct (LeadsApi.bind body) as [b|]; [|apply untouched_refl].
    apply (I id b).
  - intros row. rewrite leads_api_post.
    destruct (text (Leads.Body.title body)); [|discriminate].
    destruct (LeadsApi.bind body) as [b|]; [|discriminate].
    apply (I id b).
  - rewrite leads_api_put.
    destruct (Pg.uuid_in id) as [c|]; [|apply untouched_refl].
    destruct (LeadsApi.bind body) as [b|]; [|apply untouched_refl].
    apply (I c b).
  - intros row. rewrite leads_api_put.
    destruct (Pg.uuid_in id) as [c|]; [|discriminate].
    destruct (LeadsApi.bind body) as [b|]; [|discriminate].
    intros Hrun.
    destruct (I c b) as (_ & _ & _ & _ & _ & _ & _ & I8 & _).
    destruct (I8 row Hrun) as (<- & Hco). auto.
  - rewrite leads_api_delete.
    destruct (Pg.uuid_in id) as [c|]; [|apply untouched_refl].
    apply (I c body).
  - intros r Hnd Hin Hid Hco.
    rewrite leads_api_get_one, leads_api_delete, leads_api_put, Hid.
    destruct (I (Lead.id r) body)
      as (_ & _ & _ & _ & _ & _ & _ & _ & _ & I10 & _).
    destruct (I10 r Hnd Hin eq_refl Hco) as (Hget & _ & Hdel).
    split; [exact Hget|]. split; [exact Hdel|].
    intros Hb. destruct (LeadsApi.bind body) as [b|]; [|congruence].
    destruct (I (Lead.id r) b)
      as (_ & _ & _ & _ & _ & _ & _ & _ & _ & J10 & _).
    now destruct (J10 r Hnd Hin eq_refl Hco) as (_ & Hput & _).
  - intros Hv. rewrite leads_api_put, (leads_bind_integer body Hv).
    destruct (Pg.uuid_in id); reflexivity.
  - intros Hid.
    rewrite leads_api_get_one, leads_api_delete, leads_api_put, Hid.
    auto.
  - apply (I id body).
  - apply (I id body).
Qed.

Lemma tasks_tenant_isolated now new_id (user : ReqUser.t) id body s :
  tasks_tenancy now new_id user id body s.
Proof.
  unfold tasks_tenancy.
  assert (I : forall c b, tasks_isolation now new_id user c b s)
    by (intros; apply tasks_isolated).
  unfold tasks_isolation in I.
  split; [|split; [|split; [|split; [|split; [|split; [|split; [|split;
    [|split; [|split; [|split; [|split; [|split; [|split]]]]]]]]]]]]].
  - intros q. rewrite tasks_api_get_all.
    destruct (Pg.count_for _); [apply (I id body)|reflexivity].
  - intros q rows. rewrite tasks_api_get_all.
    destruct (Pg.count_for _); [apply (I id body)|discriminate].
  - rewrite tasks_api_get_one.
    destruct (Pg.uuid_in id) as [c|]; [apply (I c body)|reflexivity].
  - intros row. rewrite tasks_api_get_one.
    destruct (Pg.uuid_in id) as [c|]; [|discriminate].
    intros Hrun.
    destruct (I c body) as (_ & _ & _ & I4 & _).
    destruct (I4 row Hrun) as (t & k & Hin & Hrow & <- & Hco & Hown).
    exists t, k. auto.
  - rewrite tasks_api_post.
    destruct (text (Tasks.Body.title body)); [|apply untouched_refl].
    destruct (fst (TasksApi.verify_contact _ _ _)) as [[|]|];
      try apply untouched_refl.
    destruct (TasksApi.bind body) as [b|]; [|apply untouched_refl].
    apply (I id b).
  - intros row. rewrite tasks_api_post.
    destruct (text (Tasks.Body.title body)); [|discriminate].
    destruct (fst (TasksApi.verify_contact _ _ _)) as [[|]|];
      try discriminate.
    destruct (TasksApi.bind body) as [b|]; [|discriminate].
    apply (I id b).
  - rewrite tasks_api_put.
    destruct (fst (TasksApi.verify_contact _ _ _)) as [[|]|];
      try apply untouched_refl.
    destruct (Pg.uuid_in id) as [c|]; [|apply untouched_refl].
    destruct (TasksApi.bind body) as [b|]; [|apply untouched_refl].
    apply (I c b).
  - intros row. rewrite tasks_api_put.
    destruct (fst (TasksApi.verify_contact _ _ _)) as [[|]|];
      try discriminate.
    destruct (Pg.uuid_in id) as [c|]; [|discriminate].
    destruct (TasksApi.bind body) as [b|]; [|discriminate].
    intros Hrun.
    destruct (I c b) as (_ & _ & _ & _ & _ & _ & _ & I8 & _).
    destruct (I8 row Hrun) as (<- & Hco). auto.
  - rewrite tasks_api_delete.
    destruct (Pg.uuid_in id) as [c|]; [|apply untouched_refl].
    apply (I c body).
  - intros t Hnd Hin Hid Hco.
    rewrite tasks_api_get_one, tasks_api_delete, Hid.
    destruct (I (Task.id t) body)
      as (_ & _ & _ & _ & _ & _ & _ & _ & _ & I10 & _).
    destruct (I10 t Hnd Hin eq_refl Hco) as (Hget & Hdel & _).
    split; [exact Hget|]. split; [exact Hdel|].
    intros Hk Hb. destruct (TasksApi.bind body) as [b|] eqn:Hbind;
      [|congruence].
    rewrite (tasks_api_put_bound now user id body s (Task.id t) b Hid Hbind).
    destruct (I (Task.id t) b)
      as (_ & _ & _ & _ & _ & _ & _ & _ & _ & J10 & _).
    destruct (J10 t Hnd Hin eq_refl Hco) as (_ & _ & Hput & _).
    apply Hput. now apply (bound_contact_verified user body b s).
  - apply tasks_api_put_unknown.
  - apply tasks_api_put_malformed.
  - intros Hid. rewrite tasks_api_get_one, tasks_api_delete, Hid.
    split; [reflexivity|]. split; [reflexivity|].
    now apply tasks_api_put_no_uuid.
  - apply (I id body).
  - apply (I id body).
Qed.


(* ================================================================= *)
(** ** Limits, deletes and registrations of requests *)

Lemma count_for_some (n : Z) :
  -9223372036854775808 <= n <= 9223372036854775807 ->
  Pg.count_for (Some n) = Some n.
Proof.
  intros Hn. unfold Pg.count_for, Pg.int8.
  destruct (Z.leb_spec (-9223372036854775808) n); [|lia].
  destruct (Z.leb_spec n 9223372036854775807); [reflexivity | lia].
Qed.

Lemma count_for_none (n : option Z) :
  n = None \/ (exists k, n = Some k /\ 9223372036854775807 < k) ->
  Pg.count_for n = None.
Proof.
  intros [->|(k & -> & Hk)]; [reflexivity|].
  unfold Pg.count_for, Pg.int8.
  destruct (Z.leb_spec k 9223372036854775807); [lia|].
  now rewrite andb_false_r.
Qed.

(** The limit of a listing: 100 rows at most when the request names none,
    no row at all for a limit of 0, and as many as asked for a limit the
    store can read, which is a count below 2^63; a limit that is not a
    number, a negative one, or one of 2^63 or more is rejected by the
    store, and the listing answers 500 with the store unchanged. *)
Theorem list_limit_bounds :
  forall (user : ReqUser.t) s
         (qc : Contacts.Query.t) (ql : Leads.Query.t) (qt : Tasks.Query.t),
    (forall n, parse_limit (Contacts.Query.limit qc) = Some n ->
       0 <= n <= 9223372036854775807 ->
       exists rows, ContactsApi.get_all user qc s = (json 200 rows, s)
                    /\ (List.length rows <= Z.to_nat n)%nat)
    /\ (forall n, parse_limit (Leads.Query.limit ql) = Some n ->
          0 <= n <= 9223372036854775807 ->
          exists rows, LeadsApi.get_all user ql s = (json 200 rows, s)
                       /\ (List.length rows <= Z.to_nat n)%nat)
    /\ (forall n, parse_limit (Tasks.Query.limit qt) = Some n ->
          0 <= n <= 9223372036854775807 ->
          exists rows, TasksApi.get_all user qt s = (json 200 rows, s)
                       /\ (List.length rows <= Z.to_nat n)%nat)
    /\ (Contacts.Query.limit qc = undefined ->
        exists rows, ContactsApi.get_all user qc s = (json 200 rows, s)
                     /\ (List.length rows <= 100)%nat)
    /\ (Leads.Query.limit ql = undefined ->
        exists rows, LeadsApi.get_all user ql s = (json 200 rows, s)
                     /\ (List.length rows <= 100)%nat)
    /\ (Tasks.Query.limit qt = undefined ->
        exists rows, TasksApi.get_all user qt s = (json 200 rows, s)
                     /\ (List.length rows <= 100)%nat)
    /\ (parse_limit (Contacts.Query.limit qc) = Some 0 ->
        ContactsApi.get_all user qc s = (json 200 [], s))
    /\ (parse_limit (Leads.Query.limit ql) = Some 0 ->
        LeadsApi.get_all user ql s = (json 200 [], s))
    /\ (parse_limit (Tasks.Query.limit qt) = Some 0 ->
        TasksApi.get_all user qt s = (json 200 [], s))
    /\ ((parse_limit (Contacts.Query.limit qc) = None
         \/ exists n, parse_limit (Contacts.Query.limit qc) = Some n
                      /\ (n < 0 \/ 9223372036854775807 < n))
        -> ContactsApi.get_all user qc s
           = (error 500 "Failed to fetch contacts", s))
    /\ ((parse_limit (Leads.Query.limit ql) = None
         \/ exists n, parse_limit (Leads.Query.limit ql) = Some n
                      /\ (n < 0 \/ 9223372036854775807 < n))
        -> LeadsApi.get_all user ql s
           = (error 500 "Failed to fetch leads", s))
    /\ ((parse_limit (Tasks.Query.limit qt) = None
         \/ exists n, parse_limit (Tasks.Query.limit qt) = Some n
                      /\ (n < 0 \/ 9223372036854775807 < n))
        -> TasksApi.get_all user qt s
           = (error 500 "Failed to fetch tasks", s)).
Proof.
  intros user s qc ql qt.
  destruct (bound_list_limit user s qc ql qt)
    as (C1 & L1 & T1 & C2 & L2 & T2 & C3 & L3 & T3 & C4 & L4 & T4).
  assert (Hrefused : forall limit : option Z,
            limit = None
            \/ (exists n, limit = Some n /\ (n < 0 \/ 9223372036854775807 < n))
            -> Pg.count_for limit = None
               \/ (limit = None \/ exists n, limit = Some n /\ n < 0)).
  { intros limit [->|(n & -> & [Hn|Hn])].
    - left. reflexivity.
    - right. right. eauto.
    - left. apply count_for_none. right. eauto. }
  repeat match goal with |- _ /\ _ => split end.
  - intros n Hp Hn. rewrite contacts_api_get_all, Hp, count_for_some by lia.
    apply (C1 n Hp). lia.
  - intros n Hp Hn. rewrite leads_api_get_all, Hp, count_for_some by lia.
    apply (L1 n Hp). lia.
  - intros n Hp Hn. rewrite tasks_api_get_all, Hp, count_for_some by lia.
    apply (T1 n Hp). lia.
  - intros Hu. rewrite contacts_api_get_all, Hu. exact (C2 Hu).
  - intros Hu. rewrite leads_api_get_all, Hu. exact (L2 Hu).
  - intros Hu. rewrite tasks_api_get_all, Hu. exact (T2 Hu).
  - intros Hp. rewrite contacts_api_get_all, Hp. exact (C3 Hp).
  - intros Hp. rewrite leads_api_get_all, Hp. exact (L3 Hp).
  - intros Hp. rewrite tasks_api_get_all, Hp. exact (T3 Hp).
  - intros Hp. rewrite contacts_api_get_all.
    destruct (Hrefused _ Hp) as [->|Hq]; [reflexivity|].
    destruct (Pg.count_for _); [exact (C4 Hq) | reflexivity].
  - intros Hp. rewrite leads_api_get_all.
    destruct (Hrefused _ Hp) as [->|Hq]; [reflexivity|].
    destruct (Pg.count_for _); [exact (L4 Hq) | reflexivity].
  - intros Hp. rewrite tasks_api_get_all.
    destruct (Hrefused _ Hp) as [->|Hq]; [reflexivity|].
    destruct (Pg.count_for _); [exact (T4 Hq) | reflexivity].
Qed.

(** A delete reads its id as a UUID. When the id is one, the delete
    answers 200 exactly when a row of the caller's company has it, and 404
    with the store unchanged exactly when none has; it removes every such
    row and keeps every other row of the table, and the row is gone for
    good: the single read and a second delete of the same id answer 404,
    the second delete changing nothing. When the id is not a UUID the
    store refuses it: the delete and the single read answer 500, and the
    store is unchanged. *)
Theorem deleted_rows_are_gone :
  forall now (user : ReqUser.t) (id : string) s,
    (forall c,
       Pg.uuid_in id = Some c ->
       ((exists r, In r (contacts s)
                   /\ Contacts.scoped c (ReqUser.company_id user) r = true)
        <-> fst (ContactsApi.delete now user id s)
            = json 200 "Contact deleted successfully")
       /\ ((forall r, In r (contacts s) ->
                      Contacts.scoped c (ReqUser.company_id user) r = false)
           <-> ContactsApi.delete now user id s
               = (error 404 "Contact not found", s))
       /\ (forall r,
             In r (contacts (snd (ContactsApi.delete now user id s)))
             <-> In r (contacts s)
                 /\ Contacts.scoped c (ReqUser.company_id user) r = false)
       /\ ContactsApi.get_one user id (snd (ContactsApi.delete now user id s))
          = (error 404 "Contact not found",
             snd (ContactsApi.delete now user id s))
       /\ (forall later,
             ContactsApi.delete later user id
               (snd (ContactsApi.delete now user id s))
             = (error 404 "Contact not found",
                snd (ContactsApi.delete now user id s)))
       /\ ((exists r, In r (leads s)
                      /\ Leads.scoped c (ReqUser.company_id user) r = true)
           <-> fst (LeadsApi.delete user id s)
               = json 200 "Lead deleted successfully")
       /\ ((forall r, In r (leads s) ->
                      Leads.scoped c (ReqUser.company_id user) r = false)
           <-> LeadsApi.delete user id s = (error 404 "Lead not found", s))
       /\ (forall r,
             In r (leads (snd (LeadsApi.delete user id s)))
             <-> In r (leads s)
                 /\ Leads.scoped c (ReqUser.company_id user) r = false)
       /\ LeadsApi.get_one user id (snd (LeadsApi.delete user id s))
          = (error 404 "Lead not found", snd (LeadsApi.delete user id s))
       /\ LeadsApi.delete user id (snd (LeadsApi.delete user id s))
          = (error 404 "Lead not found", snd (LeadsApi.delete user id s))
       /\ ((exists t, In t (tasks s)
                      /\ Tasks.scoped c (ReqUser.company_id user) t = true)
           <-> fst (TasksApi.delete user id s)
               = json 200 "Task deleted successfully")
       /\ ((forall t, In t (tasks s) ->
                      Tasks.scoped c (ReqUser.company_id user) t = false)
           <-> TasksApi.delete user id s = (error 404 "Task not found", s))
       /\ (forall t,
             In t (tasks (snd (TasksApi.delete user id s)))
             <-> In t (tasks s)
                 /\ Tasks.scoped c (ReqUser.company_id user) t = false)
       /\ TasksApi.get_one user id (snd (TasksApi.delete user id s))
          = (error 404 "Task not found", snd (TasksApi.delete user id s))
       /\ TasksApi.delete user id (snd (TasksApi.delete user id s))
          = (error 404 "Task not found", snd (TasksApi.delete user id s)))
    /\ (Pg.uuid_in id = None ->
        ContactsApi.delete now user id s
        = (error 500 "Failed to delete contact", s)
        /\ ContactsApi.get_one user id s
           = (error 500 "Failed to fetch contact", s)
        /\ LeadsApi.delete user id s = (error 500 "Failed to delete lead", s)
        /\ LeadsApi.get_one user id s = (error 500 "Failed to fetch lead", s)
        /\ TasksApi.delete user id s = (error 500 "Failed to delete task", s)
        /\ TasksApi.get_one user id s
           = (error 500 "Failed to fetch task", s)).
Proof.
  intros now user id s. split.
  - intros c Hc.
    rewrite !contacts_api_delete, !leads_api_delete, !tasks_api_delete,
      !contacts_api_get_one, !leads_api_get_one, !tasks_api_get_one, !Hc.
    destruct (bound_deleted_rows_are_gone now user c s)
      as (A1 & A2 & A3 & A4 & A5 & B1 & B2 & B3 & B4 & B5
          & D1 & D2 & D3 & D4 & D5).
    repeat match goal with |- _ /\ _ => split end; try assumption.
    intros later. rewrite contacts_api_delete, Hc. apply A5.
  - intros Hno.
    rewrite contacts_api_delete, leads_api_delete, tasks_api_delete,
      contacts_api_get_one, leads_api_get_one, tasks_api_get_one, !Hno.
    repeat split.
Qed.

(** A registration whose values the columns of companies and users read as
    they are runs as on parameters of the column types. *)
Lemma register_api_bound JWT_SECRET now company_uuid user_uuid salt body s pw :
  AuthRoutes.rb_password body = val pw ->
  Pg.text_for 255 (or_else (AuthRoutes.rb_companyName body)
                           (val "My Company"))
  = Some (or_else (AuthRoutes.rb_companyName body) (val "My Company")) ->
  AuthApi.bind (AuthRoutes.rb_email body) (bcrypt_hash pw salt)
               (AuthRoutes.rb_name body)
  = Some (AuthRoutes.rb_email body, bcrypt_hash pw salt,
          AuthRoutes.rb_name body) ->
  AuthApi.register JWT_SECRET now company_uuid user_uuid salt body s
  = AuthRoutes.register JWT_SECRET now company_uuid user_uuid salt body s.
Proof.
  intros Hpw Hcompany Huser.
  unfold AuthApi.register, AuthRoutes.register, try_catch,
    AuthApi.register_body_io, AuthRoutes.register_body_io, bind.
  destruct (AuthRoutes.select_users_by_email _ s) as [[found|] s0];
    [|reflexivity].
  destruct (0 <? List.length found)%nat; [reflexivity|].
  rewrite Hcompany. cbn [bound].
  destruct (AuthRoutes.insert_company _ _ _ s0) as [[companyId|] s1];
    [|reflexivity].
  unfold AuthRoutes.hash_password. rewrite Hpw. unfold ret.
  rewrite Huser. reflexivity.
Qed.

(** The same email is refused whatever else the second request holds. *)
Lemma register_api_refuses_taken_email JWT_SECRET now company_uuid user_uuid
  salt body s e :
  AuthRoutes.rb_email body = val e ->
  (exists u, In u (users s) /\ User.email u = e) ->
  AuthApi.register JWT_SECRET now company_uuid user_uuid salt body s
  = (error 400 "User already exists", s).
Proof.
  intros Hemail Htaken.
  pose proof (register_refuses_taken_email JWT_SECRET now company_uuid
                user_uuid salt body s e Hemail Htaken) as Hplain.
  revert Hplain.
  unfold AuthApi.register, AuthRoutes.register, try_catch,
    AuthApi.register_body_io, AuthRoutes.register_body_io, bind.
  destruct (AuthRoutes.select_users_by_email _ s) as [[found|] s0];
    [|auto].
  destruct (0 <? List.length found)%nat; [auto|].
  unfold AuthRoutes.insert_company, statement.
  destruct (param (or_else _ _)); [|discriminate].
  destruct (pk_free _ _); [|discriminate].
  unfold AuthRoutes.hash_password.
  destruct (AuthRoutes.rb_password body); try discriminate.
  unfold ret, AuthRoutes.insert_user, statement.
  destruct (param (AuthRoutes.rb_email body)); [|discriminate].
  destruct (param (AuthRoutes.rb_name body)); [|discriminate].
  destruct (_ && _); discriminate.
Qed.

(** A registration with a name, a password and an email no user has yet
    (the two generated ids being fresh), whose name, email, company name
    and password hash fit the VARCHAR(255) columns that take them, answers
    201 with a token for the new user and the user's id, email and name;
    it creates one company, named after companyName or "My Company", and
    one user of that company with the role "user" and the hash of the
    password; a second registration with the same email is then
    refused. *)
Theorem register_creates_tenant :
  forall JWT_SECRET now company_uuid user_uuid salt body s name email pw,
    AuthRoutes.rb_name body = val name ->
    AuthRoutes.rb_email body = val email ->
    AuthRoutes.rb_password body = val pw ->
    Pg.text_for 255 (or_else (AuthRoutes.rb_companyName body)
                             (val "My Company"))
    = Some (or_else (AuthRoutes.rb_companyName body) (val "My Company")) ->
    AuthApi.bind (val email) (bcrypt_hash pw salt) (val name)
    = Some (val email, bcrypt_hash pw salt, val name) ->
    (forall u, In u (users s) -> User.email u <> email) ->
    pk_free company_uuid (map Company.id (companies s)) = true ->
    pk_free user_uuid (map User.id (users s)) = true ->
    exists s',
      AuthApi.register JWT_SECRET now company_uuid user_uuid salt body s
      = (json 201
           {| AuthRoutes.r_token :=
                jwt_sign user_uuid (secret JWT_SECRET) now;
              AuthRoutes.r_id := user_uuid;
              AuthRoutes.r_email := email;
              AuthRoutes.r_name := name |}, s')
      /\ companies s'
         = companies s ++
           [{| Company.id := company_uuid;
               Company.name :=
                 match text (AuthRoutes.rb_companyName body) with
                 | Some n => n
                 | None => "My Company"
                 end;
               Company.plan := Some "basic"; Company.settings := "{}";
               Company.created_at := now; Company.updated_at := now |}]
      /\ users s'
         = users s ++
           [{| User.id := user_uuid; User.email := email;
               User.password_hash := bcrypt_hash pw salt;
               User.name := name; User.company_id := Some company_uuid;
               User.role := Some "user"; User.is_active := Some true;
               User.last_login := None;
               User.created_at := now; User.updated_at := now |}]
      /\ contacts s' = contacts s /\ leads s' = leads s /\ tasks s' = tasks s
      /\ forall now2 company_uuid2 user_uuid2 salt2 body2,
           AuthRoutes.rb_email body2 = val email ->
           AuthApi.register JWT_SECRET now2 company_uuid2 user_uuid2 salt2
             body2 s'
           = (error 400 "User already exists", s').
Proof.
  intros J now cu uu salt body s name email pw
    Hname Hemail Hpw Hcompany Huser Hfree Hcu Huu.
  destruct (bound_register_creates_tenant J now cu uu salt body s name email
              pw Hname Hemail Hpw Hfree Hcu Huu)
    as (s' & Hreg & Hcompanies & Husers & Hc & Hl & Ht & _).
  exists s'. rewrite (register_api_bound J now cu uu salt body s pw Hpw
                        Hcompany); [|now rewrite Hemail, Hname].
  repeat match goal with |- _ /\ _ => split end; try assumption.
  intros now2 cu2 uu2 salt2 body2 Hemail2.
  apply (register_api_refuses_taken_email _ _ _ _ _ _ _ email Hemail2).
  eexists. split.
  - rewrite Husers. apply in_or_app. right. now left.
  - reflexivity.
Qed.

(** After a registration that answered 201 (its name, email, company name
    and password hash fitting the VARCHAR(255) columns), a login with the
    same email and password (a password the library accepts against the
    hash it produced) answers 200 with a token for the new user and its
    id, email, name and the id of the company the registration created; a
    login with a password the hash refuses answers 400. *)
Theorem registered_user_can_log_in :
  forall JWT_SECRET now later company_uuid user_uuid salt
         (body : AuthRoutes.register_body) s name email pw,
    AuthRoutes.rb_name body = val name ->
    AuthRoutes.rb_email body = val email ->
    AuthRoutes.rb_password body = val pw ->
    Pg.text_for 255 (or_else (AuthRoutes.rb_companyName body)
                             (val "My Company"))
    = Some (or_else (AuthRoutes.rb_companyName body) (val "My Company")) ->
    AuthApi.bind (val email) (bcrypt_hash pw salt) (val name)
    = Some (val email, bcrypt_hash pw salt, val name) ->
    (forall u, In u (users s) -> User.email u <> email) ->
    pk_free company_uuid (map Company.id (companies s)) = true ->
    pk_free user_uuid (map User.id (users s)) = true ->
    exists created s',
      AuthApi.register JWT_SECRET now company_uuid user_uuid salt body s
      = (json 201 created, s')
      /\ (bcrypt_compare pw (bcrypt_hash pw salt) = true ->
          AuthRoutes.login JWT_SECRET later
            {| AuthRoutes.lb_email := val email;
               AuthRoutes.lb_password := val pw |} s'
          = (json 200
               {| AuthRoutes.token :=
                    jwt_sign user_uuid (secret JWT_SECRET) later;
                  AuthRoutes.id := user_uuid;
                  AuthRoutes.email := email;
                  AuthRoutes.name := name;
                  AuthRoutes.company_id := Some company_uuid |}, s'))
      /\ (forall other,
            bcrypt_compare other (bcrypt_hash pw salt) = false ->
            AuthRoutes.login JWT_SECRET later
              {| AuthRoutes.lb_email := val email;
                 AuthRoutes.lb_password := val other |} s'
            = (error 400 "Invalid credentials", s')).
Proof.
  intros J now later cu uu salt body s name email pw
    Hname Hemail Hpw Hcompany Huser Hfree Hcu Huu.
  rewrite (register_api_bound J now cu uu salt body s pw Hpw Hcompany);
    [|now rewrite Hemail, Hname].
  now apply bound_registered_user_can_log_in.
Qed.

End Properties.

(* ================================================================= *)
(** ** The theorems at the sample data *)

(** Registering the demo user's email again is refused and changes
    nothing. *)
Lemma register_conflict_at_sample :
  AuthRoutes.register (H := Sample.toy) undefined Requests.noon
    "9f000000-0000-4000-8000-00000000000a"
    "9f000000-0000-4000-8000-00000000000b" "salt" Requests.register_again
    Sample.db
  = (error 400 "User already exists", Sample.db).
Proof.
  apply (@register_conflict_leaves_store_unchanged Sample.toy undefined
           Requests.noon _ _ "salt" Requests.register_again Sample.db
           "demo@example.com").
  - reflexivity.
  - exists Sample.demo_user. split; [simpl; auto | reflexivity].
Defined.

(** An unknown email and a wrong password for the demo user are answered
    alike. *)
Lemma login_failures_at_sample :
  fst (AuthRoutes.login (H := Sample.toy) undefined Requests.noon
         Requests.unknown_email Sample.db)
  = fst (AuthRoutes.login (H := Sample.toy) undefined Requests.noon
           Requests.wrong_password Sample.db)
  /\ fst (AuthRoutes.login (H := Sample.toy) undefined Requests.noon
            Requests.unknown_email Sample.db)
     = error 400 "Invalid credentials".
Proof.
  apply (@login_failures_indistinguishable Sample.toy undefined
           Requests.noon Requests.noon Sample.db Sample.db
           Requests.unknown_email Requests.wrong_password "letmein").
  - intros u [<-|[<-|[]]]; discriminate.
  - exists Sample.demo_user. split; [simpl; auto | reflexivity].
  - reflexivity.
  - intros u [<-|[<-|[]]] Hemail; [reflexivity | discriminate].
Defined.

(** Renaming John keeps his id, company, creation time, last contact and
    tags, and every other table. *)
Lemma contact_update_frame_at_sample :
  exists row s',
    Contacts.put Requests.noon Sample.caller Requests.john_id
      Requests.rename_john Sample.db = (json 200 row, s')
    /\ tasks s' = tasks Sample.db
    /\ In row (contacts s')
    /\ Contact.id row = Requests.john_id
    /\ Contact.company_id row = Some Sample.company_id.
Proof.
  eexists. eexists. split; [reflexivity|].
  destruct (contact_update_frame Requests.noon Sample.caller
              Requests.john_id Requests.rename_john Sample.db _ _ eq_refl)
    as (_ & _ & _ & Htasks & _ & Hin & Hid & Hco).
  repeat split; assumption.
Defined.

Lemma sample_well_formed : well_formed Sample.db.
Proof.
  unfold well_formed. cbn [Sample.db contacts leads tasks map].
  split; [|split; [|split; [|split]]].
  - repeat constructor; simpl; intuition discriminate.
  - repeat constructor; simpl; intuition discriminate.
  - repeat constructor; simpl; intuition discriminate.
  - intros r [<-|[<-|[]]]; discriminate.
  - intros t c [<-|[<-|[]]] Hc; inversion Hc; subst.
    + exists Sample.john. simpl. auto.
    + exists Sample.sarah. simpl. auto.
Defined.

(** The sample store is well formed and stays so when John is deleted. *)
Lemma well_formed_at_sample :
  references_own_company Sample.db
  /\ well_formed (snd (Contacts.delete Requests.noon Sample.caller
                         Requests.john_id Sample.db)).
Proof.
  destruct (@routes_keep_store_well_formed Sample.toy undefined
              Requests.noon "9f000000-0000-4000-8000-00000000000e"
              "9f000000-0000-4000-8000-00000000000f" "salt" Sample.caller
              Requests.john_id Requests.register_new Requests.rename_john
              (Requests.big_deal undefined) (Requests.call_back undefined)
              Sample.db sample_well_formed)
    as (Hown & _ & _ & _ & Hdelete & _).
  - discriminate.
  - split; assumption.
Defined.

(** Deleting John keeps the follow-up task, without its contact. *)
Lemma contact_delete_at_sample :
  exists s' d,
    Contacts.delete Requests.noon Sample.caller Requests.john_id Sample.db
    = (json 200 "Contact deleted successfully", s')
    /\ Tasks.get_one Sample.caller Requests.follow_up_id s' = (json 200 d, s')
    /\ Task.contact_id (Tasks.Detailed.task d) = None
    /\ Tasks.Detailed.contact_name d = None.
Proof.
  destruct (contact_delete_clears_tasks Requests.noon Sample.caller
              Requests.john_id Sample.db Sample.john sample_well_formed)
    as (s' & Hdel & _ & _ & Hread).
  - simpl. auto.
  - reflexivity.
  - destruct (Hread Sample.follow_up) as (d & Hget & Hcleared & Hname).
    + simpl. auto.
    + reflexivity.
    + exists s', d. repeat split; auto. apply Hcleared.
Defined.

(** The routes on the sample store. *)

Example pipeline_of_sample :
  fst (Leads.pipeline Sample.caller Sample.db)
  = json 200
      [{| Leads.Pipeline.stage := Some "proposal";
          Leads.Pipeline.count := 1;
          Leads.Pipeline.total_value := Some 5000;
          Leads.Pipeline.avg_probability := Some (50 # 1) |};
       {| Leads.Pipeline.stage := Some "negotiation";
          Leads.Pipeline.count := 1;
          Leads.Pipeline.total_value := Some 75000;
          Leads.Pipeline.avg_probability := Some (70 # 1) |}].
Proof. reflexivity. Qed.

Example pipeline_of_outsider :
  fst (Leads.pipeline Sample.outsider Sample.db) = json 200 [].
Proof. reflexivity. Qed.

Example tasks_of_sample :
  match fst (Tasks.get_all (H := Sample.toy) Sample.caller Requests.no_filter
               Sample.db) with
  | json _ rows =>
      map (fun x => (Tasks.Listed.priority x, Tasks.Listed.contact_name x))
          rows
      = [(Some "high", Some "John Smith");
         (Some "medium", Some "Sarah Johnson")]
  | error _ _ => False
  end.
Proof. reflexivity. Qed.

Example outsider_reads_nothing :
  Contacts.get_one Sample.outsider Requests.john_id Sample.db
  = (error 404 "Contact not found", Sample.db)
  /\ Contacts.delete Requests.noon Sample.outsider Requests.john_id Sample.db
     = (error 404 "Contact not found", Sample.db)
  /\ fst (Tasks.get_all (H := Sample.toy) Sample.outsider Requests.no_filter
            Sample.db) = json 200 [].
Proof. repeat split; reflexivity. Qed.

Example gate_at_sample :
  auth (H := Sample.toy) undefined Requests.noon
    {| x_auth_token := undefined;
       authorization :=
         val "Bearer fallback-secret-key:123e4567-e89b-12d3-a456-426614174001"
    |} Sample.db
  = (next Sample.caller, Sample.db)
  /\ auth (H := Sample.toy) undefined Requests.noon
       {| x_auth_token := val "forged"; authorization := undefined |}
       Sample.db
     = (denied 401 "Token is not valid", Sample.db)
  /\ auth (H := Sample.toy) undefined Requests.noon
       {| x_auth_token := undefined; authorization := undefined |} Sample.db
     = (denied 401 "No token, authorization denied", Sample.db).
Proof. repeat split; reflexivity. Qed.

(** The theorems of the records at the sample store. *)

(** Chores of priorities low, high, medium come back high, medium, low. *)
Lemma lists_are_ordered_at_sample :
  exists rows,
    Tasks.get_all (H := Sample.toy) Sample.caller Requests.no_filter
      Sample.chores = (json 200 rows, Sample.chores)
    /\ map Tasks.Listed.priority rows
       = [Some "high"; Some "medium"; Some "low"].
Proof.
  destruct (@lists_are_ordered Sample.toy Sample.caller Sample.chores)
    as (_ & _ & Hthree & _).
  destruct (Hthree Requests.no_filter _ _ _ Sample.company_id eq_refl)
    as (rows & Hrun & _ & Hpriorities);
    try reflexivity.
  - repeat constructor. simpl. tauto.
  - eauto.
Defined.

(** The pipeline of the sample store has distinct stages in sequence. *)
Lemma pipeline_at_sample :
  exists groups,
    Leads.pipeline Sample.caller Sample.db = (json 200 groups, Sample.db)
    /\ NoDup (map Leads.Pipeline.stage groups)
    /\ StronglySorted pipeline_in_order groups.
Proof.
  destruct (pipeline_groups_by_stage Sample.caller Sample.db)
    as (groups & Hrun & Hnd & _ & _ & Hsorted).
  eauto.
Defined.


Example overview_of_sample :
  fst (Tasks.overview Sample.caller Sample.db)
  = json 200
      [{| Tasks.Overview.status := Some "pending";
          Tasks.Overview.priority := Some "high";
          Tasks.Overview.count := 1 |};
       {| Tasks.Overview.status := Some "pending";
          Tasks.Overview.priority := Some "medium";
          Tasks.Overview.count := 1 |}].
Proof. reflexivity. Qed.

(* ================================================================= *)
(** ** More theorems at the sample data *)

(** The active contacts of the demo company: John, and only John. *)
Lemma lists_at_sample :
  exists rows,
    fst (Contacts.get_all (H := Sample.toy) Sample.caller
           Cases.active_contacts Sample.db) = json 200 rows
    /\ Permutation rows [Contacts.listed Sample.john].
Proof.
  eexists. split; [reflexivity|].
  destruct (@lists_return_the_matching_rows Sample.toy Sample.caller
              Sample.db) as (Hcontacts & _).
  destruct (Hcontacts Cases.active_contacts _ eq_refl)
    as (_ & n & Hn & _ & _ & Hall).
  inversion Hn; subst n. apply Hall. vm_compute. lia.
Defined.

(** Ann is created and read back. *)
Lemma create_at_sample :
  exists row s',
    Contacts.post Requests.noon Cases.ann_id Sample.caller Cases.ann
      Sample.db = (json 201 row, s')
    /\ Contacts.get_one Sample.caller Cases.ann_id s' = (json 200 row, s').
Proof.
  do 2 eexists. split; [reflexivity|].
  destruct (created_rows_are_read_back Requests.noon Cases.ann_id
              Sample.caller Cases.ann (Requests.big_deal undefined)
              (Requests.call_back undefined) Sample.db)
    as (Hcontacts & _).
  destruct (Hcontacts _ _ eq_refl) as (_ & Hread & _).
  apply Hread. discriminate.
Defined.

(** John is renamed and read back. *)
Lemma update_at_sample :
  exists row s',
    Contacts.put Requests.noon Sample.caller Requests.john_id
      Requests.rename_john Sample.db = (json 200 row, s')
    /\ Contacts.get_one Sample.caller Requests.john_id s'
       = (json 200 row, s')
    /\ Contact.name row = "John A. Smith"%string.
Proof.
  do 2 eexists. split; [reflexivity|].
  destruct (updated_rows_are_read_back Requests.noon Sample.caller
              Requests.john_id Requests.rename_john
              (Requests.big_deal undefined) (Requests.call_back undefined)
              Sample.db)
    as (Hcontacts & _).
  destruct (Hcontacts _ _ eq_refl) as (Hread & _).
  split; [exact Hread | reflexivity].
Defined.

(** Updating the enterprise deal leaves the contacts and the tasks
    alone. *)
Lemma lead_update_at_sample :
  exists row s',
    Leads.put Requests.noon Sample.caller Cases.enterprise_id
      (Requests.big_deal (val 80)) Sample.db = (json 200 row, s')
    /\ contacts s' = contacts Sample.db
    /\ tasks s' = tasks Sample.db.
Proof.
  do 2 eexists. split; [reflexivity|].
  destruct (updates_touch_one_row Requests.noon Sample.caller
              Cases.enterprise_id Requests.rename_john
              (Requests.big_deal (val 80)) (Requests.call_back undefined)
              Sample.db)
    as (Hleads & _).
  destruct (Hleads _ _ eq_refl) as (_ & _ & Hcontacts & Htasks & _).
  split; assumption.
Defined.

Lemma sample_users_unique :
  NoDup (map User.email (users Sample.db))
  /\ NoDup (map User.id (users Sample.db)).
Proof.
  split; repeat constructor; simpl; intuition discriminate.
Defined.



(** The prefix is cut out of the middle of a header. *)
Lemma odd_header_at_sample :
  token_of Cases.odd_header = val "Token abc".
Proof.
  destruct (@bearer_prefix_is_cut_once Sample.toy Cases.odd_header
              "Token Bearer abc" eq_refl eq_refl)
    as (_ & Hcut & _).
  apply (Hcut 6%nat); [reflexivity|].
  intros k Hk.
  do 6 (destruct k as [|k]; [reflexivity|]). lia.
Defined.

Lemma sample_accounts : accounts_well_formed Sample.db.
Proof.
  unfold accounts_well_formed, companies_known.
  cbn [Sample.db companies users contacts leads tasks map].
  repeat match goal with |- _ /\ _ => split end;
    try (repeat constructor; simpl; intuition discriminate);
    intros c Hc; simpl in Hc; simpl;
    repeat match goal with
      | H : _ \/ _ |- _ => destruct H as [H|H]
      | H : Some _ = Some _ |- _ => inversion H; clear H; subst
      | H : False |- _ => contradiction
      end; auto.
Defined.

(** The accounts of the sample store stay well formed when a registration
    fails half way. *)
Lemma accounts_at_sample :
  accounts_well_formed
    (snd (AuthRoutes.register (H := Sample.toy) undefined Requests.noon
            "9f000000-0000-4000-8000-00000000000c"
            "9f000000-0000-4000-8000-00000000000d" "salt"
            Cases.register_nameless Sample.db)).
Proof.
  destruct (@routes_keep_accounts_well_formed Sample.toy undefined
              Requests.noon "9f000000-0000-4000-8000-00000000000c"
              "9f000000-0000-4000-8000-00000000000d" "salt" Sample.caller
              Requests.john_id Cases.register_nameless Cases.ann
              (Requests.big_deal undefined) (Requests.call_back undefined)
              Sample.db sample_accounts)
    as (Hregister & _).
  exact Hregister.
Defined.

(** The statistics of the sample store. *)
Example statistics_of_sample :
  total (map Leads.Pipeline.count
           match fst (Leads.pipeline Sample.caller Sample.db) with
           | json _ groups => groups
           | error _ _ => []
           end) = 2.
Proof. reflexivity. Qed.

(* ================================================================= *)
(** ** The routes with the values of the request, on the sample store *)









(** Registering a new email on the sample store creates a tenant. *)
Lemma register_at_sample :
  exists s',
    AuthApi.register (H := Sample.toy) undefined Requests.noon
      "9f000000-0000-4000-8000-00000000000e"
      "9f000000-0000-4000-8000-00000000000f" "salt" Requests.register_new
      Sample.db
    = (json 201
         {| AuthRoutes.r_token :=
              "fallback-secret-key:9f000000-0000-4000-8000-00000000000f";
            AuthRoutes.r_id := "9f000000-0000-4000-8000-00000000000f";
            AuthRoutes.r_email := "new@example.com";
            AuthRoutes.r_name := "New User" |}, s')
    /\ List.length (companies s') = 3%nat
    /\ List.length (users s') = 3%nat.
Proof.
  destruct (@register_creates_tenant Sample.toy undefined Requests.noon
              "9f000000-0000-4000-8000-00000000000e"
              "9f000000-0000-4000-8000-00000000000f" "salt"
              Requests.register_new Sample.db "New User" "new@example.com"
              "secret" eq_refl eq_refl eq_refl eq_refl eq_refl)
    as (s' & Hreg & Hcompanies & Husers & _).
  - intros u [<-|[<-|[]]]; discriminate.
  - reflexivity.
  - reflexivity.
  - exists s'. split; [exact Hreg|].
    rewrite Hcompanies, Husers. split; reflexivity.
Defined.

(** A negative limit is answered 500. *)
Lemma list_limit_at_sample :
  ContactsApi.get_all (H := Sample.toy) Sample.caller Cases.negative_limit
    Sample.db
  = (error 500 "Failed to fetch contacts", Sample.db).
Proof.
  destruct (@list_limit_bounds Sample.toy Sample.caller Sample.db
              Cases.negative_limit
              {| Leads.Query.search := undefined;
                 Leads.Query.stage := undefined;
                 Leads.Query.limit := undefined |}
              Requests.no_filter)
    as (_ & _ & _ & _ & _ & _ & _ & _ & _ & Hbad & _).
  apply Hbad. right. exists (-1). split; [reflexivity | lia].
Defined.

(** John is deleted and cannot be read any more; an id that is not a UUID
    is answered 500. *)
Lemma delete_at_sample :
  fst (ContactsApi.delete Requests.noon Sample.caller Requests.john_id
         Sample.db) = json 200 "Contact deleted successfully"
  /\ fst (ContactsApi.get_one Sample.caller Requests.john_id
            (snd (ContactsApi.delete Requests.noon Sample.caller
                    Requests.john_id Sample.db)))
     = error 404 "Contact not found"
  /\ ContactsApi.delete Requests.noon Sample.caller "abc" Sample.db
     = (error 500 "Failed to delete contact", Sample.db).
Proof.
  split; [|split].
  - destruct (deleted_rows_are_gone Requests.noon Sample.caller
                Requests.john_id Sample.db) as (Hread & _).
    destruct (Hread Requests.john_id eq_refl) as (Hfound & _).
    apply Hfound. exists Sample.john. split; [simpl; auto | reflexivity].
  - destruct (deleted_rows_are_gone Requests.noon Sample.caller
                Requests.john_id Sample.db) as (Hread & _).
    destruct (Hread Requests.john_id eq_refl) as (_ & _ & _ & Hgone & _).
    now rewrite Hgone.
  - destruct (deleted_rows_are_gone Requests.noon Sample.caller "abc"
                Sample.db) as (_ & Hno).
    now destruct (Hno eq_refl) as (Hdel & _).
Defined.

(** A new user registers and logs in. *)
Lemma register_then_login_at_sample :
  exists created s',
    AuthApi.register (H := Sample.toy) undefined Requests.noon
      "9f000000-0000-4000-8000-00000000000e"
      "9f000000-0000-4000-8000-00000000000f" "salt" Requests.register_new
      Sample.db = (json 201 created, s')
    /\ AuthRoutes.login (H := Sample.toy) undefined Requests.noon
         Cases.new_login s'
       = (json 200
            {| AuthRoutes.token :=
                 "fallback-secret-key:9f000000-0000-4000-8000-00000000000f";
               AuthRoutes.id := "9f000000-0000-4000-8000-00000000000f";
               AuthRoutes.email := "new@example.com";
               AuthRoutes.name := "New User";
               AuthRoutes.company_id :=
                 Some "9f000000-0000-4000-8000-00000000000e" |}, s').
Proof.
  destruct (@registered_user_can_log_in Sample.toy undefined Requests.noon
              Requests.noon "9f000000-0000-4000-8000-00000000000e"
              "9f000000-0000-4000-8000-00000000000f" "salt"
              Requests.register_new Sample.db "New User" "new@example.com"
              "secret" eq_refl eq_refl eq_refl eq_refl eq_refl)
    as (created & s' & Hreg & Hlogin & _).
  - intros u [<-|[<-|[]]]; discriminate.
  - reflexivity.
  - reflexivity.
  - exists created, s'. split; [exact Hreg|]. apply Hlogin. reflexivity.
Defined.
